(* ===== verification/_CoqProject ===== *)
-Q . S2P
Prelude.v
Memory.v
State.v
Lib.v
LibMem.v
LibNum.v
LibSpec.v
ULibc.v
Sio.v
Cio.v
Frames.v
CioSpec.v
CioFormat.v
CioTypes.v
CioClaims.v
Kmem.v
KmemInv.v
KmemSpec.v
KmemInit.v
KmemClaims.v
Queues.v
QueuesInv.v
QueuesSpec.v
QueuesPages.v
QueuesClaims.v
Stacks.v
StacksSpec.v
StacksClaims.v
Procs.v
ProcsSpec.v
ProcsClaims.v
Drivers.v
SerialSpec.v
SerialClaims.v
Clock.v
ClockSpec.v
ClockClaims.v
Syscalls.v
SyscallsSpec.v
SyscallsClaims.v
CreateSpec.v
ForkSpec.v
CreateClaims.v
Kernel.v
SysLogic.v
SysInv.v
SysCalls.v
SysExit.v
SysExec.v
SysStep.v
SysClaims.v
BootFrames.v
BootDevices.v
BootStart.v
BootSpec.v
BootMain.v
BootClaims.v
BootRun.v
Host.v
HostSpec.v
BuildImage.v
BuildSpec.v
BuildClaims.v
MkBlob.v
ListBlob.v
BlobSpec.v
BlobClaims.v
UserLib.v
UserArgs.v
UserProgs.v
UserInit.v
UserFormat.v
UserLogic.v
UserSpec.v
UserClaims.v
UserInitClaims.v
Answers.v
UserShell.v
UserShellClaims.v
