(* ===== verification/Prelude.v ===== *)
(** * A verification library of the baseline operating system kernel

    The program is a small monolithic kernel for one 32-bit x86 CPU without
    paging: a page allocator, generic queues, a process table with a
    multi-level scheduler, ten system calls, a clock, a console and a serial
    driver, on top of a freestanding C library.  This library is a shallow
    embedding of that code in the state monad [M] defined below, and the
    theorems about it.

    ** The model

    [kstate] (State.v) is the whole machine: the flat memory, and one record
    for the global variables of each C module.  Objects that the kernel reaches
    through pointers and that live in allocated pages (free blocks, queue
    nodes, stacks, saved contexts, user buffers) are bytes of the flat memory
    at their 32-bit addresses.  The static arrays ([ptable], [queues], the
    character buffers) are typed lists; a pointer to one of their elements is
    the element's address, given by the [Layout] class, and dereferencing an
    address that is not an element's is undefined.  Pointers into character
    buffers are indices.  Port input is an oracle ([dev_in]), port output is
    recorded ([dev_out]); the video memory is a map of its own ([vram]).

    A run of kernel code ends in an [outcome]: [Ret], [Panic] (the call of
    [kpanic] or [panic], which never return), [Undef] (an access outside an
    object) or [Hang] (a loop that runs past the bound of the model).  Loops
    are [loop body]: up to [FUEL] = 2^40 iterations, more than any loop of the
    code makes when its data structures are well formed; the theorems about an
    operation state that it returns, so the bound is never what makes them hold.

    The code is modelled as the Makefile configures it: VIDEO_BW,
    CIO_DUP2_SIO, TRACE_CX, CX_SANITY_CHK, SYSTEM_STATUS=5, the fault handlers
    and T_INIT tracing, DBLV at its default (so [assert1] is active), no
    STATIC_STACKS.  [char] is signed.

    ** The files

    - Prelude.v (this file): machine integers, the monad, loops, arrays.
    - Memory.v: bytes and words of the flat memory, and what stores preserve.
    - State.v: the records, their setters, constants, PCB and context accessors.
    - Lib.v: src/lib.  LibMem.v, LibNum.v: what its functions compute.
      LibSpec.v: their contracts.
    - Sio.v, Cio.v: src/kernel/sio.c (all but the interrupt handler) and cio.c.
      CioSpec.v: a predicate for output that is confined to the window.
      CioFormat.v: the text that a format stands for; formatted output is that
      text.  CioTypes.v: the types of the console, with or without a copy of the
      output on the serial line, and a total-correctness logic ([ends]).
      CioClaims.v: the contract of the console and of the keyboard.
    - Kmem.v: src/kernel/kmem.c.  KmemInv.v: the invariant of the free list.
      KmemSpec.v: allocation and release refine operations on an abstract list
      of blocks.  KmemInit.v: the free list that the memory map of the BIOS
      gives.  KmemClaims.v: the contract of the page allocator.
    - Frames.v: predicates for what a piece of code leaves alone, and the frame
      of console and serial output.
    - Queues.v: src/kernel/queues.c.  QueuesInv.v: the representation of the
      queues and of their free nodes.  QueuesSpec.v, QueuesPages.v: every
      operation refines one on abstract queues, which are lists of data.
      QueuesClaims.v: the contract of the queue module.
    - Stacks.v: src/kernel/stacks.c and list.c.  StacksSpec.v, StacksClaims.v:
      the initial contents of a stack.
    - Procs.v: src/kernel/procs.c; it provides the [Comparators] instance
      through which the queues call back into the process module.  ProcsSpec.v:
      the invariant of the process table and its seven queues, and the
      scheduler's operations on it.  ProcsClaims.v: the contract of the
      scheduler and of the process table.
    - Drivers.v: the serial interrupt handler and initialisation (sio.c).
      SerialSpec.v: the circular output buffer and the input buffer as queues of
      characters, each operation of the driver on them.  SerialClaims.v: the
      contract of the serial device.
    - Clock.v: src/kernel/clock.c.  ClockSpec.v, ClockClaims.v: waking sleepers,
      ending time slices, the whole clock interrupt.
    - Syscalls.v: src/kernel/syscalls.c.  SyscallsSpec.v, SyscallsClaims.v: what
      system calls do to the process system.  CreateSpec.v, ForkSpec.v,
      CreateClaims.v: exec and fork, the stacks they use and the walk along the
      frames of a copied stack.
    - Kernel.v: src/kernel/support.c, kernel.c, isrs.S and src/lib/kextras.c.
    - SysLogic.v: a logic for code that may also stop, for a reason on a list
      ([wp]).  SysInv.v: the invariant of the whole kernel ([sys_run]).
      SysCalls.v, SysExit.v, SysExec.v: each system call keeps it.  SysStep.v:
      interrupts and user code as a step relation ([kstep]); every step keeps
      it.  SysClaims.v: what that says of every run.
    - BootFrames.v: initialisation that leaves the drivers alone.
      BootDevices.v: the initialisation of the drivers.  BootStart.v: the
      interrupt tables.  BootSpec.v: the queues, and the first process.
      BootMain.v: [main] from the bootstrap on.  BootClaims.v: the system
      starts, in a state with the invariant of the kernel.  BootRun.v: a run from
      there, in which the first process forks and execs.
    - Host.v: a process of the development host: files, streams, messages, the
      numbers of the C library.  HostSpec.v: its operations on streams.
      BuildImage.v: src/util/BuildImage.c.  BuildSpec.v, BuildClaims.v: the image
      it builds, the kernel that starts from it, and the runs that fail.
    - MkBlob.v, ListBlob.v: src/misc/util/mkblob.c and listblob.c, the tools for a
      blob of ELF files.  BlobSpec.v, BlobClaims.v: the blob that the one writes,
      and what the other prints of it.
    - ULibc.v: src/misc/lib/unames: the library under other names, and an older
      version of [str2int].
    - UserLib.v: the user level: system calls as events of interaction trees
      (lib/usys.S), lib/uextras.c, the macros of include/udefs.h.
    - UserArgs.v: [parseArgs] and [str2int] on memory compute the functions on
      strings that the programs use.
    - UserProgs.v, UserInit.v: src/user: idle, the test programs, init.
    - UserFormat.v: bounds on formatted text.  UserLogic.v: protocols, and a
      program logic for processes that keep to one ([conforms]), go on making calls
      ([endures]) or come to an end ([achieves]).  UserSpec.v: the kernel as the programs see it, and the
      automation.  UserClaims.v, UserInitClaims.v: what the programs promise.
    - Answers.v: the handlers of Syscalls.v give the answers of UserSpec.v.
    - UserShell.v: src/misc/use_shell: the other init, and the shell.
      UserShellClaims.v: the shell is defined on lines that fit, and ignores every
      line that ends with its terminator.

    ** What the theorems show

    - Memory (LibSpec, KmemClaims): the copy and string functions and the
      conversions compute what they say, and write nothing else; the page
      allocator refines first fit and coalescing release on the list of free
      blocks (which start where the regions of the memory map do, aligned or not), hands out pages that are in no other use, and gets them back.
    - Queues (QueuesClaims): on every state whose nodes represent a family of
      lists, insertion is stable insertion by key (or at the end), removal takes
      the head or the first occurrence, and nodes are neither lost nor shared;
      the client is the class [ComparatorLaw].
    - Processes (ProcsClaims, ClockClaims): [proc_inv] says that every process in
      a queue is in the process table with the state and priority of that queue,
      in no other queue, and that sleepers are in order of their time. The
      scheduler and the clock interrupt keep it; a tick advances the time, makes the
      due sleepers ready in order and ends the slice; the highest ready queue is
      served, round robin.
    - System calls (SyscallsClaims): sleeping, yielding and exiting keep the
      invariant; wait stores pid and status, but leaves the child in the zombie
      queue.
    - Creation (StacksClaims, CreateClaims): the stack of a new program; exec loads
      it (and frees a stack it keeps on record); fork creates a process whose stack
      is a copy of the caller's, with the frames relocated, and whose context equals
      the caller's up to its result, with the process invariant kept, when its walk
      along the frames ends; that walk leaves the child's stack.  The new stacks
      come from the list of free ones or from the page allocator.
    - User programs (UserArgs, UserClaims, UserInitClaims): no undefined
      behaviour with the command lines of the system; idle never blocks; a
      printing program ends after the right output; init starts its table in
      order, then waits and restarts idle for ever, and never falls silent.
    - Both levels (Answers): in every state of a run of the kernel each of the ten
      calls, when it meets its conditions, does or answers what the theorems about
      the programs assume, or stops the kernel for a known reason; exec, getpid and
      gettime return, and so does fork for a valid priority.
    - Console (CioClaims): the console is type-safe: any sequence of output
      operations, window changes and keys ends, with the cursor in the window, no
      index outside its array, and only the screen, the keyboard buffer and the
      serial line changed; the serial buffer must have room for what is sent (the
      cost of each character), as the driver does not check it.  Formatted output
      prints the text that [sprint] builds.  The keyboard is a queue of
      characters, each echoed when it is read.
    - Serial line (SerialClaims): the driver and the device are two queues: writes,
      the interrupt handler with any sequence of reported events, and reads do what
      an abstract machine on the queues says, and the driver stores behind its
      input buffer exactly when that machine has no next state; no process may be
      waiting for input meanwhile.  A line feed at the
      start of a text is sent behind it.
    - The whole kernel (SysClaims): [sys_run H s] says that the process invariant
      holds, that the running process is in no queue, that every other process in
      use is in a queue or waits, and that parents are alive ([H] is where the queue
      nodes are).  It holds along every run of user code and interrupts that meet their
      conditions (below), so no process is lost.  An interrupt in such a run returns,
      or stops the kernel for a reason of [known_stops], or leaves an object in a way
      of [known_undefs], or stays in a loop of a driver that waits for its device;
      runs end there.
    - The start (BootClaims, KmemClaims): on a machine with a proper memory map,
      [main] returns; then init is the running process, on a stack from which it
      starts with its arguments, and [sys_run] holds.  BootRun continues
      from there through a fork and an exec, whose stacks are fresh pages: the
      conditions of the preceding group are met after the start.

    - The disk image (BuildClaims): BuildImage builds the padded bootstrap with the
      table of programs at its end, then the programs, and removes the image when
      it fails; with that bootstrap and the user programs in memory, [main] of
      the kernel comes to its end with the first process at the entry point that the
      programs give.  Addresses of the form segment:offset are never
      accepted.
    - The blob (BlobClaims): mkblob packs exactly the ELF files among its arguments,
      each where the table says, and listblob prints that table.

    Fuel: a theorem about code with a loop states that the code returns; the
    number of iterations it needs is bounded by the number of objects of some kind
    in a 32-bit memory, or by the length of a string in it, less than 2^40.

    What the theorems about runs assume.  [kstep]: user code does not write the
    nodes of the queues, and the static tables of the kernel are typed variables
    that no store reaches (the machine itself protects neither); a system call
    meets [call_ok]: the pointers it gives do not lead into the nodes, the stacks
    that fork and exec use (recycled or from the page allocator; there may be none)
    are apart from them, the frame chain that fork walks ends and spares the contexts
    and the nodes, and a caller of wait has no zombie child, as waiting for one
    breaks the zombie queue ([sys_wait_leaves_zombie]).  The priority of a child is
    not restricted: an invalid one is a known stop.  [machine_ok]: what the
    bootstrap leaves: the arrays of the data segment at their sizes, a memory map
    whose usable regions are disjoint and offer a page and two stacks, the user
    table and the arguments of init outside the descriptor table, a serial line on
    which the input ends.
    ** What is not modelled

    The bootstrap, the startup assembly and the linker scripts are outside the
    model: they appear as the initial memory.  User programs are modelled as
    trees of system calls: their local buffers are values (whose sizes are
    checked), not bytes of the kernel's memory, and the kernel answers them as
    [kernel_answers] (UserSpec.v) says.  Answers.v proves this of the handlers, but
    for the answer that an exiting child stores later for a parent that waits.  The tools work on
    files of the host, of which Host.v keeps the contents of the regular files.
    Of src/misc, what other versions of the system need is left out: the wrappers of system
    calls that this one does not have (unames/uextras.c), a file that only
    includes others (ulibc.c), and descriptions of ELF files and of paging; so
    are the headers that nothing includes, src/util/Offsets.c, which prints what
    the compiler has decided, and a Perl script.  [delay] of the kernel is a busy
    loop without effect and is left out.  Where an assertion fails the model stops at the
    call of [kpanic]; the report [kpanic] then prints is [kpanic_report].  The
    comparison of a pointer to an array with a constant, and the order in which
    the compiler evaluates the arguments of a call, are those of GCC on i386. *)

From Stdlib Require Export ZArith Lia Bool String Ascii.
From stdpp Require Export base list gmap strings.

#[global] Open Scope Z_scope.

(** * Machine integers

    A C [uintN_t] value is a [Z] in [0, 2^N); an [intN_t] value is a [Z] in
    [-2^(N-1), 2^(N-1)).  The functions below are the conversions the compiler
    inserts (GCC reduces modulo 2^N, also for the signed types). *)

Definition u8  (x : Z) : Z := x mod 2 ^ 8.
Definition u16 (x : Z) : Z := x mod 2 ^ 16.
Definition u32 (x : Z) : Z := x mod 2 ^ 32.
Definition u64 (x : Z) : Z := x mod 2 ^ 64.

Definition s8 (x : Z) : Z :=
  let y := u8 x in if y <? 2 ^ 7 then y else y - 2 ^ 8.
Definition s32 (x : Z) : Z :=
  let y := u32 x in if y <? 2 ^ 31 then y else y - 2 ^ 32.

Lemma u8_range x : 0 <= u8 x < 256.
Proof. unfold u8. apply Z.mod_pos_bound. lia. Qed.

Lemma u16_range x : 0 <= u16 x < 2 ^ 16.
Proof. unfold u16. apply Z.mod_pos_bound. lia. Qed.

Lemma u32_range x : 0 <= u32 x < 2 ^ 32.
Proof. unfold u32. apply Z.mod_pos_bound. lia. Qed.

Lemma s32_range x : - 2 ^ 31 <= s32 x < 2 ^ 31.
Proof.
  unfold s32. pose proof (u32_range x). cbv zeta.
  destruct (Z.ltb_spec (u32 x) (2 ^ 31)); lia.
Qed.

Lemma u8_small x : 0 <= x < 256 -> u8 x = x.
Proof. intros. apply Z.mod_small. lia. Qed.

Lemma u32_small x : 0 <= x < 2 ^ 32 -> u32 x = x.
Proof. apply Z.mod_small. Qed.

Lemma u64_small x : 0 <= x < 2 ^ 64 -> u64 x = x.
Proof. apply Z.mod_small. Qed.

Lemma s32_small x : - 2 ^ 31 <= x < 2 ^ 31 -> s32 x = x.
Proof.
  intros H. unfold s32, u32. cbv zeta.
  destruct (Z.leb_spec 0 x).
  - rewrite Z.mod_small by lia. destruct (Z.ltb_spec x (2 ^ 31)); lia.
  - assert (x mod 2 ^ 32 = x + 2 ^ 32) as ->.
    { symmetry. apply Z.mod_unique with (-1); lia. }
    destruct (Z.ltb_spec (x + 2 ^ 32) (2 ^ 31)); lia.
Qed.

Lemma u32_u32 x : u32 (u32 x) = u32 x.
Proof. apply u32_small, u32_range. Qed.

Lemma u8_u8 x : u8 (u8 x) = u8 x.
Proof. apply u8_small, u8_range. Qed.

Lemma u32_add_l x y : u32 (u32 x + y) = u32 (x + y).
Proof. unfold u32. apply Zplus_mod_idemp_l. Qed.

Lemma u32_add_r x y : u32 (x + u32 y) = u32 (x + y).
Proof. unfold u32. apply Zplus_mod_idemp_r. Qed.

Lemma u32_mul_l x y : u32 (u32 x * y) = u32 (x * y).
Proof. unfold u32. apply Zmult_mod_idemp_l. Qed.

Lemma u32_s32 x : u32 (s32 x) = u32 x.
Proof.
  unfold s32. cbv zeta. destruct (u32 x <? 2 ^ 31).
  - apply u32_u32.
  - unfold u32. replace (x mod 2 ^ 32 - 2 ^ 32)
      with (x mod 2 ^ 32 + (-1) * 2 ^ 32) by lia.
    rewrite Z.mod_add by lia. apply Z.mod_mod. lia.
Qed.

Lemma s32_u32 x : s32 (u32 x) = s32 x.
Proof. unfold s32. now rewrite u32_u32. Qed.

(** The bits of a word above a position. *)
Lemma high_bits v k :
  0 <= v < 2 ^ 32 -> 0 <= k <= 32 ->
  Z.land v (Z.ldiff (Z.ones 32) (Z.ones k)) = v / 2 ^ k * 2 ^ k.
Proof.
  intros Hv Hk.
  rewrite Z.ldiff_land, Z.land_assoc, Z.land_ones, Z.mod_small by lia.
  rewrite <- Z.ldiff_land, Z.ldiff_ones_r, Z.shiftl_mul_pow2, Z.shiftr_div_pow2 by lia.
  reflexivity.
Qed.

(** C truth values: a condition of type [int]. *)
Definition truth (z : Z) : bool := negb (z =? 0).

(** * Outcomes and the kernel monad

    Running kernel code from a state ends in one of four ways: it returns; it
    stops in [kpanic]/[panic], which never return; it executes an operation
    whose behaviour C leaves undefined (an access outside an object, a NULL
    dereference); or a loop runs beyond the iteration bound of the model. *)

Inductive outcome (S A : Type) : Type :=
| Ret (a : A) (s : S)
| Panic (msg : string) (s : S)
| Undef (why : string) (s : S)
| Hang (s : S).

Arguments Ret {S A} a s.
Arguments Panic {S A} msg s.
Arguments Undef {S A} why s.
Arguments Hang {S A} s.

Definition M (S A : Type) : Type := S -> outcome S A.

Declare Scope kernel_scope.
Delimit Scope kernel_scope with kernel.

Section Monad.
Context {S : Type}.

Definition ret {A} (a : A) : M S A := fun s => Ret a s.

Definition bind {A B} (m : M S A) (k : A -> M S B) : M S B :=
  fun s =>
    match m s with
    | Ret a s' => k a s'
    | Panic msg s' => Panic msg s'
    | Undef why s' => Undef why s'
    | Hang s' => Hang s'
    end.

Definition panics {A} (msg : string) : M S A := fun s => Panic msg s.
Definition undef {A} (why : string) : M S A := fun s => Undef why s.
Definition gets {A} (f : S -> A) : M S A := fun s => Ret (f s) s.
Definition modify (f : S -> S) : M S unit := fun s => Ret tt (f s).
Definition when (b : bool) (m : M S unit) : M S unit :=
  if b then m else ret tt.

(** [assert] and [assert1] of debug.h: [kpanic] when the condition fails
    (both are active at the default debug level, DBLV = 9999). *)
Definition assert (msg : string) (b : bool) : M S unit :=
  if b then ret tt else panics msg.

Lemma bind_Ret {A B} (m : M S A) (k : A -> M S B) s a s' :
  m s = Ret a s' -> bind m k s = k a s'.
Proof. unfold bind. now intros ->. Qed.

Lemma bind_Panic {A B} (m : M S A) (k : A -> M S B) s msg s' :
  m s = Panic msg s' -> bind m k s = Panic msg s'.
Proof. unfold bind. now intros ->. Qed.

Lemma bind_Undef {A B} (m : M S A) (k : A -> M S B) s why s' :
  m s = Undef why s' -> bind m k s = Undef why s'.
Proof. unfold bind. now intros ->. Qed.

Lemma bind_ret_l {A B} (a : A) (k : A -> M S B) s : bind (ret a) k s = k a s.
Proof. reflexivity. Qed.

Lemma bind_assoc {A B C} (m : M S A) (k : A -> M S B) (h : B -> M S C) s :
  bind (bind m k) h s = bind m (fun a => bind (k a) h) s.
Proof. unfold bind. now destruct (m s). Qed.

Lemma bind_inv_Ret {A B} (m : M S A) (k : A -> M S B) s b s' :
  bind m k s = Ret b s' -> exists a s1, m s = Ret a s1 /\ k a s1 = Ret b s'.
Proof. unfold bind. destruct (m s); intros; simplify_eq; eauto. Qed.

(** ** Loops

    [loop body a] iterates [body] from the loop variables [a] until it
    answers [inr]: the body answers [inl a'] to go round again with [a'].
    The bound is a binary number, so that a loop which stops early is cheap
    to evaluate however large the bound is. *)

Fixpoint loopP {A B} (p : positive) (body : A -> M S (A + B)) (a : A)
  : M S (A + B) :=
  match p with
  | xH => body a
  | xO q => bind (loopP q body a)
              (fun r => match r with
                        | inl a' => loopP q body a'
                        | inr b => ret (inr b) end)
  | xI q => bind (body a)
              (fun r => match r with
                | inl a1 => bind (loopP q body a1)
                              (fun r' => match r' with
                                | inl a2 => loopP q body a2
                                | inr b => ret (inr b) end)
                | inr b => ret (inr b) end)
  end.

Definition FUEL : positive := 1099511627776.   (* 2^40 *)

Lemma FUEL_val : Z.pos FUEL = 2 ^ 40.
Proof. reflexivity. Qed.

Definition loop {A B} (body : A -> M S (A + B)) (a : A) : M S B :=
  bind (loopP FUEL body a)
    (fun r => match r with
              | inl _ => fun s => Hang s
              | inr b => ret b end).

(** The same iteration, counted in unary: the form used in proofs. *)
Fixpoint loopN {A B} (n : nat) (body : A -> M S (A + B)) (a : A)
  : M S (A + B) :=
  match n with
  | O => ret (inl a)
  | Datatypes.S n' =>
      bind (body a)
        (fun r => match r with
                  | inl a' => loopN n' body a'
                  | inr b => ret (inr b) end)
  end.

Lemma loopN_add {A B} (body : A -> M S (A + B)) n k a s :
  loopN (n + k) body a s =
  bind (loopN n body a)
    (fun r => match r with inl a' => loopN k body a' | inr b => ret (inr b) end) s.
Proof.
  revert a s; induction n as [|n IH]; intros a s; [reflexivity|].
  cbn [loopN Nat.add]. rewrite bind_assoc. unfold bind at 1 2.
  destruct (body a s) as [[a'|b] s'| | |]; try reflexivity. apply IH.
Qed.

Lemma loopP_loopN {A B} (p : positive) (body : A -> M S (A + B)) a s :
  loopP p body a s = loopN (Pos.to_nat p) body a s.
Proof.
  revert a s; induction p as [p IH|p IH|]; intros a s.
  - rewrite Pos2Nat.inj_xI. cbn [loopP loopN].
    unfold bind at 1 3. destruct (body a s) as [[a'|b] s'| | |]; try reflexivity.
    replace (2 * Pos.to_nat p)%nat with (Pos.to_nat p + Pos.to_nat p)%nat by lia.
    rewrite loopN_add. unfold bind. rewrite IH.
    destruct (loopN (Pos.to_nat p) body a' s') as [[a2|b] s2| | |]; auto.
  - rewrite Pos2Nat.inj_xO. cbn [loopP].
    replace (2 * Pos.to_nat p)%nat with (Pos.to_nat p + Pos.to_nat p)%nat by lia.
    rewrite loopN_add. unfold bind. rewrite IH.
    destruct (loopN (Pos.to_nat p) body a s) as [[a2|b] s2| | |]; auto.
  - cbn [loopP]. change (Pos.to_nat 1) with 1%nat. cbn [loopN].
    unfold bind. destruct (body a s) as [[a'|b] s'| | |]; reflexivity.
Qed.

(** A loop that finishes within [n] unary steps finishes in the model. *)
Lemma loop_intro {A B} (body : A -> M S (A + B)) n a s b s' :
  Z.of_nat n <= 2 ^ 40 ->
  loopN n body a s = Ret (inr b) s' ->
  loop body a s = Ret b s'.
Proof.
  rewrite <- FUEL_val. intros Hn H. unfold loop, bind. rewrite loopP_loopN.
  replace (Pos.to_nat FUEL) with (n + (Pos.to_nat FUEL - n))%nat by lia.
  rewrite loopN_add. unfold bind. now rewrite H.
Qed.

Lemma loop_intro_Undef {A B} (body : A -> M S (A + B)) n a s why s' :
  Z.of_nat n <= 2 ^ 40 ->
  loopN n body a s = Undef why s' ->
  loop body a s = Undef why s'.
Proof.
  rewrite <- FUEL_val. intros Hn H. unfold loop, bind. rewrite loopP_loopN.
  replace (Pos.to_nat FUEL) with (n + (Pos.to_nat FUEL - n))%nat by lia.
  rewrite loopN_add. unfold bind. now rewrite H.
Qed.

(** A loop whose every iteration goes round again never returns: the model
    reports [Hang] whatever the bound is. *)
Lemma loop_diverges {A B} (body : A -> M S (A + B)) (I : A -> S -> Prop) a s :
  (forall a s, I a s -> exists a' s', body a s = Ret (inl a') s' /\ I a' s') ->
  I a s -> exists s', loop body a s = Hang s'.
Proof.
  intros Hstep HI. unfold loop, bind. rewrite loopP_loopN.
  assert (forall n a s, I a s ->
            exists a' s', loopN n body a s = Ret (inl a') s') as Hn.
  { induction n as [|n IH]; intros a0 s0 H0; [eexists _, _; reflexivity|].
    destruct (Hstep _ _ H0) as (a1 & s1 & E & H1).
    cbn [loopN]. rewrite (bind_Ret _ _ _ _ _ E). apply IH, H1. }
  destruct (Hn (Pos.to_nat FUEL) a s HI) as (a' & s' & ->). eauto.
Qed.

Lemma loopN_step {A B} (body : A -> M S (A + B)) n a s a' s' :
  body a s = Ret (inl a') s' ->
  loopN (Datatypes.S n) body a s = loopN n body a' s'.
Proof. intros H. cbn [loopN]. now rewrite (bind_Ret _ _ _ _ _ H). Qed.

Lemma loopN_done {A B} (body : A -> M S (A + B)) n a s b s' :
  body a s = Ret (inr b) s' ->
  loopN (Datatypes.S n) body a s = Ret (inr b) s'.
Proof. intros H. cbn [loopN]. now rewrite (bind_Ret _ _ _ _ _ H). Qed.

(** A scan: a loop that counts up, changing nothing, until it stops at [j]. *)
Lemma loop_scan {B} (body : Z -> M S (Z + B)) i j b s :
  i <= j -> j - i < 2 ^ 40 ->
  (forall k, i <= k < j -> body k s = Ret (inl (k + 1)) s) ->
  body j s = Ret (inr b) s -> loop body i s = Ret b s.
Proof.
  intros Hij Hb Hstep Hstop. apply (loop_intro _ (Z.to_nat (j - i) + 1)); [lia|].
  remember (Z.to_nat (j - i)) as n eqn:En. revert i En Hij Hb Hstep.
  induction n as [|n IH]; intros i En Hij Hb Hstep.
  - replace i with j by lia. apply loopN_done, Hstop.
  - cbn [Nat.add]. rewrite (loopN_step _ _ _ _ _ _ (Hstep i ltac:(lia))).
    apply IH; [lia|lia|lia|]. intros k Hk. apply Hstep. lia.
Qed.

(** [for_ n body] is [for( int i = 0; i < n; ++i ) body] with a literal
    bound and no [break]. *)
Fixpoint for_from (i : Z) (n : nat) (body : Z -> M S unit) : M S unit :=
  match n with
  | O => ret tt
  | Datatypes.S n' => bind (body i) (fun _ => for_from (i + 1) n' body)
  end.

Definition for_ (n : nat) (body : Z -> M S unit) : M S unit := for_from 0 n body.
End Monad.

Arguments M : clear implicits.

Lemma bind_ext {S A B} (m m' : M S A) (k : A -> M S B) s : m s = m' s -> bind m k s = bind m' k s.
Proof. unfold bind. now intros ->. Qed.

Notation "x <- m ;; k" := (bind m (fun x => k))
  (at level 100, m at next level, k at level 200, right associativity)
  : kernel_scope.
Notation "m ;; k" := (bind m (fun _ => k))
  (at level 100, k at level 200, right associativity) : kernel_scope.
#[global] Opaque FUEL.

(** [mstep] runs the first action of a sequence, given (or found) its equation. *)
Tactic Notation "mstep" constr(H) := rewrite (bind_Ret _ _ _ _ _ H).
Tactic Notation "mstep" := erewrite bind_Ret; [| first [eassumption | reflexivity]].
Ltac msimpl := cbn [bind ret gets modify when assert panics undef].

(** * Characters and strings

    Characters are bytes; a C string literal is the list of its bytes before
    the terminating NUL. *)

Fixpoint chars (s : string) : list Z :=
  match s with
  | EmptyString => []
  | String a s' => Z.of_N (N_of_ascii a) :: chars s'
  end.

Lemma chars_app s t : chars (s ++ t) = (chars s ++ chars t)%list.
Proof.
  induction s as [|a s IH]; [done|].
  change (chars (String a s +:+ t)) with (Z.of_N (N_of_ascii a) :: chars (s +:+ t)).
  now rewrite IH.
Qed.

(** * Arrays

    A static C array is a list; reading or writing outside it is undefined. *)

Definition aget {S A} (why : string) (l : list A) (i : Z) : M S A :=
  if (0 <=? i) then
    match l !! Z.to_nat i with
    | Some x => ret x
    | None => undef why
    end
  else undef why.

Definition aset {A} (l : list A) (i : Z) (x : A) : list A := <[Z.to_nat i := x]> l.

Definition in_bounds {A} (l : list A) (i : Z) : bool :=
  (0 <=? i) && (i <? Z.of_nat (length l)).

Lemma in_bounds_spec {A} (l : list A) i :
  in_bounds l i = true <-> 0 <= i < Z.of_nat (length l).
Proof. unfold in_bounds. rewrite andb_true_iff, Z.leb_le, Z.ltb_lt. lia. Qed.

Lemma aget_ok {S A} why (l : list A) i x (s : S) :
  0 <= i -> l !! Z.to_nat i = Some x -> aget why l i s = Ret x s.
Proof.
  intros Hi Hx. unfold aget. destruct (Z.leb_spec 0 i); [|lia]. now rewrite Hx.
Qed.

Lemma length_aset {A} (l : list A) i x : length (aset l i x) = length l.
Proof. apply length_insert. Qed.

Lemma filter_all {A} (P : A -> Prop) `{forall x, Decision (P x)} (l : list A) :
  Forall P l -> filter P l = l.
Proof. induction 1; [done|]. rewrite filter_cons_True by done. now f_equal. Qed.

Lemma filter_none {A} (P : A -> Prop) `{forall x, Decision (P x)} (l : list A) :
  Forall (fun x => ~ P x) l -> filter P l = [].
Proof. induction 1; [done|]. now rewrite filter_cons_False. Qed.

(** Case analysis on the boolean comparisons of the code. *)
Ltac zcase e1 e2 :=
  match goal with
  | |- context [Z.eqb e1 e2] => destruct (Z.eqb_spec e1 e2)
  | |- context [Z.ltb e1 e2] => destruct (Z.ltb_spec e1 e2)
  | |- context [Z.leb e1 e2] => destruct (Z.leb_spec e1 e2)
  end.

Ltac zbool :=
  repeat match goal with
  | H : (_ =? _) = true |- _ => apply Z.eqb_eq in H
  | H : (_ =? _) = false |- _ => apply Z.eqb_neq in H
  | H : (_ <? _) = true |- _ => apply Z.ltb_lt in H
  | H : (_ <? _) = false |- _ => apply Z.ltb_ge in H
  | H : (_ <=? _) = true |- _ => apply Z.leb_le in H
  | H : (_ <=? _) = false |- _ => apply Z.leb_gt in H
  | H : negb _ = true |- _ => apply negb_true_iff in H
  | H : negb _ = false |- _ => apply negb_false_iff in H
  | H : (_ && _) = true |- _ => apply andb_true_iff in H as [? ?]
  | H : (_ || _) = false |- _ => apply orb_false_iff in H as [? ?]
  end.

Create HintDb kernel.
#[export] Hint Resolve u8_range u16_range u32_range s32_range : kernel.
#[export] Hint Rewrite u32_u32 u8_u8 u32_add_l u32_add_r u32_mul_l u32_s32 s32_u32
  @length_aset : kernel.
