(* ===== verification/Memory.v ===== *)
(** The machine's flat memory: bytes at 32-bit addresses, the little-endian
    loads and stores the kernel performs through pointers, and the lemmas on
    what a store leaves unchanged.  The kernel runs without paging, so every
    address is readable; a byte never written reads as an arbitrary initial
    value (the initial map is a parameter of every theorem). *)

From S2P Require Import Prelude.

Notation memory := (gmap Z Z).

Definition ld8 (m : memory) (a : Z) : Z := u8 (default 0 (m !! a)).
Definition st8 (m : memory) (a v : Z) : memory := <[a := u8 v]> m.

Definition ld16 (m : memory) (a : Z) : Z := ld8 m a + 2 ^ 8 * ld8 m (a + 1).

Definition ld32 (m : memory) (a : Z) : Z :=
  ld8 m a + 2 ^ 8 * ld8 m (a + 1) + 2 ^ 16 * ld8 m (a + 2) + 2 ^ 24 * ld8 m (a + 3).

Definition st32 (m : memory) (a v : Z) : memory :=
  st8 (st8 (st8 (st8 m a v) (a + 1) (v / 2 ^ 8)) (a + 2) (v / 2 ^ 16))
      (a + 3) (v / 2 ^ 24).

Definition ld64 (m : memory) (a : Z) : Z := ld32 m a + 2 ^ 32 * ld32 m (a + 4).

(** [n] consecutive bytes, and the bytes of a list stored from [a] on. *)
Fixpoint bytes_at (m : memory) (a : Z) (n : nat) : list Z :=
  match n with O => [] | S n' => ld8 m a :: bytes_at m (a + 1) n' end.

Fixpoint st_bytes (m : memory) (a : Z) (bs : list Z) : memory :=
  match bs with [] => m | b :: bs' => st_bytes (st8 m a b) (a + 1) bs' end.

(** A NUL-terminated string [s] is stored at [a]. *)
Fixpoint cstring (m : memory) (a : Z) (s : list Z) : Prop :=
  match s with
  | [] => ld8 m a = 0
  | c :: s' => ld8 m a = c /\ c <> 0 /\ cstring m (a + 1) s'
  end.

(** Two memories agree on a set of addresses. *)
Definition agree (P : Z -> Prop) (m m' : memory) : Prop :=
  forall a, P a -> ld8 m' a = ld8 m a.

Definition outside (a n : Z) : Z -> Prop := fun x => x < a \/ a + n <= x.

#[export] Instance agree_preorder P : PreOrder (agree P).
Proof.
  split; [intros m a _; reflexivity|].
  intros m1 m2 m3 H12 H23 a Ha. now rewrite H23, H12.
Qed.

#[export] Instance agree_sym P : Symmetric (agree P).
Proof. intros m1 m2 H a Ha. now rewrite H. Qed.

Lemma agree_weaken (P Q : Z -> Prop) m m' :
  (forall a, Q a -> P a) -> agree P m m' -> agree Q m m'.
Proof. unfold agree. eauto. Qed.

Lemma ld8_range m a : 0 <= ld8 m a < 256.
Proof. apply u8_range. Qed.

Lemma ld32_range m a : 0 <= ld32 m a < 2 ^ 32.
Proof.
  unfold ld32. pose proof (ld8_range m a). pose proof (ld8_range m (a + 1)).
  pose proof (ld8_range m (a + 2)). pose proof (ld8_range m (a + 3)). lia.
Qed.

Lemma ld64_range m a : 0 <= ld64 m a < 2 ^ 64.
Proof.
  unfold ld64. pose proof (ld32_range m a). pose proof (ld32_range m (a + 4)). lia.
Qed.

Lemma ld8_st8_eq m a v : ld8 (st8 m a v) a = u8 v.
Proof. unfold ld8, st8. rewrite lookup_insert_eq. cbn. apply u8_u8. Qed.

Lemma ld8_st8_ne m a b v : a <> b -> ld8 (st8 m a v) b = ld8 m b.
Proof. intros H. unfold ld8, st8. now rewrite lookup_insert_ne. Qed.

Lemma ld8_st32_ne m a b v : b < a \/ a + 4 <= b -> ld8 (st32 m a v) b = ld8 m b.
Proof. intros H. unfold st32. rewrite !ld8_st8_ne by lia. reflexivity. Qed.

Lemma ld32_agree m m' a :
  (forall i, 0 <= i < 4 -> ld8 m' (a + i) = ld8 m (a + i)) -> ld32 m' a = ld32 m a.
Proof.
  intros H. unfold ld32.
  rewrite <- (H 1), <- (H 2), <- (H 3) by lia.
  replace a with (a + 0) at 1 by lia. rewrite (H 0) by lia. now rewrite Z.add_0_r.
Qed.

Lemma agree_ld32 P m m' a :
  agree P m m' -> (forall i, 0 <= i < 4 -> P (a + i)) -> ld32 m' a = ld32 m a.
Proof. intros H HP. apply ld32_agree. intros i Hi. apply H, HP, Hi. Qed.

Lemma agree_st8 a v m : agree (outside a 1) m (st8 m a v).
Proof. intros x Hx. apply ld8_st8_ne. unfold outside in Hx. lia. Qed.

Lemma agree_st32 a v m : agree (outside a 4) m (st32 m a v).
Proof. intros x Hx. apply ld8_st32_ne. unfold outside in Hx. lia. Qed.

Lemma byte_split4 v : 0 <= v < 2 ^ 32 ->
  v mod 2 ^ 8 + 2 ^ 8 * ((v / 2 ^ 8) mod 2 ^ 8) + 2 ^ 16 * ((v / 2 ^ 16) mod 2 ^ 8)
  + 2 ^ 24 * ((v / 2 ^ 24) mod 2 ^ 8) = v.
Proof.
  intros H.
  assert (v / 2 ^ 24 < 2 ^ 8) by (apply Z.div_lt_upper_bound; lia).
  assert (0 <= v / 2 ^ 24) by (apply Z.div_pos; lia).
  rewrite (Z.mod_small (v / 2 ^ 24)) by lia.
  change (2 ^ 24) with (2 ^ 16 * 2 ^ 8). change (2 ^ 16) with (2 ^ 8 * 2 ^ 8).
  rewrite <- !Z.div_div by lia.
  pose proof (Z.div_mod v (2 ^ 8)). pose proof (Z.div_mod (v / 2 ^ 8) (2 ^ 8)).
  pose proof (Z.div_mod (v / 2 ^ 8 / 2 ^ 8) (2 ^ 8)). lia.
Qed.

Lemma ld32_st32_u32 m a v : ld32 (st32 m a v) a = u32 v.
Proof.
  unfold ld32, st32.
  rewrite ld8_st8_eq.
  rewrite (ld8_st8_ne _ (a + 3) (a + 2)), ld8_st8_eq by lia.
  rewrite (ld8_st8_ne _ (a + 3) (a + 1)), (ld8_st8_ne _ (a + 2) (a + 1)), ld8_st8_eq by lia.
  rewrite (ld8_st8_ne _ (a + 3) a), (ld8_st8_ne _ (a + 2) a),
    (ld8_st8_ne _ (a + 1) a), ld8_st8_eq by lia.
  unfold u8, u32.
  rewrite <- (byte_split4 (v mod 2 ^ 32)) by (apply Z.mod_pos_bound; lia).
  assert (forall k, 0 <= k <= 24 ->
            (v mod 2 ^ 32 / 2 ^ k) mod 2 ^ 8 = (v / 2 ^ k) mod 2 ^ 8) as E.
  { intros k Hk. rewrite <- !Z.shiftr_div_pow2, <- !Z.land_ones by lia.
    apply Z.bits_inj'. intros i Hi.
    rewrite !Z.land_spec, !Z.shiftr_spec, Z.testbit_ones_nonneg by lia.
    destruct (Z.ltb_spec i 8); [|now rewrite !andb_false_r].
    rewrite Z.land_spec, Z.testbit_ones_nonneg by lia.
    destruct (Z.ltb_spec (i + k) 32); [|lia]. now rewrite !andb_true_r. }
  rewrite (E 8), (E 16), (E 24) by lia.
  specialize (E 0). rewrite !Z.pow_0_r, !Z.div_1_r in E. rewrite E by lia. reflexivity.
Qed.

Lemma ld32_st32_eq m a v : 0 <= v < 2 ^ 32 -> ld32 (st32 m a v) a = v.
Proof. intros H. rewrite ld32_st32_u32. now apply u32_small. Qed.

Lemma ld32_st32_ne m a b v :
  a + 4 <= b \/ b + 4 <= a -> ld32 (st32 m a v) b = ld32 m b.
Proof. intros H. apply ld32_agree. intros i Hi. apply ld8_st32_ne. lia. Qed.

Lemma length_bytes_at m a n : length (bytes_at m a n) = n.
Proof. revert a; induction n as [|n IH]; intros a; cbn; [done|now rewrite IH]. Qed.

Lemma bytes_at_lookup m a n i :
  (i < n)%nat -> bytes_at m a n !! i = Some (ld8 m (a + Z.of_nat i)).
Proof.
  revert a i; induction n as [|n IH]; intros a i Hi; [lia|].
  destruct i as [|i]; cbn [bytes_at].
  - cbn. now rewrite Z.add_0_r.
  - change ((ld8 m a :: bytes_at m (a + 1) n) !! S i) with (bytes_at m (a + 1) n !! i).
    rewrite IH by lia. f_equal. f_equal. lia.
Qed.

Lemma bytes_at_agree m m' a n :
  (forall i, 0 <= i < Z.of_nat n -> ld8 m' (a + i) = ld8 m (a + i)) ->
  bytes_at m' a n = bytes_at m a n.
Proof.
  revert a; induction n as [|n IH]; intros a H; [done|]. cbn [bytes_at].
  f_equal.
  - specialize (H 0). rewrite Z.add_0_r in H. apply H. lia.
  - apply IH. intros i Hi. replace (a + 1 + i) with (a + (i + 1)) by lia. apply H. lia.
Qed.

Lemma ld8_st_bytes_out m a bs x :
  x < a \/ a + Z.of_nat (length bs) <= x -> ld8 (st_bytes m a bs) x = ld8 m x.
Proof.
  revert m a; induction bs as [|b bs IH]; intros m a H; [done|]. cbn [st_bytes length] in *.
  rewrite IH by lia. apply ld8_st8_ne. lia.
Qed.

Lemma bytes_at_st_bytes m a bs :
  Forall (fun b => 0 <= b < 256) bs -> bytes_at (st_bytes m a bs) a (length bs) = bs.
Proof.
  revert m a; induction bs as [|b bs IH]; intros m a H; [done|].
  inversion H as [|? ? Hb Hbs]; subst. cbn [st_bytes bytes_at length]. f_equal.
  - rewrite ld8_st_bytes_out by lia. rewrite ld8_st8_eq. now apply u8_small.
  - now apply IH.
Qed.

Lemma cstring_nonzero m a s i :
  cstring m a s -> (i < length s)%nat -> ld8 m (a + Z.of_nat i) <> 0.
Proof.
  revert a i; induction s as [|c s IH]; intros a i H Hi; cbn in *; [lia|].
  destruct H as (H1 & H2 & H3). destruct i as [|i].
  - rewrite Z.add_0_r. congruence.
  - replace (a + Z.of_nat (S i)) with (a + 1 + Z.of_nat i) by lia. apply IH; [done|lia].
Qed.

Lemma cstring_agree m m' a s :
  (forall i, 0 <= i <= Z.of_nat (length s) -> ld8 m' (a + i) = ld8 m (a + i)) ->
  cstring m a s -> cstring m' a s.
Proof.
  revert a; induction s as [|c s IH]; intros a H; cbn [cstring length] in *.
  - specialize (H 0). rewrite Z.add_0_r in H. rewrite H by lia. done.
  - intros (H1 & H2 & H3). split; [|split; [done|]].
    + specialize (H 0). rewrite Z.add_0_r in H. rewrite H by lia. done.
    + apply IH; [|done]. intros i Hi.
      replace (a + 1 + i) with (a + (i + 1)) by lia. apply H. lia.
Qed.

#[export] Hint Resolve ld8_range ld32_range ld64_range : kernel.

#[global] Opaque ld8 st8.
#[global] Arguments ld32 : simpl never.
#[global] Arguments st32 : simpl never.
#[global] Arguments ld64 : simpl never.
