(* ===== verification/State.v ===== *)
(** The kernel's global state, one record per C module, with a functional
    setter per field; the primitive actions on it: memory, ports, process
    table entries and the saved user context. *)

From S2P Require Import Prelude Memory.

Open Scope kernel_scope.

(** The second-level interrupt handlers that are ever installed: the values of
    the function pointers in [isr_table]. *)
Inductive handler :=
| HNone | HUnexpected | HDefault | HMystery | HIllop | HGp
| HKeyboard | HClock | HSio | HSys.

#[export] Instance handler_eq_dec : EqDecision handler.
Proof. solve_decision. Defined.

(** ** kmem.c: the free lists (addresses of the first free block), their counters,
    and the initialisation flag *)
Record kmem_t := Kmem {
  free_pages : Z;
  free_slices : Z;
  n_pages : Z;
  n_slices : Z;
  km_initialized : Z
}.

Definition set_free_pages (v : Z) (r : kmem_t) : kmem_t :=
  Kmem v (free_slices r) (n_pages r) (n_slices r) (km_initialized r).
Definition set_free_slices (v : Z) (r : kmem_t) : kmem_t :=
  Kmem (free_pages r) v (n_pages r) (n_slices r) (km_initialized r).
Definition set_n_pages (v : Z) (r : kmem_t) : kmem_t :=
  Kmem (free_pages r) (free_slices r) v (n_slices r) (km_initialized r).
Definition set_n_slices (v : Z) (r : kmem_t) : kmem_t :=
  Kmem (free_pages r) (free_slices r) (n_pages r) v (km_initialized r).
Definition set_km_initialized (v : Z) (r : kmem_t) : kmem_t :=
  Kmem (free_pages r) (free_slices r) (n_pages r) (n_slices r) v.

(** ** queues.c: [struct queue_s].  Pointers are addresses, 0 is NULL; the
    comparison function is the address of its code *)
Record queue_s := Queue {
  q_head : Z;
  q_tail : Z;
  q_count : Z;
  q_compare : Z
}.

Definition set_q_head (v : Z) (r : queue_s) : queue_s :=
  Queue v (q_tail r) (q_count r) (q_compare r).
Definition set_q_tail (v : Z) (r : queue_s) : queue_s :=
  Queue (q_head r) v (q_count r) (q_compare r).
Definition set_q_count (v : Z) (r : queue_s) : queue_s :=
  Queue (q_head r) (q_tail r) v (q_compare r).
Definition set_q_compare (v : Z) (r : queue_s) : queue_s :=
  Queue (q_head r) (q_tail r) (q_count r) v.

(** ** queues.c: the private global variables *)
Record ques_t := Ques {
  free_qnodes : Z;
  queues : list queue_s;
  queue_free : list Z
}.

Definition set_free_qnodes (v : Z) (r : ques_t) : ques_t :=
  Ques v (queues r) (queue_free r).
Definition set_queues (v : list queue_s) (r : ques_t) : ques_t :=
  Ques (free_qnodes r) v (queue_free r).
Definition set_queue_free (v : list Z) (r : ques_t) : ques_t :=
  Ques (free_qnodes r) (queues r) v.

(** ** stacks.c *)
Record stacks_t := Stacks {
  free_stacks : Z;
  kstack : Z;
  kesp : Z
}.

Definition set_free_stacks (v : Z) (r : stacks_t) : stacks_t :=
  Stacks v (kstack r) (kesp r).
Definition set_kstack (v : Z) (r : stacks_t) : stacks_t :=
  Stacks (free_stacks r) v (kesp r).
Definition set_kesp (v : Z) (r : stacks_t) : stacks_t :=
  Stacks (free_stacks r) (kstack r) v.

(** ** procs.h: [pcb_t] *)
Record pcb_t := Pcb {
  p_context : Z;
  p_stack : Z;
  p_parent : Z;
  p_wakeup : Z;
  p_status : Z;
  p_pid : Z;
  p_state : Z;
  p_priority : Z;
  p_quantum : Z;
  p_filler : list Z
}.

Definition set_p_context (v : Z) (r : pcb_t) : pcb_t :=
  Pcb v (p_stack r) (p_parent r) (p_wakeup r) (p_status r) (p_pid r) (p_state r)
    (p_priority r) (p_quantum r) (p_filler r).
Definition set_p_stack (v : Z) (r : pcb_t) : pcb_t :=
  Pcb (p_context r) v (p_parent r) (p_wakeup r) (p_status r) (p_pid r) (p_state r)
    (p_priority r) (p_quantum r) (p_filler r).
Definition set_p_parent (v : Z) (r : pcb_t) : pcb_t :=
  Pcb (p_context r) (p_stack r) v (p_wakeup r) (p_status r) (p_pid r) (p_state r)
    (p_priority r) (p_quantum r) (p_filler r).
Definition set_p_wakeup (v : Z) (r : pcb_t) : pcb_t :=
  Pcb (p_context r) (p_stack r) (p_parent r) v (p_status r) (p_pid r) (p_state r)
    (p_priority r) (p_quantum r) (p_filler r).
Definition set_p_status (v : Z) (r : pcb_t) : pcb_t :=
  Pcb (p_context r) (p_stack r) (p_parent r) (p_wakeup r) v (p_pid r) (p_state r)
    (p_priority r) (p_quantum r) (p_filler r).
Definition set_p_pid (v : Z) (r : pcb_t) : pcb_t :=
  Pcb (p_context r) (p_stack r) (p_parent r) (p_wakeup r) (p_status r) v (p_state r)
    (p_priority r) (p_quantum r) (p_filler r).
Definition set_p_state (v : Z) (r : pcb_t) : pcb_t :=
  Pcb (p_context r) (p_stack r) (p_parent r) (p_wakeup r) (p_status r) (p_pid r) v
    (p_priority r) (p_quantum r) (p_filler r).
Definition set_p_priority (v : Z) (r : pcb_t) : pcb_t :=
  Pcb (p_context r) (p_stack r) (p_parent r) (p_wakeup r) (p_status r) (p_pid r)
    (p_state r) v (p_quantum r) (p_filler r).
Definition set_p_quantum (v : Z) (r : pcb_t) : pcb_t :=
  Pcb (p_context r) (p_stack r) (p_parent r) (p_wakeup r) (p_status r) (p_pid r)
    (p_state r) (p_priority r) v (p_filler r).
Definition set_p_filler (v : list Z) (r : pcb_t) : pcb_t :=
  Pcb (p_context r) (p_stack r) (p_parent r) (p_wakeup r) (p_status r) (p_pid r)
    (p_state r) (p_priority r) (p_quantum r) v.

(** ** procs.c: the queue handles, the process table, the current process *)
Record procs_t := Procs {
  ready : list Z;
  sleeping : Z;
  zombie : Z;
  blocked : Z;
  sioread : Z;
  current : Z;
  ptable : list pcb_t;
  next_pid : Z;
  init_pcb : Z
}.

Definition set_ready (v : list Z) (r : procs_t) : procs_t :=
  Procs v (sleeping r) (zombie r) (blocked r) (sioread r) (current r) (ptable r)
    (next_pid r) (init_pcb r).
Definition set_sleeping (v : Z) (r : procs_t) : procs_t :=
  Procs (ready r) v (zombie r) (blocked r) (sioread r) (current r) (ptable r)
    (next_pid r) (init_pcb r).
Definition set_zombie (v : Z) (r : procs_t) : procs_t :=
  Procs (ready r) (sleeping r) v (blocked r) (sioread r) (current r) (ptable r)
    (next_pid r) (init_pcb r).
Definition set_blocked (v : Z) (r : procs_t) : procs_t :=
  Procs (ready r) (sleeping r) (zombie r) v (sioread r) (current r) (ptable r)
    (next_pid r) (init_pcb r).
Definition set_sioread (v : Z) (r : procs_t) : procs_t :=
  Procs (ready r) (sleeping r) (zombie r) (blocked r) v (current r) (ptable r)
    (next_pid r) (init_pcb r).
Definition set_current (v : Z) (r : procs_t) : procs_t :=
  Procs (ready r) (sleeping r) (zombie r) (blocked r) (sioread r) v (ptable r)
    (next_pid r) (init_pcb r).
Definition set_ptable (v : list pcb_t) (r : procs_t) : procs_t :=
  Procs (ready r) (sleeping r) (zombie r) (blocked r) (sioread r) (current r) v
    (next_pid r) (init_pcb r).
Definition set_next_pid (v : Z) (r : procs_t) : procs_t :=
  Procs (ready r) (sleeping r) (zombie r) (blocked r) (sioread r) (current r)
    (ptable r) v (init_pcb r).
Definition set_init_pcb (v : Z) (r : procs_t) : procs_t :=
  Procs (ready r) (sleeping r) (zombie r) (blocked r) (sioread r) (current r)
    (ptable r) (next_pid r) v.

(** ** clock.c *)
Record clock_t := Clock {
  pinwheel : Z;
  pindex : Z;
  system_time : Z
}.

Definition set_pinwheel (v : Z) (r : clock_t) : clock_t :=
  Clock v (pindex r) (system_time r).
Definition set_pindex (v : Z) (r : clock_t) : clock_t :=
  Clock (pinwheel r) v (system_time r).
Definition set_system_time (v : Z) (r : clock_t) : clock_t :=
  Clock (pinwheel r) (pindex r) v.

(** ** sio.c.  The character pointers are indices into their buffers *)
Record sio_t := Sio {
  inbuffer : list Z;
  inlast : Z;
  innext : Z;
  incount : Z;
  outbuffer : list Z;
  outlast : Z;
  outnext : Z;
  outcount : Z;
  sending : Z;
  ier : Z;
  sio_ready : Z
}.

Definition set_inbuffer (v : list Z) (r : sio_t) : sio_t :=
  Sio v (inlast r) (innext r) (incount r) (outbuffer r) (outlast r) (outnext r)
    (outcount r) (sending r) (ier r) (sio_ready r).
Definition set_inlast (v : Z) (r : sio_t) : sio_t :=
  Sio (inbuffer r) v (innext r) (incount r) (outbuffer r) (outlast r) (outnext r)
    (outcount r) (sending r) (ier r) (sio_ready r).
Definition set_innext (v : Z) (r : sio_t) : sio_t :=
  Sio (inbuffer r) (inlast r) v (incount r) (outbuffer r) (outlast r) (outnext r)
    (outcount r) (sending r) (ier r) (sio_ready r).
Definition set_incount (v : Z) (r : sio_t) : sio_t :=
  Sio (inbuffer r) (inlast r) (innext r) v (outbuffer r) (outlast r) (outnext r)
    (outcount r) (sending r) (ier r) (sio_ready r).
Definition set_outbuffer (v : list Z) (r : sio_t) : sio_t :=
  Sio (inbuffer r) (inlast r) (innext r) (incount r) v (outlast r) (outnext r)
    (outcount r) (sending r) (ier r) (sio_ready r).
Definition set_outlast (v : Z) (r : sio_t) : sio_t :=
  Sio (inbuffer r) (inlast r) (innext r) (incount r) (outbuffer r) v (outnext r)
    (outcount r) (sending r) (ier r) (sio_ready r).
Definition set_outnext (v : Z) (r : sio_t) : sio_t :=
  Sio (inbuffer r) (inlast r) (innext r) (incount r) (outbuffer r) (outlast r) v
    (outcount r) (sending r) (ier r) (sio_ready r).
Definition set_outcount (v : Z) (r : sio_t) : sio_t :=
  Sio (inbuffer r) (inlast r) (innext r) (incount r) (outbuffer r) (outlast r)
    (outnext r) v (sending r) (ier r) (sio_ready r).
Definition set_sending (v : Z) (r : sio_t) : sio_t :=
  Sio (inbuffer r) (inlast r) (innext r) (incount r) (outbuffer r) (outlast r)
    (outnext r) (outcount r) v (ier r) (sio_ready r).
Definition set_ier (v : Z) (r : sio_t) : sio_t :=
  Sio (inbuffer r) (inlast r) (innext r) (incount r) (outbuffer r) (outlast r)
    (outnext r) (outcount r) (sending r) v (sio_ready r).
Definition set_sio_ready (v : Z) (r : sio_t) : sio_t :=
  Sio (inbuffer r) (inlast r) (innext r) (incount r) (outbuffer r) (outlast r)
    (outnext r) (outcount r) (sending r) (ier r) v.

(** ** cio.c.  [next_char] and [next_space] are indices into [input_buffer];
    [kb_shift] and [kb_ctrl_mask] are the static locals of [input_scan_code];
    [vram] is the video memory, by address *)
Record cio_t := Cio {
  scroll_min_x : Z;
  scroll_min_y : Z;
  scroll_max_x : Z;
  scroll_max_y : Z;
  curr_x : Z;
  curr_y : Z;
  min_x : Z;
  min_y : Z;
  max_x : Z;
  max_y : Z;
  dup_to_sio : Z;
  dup2sio_bak : Z;
  notify : Z;
  cio_ready : Z;
  input_buffer : list Z;
  next_char : Z;
  next_space : Z;
  kb_shift : Z;
  kb_ctrl_mask : Z;
  vram : gmap Z Z
}.

Definition set_scroll_min_x (v : Z) (r : cio_t) : cio_t :=
  Cio v (scroll_min_y r) (scroll_max_x r) (scroll_max_y r) (curr_x r) (curr_y r)
    (min_x r) (min_y r) (max_x r) (max_y r) (dup_to_sio r) (dup2sio_bak r) (notify
    r) (cio_ready r) (input_buffer r) (next_char r) (next_space r) (kb_shift r)
    (kb_ctrl_mask r) (vram r).
Definition set_scroll_min_y (v : Z) (r : cio_t) : cio_t :=
  Cio (scroll_min_x r) v (scroll_max_x r) (scroll_max_y r) (curr_x r) (curr_y r)
    (min_x r) (min_y r) (max_x r) (max_y r) (dup_to_sio r) (dup2sio_bak r) (notify
    r) (cio_ready r) (input_buffer r) (next_char r) (next_space r) (kb_shift r)
    (kb_ctrl_mask r) (vram r).
Definition set_scroll_max_x (v : Z) (r : cio_t) : cio_t :=
  Cio (scroll_min_x r) (scroll_min_y r) v (scroll_max_y r) (curr_x r) (curr_y r)
    (min_x r) (min_y r) (max_x r) (max_y r) (dup_to_sio r) (dup2sio_bak r) (notify
    r) (cio_ready r) (input_buffer r) (next_char r) (next_space r) (kb_shift r)
    (kb_ctrl_mask r) (vram r).
Definition set_scroll_max_y (v : Z) (r : cio_t) : cio_t :=
  Cio (scroll_min_x r) (scroll_min_y r) (scroll_max_x r) v (curr_x r) (curr_y r)
    (min_x r) (min_y r) (max_x r) (max_y r) (dup_to_sio r) (dup2sio_bak r) (notify
    r) (cio_ready r) (input_buffer r) (next_char r) (next_space r) (kb_shift r)
    (kb_ctrl_mask r) (vram r).
Definition set_curr_x (v : Z) (r : cio_t) : cio_t :=
  Cio (scroll_min_x r) (scroll_min_y r) (scroll_max_x r) (scroll_max_y r) v (curr_y
    r) (min_x r) (min_y r) (max_x r) (max_y r) (dup_to_sio r) (dup2sio_bak r)
    (notify r) (cio_ready r) (input_buffer r) (next_char r) (next_space r) (kb_shift
    r) (kb_ctrl_mask r) (vram r).
Definition set_curr_y (v : Z) (r : cio_t) : cio_t :=
  Cio (scroll_min_x r) (scroll_min_y r) (scroll_max_x r) (scroll_max_y r) (curr_x r)
    v (min_x r) (min_y r) (max_x r) (max_y r) (dup_to_sio r) (dup2sio_bak r) (notify
    r) (cio_ready r) (input_buffer r) (next_char r) (next_space r) (kb_shift r)
    (kb_ctrl_mask r) (vram r).
Definition set_min_x (v : Z) (r : cio_t) : cio_t :=
  Cio (scroll_min_x r) (scroll_min_y r) (scroll_max_x r) (scroll_max_y r) (curr_x r)
    (curr_y r) v (min_y r) (max_x r) (max_y r) (dup_to_sio r) (dup2sio_bak r)
    (notify r) (cio_ready r) (input_buffer r) (next_char r) (next_space r) (kb_shift
    r) (kb_ctrl_mask r) (vram r).
Definition set_min_y (v : Z) (r : cio_t) : cio_t :=
  Cio (scroll_min_x r) (scroll_min_y r) (scroll_max_x r) (scroll_max_y r) (curr_x r)
    (curr_y r) (min_x r) v (max_x r) (max_y r) (dup_to_sio r) (dup2sio_bak r)
    (notify r) (cio_ready r) (input_buffer r) (next_char r) (next_space r) (kb_shift
    r) (kb_ctrl_mask r) (vram r).
Definition set_max_x (v : Z) (r : cio_t) : cio_t :=
  Cio (scroll_min_x r) (scroll_min_y r) (scroll_max_x r) (scroll_max_y r) (curr_x r)
    (curr_y r) (min_x r) (min_y r) v (max_y r) (dup_to_sio r) (dup2sio_bak r)
    (notify r) (cio_ready r) (input_buffer r) (next_char r) (next_space r) (kb_shift
    r) (kb_ctrl_mask r) (vram r).
Definition set_max_y (v : Z) (r : cio_t) : cio_t :=
  Cio (scroll_min_x r) (scroll_min_y r) (scroll_max_x r) (scroll_max_y r) (curr_x r)
    (curr_y r) (min_x r) (min_y r) (max_x r) v (dup_to_sio r) (dup2sio_bak r)
    (notify r) (cio_ready r) (input_buffer r) (next_char r) (next_space r) (kb_shift
    r) (kb_ctrl_mask r) (vram r).
Definition set_dup_to_sio (v : Z) (r : cio_t) : cio_t :=
  Cio (scroll_min_x r) (scroll_min_y r) (scroll_max_x r) (scroll_max_y r) (curr_x r)
    (curr_y r) (min_x r) (min_y r) (max_x r) (max_y r) v (dup2sio_bak r) (notify r)
    (cio_ready r) (input_buffer r) (next_char r) (next_space r) (kb_shift r)
    (kb_ctrl_mask r) (vram r).
Definition set_dup2sio_bak (v : Z) (r : cio_t) : cio_t :=
  Cio (scroll_min_x r) (scroll_min_y r) (scroll_max_x r) (scroll_max_y r) (curr_x r)
    (curr_y r) (min_x r) (min_y r) (max_x r) (max_y r) (dup_to_sio r) v (notify r)
    (cio_ready r) (input_buffer r) (next_char r) (next_space r) (kb_shift r)
    (kb_ctrl_mask r) (vram r).
Definition set_notify (v : Z) (r : cio_t) : cio_t :=
  Cio (scroll_min_x r) (scroll_min_y r) (scroll_max_x r) (scroll_max_y r) (curr_x r)
    (curr_y r) (min_x r) (min_y r) (max_x r) (max_y r) (dup_to_sio r) (dup2sio_bak
    r) v (cio_ready r) (input_buffer r) (next_char r) (next_space r) (kb_shift r)
    (kb_ctrl_mask r) (vram r).
Definition set_cio_ready (v : Z) (r : cio_t) : cio_t :=
  Cio (scroll_min_x r) (scroll_min_y r) (scroll_max_x r) (scroll_max_y r) (curr_x r)
    (curr_y r) (min_x r) (min_y r) (max_x r) (max_y r) (dup_to_sio r) (dup2sio_bak
    r) (notify r) v (input_buffer r) (next_char r) (next_space r) (kb_shift r)
    (kb_ctrl_mask r) (vram r).
Definition set_input_buffer (v : list Z) (r : cio_t) : cio_t :=
  Cio (scroll_min_x r) (scroll_min_y r) (scroll_max_x r) (scroll_max_y r) (curr_x r)
    (curr_y r) (min_x r) (min_y r) (max_x r) (max_y r) (dup_to_sio r) (dup2sio_bak
    r) (notify r) (cio_ready r) v (next_char r) (next_space r) (kb_shift r)
    (kb_ctrl_mask r) (vram r).
Definition set_next_char (v : Z) (r : cio_t) : cio_t :=
  Cio (scroll_min_x r) (scroll_min_y r) (scroll_max_x r) (scroll_max_y r) (curr_x r)
    (curr_y r) (min_x r) (min_y r) (max_x r) (max_y r) (dup_to_sio r) (dup2sio_bak
    r) (notify r) (cio_ready r) (input_buffer r) v (next_space r) (kb_shift r)
    (kb_ctrl_mask r) (vram r).
Definition set_next_space (v : Z) (r : cio_t) : cio_t :=
  Cio (scroll_min_x r) (scroll_min_y r) (scroll_max_x r) (scroll_max_y r) (curr_x r)
    (curr_y r) (min_x r) (min_y r) (max_x r) (max_y r) (dup_to_sio r) (dup2sio_bak
    r) (notify r) (cio_ready r) (input_buffer r) (next_char r) v (kb_shift r)
    (kb_ctrl_mask r) (vram r).
Definition set_kb_shift (v : Z) (r : cio_t) : cio_t :=
  Cio (scroll_min_x r) (scroll_min_y r) (scroll_max_x r) (scroll_max_y r) (curr_x r)
    (curr_y r) (min_x r) (min_y r) (max_x r) (max_y r) (dup_to_sio r) (dup2sio_bak
    r) (notify r) (cio_ready r) (input_buffer r) (next_char r) (next_space r) v
    (kb_ctrl_mask r) (vram r).
Definition set_kb_ctrl_mask (v : Z) (r : cio_t) : cio_t :=
  Cio (scroll_min_x r) (scroll_min_y r) (scroll_max_x r) (scroll_max_y r) (curr_x r)
    (curr_y r) (min_x r) (min_y r) (max_x r) (max_y r) (dup_to_sio r) (dup2sio_bak
    r) (notify r) (cio_ready r) (input_buffer r) (next_char r) (next_space r)
    (kb_shift r) v (vram r).
Definition set_vram (v : gmap Z Z) (r : cio_t) : cio_t :=
  Cio (scroll_min_x r) (scroll_min_y r) (scroll_max_x r) (scroll_max_y r) (curr_x r)
    (curr_y r) (min_x r) (min_y r) (max_x r) (max_y r) (dup_to_sio r) (dup2sio_bak
    r) (notify r) (cio_ready r) (input_buffer r) (next_char r) (next_space r)
    (kb_shift r) (kb_ctrl_mask r) v.

(** ** kernel.c and support.c: the user blob and the handler table *)
Record kern_t := Kern {
  user_locs : Z;
  user_offset : Z;
  user_segment : Z;
  user_sectors : Z;
  isr_table : list handler
}.

Definition set_user_locs (v : Z) (r : kern_t) : kern_t :=
  Kern v (user_offset r) (user_segment r) (user_sectors r) (isr_table r).
Definition set_user_offset (v : Z) (r : kern_t) : kern_t :=
  Kern (user_locs r) v (user_segment r) (user_sectors r) (isr_table r).
Definition set_user_segment (v : Z) (r : kern_t) : kern_t :=
  Kern (user_locs r) (user_offset r) v (user_sectors r) (isr_table r).
Definition set_user_sectors (v : Z) (r : kern_t) : kern_t :=
  Kern (user_locs r) (user_offset r) (user_segment r) v (isr_table r).
Definition set_isr_table (v : list handler) (r : kern_t) : kern_t :=
  Kern (user_locs r) (user_offset r) (user_segment r) (user_sectors r) v.

(** ** The devices: every byte written to an I/O port, latest first; an oracle
    for the byte the n-th port read returns; the CPU flags *)
Record dev_t := Dev {
  dev_out : list (Z * Z);
  dev_in : N -> Z -> Z;
  dev_count : N;
  eflags : Z
}.

Definition set_dev_out (v : list (Z * Z)) (r : dev_t) : dev_t :=
  Dev v (dev_in r) (dev_count r) (eflags r).
Definition set_dev_in (v : N -> Z -> Z) (r : dev_t) : dev_t :=
  Dev (dev_out r) v (dev_count r) (eflags r).
Definition set_dev_count (v : N) (r : dev_t) : dev_t :=
  Dev (dev_out r) (dev_in r) v (eflags r).
Definition set_eflags (v : Z) (r : dev_t) : dev_t :=
  Dev (dev_out r) (dev_in r) (dev_count r) v.

(** * The whole machine *)
Record kstate := KState {
  st_mem : memory;
  st_km : kmem_t;
  st_qs : ques_t;
  st_stk : stacks_t;
  st_ps : procs_t;
  st_clk : clock_t;
  st_sio : sio_t;
  st_cio : cio_t;
  st_krn : kern_t;
  st_dev : dev_t
}.

Definition up_mem (f : memory -> memory) (s : kstate) : kstate :=
  KState (f (st_mem s)) (st_km s) (st_qs s) (st_stk s)
    (st_ps s) (st_clk s) (st_sio s) (st_cio s) (st_krn s) (st_dev s).
Definition up_km (f : kmem_t -> kmem_t) (s : kstate) : kstate :=
  KState (st_mem s) (f (st_km s)) (st_qs s) (st_stk s)
    (st_ps s) (st_clk s) (st_sio s) (st_cio s) (st_krn s) (st_dev s).
Definition up_qs (f : ques_t -> ques_t) (s : kstate) : kstate :=
  KState (st_mem s) (st_km s) (f (st_qs s)) (st_stk s)
    (st_ps s) (st_clk s) (st_sio s) (st_cio s) (st_krn s) (st_dev s).
Definition up_stk (f : stacks_t -> stacks_t) (s : kstate) : kstate :=
  KState (st_mem s) (st_km s) (st_qs s) (f (st_stk s))
    (st_ps s) (st_clk s) (st_sio s) (st_cio s) (st_krn s) (st_dev s).
Definition up_ps (f : procs_t -> procs_t) (s : kstate) : kstate :=
  KState (st_mem s) (st_km s) (st_qs s) (st_stk s) (f
    (st_ps s)) (st_clk s) (st_sio s) (st_cio s) (st_krn s) (st_dev s).
Definition up_clk (f : clock_t -> clock_t) (s : kstate) : kstate :=
  KState (st_mem s) (st_km s) (st_qs s) (st_stk s)
    (st_ps s) (f (st_clk s)) (st_sio s) (st_cio s) (st_krn s) (st_dev s).
Definition up_sio (f : sio_t -> sio_t) (s : kstate) : kstate :=
  KState (st_mem s) (st_km s) (st_qs s) (st_stk s)
    (st_ps s) (st_clk s) (f (st_sio s)) (st_cio s) (st_krn s) (st_dev s).
Definition up_cio (f : cio_t -> cio_t) (s : kstate) : kstate :=
  KState (st_mem s) (st_km s) (st_qs s) (st_stk s)
    (st_ps s) (st_clk s) (st_sio s) (f (st_cio s)) (st_krn s) (st_dev s).
Definition up_krn (f : kern_t -> kern_t) (s : kstate) : kstate :=
  KState (st_mem s) (st_km s) (st_qs s) (st_stk s)
    (st_ps s) (st_clk s) (st_sio s) (st_cio s) (f (st_krn s)) (st_dev s).
Definition up_dev (f : dev_t -> dev_t) (s : kstate) : kstate :=
  KState (st_mem s) (st_km s) (st_qs s) (st_stk s)
    (st_ps s) (st_clk s) (st_sio s) (st_cio s) (st_krn s) (f (st_dev s)).

Notation K := (M kstate).

(** [ksimpl] computes field accesses through setters. *)
Ltac ksimpl :=
  cbn [bind ret gets modify when assert
    st_mem st_km st_qs st_stk st_ps st_clk st_sio st_cio st_krn st_dev
    up_mem up_km up_qs up_stk up_ps up_clk up_sio up_cio up_krn up_dev
    free_pages free_slices n_pages n_slices km_initialized q_head q_tail q_count
    q_compare free_qnodes queues queue_free free_stacks kstack kesp p_context
    p_stack p_parent p_wakeup p_status p_pid p_state p_priority p_quantum p_filler
    ready sleeping zombie blocked sioread current ptable next_pid init_pcb pinwheel
    pindex system_time inbuffer inlast innext incount outbuffer outlast outnext
    outcount sending ier sio_ready scroll_min_x scroll_min_y scroll_max_x
    scroll_max_y curr_x curr_y min_x min_y max_x max_y dup_to_sio dup2sio_bak notify
    cio_ready input_buffer next_char next_space kb_shift kb_ctrl_mask vram user_locs
    user_offset user_segment user_sectors isr_table dev_out dev_in dev_count eflags
    set_free_pages set_free_slices set_n_pages set_n_slices set_km_initialized
    set_q_head set_q_tail set_q_count set_q_compare set_free_qnodes set_queues
    set_queue_free set_free_stacks set_kstack set_kesp set_p_context set_p_stack
    set_p_parent set_p_wakeup set_p_status set_p_pid set_p_state set_p_priority
    set_p_quantum set_p_filler set_ready set_sleeping set_zombie set_blocked
    set_sioread set_current set_ptable set_next_pid set_init_pcb set_pinwheel
    set_pindex set_system_time set_inbuffer set_inlast set_innext set_incount
    set_outbuffer set_outlast set_outnext set_outcount set_sending set_ier
    set_sio_ready set_scroll_min_x set_scroll_min_y set_scroll_max_x
    set_scroll_max_y set_curr_x set_curr_y set_min_x set_min_y set_max_x set_max_y
    set_dup_to_sio set_dup2sio_bak set_notify set_cio_ready set_input_buffer
    set_next_char set_next_space set_kb_shift set_kb_ctrl_mask set_vram
    set_user_locs set_user_offset set_user_segment set_user_sectors set_isr_table
    set_dev_out set_dev_in set_dev_count set_eflags].
Tactic Notation "ksimpl" "in" hyp(H) :=
  cbn [bind ret gets modify when assert
    st_mem st_km st_qs st_stk st_ps st_clk st_sio st_cio st_krn st_dev
    up_mem up_km up_qs up_stk up_ps up_clk up_sio up_cio up_krn up_dev
    free_pages free_slices n_pages n_slices km_initialized q_head q_tail q_count
    q_compare free_qnodes queues queue_free free_stacks kstack kesp p_context
    p_stack p_parent p_wakeup p_status p_pid p_state p_priority p_quantum p_filler
    ready sleeping zombie blocked sioread current ptable next_pid init_pcb pinwheel
    pindex system_time inbuffer inlast innext incount outbuffer outlast outnext
    outcount sending ier sio_ready scroll_min_x scroll_min_y scroll_max_x
    scroll_max_y curr_x curr_y min_x min_y max_x max_y dup_to_sio dup2sio_bak notify
    cio_ready input_buffer next_char next_space kb_shift kb_ctrl_mask vram user_locs
    user_offset user_segment user_sectors isr_table dev_out dev_in dev_count eflags
    set_free_pages set_free_slices set_n_pages set_n_slices set_km_initialized
    set_q_head set_q_tail set_q_count set_q_compare set_free_qnodes set_queues
    set_queue_free set_free_stacks set_kstack set_kesp set_p_context set_p_stack
    set_p_parent set_p_wakeup set_p_status set_p_pid set_p_state set_p_priority
    set_p_quantum set_p_filler set_ready set_sleeping set_zombie set_blocked
    set_sioread set_current set_ptable set_next_pid set_init_pcb set_pinwheel
    set_pindex set_system_time set_inbuffer set_inlast set_innext set_incount
    set_outbuffer set_outlast set_outnext set_outcount set_sending set_ier
    set_sio_ready set_scroll_min_x set_scroll_min_y set_scroll_max_x
    set_scroll_max_y set_curr_x set_curr_y set_min_x set_min_y set_max_x set_max_y
    set_dup_to_sio set_dup2sio_bak set_notify set_cio_ready set_input_buffer
    set_next_char set_next_space set_kb_shift set_kb_ctrl_mask set_vram
    set_user_locs set_user_offset set_user_segment set_user_sectors set_isr_table
    set_dev_out set_dev_in set_dev_count set_eflags] in H.

(** * Constants of the configuration headers (params.h, defs.h, kdefs.h, kmem.h) *)

Definition NULL : Z := 0.
Definition SZ_PAGE : Z := 4096.
Definition SZ_SLICE : Z := SZ_PAGE / 4.
Definition KM_LOW_CUTOFF : Z := 2 ^ 20.
Definition KM_HIGH_CUTOFF : Z := 2 ^ 30.
Definition N_PROCS : nat := 25.
Definition STACK_PAGES : Z := 2.
Definition SZ_STACK : Z := STACK_PAGES * SZ_PAGE.
Definition STACK_WDS : Z := SZ_STACK / 4.
Definition CLOCK_FREQ : Z := 1000.

(** [enum ecode_e] of kdefs.h. *)
Definition E_SUCCESS : Z := 0.
Definition E_FAILURE : Z := 1.
Definition E_BAD_CHAN : Z := 2.
Definition E_BAD_PARAM : Z := 3.
Definition E_EMPTY : Z := 4.
Definition E_NOT_FOUND : Z := 5.
Definition E_NO_CHILDREN : Z := 6.
Definition E_NO_PCBS : Z := 7.
Definition E_NO_QNODES : Z := 8.

(** Status values returned by system calls (defs.h). *)
Definition S_OK : Z := 0.
Definition CHAN_CIO : Z := 0.
Definition CHAN_SIO : Z := 1.

Definition S_ERROR : Z := -1.
Definition S_NOT_FOUND : Z := -2.
Definition S_BAD_SYSCALL : Z := -3.
Definition S_NO_CHILD : Z := -4.
Definition S_BAD_CHAN : Z := -5.

(** [enum state_e] of procs.h and [enum priority_e] of defs.h. *)
Definition STATE_UNUSED : Z := 0.
Definition STATE_NEW : Z := 1.
Definition STATE_READY : Z := 2.
Definition STATE_RUNNING : Z := 3.
Definition STATE_SLEEPING : Z := 4.
Definition STATE_BLOCKED : Z := 5.
Definition STATE_WAITING : Z := 6.
Definition STATE_ZOMBIE : Z := 7.
Definition N_STATES : nat := 8.

Definition PRIO_HIGH : Z := 0.
Definition PRIO_STD : Z := 1.
Definition PRIO_LOW : Z := 2.
Definition N_PRIOS : nat := 3.
Definition PRIO_INHERIT : Z := 128.
Definition PRIO_FIRST : Z := PRIO_HIGH.
Definition PRIO_LAST : Z := PRIO_LOW.

Definition Q_STD : Z := 3.
Definition PID_INIT : Z := 1.
Definition FIRST_USER_PID : Z := 2.

(** * Where the linker put the static objects

    The kernel compares and prints the addresses of its static arrays and of
    some functions; which addresses these are is decided by the linker script,
    below 1MB and apart from one another. *)

Class Layout := {
  ptable_addr : Z;
  queues_addr : Z;
  comp_wakeup_addr : Z;
  isr_stub_addr : Z -> Z;       (* the assembly stubs of isrs.S, by vector *)
  section_addr : Z -> Z;        (* _start _etext _rodata _erodata _data _edata
                                   __bss_start _end, numbered from 0 *)
  init_args_addr : Z;           (* the string literal that main passes to init *)
  layout_ptable : 0 < ptable_addr /\ ptable_addr + 32 * 25 <= KM_LOW_CUTOFF;
  layout_queues : 0 < queues_addr /\ queues_addr + 16 * 8 <= KM_LOW_CUTOFF;
  layout_compare : 0 < comp_wakeup_addr < KM_LOW_CUTOFF
}.

(** * Primitive actions *)

Definition km {A} (f : kmem_t -> A) : K A := gets (fun s => f (st_km s)).
Definition km_set (f : kmem_t -> kmem_t) : K unit := modify (up_km f).
Definition qs {A} (f : ques_t -> A) : K A := gets (fun s => f (st_qs s)).
Definition qs_set (f : ques_t -> ques_t) : K unit := modify (up_qs f).
Definition stk {A} (f : stacks_t -> A) : K A := gets (fun s => f (st_stk s)).
Definition stk_set (f : stacks_t -> stacks_t) : K unit := modify (up_stk f).
Definition ps {A} (f : procs_t -> A) : K A := gets (fun s => f (st_ps s)).
Definition ps_set (f : procs_t -> procs_t) : K unit := modify (up_ps f).
Definition clk {A} (f : clock_t -> A) : K A := gets (fun s => f (st_clk s)).
Definition clk_set (f : clock_t -> clock_t) : K unit := modify (up_clk f).
Definition sio {A} (f : sio_t -> A) : K A := gets (fun s => f (st_sio s)).
Definition sio_set (f : sio_t -> sio_t) : K unit := modify (up_sio f).
Definition cio {A} (f : cio_t -> A) : K A := gets (fun s => f (st_cio s)).
Definition cio_set (f : cio_t -> cio_t) : K unit := modify (up_cio f).
Definition krn {A} (f : kern_t -> A) : K A := gets (fun s => f (st_krn s)).
Definition krn_set (f : kern_t -> kern_t) : K unit := modify (up_krn f).

(** Memory through a pointer. *)
Definition load8 (a : Z) : K Z := gets (fun s => ld8 (st_mem s) a).
Definition load16 (a : Z) : K Z := gets (fun s => ld16 (st_mem s) a).
Definition load32 (a : Z) : K Z := gets (fun s => ld32 (st_mem s) a).
Definition load64 (a : Z) : K Z := gets (fun s => ld64 (st_mem s) a).
Definition store8 (a v : Z) : K unit := modify (up_mem (fun m => st8 m a v)).
Definition store32 (a v : Z) : K unit := modify (up_mem (fun m => st32 m a v)).

(** [outb] and [inb] of x86/ops.h. *)
Definition outb (port v : Z) : K unit :=
  modify (up_dev (fun d => set_dev_out ((port, u8 v) :: dev_out d) d)).
Definition inb (port : Z) : K Z := fun s =>
  let d := st_dev s in
  Ret (u8 (dev_in d (dev_count d) port))
      (up_dev (set_dev_count (dev_count d + 1)%N) s).

(** ** Process table entries, through [pcb_t *] pointers *)

Section Pcb.
Context {L : Layout}.

Definition pcb_addr (i : Z) : Z := ptable_addr + 32 * i.

(** The table index a pointer designates; a pointer which designates no
    entry cannot be dereferenced. *)
Definition pcb_slot (p : Z) : option Z :=
  let d := p - ptable_addr in
  if (0 <=? d) && (d <? 32 * 25) && (d mod 32 =? 0) then Some (d / 32) else None.

Definition get_pcb (p : Z) : K pcb_t := fun s =>
  match pcb_slot p with
  | Some i => aget "process table access" (ptable (st_ps s)) i s
  | None => Undef "dereference of a bad pcb pointer" s
  end.

Definition put_pcb (p : Z) (pcb : pcb_t) : K unit := fun s =>
  match pcb_slot p with
  | Some i => ps_set (fun r => set_ptable (aset (ptable r) i pcb) r) s
  | None => Undef "dereference of a bad pcb pointer" s
  end.

(** [p->field = v] *)
Definition pcb_set (p : Z) (f : pcb_t -> pcb_t) : K unit :=
  x <- get_pcb p ;; put_pcb p (f x).

(** [p->field] *)
Definition pcb_get {A} (p : Z) (f : pcb_t -> A) : K A :=
  x <- get_pcb p ;; ret (f x).

(** ** The saved user context (procs.h [context_t], kdefs.h macros) *)

Definition SZ_CONTEXT : Z := 72.

Inductive reg := SS | GS | FS | ES | DS | EDI | ESI | EBP | ESP | EBX | EDX
  | ECX | EAX | VECTOR | CODE | EIP | CS | EFLAGS.

Definition reg_off (r : reg) : Z :=
  match r with
  | SS => 0 | GS => 4 | FS => 8 | ES => 12 | DS => 16 | EDI => 20 | ESI => 24
  | EBP => 28 | ESP => 32 | EBX => 36 | EDX => 40 | ECX => 44 | EAX => 48
  | VECTOR => 52 | CODE => 56 | EIP => 60 | CS => 64 | EFLAGS => 68
  end.

(** [REG(pcb,x)], [RET(pcb)] and [ARG(pcb,n)]. *)
Definition REG (p : Z) (r : reg) : K Z :=
  c <- pcb_get p p_context ;; load32 (c + reg_off r).
Definition set_REG (p : Z) (r : reg) (v : Z) : K unit :=
  c <- pcb_get p p_context ;; store32 (c + reg_off r) v.
Definition set_RET (p : Z) (v : Z) : K unit := set_REG p EAX v.
Definition ARG (p : Z) (n : Z) : K Z :=
  c <- pcb_get p p_context ;; load32 (c + SZ_CONTEXT + 4 * n).
Definition set_ARG (p : Z) (n v : Z) : K unit :=
  c <- pcb_get p p_context ;; store32 (c + SZ_CONTEXT + 4 * n) v.

Lemma pcb_slot_addr i : 0 <= i < 25 -> pcb_slot (pcb_addr i) = Some i.
Proof.
  intros Hi. unfold pcb_slot, pcb_addr.
  replace (ptable_addr + 32 * i - ptable_addr) with (i * 32) by lia.
  rewrite Z.mod_mul, Z.div_mul by lia.
  destruct (Z.leb_spec 0 (i * 32)); [|lia].
  destruct (Z.ltb_spec (i * 32) (32 * 25)); [reflexivity|lia].
Qed.

Lemma pcb_slot_Some p i : pcb_slot p = Some i -> p = pcb_addr i /\ 0 <= i < 25.
Proof.
  unfold pcb_slot, pcb_addr.
  destruct (Z.leb_spec 0 (p - ptable_addr)); [|done].
  destruct (Z.ltb_spec (p - ptable_addr) (32 * 25)); [|done].
  destruct (Z.eqb_spec ((p - ptable_addr) mod 32) 0); [|done].
  cbn. intros [= <-]. pose proof (Z.div_mod (p - ptable_addr) 32).
  split; [lia|]. split; [apply Z.div_pos; lia|apply Z.div_lt_upper_bound; lia].
Qed.

Lemma pcb_addr_inj i j : pcb_addr i = pcb_addr j -> i = j.
Proof. unfold pcb_addr. lia. Qed.

Lemma pcb_addr_nonnull i : 0 <= i -> pcb_addr i <> 0.
Proof. unfold pcb_addr. pose proof layout_ptable. lia. Qed.

Lemma pcb_addr_word i : 0 <= i < 25 -> 0 <= pcb_addr i < 2 ^ 32.
Proof. unfold pcb_addr. pose proof layout_ptable. unfold KM_LOW_CUTOFF in *. lia. Qed.

Lemma get_pcb_ok i pcb s :
  0 <= i < 25 -> ptable (st_ps s) !! Z.to_nat i = Some pcb ->
  get_pcb (pcb_addr i) s = Ret pcb s.
Proof.
  intros Hi H. unfold get_pcb. rewrite pcb_slot_addr by done.
  apply aget_ok; [lia|done].
Qed.

Lemma pcb_get_ok {A} i pcb (f : pcb_t -> A) s :
  0 <= i < 25 -> ptable (st_ps s) !! Z.to_nat i = Some pcb ->
  pcb_get (pcb_addr i) f s = Ret (f pcb) s.
Proof. intros Hi H. unfold pcb_get. mstep (get_pcb_ok _ _ _ Hi H). reflexivity. Qed.

Lemma pcb_set_ok i pcb f s :
  0 <= i < 25 -> ptable (st_ps s) !! Z.to_nat i = Some pcb ->
  pcb_set (pcb_addr i) f s =
  Ret tt (up_ps (fun r => set_ptable (aset (ptable r) i (f pcb)) r) s).
Proof.
  intros Hi H. unfold pcb_set. mstep (get_pcb_ok _ _ _ Hi H).
  unfold put_pcb. now rewrite pcb_slot_addr.
Qed.
End Pcb.

(** * The state when the bootstrap enters [main]: BSS cleared *)

Definition pcb0 : pcb_t := Pcb 0 0 0 0 0 0 0 0 0 (replicate 5 0).
Definition queue0 : queue_s := Queue 0 0 0 0.
Definition boot_state (m : memory) (inp : N -> Z -> Z) : kstate :=
  KState m (Kmem 0 0 0 0 0)
    (Ques 0 (replicate 8 queue0) (replicate 8 0)) (Stacks 0 0 0)
    (Procs (replicate 3 0) 0 0 0 0 0 (replicate N_PROCS pcb0) 0 0) (Clock 0 0 0)
    (Sio (replicate 1024 0) 0 0 0 (replicate 1024 0) 0 0 0 0 0 0)
    (Cio 0 0 0 0 0 0 0 0 0 0 0 0 0 0 (replicate 200 0) 0 0 0 255 ∅)
    (Kern 0 0 0 0 (replicate 256 HNone)) (Dev [] inp 0%N 0).

(** A concrete layout, for the examples, and the state in which a run ends. *)
Definition example_layout : Layout.
Proof.
  refine {| ptable_addr := 0x50000; queues_addr := 0x60000; comp_wakeup_addr := 0x12345;
     isr_stub_addr := fun v => 0x13000 + 8 * v; section_addr := fun n => 0x10000 + 0x10000 * n;
     init_args_addr := 0x20000 |}; unfold KM_LOW_CUTOFF; abstract lia.
Defined.

Definition final {A} (m : K A) (s : kstate) : kstate :=
  match m s with Ret _ s' | Panic _ s' | Undef _ s' | Hang s' => s' end.

Lemma final_Ret {A} (m : K A) s a s' : m s = Ret a s' -> final m s = s'.
Proof. unfold final. now intros ->. Qed.

Definition returns {A} (o : outcome kstate A) : bool := match o with Ret _ _ => true | _ => false end.

Lemma final_unit (m : K unit) s : returns (m s) = true -> m s = Ret tt (final m s).
Proof. unfold final. destruct (m s) as [[]| | |]; done. Qed.

(** ** One step of a sequence: reading a variable or a word *)

Lemma run_gets {A B} (f : kstate -> A) (k : A -> K B) s : (x <- gets f ;; k x) s = k (f s) s.
Proof. reflexivity. Qed.

Lemma run_cio {A B} (f : cio_t -> A) (k : A -> K B) s : (x <- cio f ;; k x) s = k (f (st_cio s)) s.
Proof. reflexivity. Qed.

Lemma run_krn {A B} (f : kern_t -> A) (k : A -> K B) s : (x <- krn f ;; k x) s = k (f (st_krn s)) s.
Proof. reflexivity. Qed.

Lemma run_load32 {B} a (k : Z -> K B) s : (x <- load32 a ;; k x) s = k (ld32 (st_mem s) a) s.
Proof. reflexivity. Qed.
