(* ===== verification/Lib.v ===== *)
(** lib/*.c: the freestanding C library shared by the kernel and the user
    programs.  The memory and string functions work on the flat memory through
    pointers; the conversion and padding functions, which only write their
    destination from left to right, return the list of the bytes they write
    (the pointer they return is the destination plus its length). *)

From S2P Require Import Prelude Memory State.

Open Scope kernel_scope.

(** * Memory functions *)

Definition memclr (buf len : Z) : K unit :=
  loop (fun '(dest, len) =>
    if len =? 0 then ret (inr tt)
    else store8 dest 0 ;; ret (inl (u32 (dest + 1), u32 (len - 1)))) (buf, len).

Definition memset (buf len value : Z) : K unit :=
  loop (fun '(bp, len) =>
    if len =? 0 then ret (inr tt)
    else store8 bp value ;; ret (inl (u32 (bp + 1), u32 (len - 1)))) (buf, len).

(** The two copy loops that memcpy, memmove and blkmov are made of, for units
    of [w] bytes: [while(len--) *dest++ = *source++] and
    [while(len-- > 0) *--dest = *--source]. *)

Definition copy_up (ld : Z -> K Z) (st : Z -> Z -> K unit) (w : Z)
    (dest source len : Z) : K unit :=
  loop (fun '(dest, source, len) =>
    if len =? 0 then ret (inr tt)
    else
      v <- ld source ;;
      st dest v ;;
      ret (inl (u32 (dest + w), u32 (source + w), u32 (len - 1))))
    (dest, source, len).

Definition copy_down (ld : Z -> K Z) (st : Z -> Z -> K unit) (w : Z)
    (dest source len : Z) : K unit :=
  loop (fun '(dest, source, len) =>
    if len =? 0 then ret (inr tt)
    else
      v <- ld (u32 (source - w)) ;;
      st (u32 (dest - w)) v ;;
      ret (inl (u32 (dest - w), u32 (source - w), u32 (len - 1))))
    (dest, source, len).

Definition memcpy (dst src len : Z) : K unit :=
  copy_up load8 store8 1 dst src len.

Definition memmove (dst src len : Z) : K unit :=
  if (src <? dst) && (dst <? u32 (src + len))
  then copy_down load8 store8 1 (u32 (dst + len)) (u32 (src + len)) len
  else copy_up load8 store8 1 dst src len.

Definition blkmov (dst src len : Z) : K unit :=
  if negb (Z.land dst 3 =? 0) || negb (Z.land src 3 =? 0) || negb (Z.land len 3 =? 0)
  then memmove dst src len
  else
    let len := len / 4 in
    if (src <? dst) && (dst <? u32 (src + 4 * len))
    then copy_down load32 store32 4 (u32 (dst + 4 * len)) (u32 (src + 4 * len)) len
    else copy_up load32 store32 4 dst src len.

(** * String functions.  [char] is signed. *)

Definition load_char (a : Z) : K Z := c <- load8 a ;; ret (s8 c).

Definition strlen (str : Z) : K Z :=
  loop (fun '(str, len) =>
    c <- load_char str ;;
    if c =? 0 then ret (inr len) else ret (inl (u32 (str + 1), u32 (len + 1))))
    (str, 0).

Definition strcmp (s1 s2 : Z) : K Z :=
  loop (fun '(s1, s2) =>
    a <- load_char s1 ;;
    b <- load_char s2 ;;
    if negb (a =? 0) && (a =? b) then ret (inl (u32 (s1 + 1), u32 (s2 + 1)))
    else ret (inr (a - b))) (s1, s2).

(** The loop that copies bytes up to and including the NUL, shared by strcpy
    and strcat. *)
Definition copy_string (dst src : Z) : K unit :=
  loop (fun '(dst, src) =>
    c <- load_char src ;;
    store8 dst c ;;
    if c =? 0 then ret (inr tt) else ret (inl (u32 (dst + 1), u32 (src + 1))))
    (dst, src).

Definition strcpy (dst src : Z) : K Z := copy_string dst src ;; ret dst.

Definition strcat (dst src : Z) : K Z :=
  e <- loop (fun dst =>
         c <- load_char dst ;;
         if c =? 0 then ret (inr dst) else ret (inl (u32 (dst + 1)))) dst ;;
  copy_string e src ;;
  ret dst.

Definition strchr (str ch : Z) : K Z :=
  if str =? 0 then ret NULL
  else loop (fun str =>
    c <- load_char str ;;
    if c =? 0 then ret (inr NULL)
    else if c =? ch then ret (inr str)
    else ret (inl (u32 (str + 1)))) str.

Definition strrchr (str ch : Z) : K Z :=
  if str =? 0 then ret NULL
  else
    n <- strlen str ;;
    loop (fun ptr =>
      if ptr <? str then ret (inr NULL)
      else
        c <- load_char ptr ;;
        if c =? 0 then ret (inr NULL)
        else if c =? ch then ret (inr ptr)
        else ret (inl (u32 (ptr - 1)))) (u32 (str + n - 1)).

(** * Conversions *)

Definition bound (min value max : Z) : Z :=
  let value := if value <? min then min else value in
  if max <? value then max else value.

Definition hexdigits : list Z := chars "0123456789ABCDEF".

Fixpoint cvtdec0_rec (fuel : nat) (value : Z) : list Z :=
  match fuel with
  | O => []
  | S fuel =>
      let quotient := Z.quot value 10 in
      let '(quotient, value) :=
        if quotient <? 0 then (214748364, 8) else (quotient, value) in
      (if negb (quotient =? 0) then cvtdec0_rec fuel quotient else [])
      ++ [u8 (Z.rem value 10 + 48)]
  end.

(** A 32-bit value has at most ten digits: see [cvtdec0_eq]. *)
Definition cvtdec0 (value : Z) : list Z := cvtdec0_rec 11 value.

Definition cvtdec (value : Z) : list Z :=
  if value <? 0 then 45 :: cvtdec0 (s32 (- value)) else cvtdec0 value.

Definition cvtuns0 (value : Z) : list Z :=
  let quotient := value / 10 in
  (if negb (quotient =? 0) then cvtdec0 (s32 quotient) else [])
  ++ [u8 (value mod 10 + 48)].

Definition cvtuns (value : Z) : list Z := cvtuns0 value.

Fixpoint cvthex_loop (i : Z) (n : nat) (chars_stored : Z) (value : Z) : list Z :=
  match n with
  | O => []
  | S n =>
      let val := Z.land value 0xf0000000 in
      if truth chars_stored || negb (val =? 0) || (i =? 7) then
        let val := Z.land (Z.shiftr val 28) 0xf in
        nth (Z.to_nat val) hexdigits 0
        :: cvthex_loop (i + 1) n (chars_stored + 1) (u32 (Z.shiftl value 4))
      else cvthex_loop (i + 1) n chars_stored (u32 (Z.shiftl value 4))
  end.

Definition cvthex (value : Z) : list Z := cvthex_loop 0 8 0 value.

Fixpoint cvtoct_loop (i : Z) (n : nat) (chars_stored val value : Z) : list Z :=
  match n with
  | O => []
  | S n =>
      let value' := u32 (Z.shiftl value 3) in
      let val' := Z.shiftr (Z.land value' 0xe0000000) 29 in
      if (i =? 10) || negb (val =? 0) || truth chars_stored
      then u8 (Z.land val 7 + 48) :: cvtoct_loop (i + 1) n 1 val' value'
      else cvtoct_loop (i + 1) n chars_stored val' value'
  end.

Definition cvtoct (value : Z) : list Z :=
  cvtoct_loop 0 11 0 (Z.shiftr (Z.land value 0xc0000000) 30) value.

(** [strchr( hexdigits, ch )], as an offset into [hexdigits]. *)
Fixpoint find_char (l : list Z) (ch i : Z) : option Z :=
  match l with
  | [] => None
  | c :: l => if c =? ch then Some i else find_char l ch (i + 1)
  end.

Definition UCASE (c : Z) : Z :=
  if (97 <=? c) && (c <=? 122) then Z.land c 0xdf else c.

Definition str2int (str base : Z) : K Z :=
  c <- load_char str ;;
  let '(sign, str) := if c =? 45 then (-1, u32 (str + 1)) else (1, str) in
  c0 <- load_char str ;;
  c1 <- load_char (u32 (str + 1)) ;;
  let '(bchar, str) :=
    if negb (base =? 10) then
      if base =? 16 then
        (70, if (c0 =? 48) && ((c1 =? 120) || (c1 =? 88)) then u32 (str + 2) else str)
      else if base =? 2 then
        (s8 (48 + base - 1),
         if (c0 =? 48) && ((c1 =? 98) || (c1 =? 66)) then u32 (str + 2) else str)
      else (s8 (48 + base - 1), str)
    else (57, str) in
  num <- loop (fun '(str, num) =>
    c <- load_char str ;;
    if c =? 0 then ret (inr num)
    else
      match find_char hexdigits (UCASE c) 0 with
      | None => ret (inr num)
      | Some digit =>
          if bchar <? nth (Z.to_nat digit) hexdigits 0 then ret (inr num)
          else ret (inl (u32 (str + 1), s32 (num * base + digit)))
      end) (str, 0) ;;
  ret (s32 (num * sign)).

(** * Padding and formatted output *)

Definition pad (extra padchar : Z) : list Z := replicate (Z.to_nat extra) (u8 padchar).

(** [str] is the source string (without its NUL); [len < 0] asks for its length. *)
Definition padstr (str : list Z) (len width leftadjust padchar : Z) : list Z :=
  let len := if len <? 0 then Z.of_nat (length str) else len in
  let extra := width - len in
  (if (0 <? extra) && negb (truth leftadjust) then pad extra padchar else [])
  ++ take (Z.to_nat len) str
  ++ (if (0 <? extra) && truth leftadjust then pad extra padchar else []).

(** The words after the format argument on the stack: integers, or pointers to
    strings, given by the strings they point to. *)
Inductive arg := AI (z : Z) | AS (s : list Z).

(** The padding options and width that follow a percent sign: the remaining
    format starts at the conversion character. *)
Fixpoint parse_width (fmt : list Z) (width : Z) : Z * list Z :=
  match fmt with
  | ch :: fmt' =>
      if (48 <=? ch) && (ch <=? 57)
      then parse_width fmt' (s32 (s32 (width * 10) + (ch - 48)))
      else (width, fmt)
  | [] => (width, fmt)
  end.

Definition parse_spec (fmt : list Z) : Z * Z * Z * list Z :=
  let '(leftadjust, fmt) :=
    match fmt with
    | ch :: fmt' => if ch =? 45 then (1, fmt') else (0, fmt)
    | [] => (0, fmt)
    end in
  let '(padchar, fmt) :=
    match fmt with
    | ch :: fmt' => if ch =? 48 then (48, fmt') else (32, fmt)
    | [] => (32, fmt)
    end in
  let '(width, fmt) := parse_width fmt 0 in
  (leftadjust, padchar, width, fmt).

(** The text of one conversion: [None] when the character is not a conversion
    (nothing is printed and no argument is taken). *)
Definition convert {S} (ch : Z) (ap : list arg) : M S (option (list Z * Z * list arg)) :=
  if ch =? 99 then                                     (* %c *)
    match ap with
    | AI v :: ap => ret (Some ([u8 v], 1, ap))
    | _ => undef "format argument"
    end
  else if ch =? 100 then                               (* %d *)
    match ap with
    | AI v :: ap => let b := cvtdec (s32 v) in ret (Some (b, Z.of_nat (length b), ap))
    | _ => undef "format argument"
    end
  else if ch =? 115 then                               (* %s *)
    match ap with
    | AS str :: ap => ret (Some (str, -1, ap))
    | _ => undef "format argument"
    end
  else if ch =? 120 then                               (* %x *)
    match ap with
    | AI v :: ap => let b := cvthex (u32 v) in ret (Some (b, Z.of_nat (length b), ap))
    | _ => undef "format argument"
    end
  else if ch =? 111 then                               (* %o *)
    match ap with
    | AI v :: ap => let b := cvtoct (u32 v) in ret (Some (b, Z.of_nat (length b), ap))
    | _ => undef "format argument"
    end
  else if ch =? 117 then                               (* %u *)
    match ap with
    | AI v :: ap => let b := cvtuns (u32 v) in ret (Some (b, Z.of_nat (length b), ap))
    | _ => undef "format argument"
    end
  else ret None.

(** One character of the format, or one conversion.  A format that ends inside a
    conversion makes the code read past the end of the format string. *)
Definition sprint_step {S} (st : list Z * list Z * list arg) :
    M S (list Z * list Z * list arg + list Z) :=
  let '(dst, fmt, ap) := st in
  match fmt with
  | [] => ret (inr dst)
  | ch :: fmt =>
      if ch =? 37 then
        let '(leftadjust, padchar, width, fmt) := parse_spec fmt in
        match fmt with
        | [] => undef "format string overrun"
        | ch :: fmt =>
            r <- convert ch ap ;;
            match r with
            | Some (str, len, ap) =>
                ret (inl ((dst ++ padstr str len width leftadjust padchar)%list, fmt, ap))
            | None => ret (inl (dst, fmt, ap))
            end
        end
      else ret (inl ((dst ++ [ch])%list, fmt, ap))
  end.

(** The characters [sprint( dst, fmt, ... )] puts into its buffer, before the
    NUL it appends. *)
Definition sprint {S} (fmt : list Z) (args : list arg) : M S (list Z) :=
  loop sprint_step ([], fmt, args).

(** * uextras.c: user-level helpers on argument strings *)

(** The scan for the end of the argument that starts at [ptr]: the separator is
    replaced by a NUL; the result is where the next argument starts. *)
Definition next_sep (sep ptr : Z) : K Z :=
  loop (fun ptr =>
    c <- load_char ptr ;;
    if c =? 0 then ret (inr ptr)
    else if c =? sep then store8 ptr 0 ;; ret (inr (u32 (ptr + 1)))
    else ret (inl (u32 (ptr + 1)))) ptr.

Definition parseArgs (argc args sep n argv : Z) : K Z :=
  if args =? NULL then ret (-1)
  else if n <=? argc then ret (-1)
  else
    i <- loop (fun '(i, ptr) =>
      if (i <? argc) && (i <? n - 1) then
        store32 (u32 (argv + 4 * i)) ptr ;;
        ptr <- next_sep sep ptr ;;
        c <- load_char ptr ;;
        if c =? 0 then ret (inr i) else ret (inl (i + 1, ptr))
      else ret (inr i)) (0, args) ;;
    ret (i + 1).

(** The characters that [expand_args] writes for the character [ch], and what
    it adds to the count. *)
Definition expand_char (ch : Z) : list Z * Z :=
  if (32 <=? ch) && (ch <? 127) then ([ch], 1)
  else if ch =? 13 then ([92; 114], 3)
  else if ch =? 9 then ([92; 116], 3)
  else if ch =? 10 then ([92; 110], 3)
  else ([92; 120; nth (Z.to_nat (Z.land (Z.shiftr ch 4) 15)) hexdigits 0;
         nth (Z.to_nat (Z.land ch 15)) hexdigits 0], 5).

(** [*buf1++ = c] for each of the characters. *)
Fixpoint put_chars (buf1 : Z) (l : list Z) : K Z :=
  match l with
  | [] => ret buf1
  | c :: l => store8 buf1 c ;; put_chars (u32 (buf1 + 1)) l
  end.

Definition expand_args (buf1 buf2 max : Z) : K Z :=
  let max := u32 (max - 1) in
  r <- loop (fun '(buf1, buf2, len) =>
    c <- load8 buf2 ;;
    if (c =? 0) || (max <=? len) then ret (inr (buf1, len))
    else
      let '(text, n) := expand_char c in
      buf1 <- put_chars buf1 text ;;
      ret (inl (buf1, u32 (buf2 + 1), u32 (len + n)))) (buf1, buf2, 0) ;;
  store8 (fst r) 0 ;;
  ret (snd r).
