(* ===== verification/LibMem.v ===== *)
(** What the memory and string functions of lib/ compute: each runs to
    completion and leaves the memory that its contract describes, overlapping
    regions included. *)

From S2P Require Import Prelude Memory State Lib.

Open Scope kernel_scope.

(** * Byte strings in memory *)

Section Bytes.
#[local] Transparent ld8 st8.

Lemma st8_comm m a b v w : a <> b -> st8 (st8 m a v) b w = st8 (st8 m b w) a v.
Proof. intros H. unfold st8. apply insert_insert_ne. congruence. Qed.

Lemma st8_st8 m a v w : st8 (st8 m a v) a w = st8 m a w.
Proof. unfold st8. now rewrite insert_insert_eq. Qed.

Lemma st8_u8 m a v w : u8 v = u8 w -> st8 m a v = st8 m a w.
Proof. unfold st8. now intros ->. Qed.
End Bytes.

Lemma st_bytes_st8_comm m a bs b v :
  b < a \/ a + Z.of_nat (length bs) <= b ->
  st_bytes (st8 m b v) a bs = st8 (st_bytes m a bs) b v.
Proof.
  revert m a; induction bs as [|x bs IH]; intros m a H; [done|].
  cbn [st_bytes length] in *. rewrite st8_comm by lia. apply IH. lia.
Qed.

Lemma st_bytes_app m a bs cs :
  st_bytes m a (bs ++ cs) = st_bytes (st_bytes m a bs) (a + Z.of_nat (length bs)) cs.
Proof.
  revert m a; induction bs as [|x bs IH]; intros m a; cbn [app st_bytes length].
  - f_equal. cbn. lia.
  - rewrite IH. f_equal. lia.
Qed.

Lemma st_bytes_disjoint_comm m a bs b cs :
  a + Z.of_nat (length bs) <= b ->
  st_bytes (st_bytes m b cs) a bs = st_bytes (st_bytes m a bs) b cs.
Proof.
  revert m b; induction cs as [|c cs IH]; intros m b H; [done|].
  cbn [st_bytes]. rewrite IH by lia. f_equal. apply st_bytes_st8_comm. lia.
Qed.

Lemma bytes_at_app m a n k :
  bytes_at m a (n + k) = (bytes_at m a n ++ bytes_at m (a + Z.of_nat n) k)%list.
Proof.
  revert a; induction n as [|n IH]; intros a; cbn [bytes_at Nat.add app].
  - f_equal. lia.
  - rewrite IH. do 3 f_equal. lia.
Qed.

Lemma bytes_at_st8_out m a n b v :
  b < a \/ a + Z.of_nat n <= b -> bytes_at (st8 m b v) a n = bytes_at m a n.
Proof. intros H. apply bytes_at_agree. intros i Hi. apply ld8_st8_ne. lia. Qed.

Lemma bytes_at_st_bytes_out m a n b bs :
  b + Z.of_nat (length bs) <= a \/ a + Z.of_nat n <= b ->
  bytes_at (st_bytes m b bs) a n = bytes_at m a n.
Proof. intros H. apply bytes_at_agree. intros i Hi. apply ld8_st_bytes_out. lia. Qed.

Lemma agree_st_bytes m a bs : agree (outside a (Z.of_nat (length bs))) m (st_bytes m a bs).
Proof. intros x Hx. apply ld8_st_bytes_out. unfold outside in Hx. lia. Qed.

(** Storing the word that is loaded copies its four bytes. *)
Lemma st32_ld32 m a b : st32 m a (ld32 m b) = st_bytes m a (bytes_at m b 4).
Proof.
  unfold st32, ld32. cbn [bytes_at st_bytes].
  replace (b + 1 + 1) with (b + 2) by lia. replace (b + 2 + 1) with (b + 3) by lia.
  replace (a + 1 + 1) with (a + 2) by lia. replace (a + 2 + 1) with (a + 3) by lia.
  pose proof (ld8_range m b) as H0. pose proof (ld8_range m (b + 1)) as H1.
  pose proof (ld8_range m (b + 2)) as H2. pose proof (ld8_range m (b + 3)) as H3.
  generalize dependent (ld8 m b). generalize dependent (ld8 m (b + 1)).
  generalize dependent (ld8 m (b + 2)). generalize dependent (ld8 m (b + 3)).
  intros x3 H3 x2 H2 x1 H1 x0 H0.
  set (w := x0 + 2 ^ 8 * x1 + 2 ^ 16 * x2 + 2 ^ 24 * x3).
  assert (u8 w = u8 x0) as E0.
  { unfold u8, w. replace (x0 + 2 ^ 8 * x1 + 2 ^ 16 * x2 + 2 ^ 24 * x3)
      with (x0 + (x1 + 2 ^ 8 * x2 + 2 ^ 16 * x3) * 2 ^ 8) by lia. apply Z.mod_add. lia. }
  assert (w / 2 ^ 8 = x1 + (x2 + 2 ^ 8 * x3) * 2 ^ 8) as E1.
  { symmetry. apply Z.div_unique with x0; unfold w; lia. }
  assert (w / 2 ^ 16 = x2 + x3 * 2 ^ 8) as E2.
  { symmetry. apply Z.div_unique with (x0 + 2 ^ 8 * x1); unfold w; lia. }
  assert (w / 2 ^ 24 = x3) as E3.
  { symmetry. apply Z.div_unique with (x0 + 2 ^ 8 * x1 + 2 ^ 16 * x2); unfold w; lia. }
  rewrite E1, E2, E3, (st8_u8 m a w x0 E0).
  rewrite (st8_u8 (st8 m a x0) (a + 1) _ x1) by (unfold u8; apply Z.mod_add; lia).
  rewrite (st8_u8 _ (a + 2) _ x2) by (unfold u8; apply Z.mod_add; lia).
  reflexivity.
Qed.

Lemma up_mem_id s : up_mem (fun m => m) s = s.
Proof. now destruct s. Qed.

Lemma up_mem_ext f g s : f (st_mem s) = g (st_mem s) -> up_mem f s = up_mem g s.
Proof. intros H. unfold up_mem. now rewrite H. Qed.

Lemma up_mem_up_mem f g s : up_mem f (up_mem g s) = up_mem (fun m => f (g m)) s.
Proof. reflexivity. Qed.

(** * Clearing and filling *)

Lemma memclr_eq buf n s :
  0 <= buf -> buf + Z.of_nat n < 2 ^ 32 ->
  memclr buf (Z.of_nat n) s = Ret tt (up_mem (fun m => st_bytes m buf (replicate n 0)) s).
Proof.
  intros Hb Hn. unfold memclr. apply (loop_intro _ (S n)); [lia|].
  revert buf s Hb Hn. induction n as [|n IH]; intros buf s Hb Hn.
  - erewrite loopN_done; [|reflexivity]. now rewrite up_mem_id.
  - erewrite loopN_step with (s' := up_mem (fun m => st8 m buf 0) s)
      (a' := (buf + 1, Z.of_nat n)).
    + rewrite IH by lia. reflexivity.
    + cbn [Z.eqb]. destruct (Z.eqb_spec (Z.of_nat (S n)) 0); [lia|].
      cbn. rewrite !u32_small by lia. do 3 f_equal. lia.
Qed.

Lemma memset_eq buf n v s :
  0 <= buf -> buf + Z.of_nat n < 2 ^ 32 ->
  memset buf (Z.of_nat n) v s = Ret tt (up_mem (fun m => st_bytes m buf (replicate n v)) s).
Proof.
  intros Hb Hn. unfold memset. apply (loop_intro _ (S n)); [lia|].
  revert buf s Hb Hn. induction n as [|n IH]; intros buf s Hb Hn.
  - erewrite loopN_done; [|reflexivity]. now rewrite up_mem_id.
  - erewrite loopN_step with (s' := up_mem (fun m => st8 m buf v) s)
      (a' := (buf + 1, Z.of_nat n)).
    + rewrite IH by lia. reflexivity.
    + cbn [Z.eqb]. destruct (Z.eqb_spec (Z.of_nat (S n)) 0); [lia|].
      cbn. rewrite !u32_small by lia. do 3 f_equal. lia.
Qed.

(** * Copying.  A unit of [w] bytes is loaded and stored; the two loops are
    proved once for any such unit. *)

Section Copy.
Context (ld : Z -> K Z) (st : Z -> Z -> K unit) (w : nat).
Context (w_pos : (0 < w)%nat).
Context (unit_copy : forall a b s,
  (v <- ld b ;; st a v)%kernel s
  = Ret tt (up_mem (fun m => st_bytes m a (bytes_at m b w)) s)).

Notation W := (Z.of_nat w).

Lemma unit_copy_then {B} a b (k : K B) s :
  (v <- ld b ;; (st a v ;; k))%kernel s
  = k (up_mem (fun m => st_bytes m a (bytes_at m b w)) s).
Proof.
  pose proof (unit_copy a b s) as H. unfold bind in *.
  destruct (ld b s); try discriminate. now rewrite H.
Qed.

Lemma copy_up_eq n dst src s :
  0 <= dst -> 0 <= src -> dst + Z.of_nat n * W < 2 ^ 32 -> src + Z.of_nat n * W < 2 ^ 32 ->
  dst <= src \/ src + Z.of_nat n * W <= dst ->
  copy_up ld st W dst src (Z.of_nat n) s
  = Ret tt (up_mem (fun m => st_bytes m dst (bytes_at m src (n * w))) s).
Proof.
  intros Hd Hs Hdn Hsn Ho. unfold copy_up. apply (loop_intro _ (S n)); [nia|].
  revert dst src s Hd Hs Hdn Hsn Ho. induction n as [|n IH]; intros dst src s Hd Hs Hdn Hsn Ho.
  - erewrite loopN_done; [|reflexivity]. now rewrite up_mem_id.
  - erewrite loopN_step with (a' := (dst + W, src + W, Z.of_nat n))
      (s' := up_mem (fun m => st_bytes m dst (bytes_at m src w)) s).
    + rewrite IH by nia. rewrite up_mem_up_mem. f_equal. apply up_mem_ext.
      change (S n * w)%nat with (w + n * w)%nat.
      rewrite bytes_at_app, st_bytes_app, length_bytes_at.
      rewrite bytes_at_st_bytes_out; [reflexivity|]. rewrite length_bytes_at. nia.
    + cbn beta iota. destruct (Z.eqb_spec (Z.of_nat (S n)) 0); [lia|].
      rewrite unit_copy_then. unfold ret. do 2 f_equal.
      rewrite !u32_small by nia. do 2 f_equal. lia.
Qed.

Lemma copy_down_eq n dst src s :
  0 <= dst -> 0 <= src -> dst + Z.of_nat n * W < 2 ^ 32 -> src + Z.of_nat n * W < 2 ^ 32 ->
  src <= dst ->
  copy_down ld st W (dst + Z.of_nat n * W) (src + Z.of_nat n * W) (Z.of_nat n) s
  = Ret tt (up_mem (fun m => st_bytes m dst (bytes_at m src (n * w))) s).
Proof.
  intros Hd Hs Hdn Hsn Ho. unfold copy_down. apply (loop_intro _ (S n)); [nia|].
  revert s. induction n as [|n IH]; intros s.
  - erewrite loopN_done; [|reflexivity]. now rewrite up_mem_id.
  - erewrite loopN_step with
      (a' := (dst + Z.of_nat n * W, src + Z.of_nat n * W, Z.of_nat n))
      (s' := up_mem (fun m => st_bytes m (dst + Z.of_nat n * W)
               (bytes_at m (src + Z.of_nat n * W) w)) s).
    + rewrite IH by nia. rewrite up_mem_up_mem. f_equal. apply up_mem_ext.
      replace (S n * w)%nat with (n * w + w)%nat by lia.
      rewrite (bytes_at_app _ _ (n * w) w), (st_bytes_app _ dst), length_bytes_at.
      rewrite bytes_at_st_bytes_out by (rewrite length_bytes_at; nia).
      replace (Z.of_nat (n * w)) with (Z.of_nat n * W) by lia.
      apply st_bytes_disjoint_comm. rewrite !length_bytes_at. nia.
    + cbn beta iota. destruct (Z.eqb_spec (Z.of_nat (S n)) 0); [lia|].
      replace (dst + Z.of_nat (S n) * W - W) with (dst + Z.of_nat n * W) by lia.
      replace (src + Z.of_nat (S n) * W - W) with (src + Z.of_nat n * W) by lia.
      rewrite (u32_small (dst + _)), (u32_small (src + _)), u32_small by nia.
      rewrite unit_copy_then. unfold ret. do 3 f_equal. lia.
Qed.
End Copy.

Lemma byte_unit a b s :
  (v <- load8 b ;; store8 a v) s = Ret tt (up_mem (fun m => st_bytes m a (bytes_at m b 1)) s).
Proof. reflexivity. Qed.

Lemma word_unit a b s :
  (v <- load32 b ;; store32 a v) s
  = Ret tt (up_mem (fun m => st_bytes m a (bytes_at m b 4)) s).
Proof.
  unfold bind, load32, store32, gets, modify. f_equal. apply up_mem_ext, st32_ld32.
Qed.

Lemma memcpy_eq n dst src s :
  0 <= dst -> 0 <= src -> dst + Z.of_nat n < 2 ^ 32 -> src + Z.of_nat n < 2 ^ 32 ->
  dst <= src \/ src + Z.of_nat n <= dst ->
  memcpy dst src (Z.of_nat n) s
  = Ret tt (up_mem (fun m => st_bytes m dst (bytes_at m src n)) s).
Proof.
  intros. unfold memcpy.
  rewrite (copy_up_eq load8 store8 1 ltac:(lia) byte_unit) by lia.
  now rewrite Nat.mul_1_r.
Qed.

Lemma memmove_eq n dst src s :
  0 <= dst -> 0 <= src -> dst + Z.of_nat n < 2 ^ 32 -> src + Z.of_nat n < 2 ^ 32 ->
  memmove dst src (Z.of_nat n) s
  = Ret tt (up_mem (fun m => st_bytes m dst (bytes_at m src n)) s).
Proof.
  intros. unfold memmove. rewrite !u32_small by lia.
  pose proof (copy_up_eq load8 store8 1 ltac:(lia) byte_unit n dst src s) as Hup.
  pose proof (copy_down_eq load8 store8 1 ltac:(lia) byte_unit n dst src s) as Hdn.
  change (Z.of_nat 1) with 1 in *. rewrite Nat.mul_1_r, !Z.mul_1_r in *.
  destruct (Z.ltb_spec src dst); cbn [andb]; [|apply Hup; lia].
  destruct (Z.ltb_spec dst (src + Z.of_nat n)); [apply Hdn|apply Hup]; lia.
Qed.

Lemma blkmov_eq n dst src s :
  0 <= dst -> 0 <= src -> dst + Z.of_nat n < 2 ^ 32 -> src + Z.of_nat n < 2 ^ 32 ->
  blkmov dst src (Z.of_nat n) s
  = Ret tt (up_mem (fun m => st_bytes m dst (bytes_at m src n)) s).
Proof.
  intros. unfold blkmov.
  destruct (Z.eqb_spec (Z.land dst 3) 0); cbn [negb orb]; [|now apply memmove_eq].
  destruct (Z.eqb_spec (Z.land src 3) 0); cbn [negb orb]; [|now apply memmove_eq].
  destruct (Z.eqb_spec (Z.land (Z.of_nat n) 3) 0) as [Hn|]; cbn [negb]; [|now apply memmove_eq].
  change 3 with (Z.ones 2) in Hn. rewrite Z.land_ones in Hn by lia.
  change (2 ^ 2) with 4 in Hn.
  pose proof (Z.div_mod (Z.of_nat n) 4). set (k := Z.to_nat (Z.of_nat n / 4)).
  assert (Z.of_nat n / 4 = Z.of_nat k) as -> by (unfold k; lia).
  assert (n = k * 4)%nat as En by lia.
  rewrite !u32_small by lia.
  pose proof (copy_up_eq load32 store32 4 ltac:(lia) word_unit k dst src s) as Hup.
  pose proof (copy_down_eq load32 store32 4 ltac:(lia) word_unit k dst src s) as Hdn.
  change (Z.of_nat 4) with 4 in *. rewrite <- En in *. rewrite (Z.mul_comm 4).
  destruct (Z.ltb_spec src dst); cbn [andb]; [|apply Hup; lia].
  destruct (Z.ltb_spec dst (src + Z.of_nat k * 4)); [apply Hdn|apply Hup]; lia.
Qed.

(** * Strings *)

Definition is_char (c : Z) : Prop := 0 < c < 256.

Lemma cstring_chars m a s : cstring m a s -> Forall is_char s.
Proof.
  revert a; induction s as [|c s IH]; intros a H; constructor.
  - destruct H as (H1 & H2 & _). pose proof (ld8_range m a). unfold is_char. lia.
  - destruct H as (_ & _ & H3). eapply IH, H3.
Qed.

(** The signed value of a character is zero only for the NUL, and two
    characters with the same signed value are the same. *)
Lemma s8_zero c : 0 <= c < 256 -> (s8 c =? 0) = (c =? 0).
Proof.
  intros H. unfold s8. rewrite u8_small by lia. cbv zeta.
  destruct (Z.ltb_spec c (2 ^ 7)); [done|].
  destruct (Z.eqb_spec (c - 2 ^ 8) 0), (Z.eqb_spec c 0); lia || done.
Qed.

Lemma s8_inj c d : 0 <= c < 256 -> 0 <= d < 256 -> (s8 c =? s8 d) = (c =? d).
Proof.
  intros Hc Hd. unfold s8. rewrite !u8_small by lia. cbv zeta.
  destruct (Z.ltb_spec c (2 ^ 7)), (Z.ltb_spec d (2 ^ 7));
    match goal with |- (?a =? ?b) = (?c =? ?d) =>
      destruct (Z.eqb_spec a b), (Z.eqb_spec c d) end; lia || done.
Qed.

Lemma u8_s8 c : u8 (s8 c) = u8 c.
Proof.
  unfold s8. cbv zeta. destruct (u8 c <? 2 ^ 7); [apply u8_u8|].
  unfold u8. replace (c mod 2 ^ 8 - 2 ^ 8) with (c mod 2 ^ 8 + (-1) * 2 ^ 8) by lia.
  rewrite Z.mod_add by lia. apply Z.mod_mod. lia.
Qed.

Lemma load_char_bind {B} a (k : Z -> K B) s :
  (c <- load_char a ;; k c) s = k (s8 (ld8 (st_mem s) a)) s.
Proof. reflexivity. Qed.

Lemma strlen_eq a str s :
  cstring (st_mem s) a str -> 0 <= a -> a + Z.of_nat (length str) < 2 ^ 32 ->
  strlen a s = Ret (Z.of_nat (length str)) s.
Proof.
  intros Hc Ha Hl. unfold strlen. apply (loop_intro _ (S (length str))); [lia|].
  enough (forall acc, 0 <= acc -> acc + Z.of_nat (length str) < 2 ^ 32 ->
            loopN (S (length str)) (fun '(str, len) =>
              c <- load_char str ;;
              if c =? 0 then ret (inr len)
              else ret (inl (u32 (str + 1), u32 (len + 1)))) (a, acc) s
            = Ret (inr (acc + Z.of_nat (length str))) s) as H by (apply H; lia).
  revert a Hc Ha Hl.
  induction str as [|c str IH]; intros a Hc Ha Hl acc H0 H1; cbn [cstring length] in *.
  - apply loopN_done. rewrite load_char_bind, Hc. cbn. unfold ret. do 2 f_equal. lia.
  - destruct Hc as (E & Hn & Hc).
    rewrite loopN_step with (a' := (a + 1, acc + 1)) (s' := s).
    + rewrite IH by (done || lia). do 2 f_equal. lia.
    + rewrite load_char_bind, E, s8_zero by (subst; apply ld8_range).
      destruct (Z.eqb_spec c 0); [done|]. rewrite !u32_small by lia. done.
Qed.

(** The result of [strcmp] on two strings: the difference of the first pair of
    characters that differ. *)
Fixpoint str_compare (s1 s2 : list Z) : Z :=
  match s1, s2 with
  | [], [] => 0
  | [], d :: _ => - s8 d
  | c :: _, [] => s8 c
  | c :: s1, d :: s2 => if c =? d then str_compare s1 s2 else s8 c - s8 d
  end.

Lemma str_compare_zero s1 s2 :
  Forall is_char s1 -> Forall is_char s2 -> str_compare s1 s2 = 0 <-> s1 = s2.
Proof.
  intros H1. revert s2. induction H1 as [|c s1 Hc H1 IH]; intros s2 H2.
  - destruct H2 as [|d s2 Hd H2]; [done|]. cbn.
    pose proof (s8_zero d ltac:(unfold is_char in *; lia)) as E. unfold is_char in Hd.
    destruct (Z.eqb_spec d 0), (Z.eqb_spec (s8 d) 0); try lia. split; [lia|done].
  - unfold is_char in Hc. destruct H2 as [|d s2 Hd H2]; cbn.
    + pose proof (s8_zero c ltac:(lia)) as E.
      destruct (Z.eqb_spec c 0), (Z.eqb_spec (s8 c) 0); try lia. split; [lia|done].
    + unfold is_char in Hd. destruct (Z.eqb_spec c d) as [->|Hn].
      * rewrite IH by done. split; congruence.
      * pose proof (s8_inj c d ltac:(lia) ltac:(lia)) as E.
        destruct (Z.eqb_spec c d), (Z.eqb_spec (s8 c) (s8 d)); try lia.
        split; [lia|congruence].
Qed.

Lemma strcmp_eq a b s1 s2 s :
  cstring (st_mem s) a s1 -> cstring (st_mem s) b s2 -> 0 <= a -> 0 <= b ->
  a + Z.of_nat (length s1) < 2 ^ 32 -> b + Z.of_nat (length s2) < 2 ^ 32 ->
  strcmp a b s = Ret (str_compare s1 s2) s.
Proof.
  intros H1 H2 Ha Hb Hl1 Hl2. unfold strcmp.
  apply (loop_intro _ (S (length s1))); [lia|].
  revert a b s2 H1 H2 Ha Hb Hl1 Hl2.
  induction s1 as [|c s1 IH]; intros a b s2 H1 H2 Ha Hb Hl1 Hl2; cbn [cstring length] in *.
  - apply loopN_done. rewrite !load_char_bind, H1. change (s8 0) with 0.
    cbn [Z.eqb negb andb]. unfold ret. do 2 f_equal.
    destruct s2 as [|d s2]; cbn [cstring str_compare] in *; [now rewrite H2|].
    destruct H2 as (-> & _). lia.
  - destruct H1 as (E & Hn & H1).
    assert (0 <= c < 256) as Hc by (subst; apply ld8_range).
    destruct s2 as [|d s2]; cbn [cstring str_compare length] in *.
    + apply loopN_done. rewrite !load_char_bind, E, H2. change (s8 0) with 0.
      replace (s8 c =? 0) with false by (rewrite s8_zero by done; symmetry; now apply Z.eqb_neq).
      cbn [negb andb]. unfold ret. f_equal. f_equal. lia.
    + destruct H2 as (E2 & Hn2 & H2).
      assert (0 <= d < 256) as Hd by (subst; apply ld8_range).
      destruct (Z.eqb_spec c d) as [->|Hne].
      * rewrite loopN_step with (a' := (a + 1, b + 1)) (s' := s); [apply IH; done || lia|].
        rewrite !load_char_bind, E, E2, Z.eqb_refl, s8_zero by done.
        destruct (Z.eqb_spec d 0); [done|]. rewrite !u32_small by lia. done.
      * apply loopN_done. rewrite !load_char_bind, E, E2, s8_inj by done.
        destruct (Z.eqb_spec c d); [done|]. rewrite andb_false_r. done.
Qed.

(** Copying a string moves its bytes and the NUL. *)
Lemma copy_string_eq dst src str s :
  cstring (st_mem s) src str -> 0 <= dst -> 0 <= src ->
  dst + Z.of_nat (length str) + 1 < 2 ^ 32 -> src + Z.of_nat (length str) + 1 < 2 ^ 32 ->
  dst <= src \/ src + Z.of_nat (length str) < dst ->
  copy_string dst src s = Ret tt (up_mem (fun m => st_bytes m dst (str ++ [0])) s).
Proof.
  intros Hc Hd Hs Hdl Hsl Ho. unfold copy_string.
  apply (loop_intro _ (S (length str))); [lia|].
  revert dst src s Hc Hd Hs Hdl Hsl Ho.
  induction str as [|c str IH]; intros dst src s Hc Hd Hs Hdl Hsl Ho; cbn [cstring length] in *.
  - erewrite loopN_done; [|rewrite load_char_bind, Hc; reflexivity]. reflexivity.
  - destruct Hc as (E & Hn & Hc).
    assert (0 <= c < 256) as Hr by (subst; apply ld8_range).
    rewrite loopN_step with (a' := (dst + 1, src + 1))
      (s' := up_mem (fun m => st8 m dst c) s).
    + rewrite IH; [reflexivity| |lia..].
      apply cstring_agree with (m := st_mem s); [|done].
      intros i Hi. apply ld8_st8_ne. lia.
    + rewrite load_char_bind, E, s8_zero by done.
      destruct (Z.eqb_spec c 0); [done|]. rewrite !u32_small by lia.
      unfold bind, store8, modify, ret. f_equal. apply up_mem_ext, st8_u8, u8_s8.
Qed.

Lemma strchr_eq a str d s :
  cstring (st_mem s) a str -> 0 < a -> a + Z.of_nat (length str) < 2 ^ 32 -> is_char d ->
  strchr a (s8 d) s
  = Ret (match find_char str d a with Some p => p | None => NULL end) s.
Proof.
  intros Hc Ha Hl Hd. unfold strchr. destruct (Z.eqb_spec a 0); [lia|].
  apply (loop_intro _ (S (length str))); [lia|]. clear n.
  revert a Hc Ha Hl. induction str as [|c str IH]; intros a Hc Ha Hl; cbn [cstring length] in *.
  - apply loopN_done. rewrite load_char_bind, Hc. reflexivity.
  - destruct Hc as (E & Hn & Hc). unfold is_char in Hd.
    assert (0 <= c < 256) as Hr by (subst; apply ld8_range).
    cbn [find_char]. destruct (Z.eqb_spec c d) as [->|Hne].
    + apply loopN_done. rewrite load_char_bind, E, s8_zero, Z.eqb_refl by done.
      destruct (Z.eqb_spec d 0); done.
    + rewrite loopN_step with (a' := a + 1) (s' := s); [apply IH; done || lia|].
      rewrite load_char_bind, E, s8_zero, s8_inj by (done || lia).
      destruct (Z.eqb_spec c 0); [done|]. destruct (Z.eqb_spec c d); [done|].
      now rewrite u32_small by lia.
Qed.

Lemma cstring_app m a s t :
  cstring m a (s ++ t) -> cstring m (a + Z.of_nat (length s)) t.
Proof.
  revert a; induction s as [|c s IH]; intros a; cbn [app cstring length].
  - now rewrite Z.add_0_r.
  - intros (_ & _ & H). apply IH in H.
    now replace (a + Z.of_nat (S (length s))) with (a + 1 + Z.of_nat (length s)) by lia.
Qed.

Lemma cstring_snoc_char m a s c :
  cstring m a (s ++ [c]) -> ld8 m (a + Z.of_nat (length s)) = c /\ c <> 0.
Proof. intros H. apply cstring_app in H. cbn in H. tauto. Qed.

(** The last occurrence is the first one from the end. *)
Lemma strrchr_eq a str d s :
  cstring (st_mem s) a str -> 0 < a -> a + Z.of_nat (length str) < 2 ^ 32 -> is_char d ->
  strrchr a (s8 d) s
  = Ret (match find_char (rev str) d 0 with
         | Some i => a + Z.of_nat (length str) - 1 - i | None => NULL end) s.
Proof.
  intros Hc Ha Hl Hd. unfold strrchr. destruct (Z.eqb_spec a 0); [lia|]. clear n.
  mstep (strlen_eq a str s Hc ltac:(lia) Hl).
  rewrite u32_small by lia.
  apply (loop_intro _ (S (length str))); [lia|].
  assert (forall pre post k, str = pre ++ post -> length post = k ->
    loopN (S (length pre))
      (fun ptr => if ptr <? a then ret (inr NULL)
        else c <- load_char ptr ;;
             if c =? 0 then ret (inr NULL)
             else if c =? s8 d then ret (inr ptr) else ret (inl (u32 (ptr - 1))))
      (a + Z.of_nat (length pre) - 1) s
    = Ret (inr (match find_char (rev pre) d (Z.of_nat k) with
                | Some i => a + Z.of_nat (length str) - 1 - i | None => NULL end)) s)%list as H;
    [|specialize (H str [] 0%nat); rewrite app_nil_r in H; now apply H].
  intros pre. induction pre as [|c pre IH] using rev_ind; intros post k Es Ek.
  - apply loopN_done. cbn [length].
    destruct (Z.ltb_spec (a + Z.of_nat 0 - 1) a); [done|lia].
  - rewrite rev_app_distr, length_app. cbn [rev app length find_char].
    assert (cstring (st_mem s) a (pre ++ [c] ++ post)) as Hc'
      by (rewrite app_assoc, <- Es; done).
    apply cstring_app in Hc'. destruct Hc' as (Ec & Hc0 & _).
    assert (0 <= c < 256) as Hr by (subst; apply ld8_range). unfold is_char in Hd.
    assert (length str = length pre + 1 + k)%nat as El
      by (subst; rewrite !length_app; cbn; lia).
    replace (a + Z.of_nat (length pre + 1) - 1) with (a + Z.of_nat (length pre)) by lia.
    destruct (Z.eqb_spec c d) as [->|Hne].
    + apply loopN_done. destruct (Z.ltb_spec (a + Z.of_nat (length pre)) a); [lia|].
      rewrite load_char_bind, Ec, s8_zero, Z.eqb_refl by done.
      destruct (Z.eqb_spec d 0); [done|]. unfold ret. do 2 f_equal. lia.
    + rewrite loopN_step with (a' := a + Z.of_nat (length pre) - 1) (s' := s).
      * replace (length pre + 1)%nat with (S (length pre)) by lia.
        rewrite (IH ([c] ++ post)%list (S k)).
        -- now replace (Z.of_nat (S k)) with (Z.of_nat k + 1) by lia.
        -- rewrite Es. now rewrite <- app_assoc.
        -- cbn. lia.
      * destruct (Z.ltb_spec (a + Z.of_nat (length pre)) a); [lia|].
        rewrite load_char_bind, Ec, s8_zero, s8_inj by (done || lia).
        destruct (Z.eqb_spec c 0); [done|]. destruct (Z.eqb_spec c d); [done|].
        now rewrite u32_small by lia.
Qed.

Lemma strcat_eq dst src s1 s2 s :
  cstring (st_mem s) dst s1 -> cstring (st_mem s) src s2 -> 0 <= dst -> 0 <= src ->
  dst + Z.of_nat (length s1) + Z.of_nat (length s2) + 1 < 2 ^ 32 ->
  src + Z.of_nat (length s2) + 1 < 2 ^ 32 ->
  dst + Z.of_nat (length s1) + Z.of_nat (length s2) < src
    \/ src + Z.of_nat (length s2) < dst + Z.of_nat (length s1) ->
  strcat dst src s
  = Ret dst (up_mem (fun m => st_bytes m (dst + Z.of_nat (length s1)) (s2 ++ [0])) s).
Proof.
  intros H1 H2 Hd Hs Hl1 Hl2 Ho. unfold strcat.
  erewrite bind_Ret with (a := dst + Z.of_nat (length s1)) (s' := s).
  - erewrite bind_Ret; [reflexivity|]. apply copy_string_eq; done || lia.
  - apply (loop_intro _ (S (length s1))); [lia|].
    assert (dst + Z.of_nat (length s1) < 2 ^ 32) as Hl by lia.
    clear Hl1 Ho H2. revert dst H1 Hd Hl.
    induction s1 as [|c s1 IH]; intros dst H1 Hd Hl; cbn [cstring length] in *.
    + apply loopN_done. rewrite load_char_bind, H1. cbn. unfold ret. do 2 f_equal. lia.
    + destruct H1 as (E & Hn & H1).
      rewrite loopN_step with (a' := dst + 1) (s' := s).
      * rewrite IH by (done || lia). do 2 f_equal. lia.
      * rewrite load_char_bind, E, s8_zero by (subst; apply ld8_range).
        destruct (Z.eqb_spec c 0); [done|]. now rewrite u32_small by lia.
Qed.

(** ** Strings stored by the functions above *)

Lemma bytes_at_range m a n : Forall (fun b => 0 <= b < 256) (bytes_at m a n).
Proof.
  revert a; induction n as [|n IH]; intros a; constructor; [apply ld8_range|apply IH].
Qed.

Lemma cstring_lookup m a str i c :
  cstring m a str -> str !! i = Some c -> ld8 m (a + Z.of_nat i) = c.
Proof.
  revert a i; induction str as [|d str IH]; intros a i Hc Hi; [done|].
  destruct Hc as (E & Hn & Hc). destruct i as [|i].
  - injection Hi as ->. now rewrite Z.add_0_r.
  - apply (IH (a + 1) i Hc) in Hi. rewrite <- Hi. f_equal. lia.
Qed.

Lemma cstring_stored m a str : Forall is_char str -> cstring (st_bytes m a (str ++ [0])) a str.
Proof.
  intros H. revert m a; induction H as [|c str Hc H IH]; intros m a; cbn [app st_bytes cstring].
  - rewrite ld8_st8_eq. done.
  - unfold is_char in Hc. split; [|split; [lia|apply IH]].
    rewrite ld8_st_bytes_out by lia. rewrite ld8_st8_eq. apply u8_small. lia.
Qed.

Lemma cstring_join m a s1 s2 :
  Forall is_char s1 ->
  (forall i c, s1 !! i = Some c -> ld8 m (a + Z.of_nat i) = c) ->
  cstring m (a + Z.of_nat (length s1)) s2 -> cstring m a (s1 ++ s2).
Proof.
  intros H. revert a; induction H as [|c s1 Hc H IH]; intros a H1 H2; cbn [app cstring length] in *.
  - now rewrite Z.add_0_r in H2.
  - unfold is_char in Hc. split; [|split; [lia|]].
    + rewrite <- (H1 0%nat c eq_refl). f_equal. lia.
    + apply IH.
      * intros i d Hi. rewrite <- (H1 (S i) d Hi). f_equal. lia.
      * now replace (a + 1 + Z.of_nat (length s1)) with (a + Z.of_nat (S (length s1))) by lia.
Qed.
