(* ===== verification/LibNum.v ===== *)
(** What the numeric conversions of lib/ compute: the digits they produce denote
    the number they are given, and [str2int] reads them back. *)

From S2P Require Import Prelude Memory State Lib LibMem.

Open Scope kernel_scope.

(** The number a list of digits denotes, and the character of a digit. *)
Definition value (b : Z) (ds : list Z) : Z := fold_left (fun acc d => acc * b + d) ds 0.
Definition digit_char (d : Z) : Z := nth (Z.to_nat d) hexdigits 0.
Definition is_digit (b d : Z) : Prop := 0 <= d < b.

Lemma value_from b ds acc :
  fold_left (fun acc d => acc * b + d) ds acc = acc * b ^ Z.of_nat (length ds) + value b ds.
Proof.
  unfold value. revert acc; induction ds as [|d ds IH]; intros acc; cbn [fold_left length].
  - cbn. lia.
  - rewrite IH, (IH (0 * b + d)). rewrite Nat2Z.inj_succ, Z.pow_succ_r by lia. lia.
Qed.

Lemma value_cons b d ds : value b (d :: ds) = d * b ^ Z.of_nat (length ds) + value b ds.
Proof. unfold value at 1. cbn [fold_left]. rewrite value_from. f_equal; lia. Qed.

Lemma value_snoc b ds d : value b (ds ++ [d]) = value b ds * b + d.
Proof. unfold value. now rewrite fold_left_app. Qed.

(** The digits of a number, without leading zeros. *)
Definition numeral (b v : Z) (ds : list Z) : Prop :=
  Forall (is_digit b) ds /\ value b ds = v /\ ds <> [] /\ (hd 0 ds = 0 -> ds = [0]).

(** A property of each of the sixteen digits is decided by computation. *)
Lemma digit_cases (P : Z -> Prop) d :
  0 <= d < 16 -> Forall P (map Z.of_nat (seq 0 16)) -> P d.
Proof.
  intros Hd HP. rewrite Forall_forall in HP. apply HP, list_elem_of_fmap.
  exists (Z.to_nat d). split; [lia|]. apply elem_of_seq. lia.
Qed.

Ltac by_digits d := pattern d; apply digit_cases;
  [unfold is_digit in *; lia | repeat constructor; vm_compute; try (reflexivity || congruence || lia)].

Lemma digit_char_dec d : 0 <= d < 10 -> digit_char d = u8 (d + 48).
Proof.
  intros H. assert (d < 10 -> digit_char d = u8 (d + 48)) as X by by_digits d. apply X. lia.
Qed.

Lemma digit_char_is_char d : 0 <= d < 16 -> is_char (digit_char d).
Proof.
  intros H. assert (0 <? digit_char d = true /\ digit_char d <? 256 = true) as [? ?].
  { by_digits d; split; reflexivity. }
  zbool. split; lia.
Qed.

(** * Producing digits *)

Lemma cvtdec0_rec_numeral fuel v :
  0 <= v < 10 ^ Z.of_nat fuel -> (0 < fuel)%nat ->
  exists ds, cvtdec0_rec fuel v = map digit_char ds /\ numeral 10 v ds.
Proof.
  revert v; induction fuel as [|fuel IH]; intros v Hv Hf; [lia|].
  cbn [cvtdec0_rec]. rewrite Z.quot_div_nonneg by lia.
  pose proof (Z.div_mod v 10). pose proof (Z.mod_pos_bound v 10).
  destruct (Z.ltb_spec (v / 10) 0); [pose proof (Z.div_pos v 10); lia|].
  rewrite Z.rem_mod_nonneg by lia. rewrite <- digit_char_dec by lia.
  rewrite Nat2Z.inj_succ, Z.pow_succ_r in Hv by lia.
  destruct (Z.eqb_spec (v / 10) 0) as [E|E]; cbn [negb app].
  - exists [v mod 10]. split; [done|]. split; [|split; [|split]].
    + constructor; [unfold is_digit; lia|constructor].
    + cbn. lia.
    + done.
    + cbn. now intros ->.
  - assert (0 < fuel)%nat as Hf'.
    { destruct fuel; [|lia]. change (10 ^ Z.of_nat 0) with 1 in Hv. lia. }
    destruct (IH (v / 10)) as (ds & Eds & Hds & Hval & Hne & Hhd); [nia|done|].
    exists (ds ++ [v mod 10])%list. rewrite Eds, map_app. split; [done|].
    split; [|split; [|split]].
    + apply Forall_app. split; [done|]. constructor; [unfold is_digit; lia|constructor].
    + rewrite value_snoc. lia.
    + now destruct ds.
    + destruct ds as [|d ds]; [done|]. cbn. intros ->. cbn in Hhd.
      specialize (Hhd eq_refl). injection Hhd as ->. cbn in Hval. lia.
Qed.

Lemma cvtdec0_numeral v :
  0 <= v < 2 ^ 31 -> exists ds, cvtdec0 v = map digit_char ds /\ numeral 10 v ds.
Proof.
  intros Hv. apply cvtdec0_rec_numeral; [|lia].
  change (10 ^ Z.of_nat 11) with 100000000000. lia.
Qed.

Lemma cvtuns_numeral v :
  0 <= v < 2 ^ 32 -> exists ds, cvtuns v = map digit_char ds /\ numeral 10 v ds.
Proof.
  intros Hv. unfold cvtuns, cvtuns0.
  pose proof (Z.div_mod v 10). pose proof (Z.mod_pos_bound v 10).
  rewrite <- digit_char_dec by lia.
  destruct (Z.eqb_spec (v / 10) 0) as [E|E]; cbn [negb app].
  - exists [v mod 10]. split; [done|]. split; [|split; [|split]].
    + constructor; [unfold is_digit; lia|constructor].
    + cbn. lia.
    + done.
    + cbn. now intros ->.
  - rewrite s32_small by lia.
    destruct (cvtdec0_numeral (v / 10)) as (ds & Eds & Hds & Hval & Hne & Hhd); [lia|].
    exists (ds ++ [v mod 10])%list. rewrite Eds, map_app. split; [done|].
    split; [|split; [|split]].
    + apply Forall_app. split; [done|]. constructor; [unfold is_digit; lia|constructor].
    + rewrite value_snoc. lia.
    + now destruct ds.
    + destruct ds as [|d ds]; [done|]. cbn. intros ->. cbn in Hhd.
      specialize (Hhd eq_refl). injection Hhd as ->. cbn in Hval. lia.
Qed.

(** ** Hexadecimal *)

Lemma top_nibble v : 0 <= v < 2 ^ 32 -> Z.land v 0xf0000000 = v / 2 ^ 28 * 2 ^ 28.
Proof. intros H. now rewrite <- high_bits by lia. Qed.

Lemma nibble_of v :
  0 <= v < 2 ^ 32 -> Z.land (Z.shiftr (v / 2 ^ 28 * 2 ^ 28) 28) 0xf = v / 2 ^ 28.
Proof.
  intros H. rewrite Z.shiftr_div_pow2, Z.div_mul by lia.
  change 0xf with (Z.ones 4). rewrite Z.land_ones by lia. apply Z.mod_small.
  split; [apply Z.div_pos|apply Z.div_lt_upper_bound]; lia.
Qed.

Lemma shift_out v k :
  0 <= v < 2 ^ 32 -> 0 <= k <= 32 -> u32 (Z.shiftl v k) = (v mod 2 ^ (32 - k)) * 2 ^ k.
Proof.
  intros Hv Hk. unfold u32. rewrite Z.shiftl_mul_pow2 by lia.
  replace (2 ^ 32) with (2 ^ (32 - k) * 2 ^ k) by (rewrite <- Z.pow_add_r by lia; f_equal; lia).
  apply Z.mul_mod_distr_r; apply Z.pow_nonzero; lia.
Qed.

(** Dividing by a power of two the number made of a digit's place and the rest. *)
Lemma div_pow_split v k j :
  0 <= k <= j -> v / 2 ^ k = v / 2 ^ j * 2 ^ (j - k) + (v mod 2 ^ j) / 2 ^ k.
Proof.
  intros H. assert (0 < 2 ^ k) by (apply Z.pow_pos_nonneg; lia).
  rewrite (Z.div_mod v (2 ^ j)) at 1 by (apply Z.pow_nonzero; lia).
  replace (2 ^ j) with (2 ^ (j - k) * 2 ^ k) at 1
    by (rewrite <- Z.pow_add_r by lia; f_equal; lia).
  replace (2 ^ (j - k) * 2 ^ k * (v / 2 ^ j) + v mod 2 ^ j)
    with (v mod 2 ^ j + (v / 2 ^ j * 2 ^ (j - k)) * 2 ^ k) by lia.
  rewrite Z.div_add by lia. lia.
Qed.

(** One step of [cvthex]: what is left of the word after its top nibble. *)
Lemma hex_step v n :
  0 <= v < 2 ^ 32 -> (n < 8)%nat ->
  let v' := u32 (Z.shiftl v 4) in
  0 <= v' < 2 ^ 32 /\
  v / 2 ^ (28 - 4 * Z.of_nat n)
  = v / 2 ^ 28 * 16 ^ Z.of_nat n + v' / 2 ^ (32 - 4 * Z.of_nat n).
Proof.
  intros Hv Hn v'. split; [apply u32_range|]. unfold v'.
  rewrite shift_out by lia. change (32 - 4) with 28.
  rewrite (div_pow_split v (28 - 4 * Z.of_nat n) 28) by lia.
  f_equal; [f_equal; change 16 with (2 ^ 4); rewrite <- Z.pow_mul_r by lia; f_equal; lia|].
  replace (2 ^ (32 - 4 * Z.of_nat n)) with (2 ^ (28 - 4 * Z.of_nat n) * 2 ^ 4)
    by (rewrite <- Z.pow_add_r by lia; f_equal; lia).
  rewrite Z.div_mul_cancel_r; [done|apply Z.pow_nonzero; lia..].
Qed.

Lemma cvthex_loop_stored i n c v :
  0 < c -> 0 <= v < 2 ^ 32 -> (n <= 8)%nat ->
  exists ds, cvthex_loop i n c v = map digit_char ds /\ length ds = n /\
    Forall (is_digit 16) ds /\ value 16 ds = v / 2 ^ (32 - 4 * Z.of_nat n).
Proof.
  revert i c v; induction n as [|n IH]; intros i c v Hc Hv Hn.
  - exists []. repeat split; [constructor|]. cbn. symmetry. apply Z.div_small. lia.
  - cbn [cvthex_loop]. unfold truth. destruct (Z.eqb_spec c 0); [lia|]. cbn [negb orb].
    rewrite top_nibble, nibble_of by done.
    destruct (hex_step v n Hv ltac:(lia)) as [Hv' E].
    destruct (IH (i + 1) (c + 1) (u32 (Z.shiftl v 4))) as (ds & -> & Hl & Hds & Hval);
      [lia|done|lia|].
    exists (v / 2 ^ 28 :: ds). cbn [map length]. rewrite Hl. repeat split.
    + constructor; [|done].
      split; [apply Z.div_pos|apply Z.div_lt_upper_bound]; lia.
    + rewrite value_cons, Hl, Hval.
      replace (32 - 4 * Z.of_nat (S n)) with (28 - 4 * Z.of_nat n) by lia. now rewrite E.
Qed.

Lemma cvthex_loop_numeral n v :
  0 <= v < 2 ^ 32 -> (0 < n <= 8)%nat ->
  exists ds, cvthex_loop (8 - Z.of_nat n) n 0 v = map digit_char ds /\
    numeral 16 (v / 2 ^ (32 - 4 * Z.of_nat n)) ds.
Proof.
  revert v; induction n as [|n IH]; intros v Hv Hn; [lia|]. cbn [cvthex_loop].
  rewrite top_nibble by done. change (truth 0) with false. cbn [orb].
  destruct (hex_step v n Hv ltac:(lia)) as [Hv' E].
  replace (32 - 4 * Z.of_nat (S n)) with (28 - 4 * Z.of_nat n) by lia. rewrite E.
  assert (0 <= v / 2 ^ 28 < 16) by
    (split; [apply Z.div_pos|apply Z.div_lt_upper_bound]; lia).
  destruct (negb (v / 2 ^ 28 * 2 ^ 28 =? 0) || (8 - Z.of_nat (S n) =? 7)) eqn:Ez.
  - rewrite nibble_of by done.
    destruct (cvthex_loop_stored (8 - Z.of_nat (S n) + 1) n (0 + 1) (u32 (Z.shiftl v 4)))
      as (ds & -> & Hl & Hds & Hval); [lia|done|lia|].
    exists (v / 2 ^ 28 :: ds). cbn [map]. split; [done|]. split; [|split; [|split]].
    + constructor; done.
    + rewrite value_cons, Hl, Hval. done.
    + done.
    + cbn [hd]. intros E0. rewrite E0 in Ez |- *.
      change (negb (0 * 2 ^ 28 =? 0)) with false in Ez. cbn [orb] in Ez. zbool.
      assert (n = 0)%nat as -> by lia. now destruct ds.
  - zbool. destruct (IH (u32 (Z.shiftl v 4))) as (ds & Hds & Hnum); [done|lia|].
    replace (8 - Z.of_nat (S n) + 1) with (8 - Z.of_nat n) by lia.
    exists ds. split; [done|]. replace (v / 2 ^ 28) with 0 by lia. done.
Qed.

Lemma cvthex_numeral v :
  0 <= v < 2 ^ 32 -> exists ds, cvthex v = map digit_char ds /\ numeral 16 v ds.
Proof.
  intros Hv. destruct (cvthex_loop_numeral 8 v Hv ltac:(lia)) as (ds & E & H).
  change (2 ^ (32 - 4 * Z.of_nat 8)) with 1 in H. rewrite Z.div_1_r in H. eauto.
Qed.

(** ** Octal: the loop takes two bits first and then shifts by three, so it
    drops bit 29 and appends a zero bit at the end. *)

Definition oct_step (v : Z) : Z := Z.shiftr (Z.land v 0xe0000000) 29.

Lemma oct_step_eq v : 0 <= v < 2 ^ 32 -> oct_step v = v / 2 ^ 29 /\ 0 <= v / 2 ^ 29 < 8.
Proof.
  intros H. unfold oct_step.
  change 0xe0000000 with (Z.ldiff (Z.ones 32) (Z.ones 29)).
  rewrite high_bits, Z.shiftr_div_pow2, Z.div_mul by lia. split; [done|].
  split; [apply Z.div_pos|apply Z.div_lt_upper_bound]; lia.
Qed.

Lemma oct_digit d : 0 <= d < 8 -> u8 (Z.land d 7 + 48) = digit_char d.
Proof.
  intros H. assert (d < 8 -> u8 (Z.land d 7 + 48) = digit_char d) as X by by_digits d.
  apply X. lia.
Qed.

Lemma oct_shift v n :
  0 <= v < 2 ^ 32 -> (n < 10)%nat ->
  v / 2 ^ (29 - 3 * Z.of_nat n)
  = v / 2 ^ 29 * 8 ^ Z.of_nat n + u32 (Z.shiftl v 3) / 2 ^ (32 - 3 * Z.of_nat n).
Proof.
  intros Hv Hn. rewrite shift_out by lia. change (32 - 3) with 29.
  rewrite (div_pow_split v (29 - 3 * Z.of_nat n) 29) by lia.
  f_equal; [f_equal; change 8 with (2 ^ 3); rewrite <- Z.pow_mul_r by lia; f_equal; lia|].
  replace (2 ^ (32 - 3 * Z.of_nat n)) with (2 ^ (29 - 3 * Z.of_nat n) * 2 ^ 3)
    by (rewrite <- Z.pow_add_r by lia; f_equal; lia).
  rewrite Z.div_mul_cancel_r; [done|apply Z.pow_nonzero; lia..].
Qed.

Lemma cvtoct_loop_stored i n val v :
  0 <= v < 2 ^ 32 -> 0 <= val < 8 -> (n <= 10)%nat ->
  exists ds, cvtoct_loop i (S n) 1 val v = map digit_char ds /\ length ds = S n /\
    Forall (is_digit 8) ds /\
    value 8 ds = val * 8 ^ Z.of_nat n + u32 (Z.shiftl v 3) / 2 ^ (32 - 3 * Z.of_nat n).
Proof.
  revert i val v; induction n as [|n IH]; intros i val v Hv Hval Hn.
  - exists [val]. cbn [cvtoct_loop]. unfold truth. cbn [Z.eqb negb].
    rewrite orb_true_r, oct_digit by done. repeat split.
    + constructor; [done|constructor].
    + cbn. change (Z.pow_pos 2 32) with (2 ^ 32).
      rewrite (Z.div_small (u32 _)) by apply u32_range. lia.
  - set (v' := u32 (Z.shiftl v 3)). pose proof (u32_range (Z.shiftl v 3)) as Hv'.
    destruct (oct_step_eq v' Hv') as [E Hr].
    destruct (IH (i + 1) (oct_step v') v' Hv' ltac:(lia) ltac:(lia))
      as (ds & Eds & Hl & Hds & Hv2).
    exists (val :: ds).
    change (cvtoct_loop i (S (S n)) 1 val v)
      with (if (i =? 10) || negb (val =? 0) || true
            then u8 (Z.land val 7 + 48) :: cvtoct_loop (i + 1) (S n) 1 (oct_step v') v'
            else cvtoct_loop (i + 1) (S n) 1 (oct_step v') v').
    rewrite orb_true_r, oct_digit, Eds by done. cbn [map length]. rewrite Hl.
    repeat split; [constructor; done|].
    rewrite value_cons, Hl, Hv2, E.
    replace (32 - 3 * Z.of_nat (S n)) with (29 - 3 * Z.of_nat n) by lia.
    now rewrite (oct_shift v' n) by lia.
Qed.

Lemma cvtoct_loop_numeral n val v :
  0 <= v < 2 ^ 32 -> 0 <= val < 8 -> (n <= 10)%nat ->
  exists ds, cvtoct_loop (10 - Z.of_nat n) (S n) 0 val v = map digit_char ds /\
    numeral 8 (val * 8 ^ Z.of_nat n + u32 (Z.shiftl v 3) / 2 ^ (32 - 3 * Z.of_nat n)) ds.
Proof.
  revert val v; induction n as [|n IH]; intros val v Hv Hval Hn.
  - exists [val]. cbn [cvtoct_loop Z.of_nat]. change (10 - 0 =? 10) with true. cbn [orb].
    rewrite oct_digit by done. split; [done|]. split; [|split; [|split]].
    + constructor; [done|constructor].
    + cbn. change (Z.pow_pos 2 32) with (2 ^ 32).
      rewrite (Z.div_small (u32 _)) by apply u32_range. lia.
    + done.
    + cbn. now intros ->.
  - set (v' := u32 (Z.shiftl v 3)). pose proof (u32_range (Z.shiftl v 3)) as Hv'.
    destruct (oct_step_eq v' Hv') as [E Hr].
    replace (32 - 3 * Z.of_nat (S n)) with (29 - 3 * Z.of_nat n) by lia.
    rewrite (oct_shift v' n), <- E by lia.
    destruct (Z.eqb_spec val 0) as [->|Hne].
    + destruct (IH (oct_step v') v' Hv' ltac:(lia) ltac:(lia)) as (ds & Eds & Hnum).
      exists ds. split; [|exact Hnum]. rewrite <- Eds.
      replace (10 - Z.of_nat n) with (10 - Z.of_nat (S n) + 1) by lia.
      cbn [cvtoct_loop]. fold v'. fold (oct_step v').
      destruct (Z.eqb_spec (10 - Z.of_nat (S n)) 10); [lia|]. done.
    + destruct (cvtoct_loop_stored (10 - Z.of_nat (S n) + 1) n (oct_step v') v' Hv'
                  ltac:(lia) ltac:(lia)) as (ds & Eds & Hl & Hds & Hv2).
      exists (val :: ds). split.
      * cbn [map]. rewrite <- Eds, <- oct_digit by done.
        cbn [cvtoct_loop]. fold v'. fold (oct_step v').
        destruct (Z.eqb_spec val 0); [done|]. now rewrite orb_true_r.
      * split; [constructor; done|]. split; [now rewrite value_cons, Hl, Hv2|].
        split; [done|]. cbn. done.
Qed.

Lemma cvtoct_numeral v :
  0 <= v < 2 ^ 32 ->
  exists ds, cvtoct v = map digit_char ds /\
    numeral 8 (v / 2 ^ 30 * 8 ^ 10 + 2 * (v mod 2 ^ 29)) ds.
Proof.
  intros Hv. unfold cvtoct.
  change 0xc0000000 with (Z.ldiff (Z.ones 32) (Z.ones 30)).
  rewrite high_bits, Z.shiftr_div_pow2, Z.div_mul by lia.
  destruct (cvtoct_loop_numeral 10 (v / 2 ^ 30) v Hv) as (ds & E & H); [|lia|].
  { split; [apply Z.div_pos|apply Z.div_lt_upper_bound]; lia. }
  exists ds. split; [exact E|].
  replace (2 * (v mod 2 ^ 29)) with (u32 (Z.shiftl v 3) / 2 ^ (32 - 3 * Z.of_nat 10)); [done|].
  rewrite shift_out by lia. change (2 ^ (32 - 3 * Z.of_nat 10)) with 4.
  change (32 - 3) with 29. change (2 ^ 3) with (2 * 4).
  rewrite Z.mul_assoc, Z.div_mul by lia. lia.
Qed.

(** * Reading digits *)

Lemma s32_cong x y : u32 x = u32 y -> s32 x = s32 y.
Proof. unfold s32. now intros ->. Qed.

Lemma s32_mul_add x b d : s32 (s32 x * b + d) = s32 (x * b + d).
Proof.
  apply s32_cong. rewrite <- (u32_add_l (s32 x * b)), <- (u32_mul_l (s32 x)), u32_s32.
  now rewrite u32_mul_l, u32_add_l.
Qed.

Lemma s32_mul x b : s32 (s32 x * b) = s32 (x * b).
Proof. pose proof (s32_mul_add x b 0) as H. now rewrite !Z.add_0_r in H. Qed.

(** The radices for which every character of [hexdigits] up to the last digit
    is accepted: in the other ones [bchar] falls between '9' and 'A'. *)
Definition good_base (b : Z) : Prop := 2 <= b <= 10 \/ b = 16.

Definition base_char (b : Z) : Z := if b =? 16 then 70 else 48 + b - 1.

Lemma read_digit b d :
  good_base b -> is_digit b d ->
  s8 (digit_char d) = digit_char d /\ digit_char d <> 0 /\ digit_char d <> 45 /\
  find_char hexdigits (UCASE (digit_char d)) 0 = Some d /\
  (base_char b <? digit_char d) = false.
Proof.
  intros Hb Hd. unfold good_base, is_digit in *.
  assert (s8 (digit_char d) = digit_char d /\ digit_char d <> 0 /\ digit_char d <> 45 /\
          find_char hexdigits (UCASE (digit_char d)) 0 = Some d) as (H1 & H2 & H3 & H4).
  { by_digits d; repeat split; congruence. }
  repeat (split; [done|]). unfold base_char. destruct (Z.eqb_spec b 16) as [->|Hn].
  - assert ((70 <? digit_char d) = false) as X by by_digits d. exact X.
  - rewrite digit_char_dec by lia. rewrite u8_small by lia. apply Z.ltb_ge. lia.
Qed.

Definition str2int_loop (b bchar : Z) : Z * Z -> K (Z * Z + Z) := fun '(str, num) =>
  c <- load_char str ;;
  if c =? 0 then ret (inr num)
  else
    match find_char hexdigits (UCASE c) 0 with
    | None => ret (inr num)
    | Some digit =>
        if bchar <? nth (Z.to_nat digit) hexdigits 0 then ret (inr num)
        else ret (inl (u32 (str + 1), s32 (num * b + digit)))
    end.

Lemma str2int_loop_eq b ds a num s :
  good_base b -> Forall (is_digit b) ds -> cstring (st_mem s) a (map digit_char ds) ->
  0 <= a -> a + Z.of_nat (length ds) < 2 ^ 32 ->
  loop (str2int_loop b (base_char b)) (a, s32 num) s
  = Ret (s32 (fold_left (fun acc d => acc * b + d) ds num)) s.
Proof.
  intros Hb Hds Hc Ha Hl. apply (loop_intro _ (S (length ds))); [lia|].
  revert a num Hc Ha Hl. induction Hds as [|d ds Hd Hds IH]; intros a num Hc Ha Hl;
    cbn [map cstring length fold_left] in *.
  - apply loopN_done. unfold str2int_loop. now rewrite load_char_bind, Hc.
  - destruct Hc as (E & Hn & Hc).
    destruct (read_digit b d Hb Hd) as (E1 & E2 & E3 & E4 & E5).
    rewrite loopN_step with (a' := (a + 1, s32 (num * b + d))) (s' := s).
    + apply IH; [done|lia..].
    + unfold str2int_loop. rewrite load_char_bind, E, E1, E4.
      destruct (Z.eqb_spec (digit_char d) 0); [done|]. fold (digit_char d). rewrite E5.
      rewrite u32_small by lia. unfold ret. do 3 f_equal. apply s32_mul_add.
Qed.

(** The character after the first is not a radix prefix letter. *)
Lemma second_char_digit b ds m a :
  good_base b -> Forall (is_digit b) ds -> cstring m a (map digit_char ds) ->
  let c1 := s8 (ld8 m (a + 1)) in
  ds <> [] -> (c1 =? 120) || (c1 =? 88) = false /\
              (b = 2 -> (c1 =? 98) || (c1 =? 66) = false).
Proof.
  intros Hb Hds Hc c1 Hne. destruct Hds as [|d ds Hd Hds]; [done|].
  destruct Hc as (_ & _ & Hc). destruct Hds as [|e ds He Hds]; cbn [map cstring] in Hc.
  - unfold c1. now rewrite Hc.
  - destruct Hc as (E & _ & _). unfold c1. rewrite E.
    unfold good_base, is_digit in *. split.
    + assert (e < 16 -> (s8 (digit_char e) =? 120) || (s8 (digit_char e) =? 88) = false) as X
        by by_digits e. apply X. lia.
    + intros ->. rewrite digit_char_dec by lia. assert (e = 0 \/ e = 1) as [-> | ->] by lia;
        reflexivity.
Qed.

Lemma str2int_eq b (neg : bool) ds a s :
  good_base b -> Forall (is_digit b) ds -> ds <> [] ->
  cstring (st_mem s) a ((if neg then [45] else []) ++ map digit_char ds) ->
  0 <= a -> a + 1 + Z.of_nat (length ds) < 2 ^ 32 ->
  str2int a b s = Ret (s32 (if neg then - value b ds else value b ds)) s.
Proof.
  intros Hb Hds Hne Hc Ha Hl.
  set (a' := if neg then a + 1 else a).
  assert (cstring (st_mem s) a' (map digit_char ds)) as Hc'.
  { unfold a'. destruct neg; [|exact Hc]. apply (cstring_app _ _ [45]) in Hc. exact Hc. }
  assert (0 <= a' <= a + 1) as Ha' by (unfold a'; destruct neg; lia).
  assert (0 < length ds)%nat by (destruct ds; [done|cbn; lia]).
  destruct (second_char_digit b ds (st_mem s) a' Hb Hds Hc' Hne) as [Hx Hb2].
  assert ((if s8 (ld8 (st_mem s) a) =? 45 then (-1, u32 (a + 1)) else (1, a))
          = (if neg then -1 else 1, a')) as Esign.
  { unfold a'. destruct neg.
    - destruct Hc as (-> & _). change (s8 45 =? 45) with true. now rewrite u32_small by lia.
    - destruct Hds as [|d ds Hd Hds]; [done|]. destruct Hc as (-> & _).
      destruct (read_digit b d Hb Hd) as (-> & _ & Hd45 & _).
      destruct (Z.eqb_spec (digit_char d) 45); done. }
  unfold str2int. rewrite load_char_bind, Esign. rewrite !load_char_bind.
  rewrite (u32_small (a' + 1)) by lia.
  match goal with |- (let '(_, _) := ?t in _) _ = _ =>
    assert (t = (base_char b, a')) as -> end.
  { unfold base_char, good_base in *. destruct (Z.eqb_spec b 10) as [->|H10]; [done|].
    cbn [negb]. destruct (Z.eqb_spec b 16) as [->|H16].
    - now rewrite Hx, andb_false_r.
    - assert (s8 (48 + b - 1) = 48 + b - 1) as ->.
      { unfold s8. rewrite u8_small by lia. cbv zeta.
        destruct (Z.ltb_spec (48 + b - 1) (2 ^ 7)); lia. }
      destruct (Z.eqb_spec b 2) as [->|]; [|done].
      rewrite (Hb2 eq_refl). now rewrite andb_false_r. }
  change (loop _ (a', 0)) with (loop (str2int_loop b (base_char b)) (a', s32 0)).
  rewrite (bind_Ret _ _ _ _ _ (str2int_loop_eq b ds a' 0 s Hb Hds Hc' ltac:(lia) ltac:(lia))).
  fold (value b ds). unfold ret. f_equal. rewrite s32_mul. f_equal. destruct neg; lia.
Qed.

Lemma value_bound b ds : 0 < b -> Forall (is_digit b) ds -> 0 <= value b ds < b ^ Z.of_nat (length ds).
Proof.
  intros Hb. induction 1 as [|d ds Hd Hds IH]; [cbn; lia|].
  rewrite value_cons. cbn [length]. rewrite Nat2Z.inj_succ, Z.pow_succ_r by lia.
  unfold is_digit in Hd. nia.
Qed.

(** [cvtdec] covers the most negative integer too: its digits are those of
    2^31. *)
Lemma cvtdec_eq v :
  - 2 ^ 31 <= v < 2 ^ 31 ->
  exists ds, cvtdec v = ((if v <? 0 then [45] else []) ++ map digit_char ds)%list /\
    numeral 10 (Z.abs v) ds.
Proof.
  intros Hv. unfold cvtdec. destruct (Z.ltb_spec v 0) as [Hneg|Hpos].
  - destruct (Z.eqb_spec v (- 2 ^ 31)) as [->|Hn].
    + exists [2; 1; 4; 7; 4; 8; 3; 6; 4; 8]. split; [vm_compute; reflexivity|].
      split; [repeat constructor; unfold is_digit; lia|]. repeat split; vm_compute; congruence.
    + destruct (cvtdec0_numeral (- v)) as (ds & E & H); [lia|]. exists ds.
      rewrite s32_small, E by lia. split; [done|]. now rewrite Z.abs_neq by lia.
  - destruct (cvtdec0_numeral v) as (ds & E & H); [lia|]. exists ds.
    rewrite E. split; [done|]. now rewrite Z.abs_eq by lia.
Qed.
