(* ===== verification/LibSpec.v ===== *)
(** The contracts of the library functions of lib/. *)

From S2P Require Import Prelude Memory State Lib LibMem LibNum.

Open Scope kernel_scope.

(** A state whose memory holds the string "hello" at 100 and "-17" at 200. *)
Definition ex_state : kstate :=
  boot_state (st_bytes (st_bytes ∅ 100 (chars "hello" ++ [0])) 200 (chars "-17" ++ [0]))
    (fun _ _ => 0).

(** [memmove] returns for every source and destination, overlapping or not:
    afterwards the destination holds the bytes that were at the source, and the
    rest of the machine, memory outside the destination included, is as before. *)
Theorem memmove_moves (n : nat) (dst src : Z) (s : kstate) :
  0 <= dst -> 0 <= src -> dst + Z.of_nat n < 2 ^ 32 -> src + Z.of_nat n < 2 ^ 32 ->
  exists m', memmove dst src (Z.of_nat n) s = Ret tt (up_mem (fun _ => m') s) /\
    bytes_at m' dst n = bytes_at (st_mem s) src n /\
    agree (outside dst (Z.of_nat n)) (st_mem s) m'.
Proof.
  intros. exists (st_bytes (st_mem s) dst (bytes_at (st_mem s) src n)).
  rewrite memmove_eq by done. split; [done|]. split.
  - pose proof (bytes_at_st_bytes (st_mem s) dst (bytes_at (st_mem s) src n)) as H'.
    rewrite length_bytes_at in H'. apply H', bytes_at_range.
  - pose proof (agree_st_bytes (st_mem s) dst (bytes_at (st_mem s) src n)) as H'.
    now rewrite length_bytes_at in H'.
Qed.

Lemma memmove_moves_witness :
  exists m', memmove 102 100 5 ex_state = Ret tt (up_mem (fun _ => m') ex_state) /\
    bytes_at m' 102 5 = chars "hello" /\
    agree (outside 102 5) (st_mem ex_state) m'.
Proof. exact (memmove_moves 5 102 100 ex_state ltac:(lia) ltac:(lia) ltac:(lia) ltac:(lia)). Defined.

(** C33: [blkmov], which copies by words when everything is word-aligned, has
    exactly the effect of [memmove]. *)
Theorem blkmov_is_memmove (n : nat) (dst src : Z) (s : kstate) :
  0 <= dst -> 0 <= src -> dst + Z.of_nat n < 2 ^ 32 -> src + Z.of_nat n < 2 ^ 32 ->
  blkmov dst src (Z.of_nat n) s = memmove dst src (Z.of_nat n) s.
Proof. intros. now rewrite blkmov_eq, memmove_eq. Qed.

Lemma blkmov_is_memmove_witness :
  blkmov 104 100 8 ex_state = memmove 104 100 8 ex_state.
Proof. exact (blkmov_is_memmove 8 104 100 ex_state ltac:(lia) ltac:(lia) ltac:(lia) ltac:(lia)). Defined.

(** [strcmp] answers 0 exactly for equal strings, and changes nothing. *)
Theorem strcmp_decides (a b : Z) (s1 s2 : list Z) (s : kstate) :
  cstring (st_mem s) a s1 -> cstring (st_mem s) b s2 -> 0 <= a -> 0 <= b ->
  a + Z.of_nat (length s1) < 2 ^ 32 -> b + Z.of_nat (length s2) < 2 ^ 32 ->
  exists r, strcmp a b s = Ret r s /\ (r = 0 <-> s1 = s2).
Proof.
  intros H1 H2 **. exists (str_compare s1 s2). split; [now apply strcmp_eq|].
  apply str_compare_zero; eapply cstring_chars; eassumption.
Qed.

Lemma strcmp_decides_witness :
  exists r, strcmp 100 200 ex_state = Ret r ex_state /\ (r = 0 <-> chars "hello" = chars "-17").
Proof.
  apply (strcmp_decides 100 200 (chars "hello") (chars "-17") ex_state);
    vm_compute; repeat split; congruence.
Defined.

(** [strcat] leaves the concatenation of the two strings at its destination,
    returns the destination, and changes nothing outside the appended part. *)
Theorem strcat_appends (dst src : Z) (s1 s2 : list Z) (s : kstate) :
  cstring (st_mem s) dst s1 -> cstring (st_mem s) src s2 -> 0 <= dst -> 0 <= src ->
  dst + Z.of_nat (length s1) + Z.of_nat (length s2) + 1 < 2 ^ 32 ->
  src + Z.of_nat (length s2) + 1 < 2 ^ 32 ->
  dst + Z.of_nat (length s1) + Z.of_nat (length s2) < src
    \/ src + Z.of_nat (length s2) < dst + Z.of_nat (length s1) ->
  exists m', strcat dst src s = Ret dst (up_mem (fun _ => m') s) /\
    cstring m' dst (s1 ++ s2) /\
    agree (outside (dst + Z.of_nat (length s1)) (Z.of_nat (length s2) + 1)) (st_mem s) m'.
Proof.
  intros H1 H2 Hd Hs Hl1 Hl2 Ho.
  set (m' := st_bytes (st_mem s) (dst + Z.of_nat (length s1)) (s2 ++ [0])).
  exists m'. rewrite (strcat_eq _ _ s1 s2) by done. split; [done|].
  assert (agree (outside (dst + Z.of_nat (length s1)) (Z.of_nat (length s2) + 1))
            (st_mem s) m') as Hag.
  { unfold m'. pose proof (agree_st_bytes (st_mem s) (dst + Z.of_nat (length s1)) (s2 ++ [0])) as H.
    rewrite length_app in H. cbn [length] in H.
    now replace (Z.of_nat (length s2 + 1)) with (Z.of_nat (length s2) + 1) in H by lia. }
  split; [|done]. apply cstring_join.
  - eapply cstring_chars, H1.
  - intros i c Hi. rewrite Hag by (unfold outside; apply lookup_lt_Some in Hi; lia).
    now apply (cstring_lookup _ _ s1).
  - unfold m'. apply cstring_stored. eapply cstring_chars, H2.
Qed.

Lemma strcat_appends_witness :
  exists m', strcat 100 200 ex_state = Ret 100 (up_mem (fun _ => m') ex_state) /\
    cstring m' 100 (chars "hello-17") /\
    agree (outside 105 4) (st_mem ex_state) m'.
Proof.
  apply (strcat_appends 100 200 (chars "hello") (chars "-17") ex_state);
    vm_compute; intuition congruence.
Defined.

(** C34: [str2int] in base 10 reads back the text of [cvtdec], for every 32-bit
    integer, the most negative one included. *)
Theorem str2int_cvtdec (v a : Z) (s : kstate) :
  - 2 ^ 31 <= v < 2 ^ 31 -> cstring (st_mem s) a (cvtdec v) ->
  0 <= a -> a + 1 + Z.of_nat (length (cvtdec v)) < 2 ^ 32 ->
  str2int a 10 s = Ret v s.
Proof.
  intros Hv Hc Ha Hl. destruct (cvtdec_eq v Hv) as (ds & E & Hds & Hval & Hne & _).
  rewrite E in Hc, Hl. rewrite length_app, length_map in Hl.
  assert (good_base 10) as Hb by (left; lia).
  destruct (Z.ltb_spec v 0).
  - rewrite (str2int_eq 10 true ds a s Hb Hds Hne Hc) by (lia || (cbn in Hl; lia)).
    rewrite Hval, s32_small by lia. f_equal. lia.
  - rewrite (str2int_eq 10 false ds a s Hb Hds Hne Hc) by (lia || (cbn in Hl; lia)).
    rewrite Hval, s32_small by lia. f_equal. lia.
Qed.

Lemma str2int_cvtdec_witness : str2int 200 10 ex_state = Ret (-17) ex_state.
Proof. apply (str2int_cvtdec (-17) 200 ex_state); vm_compute; intuition congruence. Defined.

(** [str2int] in base 16 reads back the text of [cvthex], as a signed word. *)
Theorem str2int_cvthex (v a : Z) (s : kstate) :
  0 <= v < 2 ^ 32 -> cstring (st_mem s) a (cvthex v) ->
  0 <= a -> a + 1 + Z.of_nat (length (cvthex v)) < 2 ^ 32 ->
  str2int a 16 s = Ret (s32 v) s.
Proof.
  intros Hv Hc Ha Hl. destruct (cvthex_numeral v Hv) as (ds & E & Hds & Hval & Hne & _).
  rewrite E in Hc, Hl. rewrite length_map in Hl.
  rewrite (str2int_eq 16 false ds a s (or_intror eq_refl) Hds Hne Hc) by lia.
  now rewrite Hval.
Qed.

Lemma str2int_cvthex_witness :
  str2int 300 16 (up_mem (fun m => st_bytes m 300 (chars "BEEF" ++ [0])) ex_state)
  = Ret 48879 (up_mem (fun m => st_bytes m 300 (chars "BEEF" ++ [0])) ex_state).
Proof. apply (str2int_cvthex 0xbeef); vm_compute; intuition congruence. Defined.

(** [cvtoct] does not produce the octal digits of its argument: for an
    argument below 2^29 they are the digits of twice the argument. *)
Theorem cvtoct_doubles (v : Z) :
  0 <= v < 2 ^ 29 ->
  exists ds, cvtoct v = map digit_char ds /\ numeral 8 (2 * v) ds.
Proof.
  intros Hv. destruct (cvtoct_numeral v ltac:(lia)) as (ds & E & H).
  exists ds. split; [done|]. rewrite Z.div_small, Z.mod_small in H by lia. exact H.
Qed.

Lemma cvtoct_doubles_witness :
  cvtoct 8 = chars "20" /\ exists ds, cvtoct 8 = map digit_char ds /\ numeral 8 16 ds.
Proof. split; [reflexivity | apply (cvtoct_doubles 8); lia]. Defined.
