(* ===== verification/ULibc.v ===== *)
(** misc/lib/unames: the C library under the names that a separate user level would link,
    for user programs in a file of their own.  The functions are those of Lib.v, text for
    text, except [ustr2int], which is an older version of [str2int]. *)

From S2P Require Import Prelude Memory State Lib LibMem LibNum.

Open Scope kernel_scope.

Definition umemclr : Z -> Z -> K unit := memclr.
Definition umemset : Z -> Z -> Z -> K unit := memset.
Definition umemcpy : Z -> Z -> Z -> K unit := memcpy.
Definition umemmove : Z -> Z -> Z -> K unit := memmove.
Definition ublkmov : Z -> Z -> Z -> K unit := blkmov.
Definition ustrlen : Z -> K Z := strlen.
Definition ustrcmp : Z -> Z -> K Z := strcmp.
Definition ustrcpy : Z -> Z -> K Z := strcpy.
Definition ustrcat : Z -> Z -> K Z := strcat.
Definition ubound : Z -> Z -> Z -> Z := bound.
Definition ucvtdec0 : Z -> list Z := cvtdec0.
Definition ucvtdec : Z -> list Z := cvtdec.
Definition ucvtuns0 : Z -> list Z := cvtuns0.
Definition ucvtuns : Z -> list Z := cvtuns.
Definition ucvthex : Z -> list Z := cvthex.
Definition ucvtoct : Z -> list Z := cvtoct.
Definition upad : Z -> Z -> list Z := pad.
Definition upadstr : list Z -> Z -> Z -> Z -> Z -> list Z := padstr.
Definition usprint {S} : list Z -> list arg -> M S (list Z) := sprint.

(** No prefixes and no letters: a digit is a character from '0' to [bchar]. *)
Definition ustr2int (str base : Z) : K Z :=
  c <- load_char str ;;
  let '(sign, str) := if c =? 45 then (-1, u32 (str + 1)) else (1, str) in
  let bchar := if negb (base =? 10) then s8 (48 + base - 1) else 57 in
  num <- loop (fun '(str, num) =>
    c <- load_char str ;;
    if c =? 0 then ret (inr num)
    else if (c <? 48) || (bchar <? c) then ret (inr num)
    else ret (inl (u32 (str + 1), s32 (num * base + c - 48)))) (str, 0) ;;
  ret (s32 (num * sign)).

(** ** Decimal numbers *)

Lemma loop_ext {S A B} (f g : A -> M S (A + B)) a s : (forall a s, f a s = g a s) -> loop f a s = loop g a s.
Proof.
  intros Hfg. unfold loop, bind. rewrite !loopP_loopN.
  assert (forall n a s, loopN n f a s = loopN n g a s) as ->; [|reflexivity].
  induction n as [|n IH]; intros a0 s0; cbn [loopN]; [reflexivity|]. unfold bind. rewrite Hfg.
  destruct (g a0 s0) as [[a1|b] s1| | |]; try reflexivity. apply IH.
Qed.

(** The digits of the two versions. *)
Definition decimal (c : Z) : option Z := if (c <? 48) || (57 <? c) then None else Some (c - 48).

Lemma decimal_find c : -128 <= c < 128 -> c <> 0 ->
  match find_char hexdigits (UCASE c) 0 with
  | Some d => if 57 <? nth (Z.to_nat d) hexdigits 0 then None else Some d
  | None => None
  end = decimal c.
Proof.
  intros Hc H0. assert (forallb (fun c => match match find_char hexdigits (UCASE c) 0 with
      | Some d => if 57 <? nth (Z.to_nat d) hexdigits 0 then None else Some d | None => None end, decimal c with
      | Some x, Some y => x =? y | None, None => true | _, _ => c =? 0 end) (seqZ (-128) 256) = true) as Hall by (vm_compute; reflexivity).
  rewrite forallb_forall in Hall. specialize (Hall c ltac:(apply list_elem_of_In, elem_of_seqZ; lia)). cbv beta in Hall.
  destruct (match find_char hexdigits (UCASE c) 0 with Some _ => _ | None => _ end) as [x|], (decimal c) as [y|];
    [apply Z.eqb_eq in Hall; congruence|apply Z.eqb_eq in Hall; contradiction..|reflexivity].
Qed.

Lemma s8_range x : -128 <= s8 x < 128.
Proof. unfold s8. cbv zeta. pose proof (u8_range x). destruct (Z.ltb_spec (u8 x) (2 ^ 7)); lia. Qed.

(** In base 10 the older version reads the same numbers, on every string. *)
Theorem ustr2int_decimal str s : ustr2int str 10 s = str2int str 10 s.
Proof.
  unfold ustr2int, str2int. rewrite !load_char_bind. destruct (if s8 (ld8 (st_mem s) str) =? 45 then _ else _) as [sign a].
  rewrite !load_char_bind. cbn [Z.eqb Pos.eqb negb]. cbv beta iota zeta. apply bind_ext.
  apply loop_ext. intros [ptr num] s1. rewrite !load_char_bind. set (c := s8 _). destruct (Z.eqb_spec c 0) as [|H0]; [reflexivity|].
  pose proof (decimal_find c (s8_range _) H0) as Hd. unfold decimal in Hd.
  destruct (find_char hexdigits (UCASE c) 0) as [d|]; [destruct (57 <? nth (Z.to_nat d) hexdigits 0)|];
    destruct ((c <? 48) || (57 <? c)); try discriminate Hd; try reflexivity.
  injection Hd as ->. unfold ret. do 3 f_equal. f_equal. lia.
Qed.

(** In base 16 it has no letters. *)
Lemma ustr2int_hex : exists s,
  cstring (st_mem s) 0 (chars "1F") /\ str2int 0 16 s = Ret 31 s /\ ustr2int 0 16 s = Ret 1 s.
Proof.
  exists (boot_state (st_bytes ∅ 0 (chars "1F" ++ [0])) (fun _ _ => 0)). split; [|split; vm_compute; reflexivity].
  vm_compute. intuition congruence.
Qed.
