(* ===== verification/Sio.v ===== *)
(** kernel/sio.c: the serial device.  The input and output character buffers,
    the interrupt enable register and the routines the rest of the kernel
    calls; the interrupt handler, which also wakes processes, is in Drivers.v. *)

From S2P Require Import Prelude Memory State Lib.

Open Scope kernel_scope.

(** * Ports and constants (x86/uart.h, sio.h, support.c) *)

Definition UA4_TXD : Z := 0x3f8.
Definition UA4_RXD : Z := 0x3f8.
Definition UA4_DLL : Z := 0x3f8.
Definition UA4_DLM : Z := 0x3f9.
Definition UA4_IER : Z := 0x3f9.
Definition UA4_IIR : Z := 0x3fa.
Definition UA5_FCR : Z := 0x3fa.
Definition UA4_LCR : Z := 0x3fb.
Definition UA4_MCR : Z := 0x3fc.
Definition UA4_LSR : Z := 0x3fd.
Definition UA4_MSR : Z := 0x3fe.
Definition UA4_IER_RX_IE : Z := 1.
Definition UA4_IER_TX_IE : Z := 2.
Definition UA4_LSR_RXDA : Z := 1.
Definition SIO_TX : Z := 1.
Definition SIO_RX : Z := 2.
Definition BUF_SIZE : Z := 1024.
Definition VEC_COM1 : Z := 0x24.

(** [install_isr] of support.c: returns the handler it replaces. *)
Definition install_isr (vector : Z) (h : handler) : K handler :=
  t <- krn isr_table ;;
  old <- aget "isr_table index" t vector ;;
  krn_set (set_isr_table (aset t vector h)) ;;
  ret old.

(** Character sources for [const char *] arguments: the flat memory, or a
    buffer of the kernel itself given by its bytes. *)
Definition source := Z -> K Z.
Definition mem_source (buf : Z) : source := fun i => load_char (u32 (buf + i)).
Definition lit_source (l : list Z) : source := fun i =>
  c <- aget "string overrun" (l ++ [0])%list i ;; ret (s8 c).

(** * Operations *)

Definition sio_enable (which : Z) : K Z :=
  old <- sio ier ;;
  when (truth (Z.land which SIO_TX))
    (sio_set (fun r => set_ier (Z.lor (ier r) UA4_IER_TX_IE) r)) ;;
  when (truth (Z.land which SIO_RX))
    (sio_set (fun r => set_ier (Z.lor (ier r) UA4_IER_RX_IE) r)) ;;
  new <- sio ier ;;
  when (negb (old =? new)) (outb UA4_IER new) ;;
  ret old.

Definition sio_disable (which : Z) : K Z :=
  old <- sio ier ;;
  when (truth (Z.land which SIO_TX))
    (sio_set (fun r => set_ier (Z.ldiff (ier r) UA4_IER_TX_IE) r)) ;;
  when (truth (Z.land which SIO_RX))
    (sio_set (fun r => set_ier (Z.ldiff (ier r) UA4_IER_RX_IE) r)) ;;
  new <- sio ier ;;
  when (negb (old =? new)) (outb UA4_IER new) ;;
  ret old.

Definition sio_flush (which : Z) : K unit :=
  when (negb (Z.land which SIO_RX =? 0))
    (sio_set (set_incount 0) ;;
     sio_set (set_inlast 0) ;;
     sio_set (set_innext 0) ;;
     lsr <- inb UA4_LSR ;;
     loop (fun lsr =>
       if negb (Z.land lsr UA4_LSR_RXDA =? 0) then
         inb UA4_RXD ;;
         lsr <- inb UA4_LSR ;;
         ret (inl lsr)
       else ret (inr tt)) lsr) ;;
  when (negb (Z.land which SIO_TX =? 0))
    (sio_set (set_outcount 0) ;;
     sio_set (set_outlast 0) ;;
     sio_set (set_outnext 0) ;;
     sio_set (set_sending 0)).

Definition sio_inq_length : K Z := sio incount.

Definition sio_readc : K Z :=
  n <- sio incount ;;
  if 0 <? n then
    i <- sio innext ;;
    buf <- sio inbuffer ;;
    c <- aget "inbuffer overrun" buf i ;;
    sio_set (set_innext (i + 1)) ;;
    sio_set (set_incount (n - 1)) ;;
    when (n - 1 <? 1) (sio_set (set_inlast 0) ;; sio_set (set_innext 0)) ;;
    ret c
  else ret (-1).

Definition sio_read (buf length : Z) : K Z :=
  n <- sio incount ;;
  if n <? 1 then ret 0
  else
    copied <- loop (fun '(ptr, copied) =>
      n <- sio incount ;;
      if (0 <? n) && (copied <? length) then
        i <- sio innext ;;
        b <- sio inbuffer ;;
        c <- aget "inbuffer overrun" b i ;;
        store8 ptr c ;;
        sio_set (set_innext (i + 1)) ;;
        when (BUF_SIZE <? i + 1) (sio_set (set_innext 0)) ;;
        sio_set (set_incount (n - 1)) ;;
        ret (inl (u32 (ptr + 1), copied + 1))
      else ret (inr copied)) (buf, 0) ;;
    n <- sio incount ;;
    when (n <? 1) (sio_set (set_inlast 0) ;; sio_set (set_innext 0)) ;;
    ret copied.

(** [*outlast++ = ch] *)
Definition put_outlast (ch : Z) : K unit :=
  i <- sio outlast ;;
  b <- sio outbuffer ;;
  if in_bounds b i then
    sio_set (set_outbuffer (aset b i (u8 ch))) ;;
    sio_set (set_outlast (i + 1))
  else undef "outbuffer overrun".

(** [sio_writec] on a character that is not a line feed. *)
Definition sio_writec_raw (ch : Z) : K unit :=
  busy <- sio sending ;;
  if truth busy then
    put_outlast ch ;;
    sio_set (fun r => set_outcount (u32 (outcount r + 1)) r)
  else
    sio_set (set_sending 1) ;;
    outb UA4_TXD ch ;;
    sio_enable SIO_TX ;;
    ret tt.

Definition sio_writec (ch : Z) : K unit :=
  when (ch =? 10) (sio_writec_raw 13) ;;
  sio_writec_raw ch.

Definition sio_write (buffer : source) (length : Z) : K Z :=
  first <- buffer 0 ;;
  busy <- sio sending ;;
  copied <- loop (fun '(ptr, copied) =>
    n <- sio outcount ;;
    if (copied <? length) && (n <? BUF_SIZE) then
      c <- buffer ptr ;;
      put_outlast c ;;
      i <- sio outlast ;;
      when (BUF_SIZE <=? i) (sio_set (set_outlast 0)) ;;
      sio_set (set_outcount (u32 (n + 1))) ;;
      ret (inl (ptr + 1, copied + 1))
    else ret (inr copied)) (if truth busy then (0, 0) else (1, 1)) ;;
  busy <- sio sending ;;
  when (negb (truth busy)) (sio_writec first) ;;
  ret copied.

Definition sio_puts (buffer : list Z) : K Z :=
  let n := Z.of_nat (length buffer) in
  sio_write (lit_source buffer) n ;;
  ret n.

Definition sio_putchar (ch : Z) : K unit :=
  sio_write (lit_source [u8 ch]) 1 ;;
  ret tt.
