(* ===== verification/Cio.v ===== *)
(** kernel/cio.c: the console.  Output to the video memory, with scrolling and
    optional duplication to the serial device; formatted output; the keyboard
    scan code translation and the circular input buffer. *)

From S2P Require Import Prelude Memory State Lib Sio.

Open Scope kernel_scope.

(** * Constants (x86/vga.h, x86/kbd.h, cio.c; the Makefile defines VIDEO_BW and
    CIO_DUP2_SIO) *)

Definition VID_BASE_ADDR : Z := 0xB8000.
Definition SCREEN_MIN_X : Z := 0.
Definition SCREEN_MIN_Y : Z := 0.
Definition SCREEN_X_SIZE : Z := 80.
Definition SCREEN_Y_SIZE : Z := 25.
Definition SCREEN_MAX_X : Z := SCREEN_X_SIZE - 1.
Definition SCREEN_MAX_Y : Z := SCREEN_Y_SIZE - 1.
Definition VGA_DEFAULT : Z := 0x7000.
Definition VGA_CTRL_IX_ADDR : Z := 0x3d4.
Definition VGA_CTRL_IX_DATA : Z := 0x3d5.
Definition VGA_CTRL_CUR_HIGH : Z := 0x0e.
Definition VGA_CTRL_CUR_LOW : Z := 0x0f.
Definition BMASK5 : Z := 0x1f.
Definition BMASK8 : Z := 0xff.
Definition EOT : Z := 4.
Definition CIO_OPT_DUP : Z := 0.
Definition KBD_DATA : Z := 0x60.
Definition KBD_STATUS : Z := 0x64.
Definition KBD_IN_READY : Z := 1.
Definition VEC_KBD : Z := 0x21.
Definition EFL_IF : Z := 0x200.
Definition PIC1_CMD : Z := 0x20.
Definition PIC_EOI : Z := 0x20.

Definition VIDEO_ADDR (x y : Z) : Z := VID_BASE_ADDR + 2 * (y * SCREEN_X_SIZE + x).

Definition vput (addr c : Z) : K unit :=
  cio_set (fun r => set_vram (<[addr := u16 c]> (vram r)) r).
Definition vget (addr : Z) : K Z :=
  v <- cio vram ;; ret (default 0 (v !! addr)).

Definition ISPRINT (c : Z) : bool :=
  ((32 <=? c) && (c <? 127)) || (c =? 10) || (c =? 9).

(** * Output *)

Definition setcursor : K unit :=
  y <- cio curr_y ;;
  smy <- cio scroll_max_y ;;
  x <- cio curr_x ;;
  let y := if smy <? y then smy else y in
  let addr := u32 (y * SCREEN_X_SIZE + x) in
  outb VGA_CTRL_IX_ADDR VGA_CTRL_CUR_HIGH ;;
  outb VGA_CTRL_IX_DATA (Z.land (Z.shiftr addr 8) BMASK8) ;;
  outb VGA_CTRL_IX_ADDR VGA_CTRL_CUR_LOW ;;
  outb VGA_CTRL_IX_DATA (Z.land addr BMASK8).

Definition putchar_at (x y c : Z) : K unit :=
  r <- cio (fun r => r) ;;
  if (x <=? max_x r) && (y <=? max_y r) then
    let c := Z.land c 0xffff in
    vput (VIDEO_ADDR x y) (if BMASK8 <? c then c else Z.lor c VGA_DEFAULT) ;;
    if negb (truth (dup_to_sio r))
       || (x <? scroll_min_x r) || (scroll_max_x r <? x)
       || (y <? scroll_min_y r) || (scroll_max_y r <? y)
    then ret tt
    else
      let ch := Z.land c 0xff in
      if ISPRINT ch then sio_writec ch
      else
        buf <- sprint (chars "\x%02x") [AI ch] ;;
        sio_write (lit_source buf) 4 ;;
        ret tt
  else ret tt.

Definition cio_setscroll (s_min_x s_min_y s_max_x s_max_y : Z) : K unit :=
  r <- cio (fun r => r) ;;
  cio_set (set_scroll_min_x (bound (min_x r) s_min_x (max_x r))) ;;
  cio_set (set_scroll_min_y (bound (min_y r) s_min_y (max_y r))) ;;
  sx <- cio scroll_min_x ;;
  sy <- cio scroll_min_y ;;
  cio_set (set_scroll_max_x (bound sx s_max_x (max_x r))) ;;
  cio_set (set_scroll_max_y (bound sy s_max_y (max_y r))) ;;
  cio_set (set_curr_x sx) ;;
  cio_set (set_curr_y sy) ;;
  setcursor.

Definition cio_moveto (x y : Z) : K unit :=
  r <- cio (fun r => r) ;;
  cio_set (set_curr_x (bound (scroll_min_x r) (u32 (x + scroll_min_x r)) (scroll_max_x r))) ;;
  cio_set (set_curr_y (bound (scroll_min_y r) (u32 (y + scroll_min_y r)) (scroll_max_y r))) ;;
  setcursor.

(** The echo of a line feed to the serial device: [dup_to_sio] was saved in
    [dup2sio_bak] and cleared before the line was blanked. *)
Definition newline_dup : K unit :=
  dup <- cio dup_to_sio ;;
  if truth dup then sio_writec 10
  else cio_set (fun r => set_dup_to_sio (dup2sio_bak r) r).

Definition cio_putchar_at (x y c : Z) : K unit :=
  if Z.land c 0x7f =? 10 then
    r <- cio (fun r => r) ;;
    let limit :=
      if scroll_max_x r <? x then max_x r
      else if scroll_min_x r <=? x then scroll_max_x r
      else u32 (scroll_min_x r - 1) in
    cio_set (fun r => set_dup2sio_bak (dup_to_sio r) r) ;;
    cio_set (set_dup_to_sio 0) ;;
    loop (fun x =>
      if x <=? limit then putchar_at x y 32 ;; ret (inl (u32 (x + 1)))
      else ret (inr tt)) x ;;
    newline_dup
  else putchar_at x y c.

(** One row of blanks; one row copied from another ([to] and [from] are
    addresses in the video memory). *)
Definition blank_row (to nchars : Z) : K unit :=
  loop (fun '(c, to) =>
    if c <? nchars then vput to (Z.lor 32 VGA_DEFAULT) ;; ret (inl (c + 1, to + 2))
    else ret (inr tt)) (0, to).

Definition copy_row (to from nchars : Z) : K unit :=
  loop (fun '(c, to, from) =>
    if c <? nchars then v <- vget from ;; vput to v ;; ret (inl (c + 1, to + 2, from + 2))
    else ret (inr tt)) (0, to, from).

Definition cio_clearscroll : K unit :=
  r <- cio (fun r => r) ;;
  let nchars := u32 (scroll_max_x r - scroll_min_x r + 1) in
  loop (fun l =>
    if l <=? scroll_max_y r then
      blank_row (VIDEO_ADDR (scroll_min_x r) l) nchars ;; ret (inl (u32 (l + 1)))
    else ret (inr tt)) (scroll_min_y r).

Definition cio_clearscreen : K unit :=
  r <- cio (fun r => r) ;;
  let nchars := u32 (u32 (max_y r - min_y r + 1) * u32 (max_x r - min_x r + 1)) in
  loop (fun '(to, nchars) =>
    if 0 <? nchars then
      vput to (Z.lor 32 VGA_DEFAULT) ;; ret (inl (to + 2, nchars - 1))
    else ret (inr tt)) (VIDEO_ADDR (min_x r) (min_y r), nchars).

Definition cio_scroll (lines : Z) : K unit :=
  r <- cio (fun r => r) ;;
  let nchars := s32 (scroll_max_x r - scroll_min_x r + 1) in
  if u32 (scroll_max_y r - scroll_min_y r) <? lines then
    cio_clearscroll ;;
    cio_set (set_curr_x (scroll_min_x r)) ;;
    cio_set (set_curr_y (scroll_min_y r)) ;;
    setcursor
  else
    line <- loop (fun line =>
      if line <=? u32 (scroll_max_y r - lines) then
        copy_row (VIDEO_ADDR (scroll_min_x r) line)
                 (VIDEO_ADDR (scroll_min_x r) (u32 (line + lines))) nchars ;;
        ret (inl (line + 1))
      else ret (inr line)) (scroll_min_y r) ;;
    loop (fun line =>
      if line <=? scroll_max_y r then
        blank_row (VIDEO_ADDR (scroll_min_x r) line) nchars ;;
        ret (inl (line + 1))
      else ret (inr tt)) line.

Definition cio_putchar (c : Z) : K unit :=
  cy <- cio curr_y ;;
  smy <- cio scroll_max_y ;;
  when (smy <? cy) (cio_scroll (u32 (cy - smy)) ;; cio_set (set_curr_y smy)) ;;
  (if Z.land c BMASK8 =? 10 then
     cio_set (fun r => set_dup2sio_bak (dup_to_sio r) r) ;;
     cio_set (set_dup_to_sio 0) ;;
     loop (fun _ : unit =>
       x <- cio curr_x ;;
       y <- cio curr_y ;;
       smx <- cio scroll_max_x ;;
       if x <=? smx then
         putchar_at x y 32 ;;
         cio_set (set_curr_x (u32 (x + 1))) ;;
         ret (inl tt)
       else ret (inr tt)) tt ;;
     newline_dup ;;
     cio_set (fun r => set_curr_x (scroll_min_x r) r) ;;
     cio_set (fun r => set_curr_y (u32 (curr_y r + 1)) r)
   else if Z.land c BMASK8 =? 13 then
     cio_set (fun r => set_curr_x (scroll_min_x r) r)
   else
     x <- cio curr_x ;;
     y <- cio curr_y ;;
     putchar_at x y c ;;
     cio_set (set_curr_x (u32 (x + 1))) ;;
     smx <- cio scroll_max_x ;;
     when (smx <? u32 (x + 1))
       (cio_set (fun r => set_curr_x (scroll_min_x r) r) ;;
        cio_set (fun r => set_curr_y (u32 (curr_y r + 1)) r))) ;;
  setcursor.

(** A [char] promoted to [unsigned int]. *)
Definition uchar (c : Z) : Z := u32 (s8 c).

Fixpoint cio_puts_at (x y : Z) (str : list Z) : K unit :=
  match str with
  | [] => ret tt
  | ch :: str =>
      mx <- cio max_x ;;
      if x <=? mx then
        cio_putchar_at x y (uchar ch) ;; cio_puts_at (u32 (x + 1)) y str
      else ret tt
  end.

Fixpoint cio_puts (str : list Z) : K unit :=
  match str with
  | [] => ret tt
  | ch :: str => cio_putchar (uchar ch) ;; cio_puts str
  end.

Definition cio_write (buf length : Z) : K unit :=
  loop (fun i =>
    if i <? length then
      c <- load_char (u32 (buf + i)) ;;
      cio_putchar (u32 c) ;;
      ret (inl (i + 1))
    else ret (inr tt)) 0.

(** * Formatted output.  Coordinates (-1,-1) select the scrolling family. *)

Definition mypad (x y extra padchar : Z) : K Z :=
  loop (fun '(x, extra) =>
    if 0 <? extra then
      if negb (x =? -1) || negb (y =? -1) then
        cio_putchar_at (u32 x) (u32 y) (u32 padchar) ;; ret (inl (x + 1, extra - 1))
      else cio_putchar (u32 padchar) ;; ret (inl (x, extra - 1))
    else ret (inr x)) (x, extra).

Definition mypadstr (x y : Z) (str : list Z) (len width leftadjust padchar : Z) : K Z :=
  let len := if len <? 0 then Z.of_nat (length str) else len in
  let extra := width - len in
  x <- (if (0 <? extra) && negb (truth leftadjust) then mypad x y extra padchar
        else ret x) ;;
  x <- (if negb (x =? -1) || negb (y =? -1) then
          cio_puts_at (u32 x) (u32 y) str ;; ret (x + len)
        else cio_puts str ;; ret x) ;;
  (if (0 <? extra) && truth leftadjust then mypad x y extra padchar else ret x).

(** A string up to its first NUL. *)
Fixpoint until_nul (s : list Z) : list Z :=
  match s with
  | [] => []
  | c :: s => if c =? 0 then [] else c :: until_nul s
  end.

Definition do_printf (x y : Z) (fmt : list Z) (args : list arg) : K unit :=
  loop (fun '(x, y, fmt, ap) =>
    match fmt with
    | [] => ret (inr tt)
    | ch :: fmt =>
        if ch =? 37 then
          let '(leftadjust, padchar, width, fmt) := parse_spec fmt in
          match fmt with
          | [] => undef "format string overrun"
          | ch :: fmt =>
              r <- convert ch ap ;;
              match r with
              | Some (str, len, ap) =>
                  x <- mypadstr x y (until_nul str) len width leftadjust padchar ;;
                  ret (inl (x, y, fmt, ap))
              | None => ret (inl (x, y, fmt, ap))
              end
          end
        else if negb (x =? -1) || negb (y =? -1) then
          cio_putchar_at (u32 x) (u32 y) (uchar ch) ;;
          sx <- cio scroll_min_x ;;
          ret (inl (if (ch =? 10) || (ch =? 13) then s32 sx else x + 1,
                    if ch =? 10 then y + 1 else y, fmt, ap))
        else cio_putchar (uchar ch) ;; ret (inl (x, y, fmt, ap))
    end) (x, y, fmt, args).

Definition cio_printf_at (x y : Z) (fmt : list Z) (args : list arg) : K unit :=
  do_printf (s32 x) (s32 y) fmt args.

Definition cio_printf (fmt : list Z) (args : list arg) : K unit :=
  do_printf (-1) (-1) fmt args.

(** kextras.c *)
Definition put_char_or_code (ch : Z) : K unit :=
  if (32 <=? ch) && (ch <? 127) then cio_putchar (u32 ch)
  else cio_printf (chars "\x%02x") [AI ch].

(** * Keyboard input *)

Definition row_of (s : string) : list Z := chars s.

(** The "Set 1" key codes: 255 stands for the octal escape 377. *)
Definition scan_code_unshifted : list Z :=
  [255; 27] ++ row_of "1234567890-=" ++ [8; 9] ++ row_of "qwertyuiop[]" ++ [10; 255]
  ++ row_of "asdfghjkl;" ++ [39; 96; 255; 92] ++ row_of "zxcvbnm,./" ++ [255; 42; 255; 32]
  ++ replicate 13 255 ++ row_of "789-456+1230." ++ replicate 44 255.

Definition scan_code_shifted : list Z :=
  [255; 27] ++ row_of "!@#$%^&*()_+" ++ [8; 9] ++ row_of "QWERTYUIOP{}" ++ [10; 255]
  ++ row_of "ASDFGHJKL:" ++ [34; 126; 255; 124] ++ row_of "ZXCVBNM<>?" ++ [255; 42; 255; 32]
  ++ replicate 13 255 ++ row_of "789-456+1230." ++ replicate 44 255.

Definition scan_code (shift : Z) : list Z :=
  if shift =? 0 then scan_code_unshifted else scan_code_shifted.

Definition C_BUFSIZE : Z := 200.

Definition L_SHIFT_DN : Z := 0x2a.
Definition R_SHIFT_DN : Z := 0x36.
Definition L_SHIFT_UP : Z := 0xaa.
Definition R_SHIFT_UP : Z := 0xb6.
Definition L_CTRL_DN : Z := 0x1d.
Definition L_CTRL_UP : Z := 0x9d.
Definition IS_PRESS (c : Z) : bool := Z.land c 0x80 =? 0.

Definition increment (pointer : Z) : Z :=
  let pointer := pointer + 1 in if C_BUFSIZE <=? pointer then 0 else pointer.

(** The constant ['\377'] is a [char], hence -1 when it is compared with an
    [int]. *)
Definition CHAR_377 : Z := s8 255.

Definition input_scan_code (code : Z) : K Z :=
  let code := Z.land code BMASK8 in
  if (code =? L_SHIFT_DN) || (code =? R_SHIFT_DN) then
    cio_set (set_kb_shift 1) ;; ret (-1)
  else if (code =? L_SHIFT_UP) || (code =? R_SHIFT_UP) then
    cio_set (set_kb_shift 0) ;; ret (-1)
  else if code =? L_CTRL_DN then cio_set (set_kb_ctrl_mask BMASK5) ;; ret (-1)
  else if code =? L_CTRL_UP then cio_set (set_kb_ctrl_mask BMASK8) ;; ret (-1)
  else if IS_PRESS code then
    shift <- cio kb_shift ;;
    code <- aget "scan_code" (scan_code shift) code ;;
    if negb (code =? CHAR_377) then
      space <- cio next_space ;;
      let next := increment space in
      mask <- cio kb_ctrl_mask ;;
      let rval := Z.land code mask in
      nchar <- cio next_char ;;
      when (negb (next =? nchar))
        (cio_set (fun r => set_input_buffer (aset (input_buffer r) space (u8 rval)) r) ;;
         cio_set (set_next_space next)) ;;
      ret rval
    else ret (-1)
  else ret (-1).

Section Keyboard.
(** The notification callback given to [cio_init], by its address; the kernel
    itself passes NULL. *)
Context (call_notify : Z -> Z -> K unit).

Definition keyboard_isr (vector code : Z) : K unit :=
  data <- inb KBD_DATA ;;
  val <- input_scan_code data ;;
  n <- cio notify ;;
  when (negb (val =? -1) && negb (n =? 0)) (call_notify n val) ;;
  outb PIC1_CMD PIC_EOI.
End Keyboard.

Definition cio_getchar : K Z :=
  fl <- gets (fun s => eflags (st_dev s)) ;;
  let interrupts_enabled := Z.land fl EFL_IF in
  loop (fun _ : unit =>
    nc <- cio next_char ;;
    nsp <- cio next_space ;;
    if nc =? nsp then
      when (negb (truth interrupts_enabled))
        (loop (fun _ : unit =>
           st <- inb KBD_STATUS ;;
           if Z.land st KBD_IN_READY =? 0 then ret (inl tt) else ret (inr tt)) tt ;;
         data <- inb KBD_DATA ;;
         input_scan_code data ;;
         ret tt) ;;
      ret (inl tt)
    else ret (inr tt)) tt ;;
  nc <- cio next_char ;;
  b <- cio input_buffer ;;
  v <- aget "input_buffer" b nc ;;
  let c := s8 (Z.land v BMASK8) in
  cio_set (set_next_char (increment nc)) ;;
  when (negb (c =? EOT)) (cio_putchar (u32 c)) ;;
  ret c.

Definition cio_gets (buffer size : Z) : K Z :=
  r <- loop (fun '(buffer, size, count) =>
    if 1 <? size then
      ch <- cio_getchar ;;
      if ch =? EOT then ret (inr (buffer, count))
      else
        store8 buffer ch ;;
        if ch =? 10 then ret (inr (u32 (buffer + 1), count + 1))
        else ret (inl (u32 (buffer + 1), size - 1, count + 1))
    else ret (inr (buffer, count))) (buffer, size, 0) ;;
  store8 (fst r) 0 ;;
  ret (snd r).

Definition cio_input_queue : K Z :=
  nsp <- cio next_space ;;
  nc <- cio next_char ;;
  let n_chars := nsp - nc in
  ret (if n_chars <? 0 then n_chars + C_BUFSIZE else n_chars).

(** * Initialisation and options *)

Definition cio_init (fcn : Z) : K unit :=
  cio_set (set_min_x SCREEN_MIN_X) ;;
  cio_set (set_min_y SCREEN_MIN_Y) ;;
  cio_set (set_max_x SCREEN_MAX_X) ;;
  cio_set (set_max_y SCREEN_MAX_Y) ;;
  cio_set (set_scroll_min_x SCREEN_MIN_X) ;;
  cio_set (set_scroll_min_y SCREEN_MIN_Y) ;;
  cio_set (set_scroll_max_x SCREEN_MAX_X) ;;
  cio_set (set_scroll_max_y SCREEN_MAX_Y) ;;
  cio_set (fun r => set_curr_y (min_y r) r) ;;
  cio_set (fun r => set_curr_x (min_x r) r) ;;
  setcursor ;;
  cio_set (set_notify fcn) ;;
  install_isr VEC_KBD HKeyboard ;;
  cio_clearscreen ;;
  cio_puts (chars "Console I/O is active" ++ [10])%list ;;
  cio_set (set_cio_ready 1).

Definition cio_opt_set (opt : Z) : K Z :=
  if negb (opt =? CIO_OPT_DUP) then ret (-1)
  else
    old <- cio dup_to_sio ;;
    cio_set (set_dup_to_sio 1) ;;
    ret old.

Definition cio_opt_clear (opt : Z) : K Z :=
  if negb (opt =? CIO_OPT_DUP) then ret (-1)
  else
    old <- cio dup_to_sio ;;
    cio_set (set_dup_to_sio 0) ;;
    ret old.
