(* ===== verification/Frames.v ===== *)
(** What pieces of kernel code leave alone, whatever their outcome: a predicate
    closed under sequencing and loops, and its instance for console and serial
    output. *)

From S2P Require Import Prelude Memory State Lib Sio Cio.

Open Scope kernel_scope.

(** * A relation kept by every run of an action *)

Definition end_state {A} (o : outcome kstate A) : kstate :=
  match o with Ret _ s | Panic _ s | Undef _ s | Hang s => s end.

Definition keeps (R : kstate -> kstate -> Prop) {A} (m : K A) : Prop :=
  forall s, R s (end_state (m s)).

Section Keeps.
Context (R : kstate -> kstate -> Prop) `{!PreOrder R}.

Lemma keeps_ret {A} (a : A) : keeps R (ret a).
Proof. intros s. cbn. reflexivity. Qed.

Lemma keeps_undef {A} why : keeps R (undef why : K A).
Proof. intros s. cbn. reflexivity. Qed.

Lemma keeps_panics {A} msg : keeps R (panics msg : K A).
Proof. intros s. cbn. reflexivity. Qed.

Lemma keeps_gets {A} (f : kstate -> A) : keeps R (gets f).
Proof. intros s. cbn. reflexivity. Qed.

Lemma keeps_km {A} (f : _ -> A) : keeps R (km f).
Proof. apply keeps_gets. Qed.
Lemma keeps_qs {A} (f : _ -> A) : keeps R (qs f).
Proof. apply keeps_gets. Qed.
Lemma keeps_stk {A} (f : _ -> A) : keeps R (stk f).
Proof. apply keeps_gets. Qed.
Lemma keeps_ps {A} (f : _ -> A) : keeps R (ps f).
Proof. apply keeps_gets. Qed.
Lemma keeps_clk {A} (f : _ -> A) : keeps R (clk f).
Proof. apply keeps_gets. Qed.
Lemma keeps_sio {A} (f : _ -> A) : keeps R (sio f).
Proof. apply keeps_gets. Qed.
Lemma keeps_cio {A} (f : _ -> A) : keeps R (cio f).
Proof. apply keeps_gets. Qed.
Lemma keeps_krn {A} (f : _ -> A) : keeps R (krn f).
Proof. apply keeps_gets. Qed.
Lemma keeps_load8 a : keeps R (load8 a).
Proof. apply keeps_gets. Qed.
Lemma keeps_load16 a : keeps R (load16 a).
Proof. apply keeps_gets. Qed.
Lemma keeps_load32 a : keeps R (load32 a).
Proof. apply keeps_gets. Qed.
Lemma keeps_load64 a : keeps R (load64 a).
Proof. apply keeps_gets. Qed.

Lemma keeps_bind {A B} (m : K A) (k : A -> K B) :
  keeps R m -> (forall a, keeps R (k a)) -> keeps R (bind m k).
Proof.
  intros Hm Hk s. specialize (Hm s). unfold bind. destruct (m s) as [a s1|msg s1|why s1|s1];
    cbn [end_state] in *; try exact Hm. etransitivity; [exact Hm|apply Hk].
Qed.

Lemma keeps_when b (m : K unit) : keeps R m -> keeps R (when b m).
Proof. destruct b; [done|]. intros _. apply keeps_ret. Qed.

Lemma keeps_assert msg b : keeps R (assert msg b).
Proof. destruct b; [apply keeps_ret|apply keeps_panics]. Qed.

Lemma keeps_aget {A} why (l : list A) i : keeps R (aget why l i).
Proof. intros s. unfold aget. destruct (0 <=? i); [destruct (l !! Z.to_nat i)|]; cbn; reflexivity. Qed.

Lemma keeps_loop {A B} (body : A -> K (A + B)) a :
  (forall a, keeps R (body a)) -> keeps R (loop body a).
Proof.
  intros Hb. unfold loop. apply keeps_bind.
  - intros s. rewrite loopP_loopN. revert a s.
    induction (Pos.to_nat FUEL) as [|n IH]; intros a s; [cbn; reflexivity|].
    cbn [loopN]. apply keeps_bind; [apply Hb|]. intros [a'|b]; [|apply keeps_ret].
    intros s'. apply IH.
  - intros [a'|b]; [|apply keeps_ret]. intros s. cbn. reflexivity.
Qed.

Lemma keeps_for n (body : Z -> K unit) i : (forall i, keeps R (body i)) -> keeps R (for_from i n body).
Proof. intros Hb. revert i; induction n as [|n IH]; intros i; cbn [for_from]; [apply keeps_ret|]. now apply keeps_bind. Qed.
End Keeps.

(** * Output to the console and to the serial device *)

(** Only the console's and the serial driver's variables and the devices, whose input
    is not for the kernel to change. *)
Definition io_only (s s' : kstate) : Prop :=
  exists c o d, dev_in d = dev_in (st_dev s) /\ s' = up_cio (fun _ => c) (up_sio (fun _ => o) (up_dev (fun _ => d) s)).

#[export] Instance io_only_preorder : PreOrder io_only.
Proof.
  split.
  - intros s. exists (st_cio s), (st_sio s), (st_dev s). now destruct s.
  - intros s1 s2 s3 (c & o & d & E & ->) (c' & o' & d' & E' & ->). exists c', o', d'. split; [|reflexivity].
    now rewrite E'.
Qed.

Lemma io_cio_set f : keeps io_only (cio_set f).
Proof. intros s. exists (f (st_cio s)), (st_sio s), (st_dev s). now destruct s. Qed.

Lemma io_sio_set f : keeps io_only (sio_set f).
Proof. intros s. exists (st_cio s), (f (st_sio s)), (st_dev s). now destruct s. Qed.

Lemma io_outb p v : keeps io_only (outb p v).
Proof.
  intros s. exists (st_cio s), (st_sio s), (set_dev_out ((p, u8 v) :: dev_out (st_dev s)) (st_dev s)).
  now destruct s.
Qed.

Lemma io_inb p : keeps io_only (inb p).
Proof.
  intros s. exists (st_cio s), (st_sio s), (set_dev_count (dev_count (st_dev s) + 1)%N (st_dev s)).
  now destruct s.
Qed.

Create HintDb io.
#[export] Hint Resolve keeps_km keeps_qs keeps_stk keeps_ps keeps_clk keeps_sio keeps_cio keeps_krn keeps_load8 keeps_load16 keeps_load32 keeps_load64
  keeps_ret keeps_undef keeps_panics keeps_gets keeps_aget keeps_assert
  io_cio_set io_sio_set io_outb io_inb : io.
#[export] Hint Extern 1 (PreOrder _) => apply io_only_preorder : io.

(** Walks through the code; named routines are closed by their own lemmas. *)
Ltac io_step :=
  lazymatch goal with
  | |- keeps _ (bind _ _) => apply keeps_bind; [exact _| |intros ?]
  | |- keeps _ (when _ _) => apply keeps_when; [exact _|]
  | |- keeps _ (loop _ _) => apply keeps_loop; [exact _|intros ?]
  | |- keeps _ (match ?x with _ => _ end) => destruct x
  | |- keeps _ _ => solve [auto with io]
  end.
Ltac io := intros; repeat io_step.

Lemma io_sio_enable w : keeps io_only (sio_enable w).
Proof. unfold sio_enable. io. Qed.
#[export] Hint Resolve io_sio_enable : io.

Lemma io_sio_writec c : keeps io_only (sio_writec c).
Proof. unfold sio_writec, sio_writec_raw, put_outlast. io. Qed.
#[export] Hint Resolve io_sio_writec : io.

Lemma io_sio_write src n : (forall i, keeps io_only (src i)) -> keeps io_only (sio_write src n).
Proof. intros Hs. unfold sio_write, put_outlast. io. Qed.

Lemma io_lit_source l i : keeps io_only (lit_source l i).
Proof. unfold lit_source. io. Qed.
#[export] Hint Resolve io_sio_write io_lit_source : io.

Lemma io_mem_source b i : keeps io_only (mem_source b i).
Proof. unfold mem_source, load_char, load8. io. Qed.
#[export] Hint Resolve io_mem_source : io.

Lemma io_convert c ap : keeps io_only (convert c ap).
Proof. unfold convert. io. Qed.
#[export] Hint Resolve io_convert : io.

Lemma io_sprint fmt args : keeps io_only (sprint fmt args).
Proof. unfold sprint, sprint_step. io. Qed.
#[export] Hint Resolve io_sprint : io.

Lemma io_putchar_at x y c : keeps io_only (putchar_at x y c).
Proof. unfold putchar_at, vput. io. Qed.
#[export] Hint Resolve io_putchar_at : io.

Lemma io_setcursor : keeps io_only setcursor.
Proof. unfold setcursor. io. Qed.
Lemma io_newline_dup : keeps io_only newline_dup.
Proof. unfold newline_dup. io. Qed.
#[export] Hint Resolve io_setcursor io_newline_dup : io.

Lemma io_cio_putchar_at x y c : keeps io_only (cio_putchar_at x y c).
Proof. unfold cio_putchar_at. io. Qed.
#[export] Hint Resolve io_cio_putchar_at : io.

Lemma io_blank_row a n : keeps io_only (blank_row a n).
Proof. unfold blank_row, vput. io. Qed.
Lemma io_copy_row a b n : keeps io_only (copy_row a b n).
Proof. unfold copy_row, vput, vget. io. Qed.
#[export] Hint Resolve io_blank_row io_copy_row : io.

Lemma io_cio_scroll n : keeps io_only (cio_scroll n).
Proof. unfold cio_scroll, cio_clearscroll. io. Qed.
#[export] Hint Resolve io_cio_scroll : io.

Lemma io_cio_putchar c : keeps io_only (cio_putchar c).
Proof. unfold cio_putchar. io. Qed.
#[export] Hint Resolve io_cio_putchar : io.

Lemma io_cio_puts l : keeps io_only (cio_puts l).
Proof. induction l; cbn [cio_puts]; io. Qed.
Lemma io_cio_puts_at x y l : keeps io_only (cio_puts_at x y l).
Proof. revert x. induction l; intros x; cbn [cio_puts_at]; io. Qed.
#[export] Hint Resolve io_cio_puts io_cio_puts_at : io.

Lemma io_mypadstr x y s l w a p : keeps io_only (mypadstr x y s l w a p).
Proof. unfold mypadstr, mypad. io. Qed.
#[export] Hint Resolve io_mypadstr : io.

Lemma io_do_printf x y f a : keeps io_only (do_printf x y f a).
Proof. unfold do_printf. io. Qed.
#[export] Hint Resolve io_do_printf : io.

Lemma io_cio_write b n : keeps io_only (cio_write b n).
Proof. unfold cio_write, load_char, load8. io. Qed.
#[export] Hint Resolve io_cio_write : io.

(** What a successful output leaves: everything but the two drivers. *)
Lemma io_Ret {A} (m : K A) s a s' : keeps io_only m -> m s = Ret a s' -> io_only s s'.
Proof. intros H E. specialize (H s). now rewrite E in H. Qed.

Lemma io_only_fields s s' :
  io_only s s' ->
  st_mem s' = st_mem s /\ st_km s' = st_km s /\ st_qs s' = st_qs s /\ st_stk s' = st_stk s /\
  st_ps s' = st_ps s /\ st_clk s' = st_clk s /\ st_krn s' = st_krn s.
Proof. intros (c & o & d & _ & ->). repeat split. Qed.

Lemma io_only_line s s' : io_only s s' -> dev_in (st_dev s') = dev_in (st_dev s).
Proof. intros (c & o & d & E & ->). exact E. Qed.
