(* ===== verification/CioSpec.v ===== *)
(** The console: what output does to the screen and to the cursor, when it is not
    duplicated to the serial device. *)

From S2P Require Import Prelude Memory State Lib Sio Cio.

Open Scope kernel_scope.

(** ** What output may change *)

(** The screen contents, the cursor, the saved option, and the ports written. *)
Record screen_t := Scr {
  sc_vram : gmap Z Z;
  sc_x : Z;
  sc_y : Z;
  sc_bak : Z;
  sc_out : list (Z * Z)
}.

Definition on (s : kstate) (c : screen_t) : kstate :=
  up_dev (set_dev_out (sc_out c))
    (up_cio (fun r => set_vram (sc_vram c) (set_curr_x (sc_x c) (set_curr_y (sc_y c)
      (set_dup2sio_bak (sc_bak c) r)))) s).

Definition screen_of (s : kstate) : screen_t :=
  Scr (vram (st_cio s)) (curr_x (st_cio s)) (curr_y (st_cio s)) (dup2sio_bak (st_cio s))
    (dev_out (st_dev s)).

Lemma on_screen_of s : on s (screen_of s) = s.
Proof. destruct s as [m k q t p c o r g d]. destruct r, d. reflexivity. Qed.

(** The cells of the scrolling window, two bytes each. *)
Definition in_window (r : cio_t) (a : Z) : Prop :=
  exists x y, a = VIDEO_ADDR x y /\ scroll_min_x r <= x <= scroll_max_x r /\
    scroll_min_y r <= y <= scroll_max_y r.

Definition same_outside (r : cio_t) (v v' : gmap Z Z) : Prop :=
  forall a, ~ in_window r a -> v' !! a = v !! a.

#[export] Instance same_outside_preorder r : PreOrder (same_outside r).
Proof.
  split; [now intros v a _|]. intros v1 v2 v3 H1 H2 a Ha. now rewrite H2, H1.
Qed.

(** The window is on the screen. *)
Record geometry (r : cio_t) : Prop := Geometry {
  wo_min : min_x r = 0 /\ min_y r = 0;
  wo_max : max_x r = 79 /\ max_y r = 24;
  wo_x : 0 <= scroll_min_x r <= scroll_max_x r /\ scroll_max_x r <= 79;
  wo_y : 0 <= scroll_min_y r <= scroll_max_y r /\ scroll_max_y r <= 24
}.

(** And output is not duplicated. *)
Record window_ok (r : cio_t) : Prop := WindowOk {
  wo_geometry :> geometry r;
  wo_dup : dup_to_sio r = 0
}.

(** The cursor is in the window, or at the start of the line below it: the window
    is scrolled when the next character comes. *)
Definition cursor_ok (r : cio_t) (x y : Z) : Prop :=
  scroll_min_x r <= x <= scroll_max_x r /\ scroll_min_y r <= y <= scroll_max_y r + 1.

(** [m] ends with [a] in a state that differs on the screen only, with the cursor
    at [x], [y]. *)
Definition draws {A} (m : K A) (s : kstate) (c : screen_t) (Q : A -> screen_t -> Prop) : Prop :=
  exists a c', m (on s c) = Ret a (on s c') /\ same_outside (st_cio s) (sc_vram c) (sc_vram c') /\ Q a c'.

Lemma draws_ret {A} (a : A) s c (Q : A -> screen_t -> Prop) : Q a c -> draws (ret a) s c Q.
Proof. intros H. exists a, c. split; [reflexivity|]. split; [reflexivity|exact H]. Qed.

Lemma draws_bind {A B} (m : K A) (k : A -> K B) s c Q R :
  draws m s c Q -> (forall a c', Q a c' -> draws (k a) s c' R) -> draws (bind m k) s c R.
Proof.
  intros (a & c1 & E1 & H1 & HQ) Hk. destruct (Hk a c1 HQ) as (b & c2 & E2 & H2 & HR).
  exists b, c2. split; [now rewrite (bind_Ret _ _ _ _ _ E1)|]. split; [|exact HR].
  etransitivity; eassumption.
Qed.

Lemma draws_mon {A} (m : K A) s c (Q R : A -> screen_t -> Prop) :
  draws m s c Q -> (forall a c', Q a c' -> R a c') -> draws m s c R.
Proof. intros (a & c' & E & H & HQ) HR. exists a, c'. auto. Qed.

(** A loop: an invariant and a measure. *)
Lemma draws_loop {A B} (body : A -> K (A + B)) (I : A -> screen_t -> Prop) (mu : A -> screen_t -> nat)
    (Q : B -> screen_t -> Prop) s a c :
  (forall a c, I a c -> draws (body a) s c (fun r c' =>
     match r with inl a' => I a' c' /\ (mu a' c' < mu a c)%nat | inr b => Q b c' end)) ->
  I a c -> Z.of_nat (mu a c) < 2 ^ 40 -> draws (loop body a) s c Q.
Proof.
  intros Hb Ha Hm.
  assert (forall n a c, I a c -> (mu a c < n)%nat -> exists b c',
    loopN n body a (on s c) = Ret (inr b) (on s c') /\ same_outside (st_cio s) (sc_vram c) (sc_vram c') /\ Q b c')
    as Hn.
  { clear a c Ha Hm. induction n as [|n IH]; intros a c Ha Hlt; [lia|].
    destruct (Hb a c Ha) as ([a'|b] & c1 & E & H1 & Hr).
    - destruct Hr as [Ha' Hlt']. destruct (IH a' c1 Ha' ltac:(lia)) as (b & c2 & E2 & H2 & HQ).
      exists b, c2. split; [now rewrite (loopN_step _ _ _ _ _ _ E)|]. split; [|exact HQ].
      etransitivity; eassumption.
    - exists b, c1. split; [now apply loopN_done|]. now split. }
  destruct (Hn (S (mu a c)) a c Ha ltac:(lia)) as (b & c' & E & H & HQ).
  exists b, c'. split; [|now split]. apply (loop_intro _ (S (mu a c))); [lia|exact E].
Qed.

(** ** Single steps *)

Section Steps.
Context (s : kstate).
Notation r0 := (st_cio s).

(** Reading a variable that output does not change, and one that it does. *)
Lemma draws_cio {A B} (f : cio_t -> A) (k : A -> K B) c R :
  draws (k (f (st_cio (on s c)))) s c R -> draws (x <- cio f ;; k x) s c R.
Proof. intros H. exact H. Qed.

Lemma draws_vput {B} a v (k : unit -> K B) c R :
  in_window r0 a ->
  draws (k tt) s (Scr (<[a := u16 v]> (sc_vram c)) (sc_x c) (sc_y c) (sc_bak c) (sc_out c)) R ->
  draws (bind (vput a v) k) s c R.
Proof.
  intros Ha (b & c' & E & H & HR). exists b, c'. split; [exact E|]. split; [|exact HR].
  intros x Hx. rewrite H by done. cbn. apply lookup_insert_ne. now intros ->.
Qed.

Lemma draws_vget {B} a (k : Z -> K B) c R :
  draws (k (default 0 (sc_vram c !! a))) s c R -> draws (bind (vget a) k) s c R.
Proof. intros H. exact H. Qed.

Lemma draws_outb {B} p v (k : unit -> K B) c R :
  draws (k tt) s (Scr (sc_vram c) (sc_x c) (sc_y c) (sc_bak c) ((p, u8 v) :: sc_out c)) R ->
  draws (bind (outb p v) k) s c R.
Proof. intros (b & c' & E & H & HR). exists b, c'. auto. Qed.

(** The last step of a sequence is a step like the others. *)
Lemma draws_eta {A} (m : K A) c R : draws (bind m ret) s c R -> draws m s c R.
Proof.
  intros (a & c' & E & H). exists a, c'. split; [|exact H]. rewrite <- E. unfold bind, ret.
  now destruct (m (on s c)).
Qed.

Lemma draws_x {B} x (k : unit -> K B) c R :
  draws (k tt) s (Scr (sc_vram c) x (sc_y c) (sc_bak c) (sc_out c)) R ->
  draws (bind (cio_set (set_curr_x x)) k) s c R.
Proof. intros (b & c' & E & H & HR). exists b, c'. auto. Qed.

Lemma draws_y {B} y (k : unit -> K B) c R :
  draws (k tt) s (Scr (sc_vram c) (sc_x c) y (sc_bak c) (sc_out c)) R ->
  draws (bind (cio_set (set_curr_y y)) k) s c R.
Proof. intros (b & c' & E & H & HR). exists b, c'. auto. Qed.

(** To the start of the line; to the next line. *)
Lemma draws_home {B} (k : unit -> K B) c R :
  draws (k tt) s (Scr (sc_vram c) (scroll_min_x r0) (sc_y c) (sc_bak c) (sc_out c)) R ->
  draws (bind (cio_set (fun r => set_curr_x (scroll_min_x r) r)) k) s c R.
Proof. intros (b & c' & E & H & HR). exists b, c'. auto. Qed.

Lemma draws_down {B} (k : unit -> K B) c R :
  draws (k tt) s (Scr (sc_vram c) (sc_x c) (u32 (sc_y c + 1)) (sc_bak c) (sc_out c)) R ->
  draws (bind (cio_set (fun r => set_curr_y (u32 (curr_y r + 1)) r)) k) s c R.
Proof. intros (b & c' & E & H & HR). exists b, c'. auto. Qed.
End Steps.

(** ** The routines of the scrolling family *)

(** The cursor and the saved option are as before. *)
Definition kept (c c' : screen_t) : Prop :=
  sc_x c' = sc_x c /\ sc_y c' = sc_y c /\ sc_bak c' = sc_bak c.

#[export] Instance kept_preorder : PreOrder kept.
Proof. split; [now intros c|]. intros c1 c2 c3 (?&?&?) (?&?&?). repeat split; congruence. Qed.

Section Geometry.
Context (s : kstate) (W : geometry (st_cio s)).
Notation r0 := (st_cio s).
Notation keeps_cursor m c := (draws m s c (fun _ c' => kept c c')).

(** The columns and rows of the window, and the number of columns. *)
Notation col x := (scroll_min_x r0 <= x <= scroll_max_x r0).
Notation row y := (scroll_min_y r0 <= y <= scroll_max_y r0).
Notation ncols := (scroll_max_x r0 - scroll_min_x r0 + 1).

Lemma draws_setcursor c : keeps_cursor setcursor c.
Proof.
  unfold setcursor. repeat apply draws_cio. do 3 apply draws_outb. apply draws_eta, draws_outb.
  now apply draws_ret.
Qed.

(** Rows of cells.  The lines are written left to right. *)
Lemma cell_next x y : VIDEO_ADDR (x + 1) y = VIDEO_ADDR x y + 2.
Proof. unfold VIDEO_ADDR. lia. Qed.

Lemma draws_blank_row y c : row y ->
  keeps_cursor (blank_row (VIDEO_ADDR (scroll_min_x r0) y) ncols) c.
Proof.
  intros Hy. unfold blank_row. pose proof (wo_x _ W) as Wx.
  apply (draws_loop _ (fun '(i, to) c' => 0 <= i <= ncols /\
      to = VIDEO_ADDR (scroll_min_x r0 + i) y /\ kept c c')
    (fun '(i, _) _ => Z.to_nat (ncols - i))).
  - intros [i to] c1 (Hi & -> & Hk). zcase i (scroll_max_x r0 - scroll_min_x r0 + 1); [|now apply draws_ret].
    apply draws_vput; [exists (scroll_min_x r0 + i), y; repeat split; lia|]. apply draws_ret.
    rewrite <- cell_next. repeat split; [lia|lia|f_equal; lia|apply Hk..|lia].
  - repeat split; [lia|lia|f_equal; lia].
  - lia.
Qed.

Lemma draws_copy_row y y' c : row y ->
  keeps_cursor (copy_row (VIDEO_ADDR (scroll_min_x r0) y) (VIDEO_ADDR (scroll_min_x r0) y') ncols) c.
Proof.
  intros Hy. unfold copy_row. pose proof (wo_x _ W) as Wx.
  apply (draws_loop _ (fun '(i, to, _) c' => 0 <= i <= ncols /\
      to = VIDEO_ADDR (scroll_min_x r0 + i) y /\ kept c c')
    (fun '(i, _, _) _ => Z.to_nat (ncols - i))).
  - intros [[i to] from] c1 (Hi & -> & Hk). zcase i (scroll_max_x r0 - scroll_min_x r0 + 1); [|now apply draws_ret].
    apply draws_vget, draws_vput; [exists (scroll_min_x r0 + i), y; repeat split; lia|].
    apply draws_ret. rewrite <- cell_next. repeat split; [lia|lia|f_equal; lia|apply Hk..|lia].
  - repeat split; [lia|lia|f_equal; lia].
  - lia.
Qed.

Lemma draws_clearscroll c : keeps_cursor cio_clearscroll c.
Proof.
  unfold cio_clearscroll. apply draws_cio. cbn [on st_cio up_dev up_cio]. cbv beta zeta.
  pose proof (wo_x _ W) as Wx. pose proof (wo_y _ W) as Wy. cbn.
  apply (draws_loop _ (fun l c' => scroll_min_y r0 <= l <= scroll_max_y r0 + 1 /\ kept c c')
    (fun l _ => Z.to_nat (scroll_max_y r0 + 1 - l))).
  - intros l c1 (Hl & Hk). zcase l (scroll_max_y r0); [|now apply draws_ret].
    rewrite (u32_small ncols) by lia. eapply draws_bind; [now apply draws_blank_row|].
    intros [] c2 Hk2. cbv beta in Hk2. apply draws_ret. rewrite u32_small by lia. split; [|lia].
    split; [lia|]. now transitivity c1.
  - split; [lia|reflexivity].
  - lia.
Qed.

(** Scrolling: the cursor stays, or goes to the first cell when the whole window
    is cleared. *)
Lemma draws_scroll lines c : 0 <= lines < 2 ^ 32 -> col (sc_x c) ->
  draws (cio_scroll lines) s c (fun _ c' => col (sc_x c') /\ sc_bak c' = sc_bak c /\
    (sc_y c' = sc_y c \/ sc_y c' = scroll_min_y r0)).
Proof.
  intros Hl Hx. unfold cio_scroll. apply draws_cio. cbn [on st_cio up_dev up_cio]. cbv beta zeta.
  pose proof (wo_x _ W) as Wx. pose proof (wo_y _ W) as Wy. cbn.
  rewrite (s32_small ncols) by lia. rewrite u32_small by lia.
  zcase (scroll_max_y r0 - scroll_min_y r0) lines.
  - eapply draws_bind; [apply draws_clearscroll|]. intros [] c1 (H1 & H2 & H3).
    apply draws_x, draws_y. eapply draws_mon; [apply draws_setcursor|].
    intros _ c2 (K1 & K2 & K3). cbn in *. rewrite K1, K2, K3. split; [lia|auto].
  - rewrite (u32_small (_ - lines)) by lia.
    apply (draws_bind _ _ _ _ (fun l c' => scroll_min_y r0 <= l <= scroll_max_y r0 + 1 /\ kept c c')).
    + apply (draws_loop _ (fun l c' => scroll_min_y r0 <= l <= scroll_max_y r0 - lines + 1 /\ kept c c')
        (fun l _ => Z.to_nat (scroll_max_y r0 + 1 - l))); [|split; [lia|reflexivity]|lia].
      intros l c1 (H1 & Hk). zcase l (scroll_max_y r0 - lines); [|apply draws_ret; split; [lia|done]].
      eapply draws_bind; [apply draws_copy_row; lia|]. intros [] c2 Hk2. cbv beta in Hk2.
      apply draws_ret. split; [split; [lia|now transitivity c1]|lia].
    + intros l1 c1 (H1 & Hk1).
      apply (draws_loop _ (fun l c' => scroll_min_y r0 <= l <= scroll_max_y r0 + 1 /\ kept c c')
        (fun l _ => Z.to_nat (scroll_max_y r0 + 1 - l))); [|split; [lia|done]|lia].
      intros l c2 (H2 & Hk). zcase l (scroll_max_y r0).
      * eapply draws_bind; [apply draws_blank_row; lia|]. intros [] c3 Hk2. cbv beta in Hk2.
        apply draws_ret. split; [split; [lia|now transitivity c2]|lia].
      * apply draws_ret. destruct Hk as (-> & -> & ->). split; [lia|auto].
Qed.

(** The next position: the next cell, or the start of the next line. *)
Lemma draws_advance x c : col x -> row (sc_y c) ->
  draws (cio_set (set_curr_x (u32 (x + 1))) ;;
     smx <- cio scroll_max_x ;;
     when (smx <? u32 (x + 1))
       (cio_set (fun r => set_curr_x (scroll_min_x r) r) ;;
        cio_set (fun r => set_curr_y (u32 (curr_y r + 1)) r))) s c
   (fun _ c' => cursor_ok r0 (sc_x c') (sc_y c')).
Proof.
  intros Hx Hy. pose proof (wo_x _ W) as Wx. pose proof (wo_y _ W) as Wy.
  apply draws_x, draws_cio. cbn. rewrite u32_small by lia. unfold cursor_ok.
  zcase (scroll_max_x r0) (x + 1); cbn [when]; [|apply draws_ret; cbn; lia].
  apply draws_home, draws_eta, draws_down, draws_ret. cbn. rewrite u32_small by lia. lia.
Qed.

End Geometry.

Section Window.
Context (s : kstate) (W : window_ok (st_cio s)).
Notation r0 := (st_cio s).
Notation keeps_cursor m c := (draws m s c (fun _ c' => kept c c')).

(** The columns and rows of the window, and the number of columns. *)
Notation col x := (scroll_min_x r0 <= x <= scroll_max_x r0).
Notation row y := (scroll_min_y r0 <= y <= scroll_max_y r0).
Notation ncols := (scroll_max_x r0 - scroll_min_x r0 + 1).

(** One cell: the character, with the default attribute when it has none. *)
Lemma draws_putchar_at x y ch c : col x -> row y -> keeps_cursor (putchar_at x y ch) c.
Proof.
  intros Hx Hy. destruct W as [[_ [H1 H2] Wx Wy] Wd]. unfold putchar_at. apply draws_cio.
  cbn [on st_cio up_dev up_cio]. cbv beta. destruct (_ && _).
  - apply draws_vput; [now exists x, y|]. replace (truth _) with false
      by (cbn; now rewrite Wd). now apply draws_ret.
  - now apply draws_ret.
Qed.

(** Output is not duplicated: saving and restoring the option change nothing else. *)
Lemma save_dup c :
  up_cio (set_dup_to_sio 0) (up_cio (fun r => set_dup2sio_bak (dup_to_sio r) r) (on s c)) =
  on s (Scr (sc_vram c) (sc_x c) (sc_y c) 0 (sc_out c)).
Proof.
  pose proof (wo_dup _ W) as Wd. unfold on, up_dev, up_cio. cbn. rewrite Wd.
  destruct s as [m k0 q t p cl o r g d]. destruct r. cbn in *. now subst.
Qed.

Lemma draws_save {B} (k : K B) c R :
  draws k s (Scr (sc_vram c) (sc_x c) (sc_y c) 0 (sc_out c)) R ->
  draws (cio_set (fun r => set_dup2sio_bak (dup_to_sio r) r) ;; cio_set (set_dup_to_sio 0) ;; k) s c R.
Proof.
  intros (b & c' & E & H & HR). exists b, c'. split; [|now split]. rewrite <- E, <- save_dup.
  reflexivity.
Qed.

Lemma draws_newline_dup c : sc_bak c = 0 -> keeps_cursor newline_dup c.
Proof.
  intros Hb. exists tt, c. split; [|now split]. pose proof (wo_dup _ W) as Wd.
  unfold newline_dup, cio_set, modify, bind, cio, gets. cbn. rewrite Wd. cbn. f_equal.
  unfold on, up_dev, up_cio. cbn. rewrite Hb. destruct s as [m k0 q t p cl o r g d]. destruct r.
  cbn in *. now subst.
Qed.

(** ** A character *)

(** The rest of the line is blanked. *)
Lemma draws_blank_line c : col (sc_x c) -> row (sc_y c) ->
  draws (loop (fun _ : unit =>
       x <- cio curr_x ;;
       y <- cio curr_y ;;
       smx <- cio scroll_max_x ;;
       if x <=? smx then
         putchar_at x y 32 ;;
         cio_set (set_curr_x (u32 (x + 1))) ;;
         ret (inl tt)
       else ret (inr tt)) tt) s c (fun _ c' => sc_y c' = sc_y c /\ sc_bak c' = sc_bak c).
Proof.
  intros Hx Hy. pose proof (wo_x _ W) as Wx.
  apply (draws_loop _ (fun _ c' => scroll_min_x r0 <= sc_x c' <= scroll_max_x r0 + 1 /\
      sc_y c' = sc_y c /\ sc_bak c' = sc_bak c)
    (fun _ c' => Z.to_nat (scroll_max_x r0 + 1 - sc_x c'))); [|lia..].
  intros [] c1 (H1 & H2 & H3). do 3 apply draws_cio. cbn [on st_cio up_dev up_cio]. cbn.
  zcase (sc_x c1) (scroll_max_x r0); [|now apply draws_ret].
  eapply draws_bind; [apply draws_putchar_at; lia|]. intros [] c2 (K1 & K2 & K3).
  apply draws_x, draws_ret. cbn. rewrite u32_small by lia. lia.
Qed.

Lemma draws_putchar ch c :
  cursor_ok r0 (sc_x c) (sc_y c) ->
  draws (cio_putchar ch) s c (fun _ c' => cursor_ok r0 (sc_x c') (sc_y c')).
Proof.
  intros [Hx Hy]. unfold cio_putchar. do 2 apply draws_cio. cbn [on st_cio up_dev up_cio]. cbv beta.
  pose proof (wo_x _ W) as Wx. pose proof (wo_y _ W) as Wy. cbn.
  apply (draws_bind _ _ _ _ (fun _ c' => col (sc_x c') /\ row (sc_y c'))).
  { zcase (scroll_max_y r0) (sc_y c); cbn [when]; [|apply draws_ret; lia].
    eapply draws_bind; [apply draws_scroll; [exact W|apply u32_range|lia]|]. intros [] c1 [H1 _].
    apply draws_eta, draws_y, draws_ret. cbn. lia. }
  clear c Hx Hy. intros [] c [Hx Hy].
  apply (draws_bind _ _ _ _ (fun _ c' => cursor_ok r0 (sc_x c') (sc_y c'))).
  2: { intros [] c1 Hc. cbv beta in Hc. eapply draws_mon; [apply draws_setcursor|].
       now intros _ c2 (-> & -> & _). }
  destruct (_ =? 10); [|destruct (_ =? 13)].
  - apply draws_save. eapply draws_bind; [now apply draws_blank_line|]. intros [] c1 [H1 H2].
    eapply draws_bind; [now apply draws_newline_dup|]. intros [] c2 (_ & H3 & _). cbn in *.
    apply draws_home, draws_eta, draws_down, draws_ret. unfold cursor_ok. cbn.
    rewrite u32_small by lia. lia.
  - apply draws_eta, draws_home, draws_ret. unfold cursor_ok. cbn. lia.
  - do 2 apply draws_cio. eapply draws_bind; [now apply draws_putchar_at|].
    intros [] c1 (H1 & H2 & _). apply draws_advance; [exact W|cbn; lia..].
Qed.

Lemma draws_puts str c :
  cursor_ok r0 (sc_x c) (sc_y c) ->
  draws (cio_puts str) s c (fun _ c' => cursor_ok r0 (sc_x c') (sc_y c')).
Proof.
  revert c. induction str as [|ch str IH]; intros c Hc; [now apply draws_ret|].
  cbn [cio_puts]. eapply draws_bind; [now apply draws_putchar|]. intros [] c1 H1. now apply IH.
Qed.
End Window.
