(* ===== verification/CioFormat.v ===== *)
(** The text of a format: [sprint] and [cio_printf] produce the same characters. *)

From S2P Require Import Prelude Memory State Lib LibNum Sio Cio.

Open Scope kernel_scope.

(** A loop that has come to an end, in whichever way, within [n] steps. *)
Lemma loop_outcome {S A B} (body : A -> M S (A + B)) n a s :
  Z.of_nat n <= 2 ^ 40 -> (forall a' s', loopN n body a s <> Ret (inl a') s') ->
  loop body a s = (r <- loopN n body a ;; match r with inl _ => fun s => Hang s | inr b => ret b end) s.
Proof.
  rewrite <- FUEL_val. intros Hn H. unfold loop. unfold bind at 1 2. rewrite loopP_loopN.
  replace (Pos.to_nat FUEL) with (n + (Pos.to_nat FUEL - n))%nat by lia.
  rewrite loopN_add. unfold bind. destruct (loopN n body a s) as [[a'|b] s'| | |] eqn:E; try reflexivity.
  now destruct (H a' s').
Qed.

(** ** The text of a conversion *)

(** What [convert] answers: nothing when the argument does not fit, [Some None] when
    the character is not a conversion. *)
Definition conversion (ch : Z) (ap : list arg) : option (option (list Z * Z * list arg)) :=
  match convert ch ap tt with Ret r _ => Some r | _ => None end.

Lemma convert_conversion {S} ch ap r (s : S) : conversion ch ap = Some r -> convert ch ap s = Ret r s.
Proof.
  unfold conversion, convert. generalize cvtdec, cvthex, cvtoct, cvtuns. intros f1 f2 f3 f4.
  repeat (destruct (ch =? _); [destruct ap as [|[v|str] ap]; first [discriminate|intros [= <-]; reflexivity]|]). intros [= <-]. reflexivity.
Qed.

Lemma conversion_len ch ap str len ap' : conversion ch ap = Some (Some (str, len, ap')) ->
  len = -1 \/ len = Z.of_nat (length str).
Proof.
  unfold conversion, convert. generalize cvtdec, cvthex, cvtoct, cvtuns. intros f1 f2 f3 f4.
  repeat (destruct (ch =? _); [destruct ap as [|[v|x] ap]; cbn; try discriminate; intros [= <- <- <-]; auto|]).
  discriminate.
Qed.

(** The text that a format and its arguments stand for. *)
Fixpoint render (fuel : nat) (fmt : list Z) (ap : list arg) : option (list Z) :=
  match fuel with
  | Datatypes.O => None
  | Datatypes.S fuel =>
      match fmt with
      | [] => Some []
      | ch :: fmt =>
          if ch =? 37 then
            let '(leftadjust, padchar, width, fmt) := parse_spec fmt in
            match fmt with
            | [] => None
            | ch :: fmt =>
                match conversion ch ap with
                | Some (Some (str, len, ap)) =>
                    option_map (app (padstr str len width leftadjust padchar)) (render fuel fmt ap)
                | Some None => render fuel fmt ap
                | None => None
                end
            end
          else option_map (cons ch) (render fuel fmt ap)
      end
  end.

Definition formats (fmt : list Z) (ap : list arg) (text : list Z) : Prop :=
  render (S (length fmt)) fmt ap = Some text.

(** [sprint] returns the text. *)
Lemma sprint_loop {S} fuel fmt ap text dst (s : S) :
  render fuel fmt ap = Some text -> loopN fuel sprint_step (dst, fmt, ap) s = Ret (inr (dst ++ text)%list) s.
Proof.
  revert fmt ap text dst. induction fuel as [|fuel IH]; intros fmt ap text dst H; [discriminate H|].
  cbn [render] in H. destruct fmt as [|ch fmt].
  { injection H as <-. rewrite app_nil_r. now apply loopN_done. }
  destruct (ch =? 37) eqn:Ech.
  - destruct (parse_spec fmt) as [[[left padchar] width] rest] eqn:Es. destruct rest as [|c rest]; [discriminate H|].
    destruct (conversion c ap) as [[[[str len] ap']|]|] eqn:Ec; [| |discriminate H].
    + destruct (render fuel rest ap') as [t|] eqn:Et; [|discriminate H]. injection H as <-. rewrite app_assoc.
      rewrite (loopN_step _ _ _ _ (dst ++ padstr str len width left padchar, rest, ap')%list s); [now apply IH|].
      unfold sprint_step. rewrite Ech, Es. now rewrite (bind_Ret _ _ _ _ _ (convert_conversion _ _ _ s Ec)).
    + rewrite (loopN_step _ _ _ _ (dst, rest, ap) s); [now apply IH|].
      unfold sprint_step. rewrite Ech, Es. now rewrite (bind_Ret _ _ _ _ _ (convert_conversion _ _ _ s Ec)).
  - destruct (render fuel fmt ap) as [t|] eqn:Et; [|discriminate H]. injection H as <-.
    rewrite (loopN_step _ _ _ _ ((dst ++ [ch])%list, fmt, ap) s); [|unfold sprint_step; now rewrite Ech].
    rewrite (IH _ _ _ _ Et), <- app_assoc. reflexivity.
Qed.

Lemma sprint_formats {S} fmt ap text (s : S) :
  formats fmt ap text -> Z.of_nat (length fmt) < 2 ^ 40 -> sprint fmt ap s = Ret text s.
Proof. intros H Hl. apply (loop_intro _ (Datatypes.S (length fmt))); [lia|]. exact (sprint_loop _ _ _ _ [] s H). Qed.

(** ** Printing the text *)

Lemma bind_after {S A B} (m : M S A) (k k' : A -> M S B) s :
  (forall a s', k a s' = k' a s') -> bind m k s = bind m k' s.
Proof. intros H. unfold bind. destruct (m s); auto. Qed.

Lemma puts_app l1 l2 s : cio_puts (l1 ++ l2) s = (cio_puts l1 ;; cio_puts l2) s.
Proof.
  revert s; induction l1 as [|c l1 IH]; intros s; [reflexivity|]. cbn [app cio_puts]. rewrite bind_assoc.
  apply bind_after. intros [] s1. apply IH.
Qed.

Definition no_nul (l : list Z) : Prop := Forall (fun c => c <> 0) l.

Lemma no_nul_check l : forallb (fun c => negb (c =? 0)) l = true -> no_nul l.
Proof.
  intros H. apply Forall_forall. intros c Hc E. rewrite forallb_forall in H.
  specialize (H c (proj1 (list_elem_of_In _ _) Hc)). now rewrite E in H.
Qed.

Lemma until_nul_all l : no_nul l -> until_nul l = l.
Proof. induction 1 as [|c l Hc _ IH]; [done|]. cbn. destruct (Z.eqb_spec c 0); [done|]. now rewrite IH. Qed.

(** The padding characters are blanks and zeros. *)
Definition pad_char (c : Z) : Prop := c = 32 \/ c = 48.

Lemma parse_spec_pad fmt l p w r : parse_spec fmt = (l, p, w, r) -> pad_char p /\ w < 2 ^ 31.
Proof.
  assert (forall fmt w0, w0 < 2 ^ 31 -> fst (parse_width fmt w0) < 2 ^ 31) as Hw.
  { clear. induction fmt as [|c fmt IH]; intros w0 H; cbn [parse_width]; [done|].
    destruct (_ && _); [|done]. apply IH. apply s32_range. }
  unfold parse_spec. destruct (match fmt with [] => _ | _ => _ end) as [l0 f0].
  assert (exists p0 f1, match f0 with [] => (32, f0) | ch :: f' => if ch =? 48 then (48, f') else (32, f0) end = (p0, f1) /\ pad_char p0)
    as (p0 & f1 & -> & Hp).
  { destruct f0 as [|c f0]; [exists 32, []; split; [done|now left]|].
    destruct (c =? 48); eexists _, _; (split; [reflexivity|]); [now right|now left]. }
  pose proof (Hw f1 0 ltac:(lia)) as Hw1. destruct (parse_width f1 0) as [w1 f2]. intros [= <- <- <- <-]. now split.
Qed.

Definition pad_body (y padchar : Z) : Z * Z -> K (Z * Z + Z) :=
  fun '(x, extra) =>
    if 0 <? extra then
      if negb (x =? -1) || negb (y =? -1) then
        cio_putchar_at (u32 x) (u32 y) (u32 padchar) ;; ret (inl (x + 1, extra - 1))
      else cio_putchar (u32 padchar) ;; ret (inl (x, extra - 1))
    else ret (inr x).

Lemma mypad_loop n c s : pad_char c ->
  loopN (n + 1) (pad_body (-1) c) (-1, Z.of_nat n) s = (cio_puts (replicate n c) ;; ret (inr (-1))) s.
Proof.
  intros Hc. revert s; induction n as [|n IH]; intros s; [now apply loopN_done|].
  cbn [Nat.add loopN replicate cio_puts]. unfold pad_body at 1. destruct (Z.ltb_spec 0 (Z.of_nat (S n))); [|lia].
  cbn [Z.eqb negb orb]. rewrite Pos.eqb_refl. cbn [negb orb]. replace (Z.of_nat (S n) - 1) with (Z.of_nat n) by lia.
  assert (uchar c = u32 c) as -> by (destruct Hc as [-> | ->]; reflexivity).
  rewrite !bind_assoc. apply bind_after. intros [] s1. apply IH.
Qed.

(** Code that always answers in the same way never goes round again. *)
Lemma puts_then {A B} l (b : B) s (a : A) s' : (cio_puts l ;; ret (inr b : A + B)) s <> Ret (inl a) s'.
Proof. unfold bind. destruct (cio_puts l s); discriminate. Qed.

Lemma mypad_puts extra c s : pad_char c -> extra < 2 ^ 31 ->
  mypad (-1) (-1) extra c s = (cio_puts (replicate (Z.to_nat extra) c) ;; ret (-1)) s.
Proof.
  intros Hc He. destruct (Z.leb_spec extra 0) as [Hle|Hgt].
  - rewrite (Z2Nat.nonpos extra) by done. unfold mypad. apply (loop_intro _ 1); [lia|]. apply (loopN_done _ 0).
    destruct (Z.ltb_spec 0 extra); [lia|done].
  - pose proof (mypad_loop (Z.to_nat extra) c s Hc) as E. rewrite Z2Nat.id in E by lia.
    unfold mypad. change (loop (pad_body (-1) c) (-1, extra) s = (cio_puts (replicate (Z.to_nat extra) c) ;; ret (-1)) s).
    rewrite (loop_outcome _ (Z.to_nat extra + 1)); [|lia|intros a' s'; rewrite E; apply puts_then].
    unfold bind at 1. rewrite E. unfold bind, ret. now destruct (cio_puts _ s).
Qed.

Lemma mypadstr_puts str len width left padchar s :
  pad_char padchar -> width < 2 ^ 31 -> len = -1 \/ len = Z.of_nat (length str) ->
  mypadstr (-1) (-1) str len width left padchar s = (cio_puts (padstr str len width left padchar) ;; ret (-1)) s.
Proof.
  intros Hp Hw Hlen. unfold mypadstr, padstr. cbv zeta.
  assert ((if len <? 0 then Z.of_nat (length str) else len) = Z.of_nat (length str)) as ->.
  { destruct Hlen as [->| ->]; [done|]. destruct (Z.ltb_spec (Z.of_nat (length str)) 0); [lia|done]. }
  rewrite Nat2Z.id, firstn_all. set (extra := width - Z.of_nat (length str)).
  assert (u8 padchar = padchar) as Eu by (destruct Hp as [-> | ->]; reflexivity).
  assert (forall (b : bool) s0, (if b then mypad (-1) (-1) extra padchar else ret (-1)) s0
    = (cio_puts (if b then pad extra padchar else []) ;; ret (-1)) s0) as Hpad.
  { intros [] s0; [|reflexivity]. unfold pad. rewrite Eu. apply mypad_puts; [done|lia]. }
  rewrite (bind_ext _ _ _ s (Hpad _ s)), (bind_ext _ _ _ s (puts_app _ _ s)), !bind_assoc.
  apply bind_after. intros [] s1. rewrite bind_ret_l. cbn [Z.eqb negb orb]. rewrite Pos.eqb_refl. cbn [negb orb].
  rewrite (bind_ext _ _ _ s1 (puts_app _ _ s1)), !bind_assoc.
  apply bind_after. intros [] s2. apply Hpad.
Qed.

(** The loop of [do_printf], in the scrolling family. *)
Definition printf_body : Z * Z * list Z * list arg -> K (Z * Z * list Z * list arg + unit) :=
  fun '(x, y, fmt, ap) =>
    match fmt with
    | [] => ret (inr tt)
    | ch :: fmt =>
        if ch =? 37 then
          let '(leftadjust, padchar, width, fmt) := parse_spec fmt in
          match fmt with
          | [] => undef "format string overrun"
          | ch :: fmt =>
              r <- convert ch ap ;;
              match r with
              | Some (str, len, ap) =>
                  x <- mypadstr x y (until_nul str) len width leftadjust padchar ;;
                  ret (inl (x, y, fmt, ap))
              | None => ret (inl (x, y, fmt, ap))
              end
          end
        else if negb (x =? -1) || negb (y =? -1) then
          cio_putchar_at (u32 x) (u32 y) (uchar ch) ;;
          sx <- cio scroll_min_x ;;
          ret (inl (if (ch =? 10) || (ch =? 13) then s32 sx else x + 1,
                    if ch =? 10 then y + 1 else y, fmt, ap))
        else cio_putchar (uchar ch) ;; ret (inl (x, y, fmt, ap))
    end.

Lemma no_nul_padstr str len width left padchar :
  len = -1 \/ len = Z.of_nat (length str) -> no_nul (padstr str len width left padchar) -> no_nul str.
Proof.
  intros Hlen H. unfold padstr in H. cbv zeta in H.
  assert ((if len <? 0 then Z.of_nat (length str) else len) = Z.of_nat (length str)) as E.
  { destruct Hlen as [->| ->]; [done|]. destruct (Z.ltb_spec (Z.of_nat (length str)) 0); [lia|done]. }
  rewrite E, Nat2Z.id, firstn_all in H. apply Forall_app in H as [_ H]. now apply Forall_app in H as [H _].
Qed.

Lemma printf_loop fuel fmt ap text s :
  render fuel fmt ap = Some text -> no_nul text ->
  loopN fuel printf_body (-1, -1, fmt, ap) s = (cio_puts text ;; ret (inr tt)) s.
Proof.
  revert fmt ap text s. induction fuel as [|fuel IH]; intros fmt ap text s H Hn; [discriminate H|].
  cbn [render] in H. destruct fmt as [|ch fmt]; [injection H as <-; now apply loopN_done|].
  cbn [loopN]. unfold printf_body at 1. destruct (ch =? 37) eqn:Ech.
  - destruct (parse_spec fmt) as [[[left padchar] width] rest] eqn:Es. destruct rest as [|c rest]; [discriminate H|].
    destruct (parse_spec_pad _ _ _ _ _ Es) as [Hp Hw].
    destruct (conversion c ap) as [[[[str len] ap']|]|] eqn:Ec; [| |discriminate H];
      rewrite bind_assoc, (bind_Ret _ _ _ _ _ (convert_conversion _ _ _ s Ec)).
    + destruct (render fuel rest ap') as [t|] eqn:Et; [|discriminate H]. injection H as <-.
      apply Forall_app in Hn as [Hn1 Hn2]. pose proof (conversion_len _ _ _ _ _ Ec) as Hlen.
      rewrite (until_nul_all str) by (eapply no_nul_padstr; eassumption).
      rewrite bind_assoc, (bind_ext _ _ _ s (mypadstr_puts str len width left padchar s Hp Hw Hlen)),
        (bind_ext _ _ _ s (puts_app _ _ s)), !bind_assoc.
      apply bind_after. intros [] s1. rewrite !bind_ret_l. now apply IH.
    + rewrite bind_ret_l. now apply IH.
  - destruct (render fuel fmt ap) as [t|] eqn:Et; [|discriminate H]. injection H as <-.
    apply Forall_cons in Hn as [_ Hn]. cbn [Z.eqb negb orb]. rewrite Pos.eqb_refl. cbn [negb orb cio_puts].
    rewrite !bind_assoc. apply bind_after. intros [] s1. now apply IH.
Qed.

Lemma cio_printf_puts fmt ap text s :
  formats fmt ap text -> no_nul text -> Z.of_nat (length fmt) < 2 ^ 40 ->
  cio_printf fmt ap s = cio_puts text s.
Proof.
  intros H Hn Hl. pose proof (printf_loop _ _ _ _ s H Hn) as E. unfold cio_printf, do_printf.
  change (loop printf_body (-1, -1, fmt, ap) s = cio_puts text s).
  rewrite (loop_outcome _ (S (length fmt))); [|lia|intros a' s'; rewrite E; apply puts_then].
  unfold bind at 1. rewrite E. unfold bind, ret. now destruct (cio_puts text s) as [[]| | |].
Qed.

(** ** Formats that fit whatever the numbers are *)

(** Hexadecimal and unsigned conversions, and strings without NUL. *)
Fixpoint fits (fuel : nat) (fmt : list Z) (ap : list arg) : bool :=
  match fuel with
  | Datatypes.O => false
  | Datatypes.S fuel =>
      match fmt with
      | [] => true
      | ch :: fmt =>
          if ch =? 37 then
            let '(_, _, _, fmt) := parse_spec fmt in
            match fmt, ap with
            | ch :: fmt, AI _ :: ap => ((ch =? 120) || (ch =? 117)) && fits fuel fmt ap
            | ch :: fmt, AS str :: ap => (ch =? 115) && forallb (fun c => negb (c =? 0)) str && fits fuel fmt ap
            | _, _ => false
            end
          else negb (ch =? 0) && fits fuel fmt ap
      end
  end.

Lemma numeral_no_nul b v ds : 2 <= b <= 16 -> numeral b v ds -> no_nul (map digit_char ds).
Proof.
  intros Hb (H & _). apply Forall_map. eapply Forall_impl; [exact H|]. intros d Hd E. unfold is_digit in Hd.
  destruct (digit_char_is_char d ltac:(lia)) as [Hc _]. rewrite E in Hc. lia.
Qed.

Lemma no_nul_padded str len width left padchar :
  no_nul str -> pad_char padchar -> no_nul (padstr str len width left padchar).
Proof.
  intros Hs Hp. assert (forall e, no_nul (pad e padchar)) as Hpad.
  { intros e. apply Forall_replicate. destruct Hp as [-> | ->]; discriminate. }
  unfold padstr. cbv zeta. apply Forall_app. split; [destruct (_ && _); [apply Hpad|constructor]|].
  apply Forall_app. split; [now apply Forall_take|destruct (_ && _); [apply Hpad|constructor]].
Qed.

Lemma conversion_number ch v ap : (ch =? 120) || (ch =? 117) = true ->
  exists str len, conversion ch (AI v :: ap) = Some (Some (str, len, ap)) /\ no_nul str.
Proof.
  intros [Hc|Hc]%orb_true_iff; apply Z.eqb_eq in Hc as ->.
  - destruct (cvthex_numeral (u32 v) (u32_range v)) as (ds & E & Hn).
    exists (cvthex (u32 v)), (Z.of_nat (length (cvthex (u32 v)))). split; [reflexivity|].
    rewrite E. eapply (numeral_no_nul 16); [lia|exact Hn].
  - destruct (cvtuns_numeral (u32 v) (u32_range v)) as (ds & E & Hn).
    exists (cvtuns (u32 v)), (Z.of_nat (length (cvtuns (u32 v)))). split; [reflexivity|].
    rewrite E. eapply (numeral_no_nul 10); [lia|exact Hn].
Qed.

Lemma fits_render fuel fmt ap : fits fuel fmt ap = true ->
  exists text, render fuel fmt ap = Some text /\ no_nul text.
Proof.
  revert fmt ap. induction fuel as [|fuel IH]; intros fmt ap H; [discriminate H|]. cbn [fits render] in *.
  destruct fmt as [|ch fmt]; [exists []; split; [done|constructor]|].
  destruct (ch =? 37).
  - destruct (parse_spec fmt) as [[[left padchar] width] rest] eqn:Es. destruct (parse_spec_pad _ _ _ _ _ Es) as [Hp _].
    destruct rest as [|c rest]; [discriminate H|]. destruct ap as [|[v|str] ap]; [discriminate H| |].
    + apply andb_true_iff in H as [Hc H]. destruct (conversion_number c v ap Hc) as (str & len & -> & Hs).
      destruct (IH _ _ H) as (t & -> & Ht). eexists. split; [reflexivity|].
      apply Forall_app. split; [now apply no_nul_padded|exact Ht].
    + apply andb_true_iff in H as [[Hc Hs]%andb_true_iff H]. apply Z.eqb_eq in Hc as ->.
      change (conversion 115 (AS str :: ap)) with (Some (Some (str, -1, ap))).
      destruct (IH _ _ H) as (t & -> & Ht). eexists. split; [reflexivity|].
      apply Forall_app. split; [apply no_nul_padded; [now apply no_nul_check|exact Hp]|exact Ht].
  - apply andb_true_iff in H as [Hc H]. destruct (IH _ _ H) as (t & -> & Ht). eexists. split; [reflexivity|].
    constructor; [now zbool|exact Ht].
Qed.

Lemma fits_formats fmt ap : fits (S (length fmt)) fmt ap = true -> exists text, formats fmt ap text /\ no_nul text.
Proof. apply fits_render. Qed.
