(* ===== verification/CioTypes.v ===== *)
(** The types of the console and of the serial output buffer, and code that returns
    and keeps them: no index leaves its array and no loop runs for ever. *)

From S2P Require Import Prelude Memory State Lib LibNum Sio Cio CioSpec CioFormat.

Open Scope kernel_scope.

(** * Total correctness

    [ends m Q s]: [m] returns from [s], and [Q] holds of its result and final state. *)

Definition ends {A} (m : K A) (Q : A -> kstate -> Prop) (s : kstate) : Prop :=
  exists a s', m s = Ret a s' /\ Q a s'.

Section Ends.
Implicit Types (s : kstate).

Lemma ends_ret {A} (a : A) (Q : A -> kstate -> Prop) s : Q a s -> ends (ret a) Q s.
Proof. intros H. exists a, s. now split. Qed.

Lemma ends_mono {A} (m : K A) (Q R : A -> kstate -> Prop) s :
  ends m Q s -> (forall a s', Q a s' -> R a s') -> ends m R s.
Proof. intros (a & s' & E & H) HR. exists a, s'. auto. Qed.

Lemma ends_bind {A B} (m : K A) (k : A -> K B) Q R s :
  ends m Q s -> (forall a s', Q a s' -> ends (k a) R s') -> ends (bind m k) R s.
Proof.
  intros (a & s1 & E & HQ) Hk. destruct (Hk a s1 HQ) as (b & s2 & E2 & HR).
  exists b, s2. split; [now rewrite (bind_Ret _ _ _ _ _ E)|exact HR].
Qed.

Lemma ends_step {A B} (m : K A) (k : A -> K B) R s a s' : m s = Ret a s' -> ends (k a) R s' -> ends (bind m k) R s.
Proof. intros E (b & s2 & E2 & HR). exists b, s2. split; [now rewrite (bind_Ret _ _ _ _ _ E)|exact HR]. Qed.

Lemma ends_gets {A B} (f : kstate -> A) (k : A -> K B) R s : ends (k (f s)) R s -> ends (bind (gets f) k) R s.
Proof. auto. Qed.

Lemma ends_modify {B} f (k : unit -> K B) R s : ends (k tt) R (f s) -> ends (bind (modify f) k) R s.
Proof. auto. Qed.

Lemma ends_eta {A} (m : K A) R s : ends (bind m ret) R s -> ends m R s.
Proof. intros (a & s' & E & H). exists a, s'. split; [|exact H]. rewrite <- E. unfold bind, ret. now destruct (m s). Qed.

Lemma ends_last (f : kstate -> kstate) (R : unit -> kstate -> Prop) s : R tt (f s) -> ends (modify f) R s.
Proof. intros H. exists tt, (f s). now split. Qed.

(** A loop: an invariant and a measure. *)
Lemma ends_loop {A B} (body : A -> K (A + B)) (I : A -> kstate -> Prop) (mu : A -> kstate -> nat)
    (Q : B -> kstate -> Prop) s a :
  (forall a s, I a s -> ends (body a) (fun r s' =>
     match r with inl a' => I a' s' /\ (mu a' s' < mu a s)%nat | inr b => Q b s' end) s) ->
  I a s -> Z.of_nat (mu a s) < 2 ^ 40 -> ends (loop body a) Q s.
Proof.
  intros Hb Ha Hm.
  assert (forall n a s, I a s -> (mu a s < n)%nat -> exists b s',
    loopN n body a s = Ret (inr b) s' /\ Q b s') as Hn.
  { clear a s Ha Hm. induction n as [|n IH]; intros a s Ha Hlt; [lia|].
    destruct (Hb a s Ha) as ([a'|b] & s1 & E & Hr).
    - destruct Hr as [Ha' Hlt']. destruct (IH a' s1 Ha' ltac:(lia)) as (b & s2 & E2 & HQ).
      exists b, s2. split; [now rewrite (loopN_step _ _ _ _ _ _ E)|exact HQ].
    - exists b, s1. split; [now apply loopN_done|exact Hr]. }
  destruct (Hn (S (mu a s)) a s Ha ltac:(lia)) as (b & s' & E & HQ).
  exists b, s'. split; [|exact HQ]. apply (loop_intro _ (S (mu a s))); [lia|exact E].
Qed.

Lemma ends_when b (m : K unit) Q s : (b = true -> ends m Q s) -> (b = false -> Q tt s) -> ends (when b m) Q s.
Proof. destruct b; [auto|]. intros _ H. now apply ends_ret, H. Qed.

Lemma ends_draws {A} (m : K A) Q R s :
  draws m s (screen_of s) Q -> (forall a c, Q a c -> R a (on s c)) -> ends m R s.
Proof.
  intros (a & c & E & _ & HQ) HR. rewrite on_screen_of in E. exists a, (on s c). auto.
Qed.
End Ends.

(** * The types *)

Definition bit (x : Z) : Prop := x = 0 \/ x = 1.

(** The keyboard: the buffer, the two indices, the modifier keys. *)
Record keys_wt (r : cio_t) : Prop := KeysWt {
  kw_buffer : Z.of_nat (length (input_buffer r)) = C_BUFSIZE;
  kw_chars : Forall (fun c => 0 <= c < 256) (input_buffer r);
  kw_next : 0 <= next_char r < C_BUFSIZE /\ 0 <= next_space r < C_BUFSIZE;
  kw_shift : bit (kb_shift r);
  kw_mask : kb_ctrl_mask r = BMASK5 \/ kb_ctrl_mask r = BMASK8
}.

(** The output buffer has room for [k] characters, if output is duplicated. *)
Record out_wt (k : Z) (r : cio_t) (o : sio_t) : Prop := OutWt {
  ow_buffer : Z.of_nat (length (outbuffer o)) = BUF_SIZE;
  ow_last : 0 <= outlast o;
  ow_dup : bit (dup_to_sio r);
  ow_room : dup_to_sio r = 0 \/ outlast o + k <= BUF_SIZE
}.

(** The whole console. *)
Record con_wt (k : Z) (s : kstate) : Prop := ConWt {
  cw_geometry : geometry (st_cio s);
  cw_cursor : cursor_ok (st_cio s) (curr_x (st_cio s)) (curr_y (st_cio s));
  cw_keys : keys_wt (st_cio s);
  cw_out : out_wt k (st_cio s) (st_sio s)
}.

Lemma out_wt_less k k' r o : k' <= k -> out_wt k r o -> out_wt k' r o.
Proof. intros Hk [H1 H2 H3 H4]. split; [done..|]. destruct H4; [now left|right; lia]. Qed.

Lemma con_wt_less k k' s : k' <= k -> con_wt k s -> con_wt k' s.
Proof. intros Hk [H1 H2 H3 H4]. split; [done..|]. exact (out_wt_less k k' _ _ Hk H4). Qed.

(** * The serial line, as the console uses it *)

(** The buffer has grown by at most [k] characters. *)
Definition grown (k : Z) (o o' : sio_t) : Prop :=
  length (outbuffer o') = length (outbuffer o) /\ 0 <= outlast o' <= outlast o + k.

(** Only the serial line and the ports have changed. *)
Definition serial_only (s s' : kstate) : Prop :=
  exists o d, s' = up_sio (fun _ => o) (up_dev (fun _ => d) s).

#[export] Instance serial_only_preorder : PreOrder serial_only.
Proof.
  split.
  - intros s. exists (st_sio s), (st_dev s). now destruct s.
  - intros s1 s2 s3 (o & d & ->) (o' & d' & ->). now exists o', d'.
Qed.

Definition sends (k : Z) (s s' : kstate) : Prop := serial_only s s' /\ grown k (st_sio s) (st_sio s').

Lemma sends_same k s s' : 0 <= k -> 0 <= outlast (st_sio s) -> serial_only s s' ->
  outbuffer (st_sio s') = outbuffer (st_sio s) -> outlast (st_sio s') = outlast (st_sio s) -> sends k s s'.
Proof. intros Hk Ho H1 H2 H3. split; [exact H1|]. unfold grown. rewrite H2, H3. split; [done|lia]. Qed.

Lemma sends_trans k k' s1 s2 s3 : sends k s1 s2 -> sends k' s2 s3 -> sends (k + k') s1 s3.
Proof. intros [H1 [H2 H3]] [K1 [K2 K3]]. split; [now transitivity s2|]. split; [congruence|lia]. Qed.

Lemma sends_more k k' s s' : k <= k' -> sends k s s' -> sends k' s s'.
Proof. intros Hk [H1 [H2 H3]]. split; [done|]. split; [done|lia]. Qed.

(** There is room for [k] characters. *)
Definition room (k : Z) (s : kstate) : Prop :=
  Z.of_nat (length (outbuffer (st_sio s))) = BUF_SIZE /\ 0 <= outlast (st_sio s) /\
  outlast (st_sio s) + k <= BUF_SIZE.

Lemma room_after k k' s s' : room (k + k') s -> sends k s s' -> room k' s'.
Proof. intros (H1 & H2 & H3) [_ [K1 K2]]. split; [now rewrite K1|lia]. Qed.

Lemma room_less k k' s : k' <= k -> room k s -> room k' s.
Proof. intros Hk (H1 & H2 & H3). split; [done|]. split; [done|lia]. Qed.

Lemma ends_put_outlast c s : room 1 s -> ends (put_outlast c) (fun _ => sends 1 s) s.
Proof.
  intros (H1 & H2 & H3). unfold put_outlast. do 2 apply ends_gets.
  rewrite (proj2 (in_bounds_spec _ _)) by lia. apply ends_modify, ends_last. split.
  - eexists _, (st_dev s). now destruct s.
  - ksimpl. unfold grown. ksimpl. split; [apply length_insert|lia].
Qed.

(** A change of the other variables of the serial line. *)
Lemma sends_quiet k s s1 f :
  0 <= k -> 0 <= outlast (st_sio s) -> sends k s s1 ->
  (forall s, serial_only s (f s) /\ outbuffer (st_sio (f s)) = outbuffer (st_sio s) /\
     outlast (st_sio (f s)) = outlast (st_sio s)) ->
  sends k s (f s1).
Proof.
  intros Hk Ho H Hf. destruct (Hf s1) as (F1 & F2 & F3). replace k with (k + 0) by lia.
  eapply sends_trans; [exact H|]. apply sends_same; [lia| |done..]. destruct H as [_ [_ H]]. lia.
Qed.

Lemma serial_up_sio f s : serial_only s (up_sio f s).
Proof. exists (f (st_sio s)), (st_dev s). destruct s; reflexivity. Qed.
Lemma serial_up_dev f s : serial_only s (up_dev f s).
Proof. exists (st_sio s), (f (st_dev s)). destruct s; reflexivity. Qed.

Ltac quiet := eapply sends_quiet; [lia|assumption|eassumption|
  intros ?; split; [first [apply serial_up_sio|apply serial_up_dev]|split; reflexivity]].

Lemma sends_refl k s : 0 <= k -> 0 <= outlast (st_sio s) -> sends k s s.
Proof. intros Hk Ho. now apply sends_same. Qed.

Lemma ends_sio_enable w s : 0 <= outlast (st_sio s) -> ends (sio_enable w) (fun _ => sends 0 s) s.
Proof.
  intros Ho. pose proof (sends_refl 0 s ltac:(lia) Ho) as H0. unfold sio_enable. apply ends_gets.
  apply (ends_bind _ _ (fun _ => sends 0 s)); [apply ends_when; intros _; [apply ends_last; quiet|exact H0]|]. intros [] s1 H1.
  apply (ends_bind _ _ (fun _ => sends 0 s)); [apply ends_when; intros _; [apply ends_last; quiet|exact H1]|]. intros [] s2 H2.
  apply ends_gets. apply (ends_bind _ _ (fun _ => sends 0 s)); [apply ends_when; intros _; [apply ends_last; quiet|exact H2]|].
  intros [] s3 H3. now apply ends_ret.
Qed.

Lemma ends_writec_raw c s : room 1 s -> ends (sio_writec_raw c) (fun _ => sends 1 s) s.
Proof.
  intros Hr. pose proof Hr as (_ & Ho & _). unfold sio_writec_raw. apply ends_gets. destruct (truth _).
  - eapply ends_bind; [now apply ends_put_outlast|]. intros [] s1 H1. apply ends_last. quiet.
  - pose proof (sends_refl 1 s ltac:(lia) Ho) as H0. apply ends_modify.
    match goal with |- ends _ _ ?t => assert (sends 1 s t) as H1 by quiet; set (s1 := t) in *; clearbody s1 end.
    apply ends_modify.
    match goal with |- ends _ _ ?t => assert (sends 1 s t) as H2 by quiet; set (s2 := t) in *; clearbody s2 end.
    eapply ends_bind; [apply ends_sio_enable; apply H2|]. intros old s3 H3.
    apply ends_ret. exact (sends_trans 1 0 s s2 s3 H2 H3).
Qed.

(** The characters that the line takes for a character: CR before LF. *)
Definition wire (c : Z) : Z := if c =? 10 then 2 else 1.

Lemma ends_writec c s : room (wire c) s -> ends (sio_writec c) (fun _ => sends (wire c) s) s.
Proof.
  unfold sio_writec, wire. intros Hr. destruct (c =? 10); cbn [when].
  - eapply ends_bind; [apply ends_writec_raw; exact (room_less 2 1 s ltac:(lia) Hr)|].
    intros [] s1 H1. eapply ends_mono; [apply ends_writec_raw; eapply (room_after 1 1); eassumption|].
    intros [] s2 H2. exact (sends_trans 1 1 _ _ _ H1 H2).
  - eapply ends_step; [reflexivity|]. now apply ends_writec_raw.
Qed.

(** [sio_write] on a buffer of the kernel. *)
Definition write_body (src : source) (length : Z) : Z * Z -> K (Z * Z + Z) :=
  fun '(ptr, copied) =>
    n <- sio outcount ;;
    if (copied <? length) && (n <? BUF_SIZE) then
      c <- src ptr ;;
      put_outlast c ;;
      i <- sio outlast ;;
      when (BUF_SIZE <=? i) (sio_set (set_outlast 0)) ;;
      sio_set (set_outcount (u32 (n + 1))) ;;
      ret (inl (ptr + 1, copied + 1))
    else ret (inr copied).

Lemma sends_wrap k s s1 : 0 <= k -> sends k s s1 -> sends k s (up_sio (set_outlast 0) s1).
Proof.
  intros Hk [H1 [H2 H3]]. split; [etransitivity; [exact H1|apply serial_up_sio]|].
  split; [exact H2|]. cbn. lia.
Qed.

Lemma ends_lit l i s : 0 <= i <= Z.of_nat (length l) ->
  exists c, lit_source l i s = Ret c s.
Proof.
  intros Hi. unfold lit_source. destruct (lookup_lt_is_Some_2 (l ++ [0])%list (Z.to_nat i)) as [x Hx];
    [rewrite length_app; cbn; lia|].
  exists (s8 x). now rewrite (bind_Ret _ _ _ _ _ (aget_ok _ _ _ _ s (proj1 Hi) Hx)).
Qed.

Lemma ends_write_loop l i s : let n := Z.of_nat (length l) in
  0 <= i <= n -> n < 2 ^ 32 -> room (n - i) s ->
  ends (loop (write_body (lit_source l) n) (i, i)) (fun _ => sends (n - i) s) s.
Proof.
  intros n Hi Hn Hr. pose proof Hr as (_ & Ho & _).
  apply (ends_loop _ (fun '(p, k) s' => p = k /\ i <= k <= n /\ sends (k - i) s s')
    (fun '(_, k) _ => Z.to_nat (n - k))); [|split; [done|]; split; [lia|]; apply sends_refl; [lia|done]|lia].
  intros [p k] s1 (-> & Hk & H1). unfold write_body. apply ends_gets.
  destruct (Z.ltb_spec k n); [|apply ends_ret; now replace (n - i) with (k - i) by lia].
  destruct (_ <? BUF_SIZE); cbn [andb]; [|apply ends_ret; eapply sends_more; [|exact H1]; lia].
  destruct (ends_lit l k s1) as (c & Ec); [lia|]. eapply ends_step; [exact Ec|].
  assert (room 1 s1) as Hr1.
  { apply (room_less (n - k)); [lia|]. apply (room_after (k - i) _ s); [|exact H1].
    now replace (k - i + (n - k)) with (n - i) by lia. }
  eapply ends_bind; [exact (ends_put_outlast c s1 Hr1)|]. intros [] s2 H2. apply ends_gets.
  pose proof (sends_trans _ _ _ _ _ H1 H2) as H2'. replace (k - i + 1) with (k + 1 - i) in H2' by lia.
  apply (ends_bind _ _ (fun _ => sends (k + 1 - i) s)).
  { apply ends_when; intros _; [|exact H2']. apply ends_last, sends_wrap; [lia|exact H2']. }
  intros [] s3 H3. apply ends_modify, ends_ret. split; [|lia]. split; [lia|]. split; [lia|]. quiet.
Qed.

Lemma ends_sio_write l s : let n := Z.of_nat (length l) in
  1 <= n < 2 ^ 32 -> room (n + 2) s -> ends (sio_write (lit_source l) n) (fun _ => sends (n + 2) s) s.
Proof.
  intros n Hn Hr. pose proof (room_less (n + 2) n s ltac:(lia) Hr) as Hr0.
  unfold sio_write. destruct (ends_lit l 0 s) as (c & Ec); [lia|].
  eapply ends_step; [exact Ec|]. apply ends_gets.
  apply (ends_bind _ _ (fun _ => sends n s)).
  { destruct (truth _).
    - pose proof (ends_write_loop l 0 s) as H. cbv zeta in H. fold n in H. rewrite Z.sub_0_r in H. apply H; [lia|lia|exact Hr0].
    - eapply ends_mono; [apply (ends_write_loop l 1 s); fold n; [lia|lia|]; eapply room_less; [|exact Hr]; lia|].
      intros k s1. apply sends_more. fold n. lia. }
  intros k s1 H1. apply ends_gets. apply (ends_bind _ _ (fun _ => sends (n + 2) s)); [|intros [] s2 H2; now apply ends_ret].
  apply ends_when; intros _; [|eapply sends_more; [|exact H1]; lia].
  assert (wire c <= 2) as Hw by (unfold wire; destruct (c =? 10); lia).
  eapply ends_mono; [apply ends_writec; eapply room_less; [exact Hw|now apply (room_after n _ s)]|].
  intros [] s2 H2. eapply sends_more; [|exact (sends_trans _ _ _ _ _ H1 H2)]. lia.
Qed.

(** * One cell *)

(** The characters that the line takes for the character shown in a cell. *)
Definition echo (c : Z) : Z :=
  let ch := Z.land (Z.land c 0xffff) 0xff in if ISPRINT ch then wire ch else 6.

(** The code that is sent for a character that does not print. *)
Lemma hex_code c (s : kstate) : 0 <= c < 256 -> exists l, sprint (chars "\x%02x") [AI c] s = Ret l s /\ length l = 4%nat.
Proof.
  intros Hc. assert (forallb (fun c => match render 8 (chars "\x%02x") [AI c] with
    | Some l => Nat.eqb (length l) 4 | None => false end) (seqZ 0 256) = true) as Hall by (vm_compute; reflexivity).
  rewrite forallb_forall in Hall. specialize (Hall c ltac:(apply list_elem_of_In, elem_of_seqZ; lia)). cbv beta in Hall.
  destruct (render 8 (chars "\x%02x") [AI c]) as [l|] eqn:E; [|discriminate Hall].
  apply Nat.eqb_eq in Hall. exists l. split; [|exact Hall]. apply (loop_intro _ 8); [lia|]. exact (sprint_loop _ _ _ _ [] s E).
Qed.

(** What changes when a cell is written. *)
Definition cell_written (k : Z) (s s' : kstate) : Prop :=
  exists v o d, s' = up_cio (set_vram v) (up_sio (fun _ => o) (up_dev (fun _ => d) s)) /\ grown k (st_sio s) o.

Lemma ends_putchar_at x y c s :
  0 <= outlast (st_sio s) -> dup_to_sio (st_cio s) = 0 \/ room (echo c) s ->
  ends (putchar_at x y c) (fun _ => cell_written (echo c) s) s.
Proof.
  intros Ho Hr. assert (0 <= echo c) as He by (unfold echo, wire; cbv zeta; destruct (ISPRINT _); [destruct (Z.eqb _ 10)|]; lia).
  assert (forall v, cell_written (echo c) s (up_cio (set_vram v) s)) as H0.
  { intros v. exists v, (st_sio s), (st_dev s). split; [destruct s; reflexivity|]. split; [done|lia]. }
  unfold putchar_at. apply ends_gets. destruct (_ && _).
  2: { apply ends_ret. exists (vram (st_cio s)), (st_sio s), (st_dev s).
       split; [destruct s as [? ? ? ? ? ? ? [] ? ?]; reflexivity|]. split; [done|lia]. }
  cbv zeta. apply ends_modify. match goal with |- ends _ _ (up_cio ?f _) => set (s1 := up_cio f s) end.
  assert (exists v, s1 = up_cio (set_vram v) s) as (v & E1) by (eexists; reflexivity). clearbody s1.
  destruct Hr as [Hd|Hr]; [rewrite Hd; cbn [truth Z.eqb negb orb]; apply ends_ret; rewrite E1; apply H0|].
  destruct (_ || _); [apply ends_ret; rewrite E1; apply H0|].
  assert (forall s2, sends (echo c) s1 s2 -> cell_written (echo c) s s2) as Hc.
  { intros s2 [(o & d & ->) Hg]. exists v, o, d. rewrite E1 in *. split; [destruct s; reflexivity|exact Hg]. }
  assert (room (echo c) s1) as Hr1 by (rewrite E1; exact Hr). unfold echo in *. cbv zeta in *.
  set (ch := Z.land _ 0xff) in *. destruct (ISPRINT ch).
  - eapply ends_mono; [now apply ends_writec|]. intros [] s2. apply Hc.
  - destruct (hex_code ch s1) as (l & El & Hl); [unfold ch; change 0xff with (Z.ones 8); rewrite Z.land_ones by lia; apply Z.mod_pos_bound; lia|]. eapply ends_step; [exact El|].
    eapply ends_bind; [|intros n s2 H2; apply ends_ret, Hc, H2].
    pose proof (ends_sio_write l s1) as H. rewrite Hl in H. apply H; [lia|exact Hr1].
Qed.

(** * Characters *)

(** The console, without what output changes. *)
Definition core (r : cio_t) : cio_t := set_vram ∅ (set_curr_x 0 (set_curr_y 0 (set_dup2sio_bak 0 r))).

Lemma con_wt_core k k' s s' :
  con_wt k' s -> core (st_cio s') = core (st_cio s) ->
  cursor_ok (st_cio s) (curr_x (st_cio s')) (curr_y (st_cio s')) -> out_wt k (st_cio s) (st_sio s') -> con_wt k s'.
Proof.
  destruct s as [m k1 q t p cl o r g d], s' as [m' k1' q' t' p' cl' o' r' g' d']. cbn [st_cio st_sio].
  intros [[G1 G2 G3 G4] _ [K1 K2 K3 K4 K5] _] Hc Hcur [O1 O2 O3 O4]. cbn [st_cio st_sio] in *.
  destruct r, r'. injection Hc as -> -> -> -> -> -> -> -> -> -> -> -> -> -> -> ->.
  split; [split; assumption|exact Hcur|split; assumption|split; assumption].
Qed.

(** The room that a character needs. *)
Definition cost (c : Z) : Z :=
  if (Z.land c BMASK8 =? 10) || (Z.land c BMASK8 =? 13) then 0 else echo c.

Lemma echo_nonneg c : 0 <= echo c.
Proof. unfold echo, wire; cbv zeta; destruct (ISPRINT _); [destruct (Z.eqb _ 10)|]; lia. Qed.

Lemma cost_nonneg c : 0 <= cost c.
Proof. unfold cost. destruct (_ || _); [lia|apply echo_nonneg]. Qed.

Notation x_of s := (curr_x (st_cio s)).
Notation y_of s := (curr_y (st_cio s)).
(** The cursor is on a cell of the window. *)
Definition in_view (s : kstate) : Prop :=
  scroll_min_x (st_cio s) <= x_of s <= scroll_max_x (st_cio s) /\
  scroll_min_y (st_cio s) <= y_of s <= scroll_max_y (st_cio s).

(** Only what output changes has changed, and the serial line is as it was. *)
Definition screen_only (s s' : kstate) : Prop := exists c, s' = on s c.

Lemma con_wt_screen k s c : con_wt k s -> cursor_ok (st_cio s) (sc_x c) (sc_y c) -> con_wt k (on s c).
Proof. intros H Hc. eapply con_wt_core; [exact H|reflexivity|exact Hc|apply H]. Qed.

Lemma geometry_bounds r : geometry r ->
  0 <= scroll_min_x r <= scroll_max_x r /\ scroll_max_x r <= 79 /\ 0 <= scroll_min_y r <= scroll_max_y r /\ scroll_max_y r <= 24.
Proof. intros [_ _ [? ?] [? ?]]. auto. Qed.

(** Scrolling, when the cursor is below the window. *)
Lemma ends_make_room k s : con_wt k s ->
  ends (when (scroll_max_y (st_cio s) <? y_of s)
     (cio_scroll (u32 (y_of s - scroll_max_y (st_cio s))) ;; cio_set (set_curr_y (scroll_max_y (st_cio s)))))
   (fun _ s' => con_wt k s' /\ in_view s') s.
Proof.
  intros Hw. pose proof Hw as [G [Hx Hy] _ _]. pose proof (geometry_bounds _ G) as Hb.
  apply ends_when; intros Hc; zbool; [|split; [done|split; lia]].
  eapply ends_bind.
  - apply (ends_draws _ _ (fun _ s' => exists c, s' = on s c /\ scroll_min_x (st_cio s) <= sc_x c <= scroll_max_x (st_cio s)) _
      (draws_scroll s G _ (screen_of s) (u32_range _) Hx)). intros _ c [H1 _]. eauto.
  - intros [] s1 (c & -> & H1). apply ends_last.
    set (c' := Scr (sc_vram c) (sc_x c) (scroll_max_y (st_cio s)) (sc_bak c) (sc_out c)).
    change (con_wt k (on s c') /\ in_view (on s c')). split; [|unfold in_view; cbn; lia].
    apply con_wt_screen; [done|]. unfold cursor_ok. cbn. lia.
Qed.

(** The end of a line: the rest is blanked, without an echo. *)
Definition end_line : K unit :=
  cio_set (fun r => set_dup2sio_bak (dup_to_sio r) r) ;;
  cio_set (set_dup_to_sio 0) ;;
  loop (fun _ : unit =>
    x <- cio curr_x ;;
    y <- cio curr_y ;;
    smx <- cio scroll_max_x ;;
    if x <=? smx then
      putchar_at x y 32 ;;
      cio_set (set_curr_x (u32 (x + 1))) ;;
      ret (inl tt)
    else ret (inr tt)) tt ;;
  newline_dup ;;
  cio_set (fun r => set_curr_x (scroll_min_x r) r) ;;
  cio_set (fun r => set_curr_y (u32 (curr_y r + 1)) r).

Lemma newline_dup_off s : dup_to_sio (st_cio s) = 0 ->
  newline_dup s = Ret tt (up_cio (fun r => set_dup_to_sio (dup2sio_bak r) r) s).
Proof. intros E. unfold newline_dup, bind, cio, gets. now rewrite E. Qed.

(** The state while a line is blanked. *)
Definition muted (s : kstate) : kstate :=
  up_cio (set_dup_to_sio 0) (up_cio (fun r => set_dup2sio_bak (dup_to_sio r) r) s).

Lemma core_muted s : core (st_cio (muted s)) = set_dup_to_sio 0 (core (st_cio s)).
Proof. reflexivity. Qed.

Lemma core_restored s c : core (st_cio (up_cio (fun r => set_dup_to_sio (dup2sio_bak r) r) (on s c)))
  = set_dup_to_sio (sc_bak c) (core (st_cio s)).
Proof. reflexivity. Qed.

Lemma core_unmuted r : set_dup_to_sio (dup_to_sio r) (set_dup_to_sio 0 (core r)) = core r.
Proof. now destruct r. Qed.

Lemma core_next s : core (st_cio (up_cio (fun r => set_curr_y (u32 (curr_y r + 1)) r)
  (up_cio (fun r => set_curr_x (scroll_min_x r) r) s))) = core (st_cio s).
Proof. reflexivity. Qed.

Lemma ends_end_line k s : con_wt k s -> in_view s -> ends end_line (fun _ => con_wt k) s.
Proof.
  intros Hw [Hx Hy]. pose proof Hw as [G _ _ _]. pose proof (geometry_bounds _ G) as Hb.
  unfold end_line. do 2 apply ends_modify. fold (muted s). pose proof (core_muted s) as Ec.
  assert (window_ok (st_cio (muted s))) as W by (split; [destruct G; split; assumption|reflexivity]).
  assert (in_view (muted s)) as [Hx1 Hy1] by now split.
  assert (y_of (muted s) = y_of s /\ scroll_min_x (st_cio (muted s)) = scroll_min_x (st_cio s) /\
    dup2sio_bak (st_cio (muted s)) = dup_to_sio (st_cio s) /\ st_sio (muted s) = st_sio s) as (Ey & Emx & Ebk & Eo) by done.
  set (s1 := muted s) in *. clearbody s1.
  eapply ends_bind.
  - apply (ends_draws _ _ (fun _ s' => exists c, s' = on s1 c /\ sc_y c = y_of s1 /\ sc_bak c = dup2sio_bak (st_cio s1)) _
      (draws_blank_line s1 W (screen_of s1) Hx1 Hy1)). intros _ c [H1 H2]. eauto.
  - intros [] s2 (c & -> & Ey2 & Eb2).
    eapply ends_step; [apply newline_dup_off; exact (wo_dup _ W)|].
    pose proof (core_restored s1 c) as Er. rewrite Ec, Eb2, Ebk, core_unmuted in Er.
    apply ends_modify, ends_last. eapply con_wt_core; [exact Hw|rewrite core_next; exact Er| |cbn; rewrite Eo; apply Hw].
    unfold cursor_ok. cbn. rewrite Ey2, Ey, Emx, u32_small by lia. lia.
Qed.

(** The next cell, or the start of the next line. *)
Definition advance (x : Z) : K unit :=
  cio_set (set_curr_x (u32 (x + 1))) ;;
  smx <- cio scroll_max_x ;;
  when (smx <? u32 (x + 1))
    (cio_set (fun r => set_curr_x (scroll_min_x r) r) ;;
     cio_set (fun r => set_curr_y (u32 (curr_y r + 1)) r)).

Lemma ends_advance k s : con_wt k s -> in_view s -> ends (advance (x_of s)) (fun _ => con_wt k) s.
Proof.
  intros Hw [Hx Hy]. pose proof Hw as [G _ _ _].
  apply (ends_draws _ _ _ _ (draws_advance s G (x_of s) (screen_of s) Hx Hy)). intros _ c Hc. now apply con_wt_screen.
Qed.

Lemma con_wt_cell k j s s' : 0 <= j -> con_wt (j + k) s -> cell_written j s s' -> con_wt k s'.
Proof.
  intros Hj Hw (v & o & d & -> & [H1 H2]). eapply con_wt_core; [exact Hw|reflexivity|apply Hw|].
  destruct Hw as [_ _ _ [O1 O2 O3 O4]]. split; [cbn; congruence|cbn; lia|exact O3|]. cbn. destruct O4; [now left|right; lia].
Qed.

Lemma ends_putchar k c s : 0 <= k -> con_wt (cost c + k) s -> ends (cio_putchar c) (fun _ => con_wt k) s.
Proof.
  intros Hk Hw0. unfold cio_putchar. do 2 apply ends_gets.
  eapply ends_bind; [exact (ends_make_room _ s Hw0)|]. clear Hw0. intros [] s0 [Hw Hv].
  apply (ends_bind _ _ (fun _ => con_wt k)).
  2: { clear. intros [] s Hw. apply (ends_draws _ _ _ _ (draws_setcursor s (screen_of s))). intros _ c' (E1 & E2 & _).
       apply con_wt_screen; [done|]. rewrite E1, E2. apply Hw. }
  unfold cost in Hw. destruct (_ =? 10); cbn [orb] in Hw; [|destruct (_ =? 13); cbn [orb] in Hw].
  - now apply ends_end_line.
  - apply ends_last. destruct Hv as [Hx Hy]. pose proof (geometry_bounds _ (cw_geometry _ _ Hw)).
    eapply con_wt_core; [exact Hw|reflexivity|unfold cursor_ok; cbn; lia|apply Hw].
  - do 2 apply ends_gets. pose proof (echo_nonneg c) as He. pose proof Hw as [_ _ _ [O1 O2 _ O4]].
    eapply ends_bind.
    { apply (ends_putchar_at (x_of s0) (y_of s0) c s0 O2). destruct O4; [now left|right]. split; [exact O1|lia]. }
    intros [] s1 Hc. pose proof (con_wt_cell _ _ _ _ He Hw Hc) as Hw1.
    destruct Hc as (v & o & d & -> & _). exact (ends_advance k _ Hw1 Hv).
Qed.

(** * Strings and the other operations *)

Definition costs (l : list Z) : Z := foldr (fun c n => cost (uchar c) + n) 0 l.

Lemma costs_nonneg l : 0 <= costs l.
Proof. induction l as [|c l IH]; [done|]. cbn [costs foldr]. fold (costs l). pose proof (cost_nonneg (uchar c)). lia. Qed.

Lemma ends_puts k l s : 0 <= k -> con_wt (costs l + k) s -> ends (cio_puts l) (fun _ => con_wt k) s.
Proof.
  intros Hk. revert s; induction l as [|c l IH]; intros s Hw; [now apply ends_ret|]. cbn [cio_puts costs foldr] in *.
  fold (costs l) in Hw. pose proof (costs_nonneg l).
  eapply ends_bind; [apply (ends_putchar (costs l + k)); [lia|now rewrite Z.add_assoc]|]. intros [] s1. apply IH.
Qed.

(** Cells written while output is not duplicated. *)
Lemma cell_refl k s : 0 <= k -> 0 <= outlast (st_sio s) -> cell_written k s s.
Proof.
  intros Hk Ho. exists (vram (st_cio s)), (st_sio s), (st_dev s).
  split; [destruct s as [? ? ? ? ? ? ? [] ? ?]; reflexivity|]. split; [done|lia].
Qed.

Lemma ends_putchar_at_off x y c s s0 : dup_to_sio (st_cio s) = 0 -> cell_written 0 s s0 ->
  ends (putchar_at x y c) (fun _ => cell_written 0 s) s0.
Proof.
  intros Hd (v & o & d & -> & [G1 G2]). unfold putchar_at. apply ends_gets. destruct (_ && _).
  - apply ends_modify. cbn [st_cio up_cio up_sio up_dev set_vram dup_to_sio]. rewrite Hd. cbn [truth Z.eqb negb orb].
    apply ends_ret. eexists _, o, d. split; [reflexivity|]. split; [done|lia].
  - apply ends_ret. exists v, o, d. split; [reflexivity|]. split; [done|lia].
Qed.

(** The room that a character at a place needs. *)
Definition cost_at (c : Z) : Z := if Z.land c 0x7f =? 10 then 0 else echo c.

Lemma cost_at_nonneg c : 0 <= cost_at c.
Proof. unfold cost_at. destruct (_ =? _); [lia|apply echo_nonneg]. Qed.

Lemma ends_blank_to limit x y s : 0 <= x -> limit <= 79 -> 0 <= outlast (st_sio s) -> dup_to_sio (st_cio s) = 0 ->
  ends (loop (fun x => if x <=? limit then putchar_at x y 32 ;; ret (inl (u32 (x + 1))) else ret (inr tt)) x)
    (fun _ => cell_written 0 s) s.
Proof.
  intros Hx Hl Ho Hd. apply (ends_loop _ (fun x s' => 0 <= x /\ cell_written 0 s s') (fun x _ => Z.to_nat (limit + 1 - x)));
    [|split; [done|now apply cell_refl]|lia].
  intros x' s1 [Hx' Hc]. destruct (Z.leb_spec x' limit); [|now apply ends_ret].
  eapply ends_bind; [exact (ends_putchar_at_off x' y 32 s s1 Hd Hc)|]. intros [] s2 Hc2. apply ends_ret.
  rewrite u32_small by lia. split; [split; [lia|done]|lia].
Qed.

(** New cells, and duplication as it was before. *)
Lemma core_unmute s o d v : core (st_cio (up_cio (fun r => set_dup_to_sio (dup2sio_bak r) r)
    (up_cio (set_vram v) (up_sio (fun _ => o) (up_dev (fun _ => d) (muted s)))))) = core (st_cio s).
Proof. unfold muted. destruct s as [? ? ? ? ? ? ? [] ? ?]. reflexivity. Qed.

Lemma con_wt_unmute k s s1 : con_wt k s -> cell_written 0 (muted s) s1 ->
  con_wt k (up_cio (fun r => set_dup_to_sio (dup2sio_bak r) r) s1).
Proof.
  intros Hw (v & o & d & -> & [H1 H2]). pose proof Hw as [_ Hc _ [O1 O2 O3 O4]].
  eapply con_wt_core; [exact Hw|apply core_unmute|exact Hc|].
  split; [cbn in *; congruence|cbn in *; lia|exact O3|]. cbn in *. destruct O4; [now left|right; lia].
Qed.

Lemma ends_cio_putchar_at k x y c s : 0 <= k -> 0 <= x -> con_wt (cost_at c + k) s ->
  ends (cio_putchar_at x y c) (fun _ => con_wt k) s.
Proof.
  intros Hk Hx Hw. pose proof Hw as [G _ _ [O1 O2 _ O4]]. pose proof (geometry_bounds _ G) as Hb.
  unfold cio_putchar_at, cost_at in *. destruct (_ =? 10).
  - apply ends_gets. do 2 apply ends_modify. fold (muted s).
    assert (dup_to_sio (st_cio (muted s)) = 0 /\ st_sio (muted s) = st_sio s) as [Ed Eo] by done.
    eapply ends_bind.
    { apply ends_blank_to; [exact Hx| |now rewrite Eo|exact Ed]. destruct (wo_max _ G) as [Em _].
      destruct (Z.ltb_spec (scroll_max_x (st_cio s)) x); [lia|]. destruct (Z.leb_spec (scroll_min_x (st_cio s)) x); [lia|].
      rewrite u32_small by lia. lia. }
    intros [] s1 Hc. pose proof (con_wt_unmute k s s1 Hw Hc) as Hw1.
    exists tt. eexists. split; [apply newline_dup_off|exact Hw1]. destruct Hc as (v & o & d & -> & _). exact Ed.
  - pose proof (echo_nonneg c) as He. eapply ends_mono.
    { apply ends_putchar_at; [exact O2|]. destruct O4; [now left|right]. split; [done|lia]. }
    intros [] s1. now apply con_wt_cell.
Qed.

Definition costs_at (l : list Z) : Z := foldr (fun c n => cost_at (uchar c) + n) 0 l.

Lemma costs_at_nonneg l : 0 <= costs_at l.
Proof. induction l as [|c l IH]; [done|]. cbn [costs_at foldr]. fold (costs_at l). pose proof (cost_at_nonneg (uchar c)). lia. Qed.

Lemma ends_puts_at k x y l s : 0 <= k -> 0 <= x -> con_wt (costs_at l + k) s ->
  ends (cio_puts_at x y l) (fun _ => con_wt k) s.
Proof.
  intros Hk. revert x s; induction l as [|c l IH]; intros x s Hx Hw; [now apply ends_ret|].
  cbn [cio_puts_at costs_at foldr] in *. fold (costs_at l) in Hw. pose proof (costs_at_nonneg l).
  pose proof (cost_at_nonneg (uchar c)). apply ends_gets.
  destruct (x <=? _); [|apply ends_ret; eapply con_wt_less; [|exact Hw]; lia].
  eapply ends_bind; [apply (ends_cio_putchar_at (costs_at l + k)); [lia|done|now rewrite Z.add_assoc]|].
  intros [] s1. apply IH. apply u32_range.
Qed.

(** Operations that draw nothing but blanks, or move the cursor or the window. *)
Lemma ends_setcursor k s : con_wt k s -> ends setcursor (fun _ => con_wt k) s.
Proof.
  intros Hw. apply (ends_draws _ _ _ _ (draws_setcursor s (screen_of s))). intros _ c' (E1 & E2 & _).
  apply con_wt_screen; [done|]. rewrite E1, E2. apply Hw.
Qed.

Lemma ends_clearscroll k s : con_wt k s -> ends cio_clearscroll (fun _ => con_wt k) s.
Proof.
  intros Hw. apply (ends_draws _ _ _ _ (draws_clearscroll s (cw_geometry _ _ Hw) (screen_of s))).
  intros _ c' (E1 & E2 & _). apply con_wt_screen; [done|]. rewrite E1, E2. apply Hw.
Qed.

Lemma ends_scroll k n s : con_wt k s -> ends (cio_scroll (u32 n)) (fun _ => con_wt k) s.
Proof.
  intros Hw. pose proof Hw as [G [Hx Hy] _ _]. pose proof (geometry_bounds _ G).
  apply (ends_draws _ _ _ _ (draws_scroll s G (u32 n) (screen_of s) (u32_range n) Hx)).
  intros _ c' (E1 & _ & E2). apply con_wt_screen; [done|]. split; [exact E1|]. cbn in *. lia.
Qed.

Lemma ends_vram k s v : con_wt k s -> con_wt k (up_cio (set_vram v) s).
Proof. intros Hw. eapply con_wt_core; [exact Hw|reflexivity|apply Hw..]. Qed.

Lemma clearscreen_cells s : geometry (st_cio s) ->
  ends cio_clearscreen (fun _ s' => exists v, s' = up_cio (set_vram v) s) s.
Proof.
  intros [[E1 E2] [E3 E4] _ _]. unfold cio_clearscreen. apply ends_gets. rewrite E1, E2, E3, E4. cbv zeta.
  apply (ends_loop _ (fun _ s' => exists v, s' = up_cio (set_vram v) s) (fun '(_, n) _ => Z.to_nat n));
    [|exists (vram (st_cio s)); destruct s as [? ? ? ? ? ? ? [] ? ?]; reflexivity|vm_compute; reflexivity].
  intros [a n] s1 (v & ->). destruct (Z.ltb_spec 0 n); [|apply ends_ret; now exists v].
  apply ends_modify, ends_ret. split; [|lia]. eexists. reflexivity.
Qed.

Lemma ends_clearscreen k s : con_wt k s -> ends cio_clearscreen (fun _ => con_wt k) s.
Proof.
  intros Hw. eapply ends_mono; [exact (clearscreen_cells s (cw_geometry _ _ Hw))|].
  intros [] s' (v & ->). now apply ends_vram.
Qed.

Lemma bound_range lo v hi : lo <= hi -> lo <= bound lo v hi <= hi.
Proof.
  intros H. unfold bound. destruct (Z.ltb_spec v lo); [destruct (Z.ltb_spec hi lo)|destruct (Z.ltb_spec hi v)]; lia.
Qed.

Lemma ends_moveto k x y s : con_wt k s -> ends (cio_moveto x y) (fun _ => con_wt k) s.
Proof.
  intros Hw. pose proof (geometry_bounds _ (cw_geometry _ _ Hw)) as Hb. unfold cio_moveto.
  apply ends_gets, ends_modify, ends_modify, ends_setcursor.
  eapply con_wt_core; [exact Hw|reflexivity| |apply Hw].
  pose proof (bound_range (scroll_min_x (st_cio s)) (u32 (x + scroll_min_x (st_cio s))) (scroll_max_x (st_cio s)) ltac:(lia)).
  pose proof (bound_range (scroll_min_y (st_cio s)) (u32 (y + scroll_min_y (st_cio s))) (scroll_max_y (st_cio s)) ltac:(lia)).
  unfold cursor_ok. cbn. lia.
Qed.

Lemma ends_setscroll k a b c d s : con_wt k s -> ends (cio_setscroll a b c d) (fun _ => con_wt k) s.
Proof.
  intros Hw. pose proof Hw as [[[E1 E2] [E3 E4] _ _] _ [K1 K2 K3 K4 K5] [O1 O2 O3 O4]]. unfold cio_setscroll.
  apply ends_gets. do 2 apply ends_modify. do 2 apply ends_gets. do 4 apply ends_modify. apply ends_setcursor.
  rewrite E1, E2, E3, E4. cbn [scroll_min_x scroll_min_y st_cio up_cio set_scroll_min_x set_scroll_min_y].
  pose proof (bound_range 0 a 79 ltac:(lia)). pose proof (bound_range 0 b 24 ltac:(lia)).
  set (x := bound 0 a 79) in *. set (y := bound 0 b 24) in *.
  pose proof (bound_range x c 79 ltac:(lia)). pose proof (bound_range y d 24 ltac:(lia)).
  split; [split; cbn; auto with lia| |split; assumption|split; assumption]. unfold cursor_ok. cbn. lia.
Qed.

(** A scan code changes the keyboard's variables only. *)
Lemma keys_wt_put i v r : keys_wt r -> 0 <= v < 256 -> keys_wt (set_input_buffer (aset (input_buffer r) i v) r).
Proof.
  intros [K1 K2 K3 K4 K5] Hv. split; cbn; [now rewrite length_aset|now apply Forall_insert|done..].
Qed.

Lemma increment_range p : 0 <= p < C_BUFSIZE -> 0 <= increment p < C_BUFSIZE.
Proof. unfold increment, C_BUFSIZE. intros H. destruct (Z.leb_spec 200 (p + 1)); lia. Qed.

(** Only the variables of the keyboard differ. *)
Definition without_keys (r : cio_t) : cio_t :=
  set_input_buffer [] (set_next_char 0 (set_next_space 0 (set_kb_shift 0 (set_kb_ctrl_mask 0 r)))).
Definition keys_only (r r' : cio_t) : Prop := without_keys r' = without_keys r.

Lemma con_wt_keys k s r : con_wt k s -> keys_wt r -> keys_only (st_cio s) r -> con_wt k (up_cio (fun _ => r) s).
Proof.
  intros [[G1 G2 G3 G4] C _ [O1 O2 O3 O4]] Hk. destruct s as [? ? ? ? ? ? ? r0 ? ?]. cbn [st_cio] in *.
  unfold keys_only. destruct r0, r. intros E. injection E as -> -> -> -> -> -> -> -> -> -> -> -> -> -> ->.
  split; [split; assumption|exact C|exact Hk|split; assumption].
Qed.

(** The tables give a byte for each key. *)
Lemma scan_code_byte shift code : 0 <= code < 128 ->
  exists c, scan_code shift !! Z.to_nat code = Some c /\ 0 <= c < 256.
Proof.
  intros Hc. assert (forall l, forallb (fun c => (0 <=? c) && (c <? 256)) l = true -> length l = 128%nat ->
    exists c, l !! Z.to_nat code = Some c /\ 0 <= c < 256) as Hl.
  { intros l Hall Hlen. destruct (lookup_lt_is_Some_2 l (Z.to_nat code)) as [c E]; [lia|]. exists c. split; [exact E|].
    rewrite forallb_forall in Hall. specialize (Hall c ltac:(eapply list_elem_of_In, list_elem_of_lookup_2, E)). zbool. lia. }
  unfold scan_code. destruct (shift =? 0); apply Hl; vm_compute; reflexivity.
Qed.

Lemma IS_PRESS_lt code : 0 <= code < 256 -> IS_PRESS code = (code <? 128).
Proof.
  intros H. unfold IS_PRESS. change 0x80 with (2 ^ 7).
  assert (Hall : forallb (fun n => Bool.eqb (Z.land (Z.of_nat n) (2 ^ 7) =? 0) (Z.of_nat n <? 128))
    (seq 0 256) = true) by (vm_compute; reflexivity).
  rewrite forallb_forall in Hall. specialize (Hall (Z.to_nat code)).
  rewrite Z2Nat.id in Hall by lia. apply Bool.eqb_prop, Hall, in_seq. lia.
Qed.

Lemma byte_mask c m : 0 <= c < 256 -> m = BMASK5 \/ m = BMASK8 -> 0 <= Z.land c m < 256.
Proof.
  intros Hc Hm. assert (exists n, 0 <= n <= 8 /\ m = Z.ones n) as (n & Hn & ->)
    by (destruct Hm as [-> | ->]; [exists 5|exists 8]; split; [lia|reflexivity|lia|reflexivity]).
  rewrite Z.land_ones by lia. pose proof (Z.pow_pos_nonneg 2 n ltac:(lia) ltac:(lia)).
  pose proof (Z.mod_le c (2 ^ n) ltac:(lia) ltac:(lia)). pose proof (Z.mod_pos_bound c (2 ^ n) ltac:(lia)). lia.
Qed.

Lemma ends_scan code s : keys_wt (st_cio s) ->
  ends (input_scan_code code) (fun v s' => -1 <= v < 256 /\ exists r, s' = up_cio (fun _ => r) s /\
    keys_wt r /\ keys_only (st_cio s) r) s.
Proof.
  intros Hk. pose proof Hk as [K1 K2 K3 K4 K5]. unfold input_scan_code. cbv zeta.
  assert (forall v f, -1 <= v < 256 -> keys_wt (f (st_cio s)) -> keys_only (st_cio s) (f (st_cio s)) ->
    ends (ret v) (fun v s' => -1 <= v < 256 /\ exists r, s' = up_cio (fun _ => r) s /\
      keys_wt r /\ keys_only (st_cio s) r) (up_cio f s)) as Hend.
  { intros v f Hv H1 H2. apply ends_ret. split; [exact Hv|]. exists (f (st_cio s)). auto. }
  assert (forall v, -1 <= v < 256 -> ends (ret v) (fun v s' => -1 <= v < 256 /\ exists r, s' = up_cio (fun _ => r) s /\
      keys_wt r /\ keys_only (st_cio s) r) s) as Hskip.
  { intros v Hv. apply ends_ret. split; [exact Hv|]. exists (st_cio s). split; [now destruct s|]. split; [exact Hk|done]. }
  destruct (_ || _); [apply ends_modify, Hend; [lia|split; try done; now right|done]|].
  destruct (_ || _); [apply ends_modify, Hend; [lia|split; try done; now left|done]|].
  destruct (_ =? L_CTRL_DN); [apply ends_modify, Hend; [lia|split; try done; now left|done]|].
  destruct (_ =? L_CTRL_UP); [apply ends_modify, Hend; [lia|split; try done; now right|done]|].
  assert (0 <= Z.land code BMASK8 < 256) as Hc
    by (change BMASK8 with (Z.ones 8); rewrite Z.land_ones by lia; now apply Z.mod_pos_bound).
  rewrite IS_PRESS_lt by exact Hc. destruct (Z.ltb_spec (Z.land code BMASK8) 128); [|apply Hskip; lia]. apply ends_gets.
  destruct (scan_code_byte (kb_shift (st_cio s)) (Z.land code BMASK8)) as (c & Ec & Hb); [lia|].
  eapply ends_step; [exact (aget_ok _ _ _ _ s (proj1 Hc) Ec)|].
  destruct (negb _); [|apply Hskip; lia]. do 3 apply ends_gets. cbv zeta.
  pose proof (byte_mask c (kb_ctrl_mask (st_cio s)) Hb K5) as Hv. set (v := Z.land c _) in *.
  destruct (negb _); cbn [when]; [|eapply ends_step; [reflexivity|]; apply Hskip; lia].
  eapply ends_step; [reflexivity|].
  match goal with |- ends _ _ (up_cio ?g (up_cio ?f s)) =>
    change (up_cio g (up_cio f s)) with (up_cio (fun r => g (f r)) s) end.
  apply Hend; [lia| |done]. pose proof (keys_wt_put (next_space (st_cio s)) (u8 v) _ Hk (u8_range v)) as [J1 J2 _ _ _].
  pose proof (increment_range (next_space (st_cio s)) (proj2 K3)). split; cbn; try assumption. lia.
Qed.

Lemma ends_key k code s : con_wt k s -> ends (input_scan_code code) (fun _ => con_wt k) s.
Proof.
  intros Hw. eapply ends_mono; [exact (ends_scan code s (cw_keys _ _ Hw))|].
  intros v s' (_ & r & -> & H1 & H2). now apply con_wt_keys.
Qed.

Lemma con_wt_mem k f s : con_wt k s -> con_wt k (up_mem f s).
Proof. intros [G C K O]. now split. Qed.

(** Duplication may be switched on when there is room. *)
Lemma con_wt_dup k s : con_wt k s -> outlast (st_sio s) + k <= BUF_SIZE -> con_wt k (up_cio (set_dup_to_sio 1) s).
Proof.
  intros [[G1 G2 G3 G4] C [K1 K2 K3 K4 K5] [O1 O2 O3 O4]] Hr.
  split; [split; assumption|exact C|split; assumption|split; [exact O1|exact O2|now right|now right]].
Qed.
