(* ===== verification/CioClaims.v ===== *)
(** The console's contracts: output stays in the window and ends; the keyboard is a
    queue of the characters typed. *)

From S2P Require Import Prelude Memory State Lib Sio Cio Frames CioSpec CioFormat CioTypes.

Open Scope kernel_scope.

(** * The keyboard *)

(** What has been typed and not yet read, and the modifier keys. *)
Record kbd_t := Kbd {
  kb_shifted : bool;
  kb_control : bool;
  kb_typed : list Z
}.

(** The character of a key.  A key without character has the code 255. *)
Definition key_char (k : kbd_t) (code : Z) : Z :=
  Z.land
    (default 0 ((if kb_shifted k then scan_code_shifted else scan_code_unshifted) !! Z.to_nat code))
    (if kb_control k then BMASK5 else BMASK8).

(** The queue holds one character less than the buffer. *)
Definition type_char (c : Z) (k : kbd_t) : kbd_t :=
  if Z.of_nat (length (kb_typed k)) <? C_BUFSIZE - 1
  then Kbd (kb_shifted k) (kb_control k) (kb_typed k ++ [c]) else k.

(** A scan code: a modifier, a key pressed, or a key released. *)
Definition scan (code : Z) (k : kbd_t) : option Z * kbd_t :=
  let code := Z.land code BMASK8 in
  if (code =? L_SHIFT_DN) || (code =? R_SHIFT_DN) then (None, Kbd true (kb_control k) (kb_typed k))
  else if (code =? L_SHIFT_UP) || (code =? R_SHIFT_UP) then (None, Kbd false (kb_control k) (kb_typed k))
  else if code =? L_CTRL_DN then (None, Kbd (kb_shifted k) true (kb_typed k))
  else if code =? L_CTRL_UP then (None, Kbd (kb_shifted k) false (kb_typed k))
  else if code <? 128 then (Some (key_char k code), type_char (key_char k code) k)
  else (None, k).

(** The variables of the keyboard represent it. *)
Record kbd_rep (r : cio_t) (k : kbd_t) : Prop := KbdRep {
  kr_shift : kb_shift r = if kb_shifted k then 1 else 0;
  kr_control : kb_ctrl_mask r = if kb_control k then BMASK5 else BMASK8;
  kr_size : Z.of_nat (length (input_buffer r)) = C_BUFSIZE;
  kr_char : 0 <= next_char r < C_BUFSIZE;
  kr_room : Z.of_nat (length (kb_typed k)) < C_BUFSIZE;
  kr_space : next_space r = (next_char r + Z.of_nat (length (kb_typed k))) mod C_BUFSIZE;
  kr_typed : forall i c, kb_typed k !! i = Some c ->
    input_buffer r !! Z.to_nat ((next_char r + Z.of_nat i) mod C_BUFSIZE) = Some c
}.

Lemma increment_mod p : 0 <= p < C_BUFSIZE -> increment p = (p + 1) mod C_BUFSIZE.
Proof.
  unfold increment, C_BUFSIZE. intros H. zcase 200 (p + 1).
  - replace (p + 1) with 200 by lia. reflexivity.
  - now rewrite Z.mod_small by lia.
Qed.

(** Two places less than a buffer apart are different. *)
Lemma place_ne p i j : 0 <= i < j -> j - i < C_BUFSIZE ->
  (p + i) mod C_BUFSIZE <> (p + j) mod C_BUFSIZE.
Proof.
  unfold C_BUFSIZE. intros Hi Hj E. 
  pose proof (Z.div_mod (p + i) 200 ltac:(lia)). pose proof (Z.div_mod (p + j) 200 ltac:(lia)).
  assert (200 * ((p + j) / 200 - (p + i) / 200) = j - i) by lia. lia.
Qed.

Lemma land_mask_u8 x m : 0 <= x < 256 -> u8 (Z.land x m) = Z.land x m /\ 0 <= Z.land x m.
Proof.
  intros Hx. assert (0 <= Z.land x m) by (apply Z.land_nonneg; lia). split; [|done].
  unfold u8. replace 256 with (2 ^ 8) by reflexivity. rewrite <- Z.land_ones by lia.
  rewrite <- Z.land_assoc, (Z.land_comm m), Z.land_assoc, (Z.land_ones x) by lia.
  now rewrite (Z.mod_small x) by lia.
Qed.

(** Typing at the end of the queue. *)
Lemma type_char_rep r k c v : kbd_rep r k -> u8 v = c ->
  let next := increment (next_space r) in
  let r' := if negb (next =? next_char r)
            then set_next_space next (set_input_buffer (aset (input_buffer r) (next_space r) (u8 v)) r)
            else r in
  kbd_rep r' (type_char c k).
Proof.
  intros [H1 H2 H3 H4 H5 H6 H7] Hc. cbv zeta. unfold type_char.
  assert (0 <= next_space r < C_BUFSIZE) as Hn by (rewrite H6; now apply Z.mod_pos_bound).
  rewrite increment_mod by done. rewrite H6, Zplus_mod_idemp_l.
  set (n := Z.of_nat (length (kb_typed k))) in *.
  replace (next_char r + n + 1) with (next_char r + (n + 1)) by lia.
  zcase n (C_BUFSIZE - 1).
  - pose proof (place_ne (next_char r) 0 (n + 1) ltac:(lia) ltac:(lia)) as Hne.
    rewrite Z.add_0_r, (Z.mod_small (next_char r)) in Hne by done.
    replace ((next_char r + (n + 1)) mod C_BUFSIZE =? next_char r) with false
      by (symmetry; apply Z.eqb_neq; lia). cbn [negb].
    split; cbn; rewrite ?length_aset, ?length_app; cbn; try done; try lia.
    { f_equal. lia. }
    intros i x Hi. unfold aset. apply lookup_app_Some in Hi as [Hi|[Hi Hx]].
    + pose proof (lookup_lt_Some _ _ _ Hi).
      rewrite list_lookup_insert_ne; [now apply H7|].
      pose proof (place_ne (next_char r) (Z.of_nat i) n ltac:(lia) ltac:(unfold C_BUFSIZE in *; lia)).
      pose proof (Z.mod_pos_bound (next_char r + Z.of_nat i) C_BUFSIZE eq_refl).
      pose proof (Z.mod_pos_bound (next_char r + n) C_BUFSIZE eq_refl). lia.
    + apply list_lookup_singleton_Some in Hx as [Hx <-].
      replace (Z.of_nat i) with n by lia. rewrite Hc. apply list_lookup_insert_eq.
      pose proof (Z.mod_pos_bound (next_char r + n) C_BUFSIZE eq_refl). lia.
  - assert (n + 1 = C_BUFSIZE) as -> by lia.
    replace (next_char r + C_BUFSIZE) with (next_char r + 1 * C_BUFSIZE) by lia.
    rewrite Z.mod_add, (Z.mod_small (next_char r)), Z.eqb_refl by (done || lia). now split.
Qed.

(** Every key has a byte in the table, and the comparison with [CHAR_377] is never
    an equality. *)
Lemma key_in_table k code : 0 <= code < 128 ->
  exists c, scan_code (if kb_shifted k then 1 else 0) !! Z.to_nat code = Some c /\ 0 <= c < 256 /\
    key_char k code = Z.land c (if kb_control k then BMASK5 else BMASK8).
Proof.
  intros H. destruct (scan_code_byte (if kb_shifted k then 1 else 0) code H) as (c & Hc & Hr).
  exists c. split; [exact Hc|]. split; [exact Hr|]. unfold key_char. destruct (kb_shifted k); cbn in *; now rewrite Hc.
Qed.

Lemma input_scan_code_spec code s k : kbd_rep (st_cio s) k ->
  exists r', input_scan_code code s = Ret (default (-1) (fst (scan code k))) (up_cio (fun _ => r') s) /\
    keys_only (st_cio s) r' /\ kbd_rep r' (snd (scan code k)).
Proof.
  intros H. unfold input_scan_code, scan. cbv zeta.
  assert (0 <= Z.land code BMASK8 < 256) as Hc.
  { change BMASK8 with (Z.ones 8). rewrite Z.land_ones by lia. now apply Z.mod_pos_bound. }
  set (cd := Z.land code BMASK8) in *. clearbody cd.
  destruct (_ || _); [|destruct (_ || _); [|destruct (cd =? L_CTRL_DN); [|destruct (cd =? L_CTRL_UP)]]].
  1-4: eexists; split; [reflexivity|]; split; [reflexivity|]; destruct H; split; cbn; assumption || reflexivity.
  rewrite IS_PRESS_lt by done. zcase cd 128.
  2: { exists (st_cio s). split; [now destruct s|]. now split. }
  destruct (key_in_table k cd ltac:(lia)) as (c & Hl & Hr & ->).
  rewrite run_cio, (kr_shift _ _ H).
  rewrite (bind_Ret _ _ _ _ _ (aget_ok _ _ _ _ s (proj1 Hc) Hl)).
  assert (CHAR_377 = -1) as -> by reflexivity. zcase c (-1); [lia|].
  cbn [negb]. rewrite run_cio.
  rewrite run_cio, (kr_control _ _ H).
  set (v := Z.land c _). assert (u8 v = v) as Hv by now apply land_mask_u8.
  rewrite run_cio.
  pose proof (type_char_rep _ _ _ _ H Hv) as Hk. cbv zeta in Hk. cbn [fst snd default from_option].
  eexists. split; [|split; [|exact Hk]]; destruct (negb _); try reflexivity. now destruct s.
Qed.

(** ** What output leaves alone *)

(** The variables of the keyboard, and the cells of the screen. *)
Definition keys_of (r : cio_t) := (kb_shift r, kb_ctrl_mask r, input_buffer r, next_char r, next_space r).
Definition held {A} (p : cio_t -> A) (s s' : kstate) : Prop := p (st_cio s') = p (st_cio s).

#[local] Instance held_preorder {A} (p : cio_t -> A) : PreOrder (held p).
Proof. split; [now intros s|]. unfold held. intros s1 s2 s3 E1 E2. congruence. Qed.

Ltac held_step :=
  lazymatch goal with
  | |- keeps _ (bind _ _) => apply keeps_bind; [exact _| |intros ?]
  | |- keeps _ (when _ _) => apply keeps_when; [exact _|]
  | |- keeps _ (loop _ _) => apply keeps_loop; [exact _|intros ?]
  | |- keeps _ (match ?x with _ => _ end) => destruct x
  | |- keeps _ (ret _) => apply keeps_ret; exact _
  | |- keeps _ (undef _) => apply keeps_undef; exact _
  | |- keeps _ (aget _ _ _) => apply keeps_aget; exact _
  | |- keeps _ _ => let s := fresh in intros s; reflexivity
  end.
Ltac held := intros; repeat held_step.

Lemma held_writec {A} (p : cio_t -> A) c : keeps (held p) (sio_writec c).
Proof. unfold sio_writec, sio_writec_raw, put_outlast, sio_enable. held. Qed.

Lemma held_echo {A} (p : cio_t -> A) ch : keeps (held p) (buf <- sprint (chars "\x%02x") [AI ch] ;; sio_write (lit_source buf) 4 ;; ret tt).
Proof.
  pose proof (held_writec p). unfold sprint, sprint_step, convert, sio_write, lit_source, put_outlast. held; try apply H.
Qed.

Lemma held_setcursor {A} (p : cio_t -> A) : keeps (held p) setcursor.
Proof. unfold setcursor. held. Qed.

Lemma keys_putchar_at x y c : keeps (held keys_of) (putchar_at x y c).
Proof.
  unfold putchar_at, vput. apply keeps_bind; [exact _|held|]. intros r. destruct (_ && _); [|held]. cbv zeta.
  apply keeps_bind; [exact _|held|]. intros _. destruct (_ || _); [held|].
  destruct (ISPRINT _); [apply held_writec|apply held_echo].
Qed.

Lemma keys_putchar c : keeps (held keys_of) (cio_putchar c).
Proof.
  pose proof (held_setcursor keys_of) as H1. pose proof keys_putchar_at as H2. pose proof (held_writec keys_of) as H3.
  unfold cio_putchar, cio_scroll, cio_clearscroll, blank_row, copy_row, vput, vget, newline_dup.
  repeat first [apply H1|apply H2|apply H3|held_step].
Qed.

Lemma kbd_rep_held r r' k : keys_of r' = keys_of r -> kbd_rep r k -> kbd_rep r' k.
Proof. unfold keys_of. intros [= E1 E2 E3 E4 E5] [H1 H2 H3 H4 H5 H6 H7]. split; rewrite ?E1, ?E2, ?E3, ?E4, ?E5; assumption. Qed.

(** ** What is shown *)

(** The cell of a character; the characters that move the cursor only. *)
Definition cell_of (c : Z) : Z :=
  u16 (if BMASK8 <? Z.land c 0xffff then Z.land c 0xffff else Z.lor (Z.land c 0xffff) VGA_DEFAULT).
Definition moves (c : Z) : bool := (Z.land c BMASK8 =? 10) || (Z.land c BMASK8 =? 13).

(** A character that is printed stands where the cursor was. *)
Lemma putchar_shows c s s' :
  geometry (st_cio s) -> cursor_ok (st_cio s) (curr_x (st_cio s)) (curr_y (st_cio s)) ->
  curr_y (st_cio s) <= scroll_max_y (st_cio s) -> moves c = false -> cio_putchar c s = Ret tt s' ->
  vram (st_cio s') !! VIDEO_ADDR (curr_x (st_cio s)) (curr_y (st_cio s)) = Some (cell_of c).
Proof.
  intros [_ [G1 G2] G3 G4] [C1 C2] Hy Hm E. unfold moves in Hm. apply orb_false_iff in Hm as [M1 M2].
  unfold cio_putchar in E. rewrite 2!run_cio, M1, M2 in E.
  destruct (Z.ltb_spec (scroll_max_y (st_cio s)) (curr_y (st_cio s))) as [|_]; [lia|]. cbn [when] in E.
  rewrite bind_ret_l, bind_assoc, run_cio, bind_assoc, run_cio in E.
  set (x := curr_x (st_cio s)) in *. set (y := curr_y (st_cio s)) in *.
  apply bind_inv_Ret in E as ([] & s1 & E1 & E).
  apply bind_inv_Ret in E1 as ([] & s2 & E2 & E1).
  assert (vram (st_cio s') = vram (st_cio s2)) as ->.
  { transitivity (vram (st_cio s1)).
    - pose proof (held_setcursor vram s1) as H. rewrite E in H. exact H.
    - assert (forall m : K unit, keeps (held vram) m -> m s2 = Ret tt s1 -> vram (st_cio s1) = vram (st_cio s2)) as H
        by (intros m Hm Em; specialize (Hm s2); now rewrite Em in Hm).
      eapply H; [|exact E1]. held. }
  clear E E1 s1. unfold putchar_at in E2. rewrite run_cio in E2.
  destruct (Z.leb_spec x (max_x (st_cio s))); [|lia]. destruct (Z.leb_spec y (max_y (st_cio s))); [|lia]. cbn [andb] in E2.
  cbv zeta in E2. apply bind_inv_Ret in E2 as ([] & s3 & E3 & E2). injection E3 as <-.
  assert (vram (st_cio s2) = <[VIDEO_ADDR x y := cell_of c]> (vram (st_cio s))) as ->; [|apply lookup_insert_eq].
  assert (forall m : K unit, keeps (held vram) m -> m (up_cio (fun r => set_vram (<[VIDEO_ADDR x y := cell_of c]> (vram r)) r) s) = Ret tt s2 ->
    vram (st_cio s2) = <[VIDEO_ADDR x y := cell_of c]> (vram (st_cio s))) as H1
    by (intros m Hm Em; specialize (Hm (up_cio (fun r => set_vram (<[VIDEO_ADDR x y := cell_of c]> (vram r)) r) s)); now rewrite Em in Hm).
  eapply H1; [|exact E2]. destruct (_ || _); [held|]. destruct (ISPRINT _); [apply held_writec|apply held_echo].
Qed.

(** ** Reading *)

(** The console when its first character has been taken. *)
Definition taken (s : kstate) : kstate := up_cio (set_next_char (increment (next_char (st_cio s)))) s.

Lemma taken_rep s k c l : kbd_rep (st_cio s) k -> kb_typed k = c :: l ->
  kbd_rep (st_cio (taken s)) (Kbd (kb_shifted k) (kb_control k) l).
Proof.
  intros [H1 H2 H3 H4 H5 H6 H7] Hk. rewrite Hk in *. cbn [length] in *. split; cbn; try done; try lia.
  - rewrite increment_mod by done. now apply Z.mod_pos_bound.
  - rewrite increment_mod, Zplus_mod_idemp_l, H6 by done. f_equal. lia.
  - intros i x Hi. rewrite increment_mod, Zplus_mod_idemp_l by done.
    rewrite <- (H7 (S i) x Hi). do 3 f_equal. lia.
Qed.

Lemma taken_wt k s : con_wt k s -> con_wt k (taken s).
Proof.
  intros Hw. apply con_wt_keys; [exact Hw| |reflexivity]. pose proof (cw_keys _ _ Hw) as [K1 K2 [K3 K4] K5 K6].
  split; cbn; try done. split; [now apply increment_range|done].
Qed.

(** Reading takes the first character typed, and echoes it unless it is the end of
    the input. *)
Lemma cio_getchar_run s k c l : kbd_rep (st_cio s) k -> kb_typed k = c :: l ->
  let v := s8 (Z.land c BMASK8) in
  cio_getchar s = (when (negb (v =? EOT)) (cio_putchar (u32 v)) ;; ret v) (taken s).
Proof.
  intros [H1 H2 H3 H4 H5 H6 H7] Hk. unfold cio_getchar.
  rewrite run_gets.
  assert (loop (fun _ : unit =>
    nc <- cio next_char ;;
    nsp <- cio next_space ;;
    if nc =? nsp then
      when (negb (truth (Z.land (eflags (st_dev s)) EFL_IF)))
        (loop (fun _ : unit =>
           st <- inb KBD_STATUS ;;
           if Z.land st KBD_IN_READY =? 0 then ret (inl tt) else ret (inr tt)) tt ;;
         data <- inb KBD_DATA ;;
         input_scan_code data ;;
         ret tt) ;;
      ret (inl tt)
    else ret (inr tt)) tt s = Ret tt s) as E.
  { apply (loop_intro _ 1); [lia|]. apply (loopN_done _ 0). rewrite 2!run_cio.
    rewrite Hk in *. cbn [length] in *.
    pose proof (place_ne (next_char (st_cio s)) 0 (Z.of_nat (S (length l))) ltac:(lia) ltac:(lia)) as Hne.
    rewrite Z.add_0_r, (Z.mod_small (next_char _)), <- H6 in Hne by done.
    zcase (next_char (st_cio s)) (next_space (st_cio s)); [done|reflexivity]. }
  cbv zeta. rewrite (bind_Ret _ _ _ _ _ E), 2!run_cio. clear E.
  pose proof (H7 O c ltac:(now rewrite Hk)) as Hb. rewrite Z.add_0_r, Z.mod_small in Hb by done.
  rewrite (bind_Ret _ _ _ _ _ (aget_ok _ _ _ _ s (proj1 H4) Hb)). cbv zeta.
  exact (bind_Ret (cio_set (set_next_char (increment (next_char (st_cio s))))) _ s tt (taken s) eq_refl).
Qed.

(** * The claims *)

(** Output through the scrolling family ends, whatever the string holds (line
    feeds, returns, long lines, scrolling), and is confined: the machine differs
    only in the cells of the window, the cursor and the ports of the cursor, and
    the cursor is in the window, or at the start of the line below. *)
Theorem cio_puts_confined (s : kstate) (str : list Z) :
  window_ok (st_cio s) -> cursor_ok (st_cio s) (curr_x (st_cio s)) (curr_y (st_cio s)) ->
  exists c, cio_puts str s = Ret tt (on s c) /\
    same_outside (st_cio s) (vram (st_cio s)) (sc_vram c) /\ cursor_ok (st_cio s) (sc_x c) (sc_y c).
Proof.
  intros W Hc. destruct (draws_puts s W str (screen_of s) Hc) as ([] & c & E & Ho & Hq).
  rewrite on_screen_of in E. now exists c.
Qed.

(** The console as [cio_init] leaves it. *)
Definition console_example : kstate := final (cio_init 0) (boot_state ∅ (fun _ _ => 0)).

Lemma console_window : window_ok (st_cio console_example).
Proof. repeat split; vm_compute; intuition congruence. Qed.

Lemma console_cursor :
  cursor_ok (st_cio console_example) (curr_x (st_cio console_example)) (curr_y (st_cio console_example)).
Proof. split; vm_compute; intuition congruence. Qed.

Lemma cio_puts_confined_witness :
  exists c, cio_puts (chars "ready." ++ [10]) console_example = Ret tt (on console_example c) /\
    same_outside (st_cio console_example) (vram (st_cio console_example)) (sc_vram c) /\
    cursor_ok (st_cio console_example) (sc_x c) (sc_y c).
Proof.
  exact (cio_puts_confined console_example (chars "ready." ++ [10]) console_window console_cursor).
Defined.

(** C29: The keyboard refines a queue of characters.  A scan code acts as [scan] says:
    the modifier keys set the mode, a pressed key adds its character unless 199
    characters wait, a released key does nothing; a key without character adds 255,
    since the comparison with '\377' is never true; nothing else changes.  Reading takes
    the character typed first.  At the end of the input (4) that is all; any other
    character is echoed: [cio_putchar] of it runs on the console without it, whether
    output is duplicated to the serial line or not (its buffer must have room for the
    echo if it is), leaves the queue alone, and shows the character where the cursor was
    (line feed and return move the cursor only; when the cursor is below the window it
    is scrolled first). *)
Theorem keyboard_refines_queue (s : kstate) (k : kbd_t) :
  kbd_rep (st_cio s) k ->
  (forall code, exists r',
    input_scan_code code s = Ret (default (-1) (fst (scan code k))) (up_cio (fun _ => r') s) /\
    keys_only (st_cio s) r' /\ kbd_rep r' (snd (scan code k))) /\
  (forall c l, kb_typed k = c :: l ->
    let v := s8 (Z.land c BMASK8) in let rest := Kbd (kb_shifted k) (kb_control k) l in
    kbd_rep (st_cio (taken s)) rest /\
    (v = EOT -> cio_getchar s = Ret v (taken s)) /\
    (v <> EOT -> con_wt (cost (u32 v)) s ->
     exists s', cio_getchar s = Ret v s' /\ cio_putchar (u32 v) (taken s) = Ret tt s' /\
       kbd_rep (st_cio s') rest /\ con_wt 0 s' /\
       (moves (u32 v) = false -> curr_y (st_cio s) <= scroll_max_y (st_cio s) ->
        vram (st_cio s') !! VIDEO_ADDR (curr_x (st_cio s)) (curr_y (st_cio s)) = Some (cell_of (u32 v))))).
Proof.
  intros Hk. split; [intros code; now apply input_scan_code_spec|]. intros c l Hl v rest.
  pose proof (taken_rep s k c l Hk Hl) as Hr. pose proof (cio_getchar_run s k c l Hk Hl) as E. cbv zeta in E. fold v in E.
  split; [exact Hr|]. split.
  - intros Ev. rewrite E, Ev. reflexivity.
  - intros Hv Hw. destruct (Z.eqb_spec v EOT) as [|_]; [contradiction|]. cbn [negb when] in E.
    pose proof (taken_wt _ _ Hw) as Hw1. rewrite <- (Z.add_0_r (cost (u32 v))) in Hw1.
    destruct (ends_putchar 0 (u32 v) (taken s) (Z.le_refl 0) Hw1) as ([] & s' & E1 & Hw').
    exists s'. split; [rewrite E; now mstep E1|]. split; [exact E1|]. split; [|split; [exact Hw'|]].
    + apply (kbd_rep_held (st_cio (taken s))); [|exact Hr]. pose proof (keys_putchar (u32 v) (taken s)) as Hp. now rewrite E1 in Hp.
    + intros Hm Hy. exact (putchar_shows (u32 v) (taken s) s' (cw_geometry _ _ Hw1) (cw_cursor _ _ Hw1) Hy Hm E1).
Qed.

(** The keys "H", "i" (with shift for the first) were typed; output is duplicated to the
    serial line. *)
Definition typed_example : kstate :=
  final (input_scan_code 0x2a ;; input_scan_code 0x23 ;; input_scan_code 0xaa ;; input_scan_code 0x17)
    (up_cio (set_dup_to_sio 1) console_example).

Lemma typed_rep : kbd_rep (st_cio typed_example) (Kbd false false (chars "Hi")).
Proof.
  split; try (vm_compute; intuition congruence).
  intros [|[|i]] c H; [| |done]; injection H as <-; vm_compute; reflexivity.
Qed.

Lemma keyboard_refines_queue_witness :
  (exists r', input_scan_code 0x0b typed_example = Ret 48 (up_cio (fun _ => r') typed_example) /\
    keys_only (st_cio typed_example) r' /\ kbd_rep r' (Kbd false false (chars "Hi0"))) /\
  (exists s', cio_getchar typed_example = Ret 72 s' /\
    kbd_rep (st_cio s') (Kbd false false (chars "i")) /\
    vram (st_cio s') !! VIDEO_ADDR 0 1 = Some (Z.lor 72 VGA_DEFAULT)).
Proof.
  destruct (keyboard_refines_queue typed_example (Kbd false false (chars "Hi")) typed_rep) as [H1 H2].
  split; [exact (H1 0x0b)|]. destruct (H2 72 [105] eq_refl) as (_ & _ & H3).
  destruct (H3 ltac:(discriminate)) as (s' & E & _ & Hr & _ & Hs).
  - split.
    + repeat split; vm_compute; intuition congruence.
    + split; vm_compute; intuition congruence.
    + split; [vm_compute; reflexivity| |vm_compute; intuition congruence|now left|now right].
      assert (forallb (fun c => (0 <=? c) && (c <? 256)) (input_buffer (st_cio typed_example)) = true) as Hb
        by (vm_compute; reflexivity).
      apply List.Forall_forall. intros c Hc. rewrite forallb_forall in Hb. specialize (Hb c Hc). zbool. lia.
    + split; [vm_compute; reflexivity|vm_compute; intuition congruence|now right|right; vm_compute; intuition congruence].
  - assert (curr_x (st_cio typed_example) = 0 /\ curr_y (st_cio typed_example) = 1 /\ scroll_max_y (st_cio typed_example) = 24)
      as (Ex & Ey & Em) by (vm_compute; intuition congruence).
    rewrite Ex, Ey, Em in Hs. exists s'. split; [exact E|]. split; [exact Hr|]. exact (Hs eq_refl ltac:(lia)).
Defined.

(** * The types of the console *)

Inductive con_op :=
| OpPutchar (c : Z)
| OpPuts (l : list Z)
| OpPutcharAt (x y c : Z)
| OpPutsAt (x y : Z) (l : list Z)
| OpPrintf (fmt : list Z) (args : list arg)
| OpMoveto (x y : Z)
| OpSetscroll (x y x' y' : Z)
| OpClearscroll
| OpClearscreen
| OpScroll (n : Z)
| OpDupOff
| OpKey (code : Z).

Definition run_op (o : con_op) : K unit :=
  match o with
  | OpPutchar c => cio_putchar c
  | OpPuts l => cio_puts l
  | OpPutcharAt x y c => cio_putchar_at (u32 x) (u32 y) c
  | OpPutsAt x y l => cio_puts_at (u32 x) (u32 y) l
  | OpPrintf fmt args => cio_printf fmt args
  | OpMoveto x y => cio_moveto x y
  | OpSetscroll a b c d => cio_setscroll a b c d
  | OpClearscroll => cio_clearscroll
  | OpClearscreen => cio_clearscreen
  | OpScroll n => cio_scroll (u32 n)
  | OpDupOff => cio_opt_clear CIO_OPT_DUP ;; ret tt
  | OpKey code => input_scan_code code ;; ret tt
  end.

(** The room in the serial buffer that an operation needs when output is duplicated. *)
Definition op_cost (o : con_op) : Z :=
  match o with
  | OpPutchar c => cost c
  | OpPuts l => costs l
  | OpPutcharAt _ _ c => cost_at c
  | OpPutsAt _ _ l => costs_at l
  | OpPrintf fmt args => costs (default [] (render (S (length fmt)) fmt args))
  | _ => 0
  end.

(** A format fits its arguments, and prints no NUL. *)
Definition op_ok (o : con_op) : Prop :=
  match o with
  | OpPrintf fmt args => exists text, formats fmt args text /\ no_nul text /\ Z.of_nat (length fmt) < 2 ^ 40
  | _ => True
  end.

Fixpoint run_ops (l : list con_op) : K unit :=
  match l with [] => ret tt | o :: l => run_op o ;; run_ops l end.

Definition ops_cost (l : list con_op) : Z := foldr (fun o n => op_cost o + n) 0 l.

Lemma op_cost_nonneg o : 0 <= op_cost o.
Proof. destruct o; cbn [op_cost]; first [apply cost_nonneg|apply costs_nonneg|apply cost_at_nonneg|apply costs_at_nonneg|lia]. Qed.

Lemma ops_cost_nonneg l : 0 <= ops_cost l.
Proof.
  induction l as [|o l IH]; [done|]. cbn [ops_cost foldr]. fold (ops_cost l). pose proof (op_cost_nonneg o). lia.
Qed.

Lemma ends_op k o s : 0 <= k -> op_ok o -> con_wt (op_cost o + k) s -> ends (run_op o) (fun _ => con_wt k) s.
Proof.
  intros Hk Ho Hw. pose proof (con_wt_less (op_cost o + k) k s ltac:(pose proof (op_cost_nonneg o); lia) Hw) as Hw0.
  destruct o; cbn [run_op op_cost op_ok] in *.
  - now apply ends_putchar.
  - now apply ends_puts.
  - apply ends_cio_putchar_at; [done|apply u32_range|done].
  - apply ends_puts_at; [done|apply u32_range|done].
  - destruct Ho as (text & Hf & Hn & Hl). destruct (ends_puts k text s Hk) as (a & s' & E & H).
    { unfold formats in Hf. now rewrite Hf in Hw. }
    exists a, s'. split; [now rewrite (cio_printf_puts _ _ text)|exact H].
  - now apply ends_moveto.
  - now apply ends_setscroll.
  - now apply ends_clearscroll.
  - now apply ends_clearscreen.
  - now apply ends_scroll.
  - eapply ends_step; [reflexivity|]. apply ends_ret. destruct Hw0 as [G C [K1 K2 K3 K4 K5] [O1 O2 O3 O4]].
    split; [destruct G; split; assumption|exact C|split; assumption|split; [exact O1|exact O2|left; reflexivity|left; reflexivity]].
  - eapply ends_bind; [exact (ends_key k code s Hw0)|]. intros v s1 H. now apply ends_ret.
Qed.

Lemma io_run_op o : keeps io_only (run_op o).
Proof.
  destruct o; cbn [run_op]; unfold cio_printf, cio_moveto, cio_setscroll, cio_clearscroll, cio_clearscreen, vput, cio_opt_clear, input_scan_code; io.
Qed.

(** C30: the console is type-safe.  From a console whose window is on the screen, whose
    cursor is in the window, whose keyboard indices are in the buffer and whose serial
    buffer has room for the echo (if output is duplicated), every sequence of output
    operations, changes of the window and key codes returns (no index leaves its array,
    no loop runs for ever), leaves a console of the same type, and touches nothing else
    in the kernel. *)
Theorem console_type_safe ops k s :
  0 <= k -> Forall op_ok ops -> con_wt (ops_cost ops + k) s ->
  exists s', run_ops ops s = Ret tt s' /\ con_wt k s' /\ io_only s s'.
Proof.
  intros Hk. revert s; induction ops as [|o ops IH]; intros s Ho Hw; [exists s; split; [done|]; split; [exact Hw|reflexivity]|].
  apply Forall_cons in Ho as [Ho Ho']. cbn [run_ops ops_cost foldr] in *. fold (ops_cost ops) in Hw.
  pose proof (ops_cost_nonneg ops).
  destruct (ends_op (ops_cost ops + k) o s ltac:(lia) Ho) as ([] & s1 & E1 & H1); [now rewrite Z.add_assoc|].
  destruct (IH s1 Ho' H1) as (s2 & E2 & H2 & Hio). exists s2. split; [now mstep E1|]. split; [exact H2|].
  etransitivity; [exact (io_Ret _ _ _ _ (io_run_op o) E1)|exact Hio].
Qed.

Lemma console_example_wt : con_wt 1024 console_example.
Proof.
  split; [repeat split; vm_compute; intuition congruence|split; vm_compute; intuition congruence| |].
  - split; [vm_compute; reflexivity| |vm_compute; intuition congruence|now left|now right].
    assert (input_buffer (st_cio console_example) = replicate 200 0) as -> by (vm_compute; reflexivity).
    apply Forall_replicate. lia.
  - split; [vm_compute; reflexivity|vm_compute; congruence|now left|now left].
Qed.

(** The console after [cio_init], with output duplicated. *)
Definition dup_example : kstate := up_cio (set_dup_to_sio 1) console_example.

Lemma dup_example_wt : con_wt 1024 dup_example.
Proof. apply con_wt_dup; [exact console_example_wt|vm_compute; congruence]. Qed.

Definition example_ops : list con_op :=
  [OpPuts (chars "ready." ++ [10]); OpSetscroll 0 7 99 99; OpClearscroll; OpKey 0x23;
   OpPrintf (chars "%d of %5s|") [AI (-7); AS (chars "xy")]; OpPutsAt 0 30 (chars "off the screen"); OpDupOff].

Lemma console_type_safe_witness :
  exists s', run_ops example_ops dup_example = Ret tt s' /\ con_wt 990 s' /\ io_only dup_example s'.
Proof.
  apply (console_type_safe example_ops 990 dup_example); [lia| |].
  - repeat (constructor; [exact I|]). constructor; [|repeat constructor].
    eexists. split; [vm_compute; reflexivity|]. split; [apply no_nul_check; reflexivity|vm_compute; reflexivity].
  - eapply con_wt_less; [|exact dup_example_wt]. vm_compute. congruence.
Defined.

(** C31: [cio_printf] prints the text that [sprint] builds: for every format that fits its
    arguments, both produce the characters of [formats], padding included. *)
Theorem printf_prints_text fmt args text s :
  formats fmt args text -> no_nul text -> Z.of_nat (length fmt) < 2 ^ 40 ->
  sprint fmt args s = Ret text s /\ cio_printf fmt args s = cio_puts text s.
Proof. intros H Hn Hl. split; [now apply sprint_formats|now apply cio_printf_puts]. Qed.

Lemma printf_prints_text_witness :
  cio_printf (chars "%-4d|%04x%%") [AI (-7); AI 0xbeef] console_example
  = cio_puts (chars "-7  |BEEF") console_example.
Proof.
  refine (proj2 (printf_prints_text _ _ (chars "-7  |BEEF") console_example _ _ _));
    [vm_compute; reflexivity|apply no_nul_check; reflexivity|vm_compute; reflexivity].
Defined.
