(* ===== verification/Kmem.v ===== *)
(** kernel/kmem.c: the page and slice allocator.  Free blocks are linked through
    their own first two words ([blkinfo_t]: length in pages, next block) in the
    flat memory. *)

From S2P Require Import Prelude Memory State Lib Sio Cio.

Open Scope kernel_scope.

(** * Definitions *)

Definition P2B (x : Z) : Z := u32 (Z.shiftl x 12).
Definition B2P (x : Z) : Z := Z.shiftr x 12.

(** [block->pages] and [block->next] *)
Definition blk_pages (b : Z) : K Z := load32 b.
Definition blk_next (b : Z) : K Z := load32 (b + 4).
Definition set_pages (b v : Z) : K unit := store32 b v.
Definition set_next (b v : Z) : K unit := store32 (b + 4) v.

Definition adjacent (first second : Z) : K bool :=
  n <- blk_pages first ;;
  ret (u32 (first + P2B n) =? second).

(** * Free list management *)

Definition add_block (base length : Z) : K unit :=
  if length <? SZ_PAGE then ret tt
  else
    let length :=
      if negb (Z.land length 0xfff =? 0) then Z.land length 0xfffff000 else length in
    let block := base in
    set_pages block (B2P length) ;;
    set_next block NULL ;;
    fp <- km free_pages ;;
    if fp =? NULL then
      km_set (set_free_pages block) ;;
      n <- blk_pages block ;;
      km_set (set_n_pages n)
    else
      pc <- loop (fun '(prev, curr) =>
        if negb (curr =? NULL) && (curr <? block) then
          nx <- blk_next curr ;; ret (inl (curr, nx))
        else ret (inr (prev, curr))) (NULL, fp) ;;
      let '(prev, curr) := pc in
      set_next block curr ;;
      (if prev =? NULL then
         assert "add_block: curr" (negb (curr =? NULL)) ;;
         km_set (set_free_pages block)
       else set_next prev block) ;;
      n <- blk_pages block ;;
      km_set (fun r => set_n_pages (u32 (n_pages r + n)) r).

(** ** The BIOS memory map *)

Definition MMAP_ADDR : Z := 0x2d00.
Definition SZ_REGION : Z := 24.
Definition REGION_USABLE : Z := 1.
Definition REGION_IGNORE : Z := 1.
Definition REGION_NONVOL : Z := 2.
Definition ADDR_LOW_HALF : Z := 0xffffffff.

(** [region_t]: base, length, type and ACPI flags at offsets 0, 8, 16, 20. *)
Definition km_region (region : Z) : K unit :=
  acpi <- load32 (region + 20) ;;
  type <- load32 (region + 16) ;;
  if Z.land acpi REGION_IGNORE =? 0 then ret tt
  else if negb (Z.land acpi REGION_NONVOL =? 0) then ret tt
  else if negb (type =? REGION_USABLE) then ret tt
  else
    base <- load64 region ;;
    length <- load64 (region + 8) ;;
    let endpt := u64 (base + length) in
    let high := (KM_HIGH_CUTOFF <=? base) || (KM_HIGH_CUTOFF <=? endpt) in
    if high && (KM_HIGH_CUTOFF <? base) then ret tt
    else
      let endpt := if high then KM_HIGH_CUTOFF else endpt in
      let low := (base <? KM_LOW_CUTOFF) || (endpt <? KM_LOW_CUTOFF) in
      if low && (endpt <? KM_LOW_CUTOFF) then ret tt
      else
        let base := if low then KM_LOW_CUTOFF else base in
        let length := u64 (endpt - base) in
        let b32 := Z.land base ADDR_LOW_HALF in
        let l32 := Z.land length ADDR_LOW_HALF in
        add_block b32 l32.

Definition km_init : K unit :=
  cio_puts (chars " KM") ;;
  km_set (set_free_slices NULL) ;;
  km_set (set_free_pages NULL) ;;
  km_set (set_n_slices 0) ;;
  km_set (set_n_pages 0) ;;
  km_set (set_km_initialized 0) ;;
  e <- load32 MMAP_ADDR ;;
  let entries := s32 e in
  if entries <? 1 then ret tt
  else
    loop (fun '(i, region) =>
      if i <? entries then
        km_region region ;; ret (inl (i + 1, region + SZ_REGION))
      else ret (inr tt)) (0, MMAP_ADDR + 4) ;;
    km_set (set_km_initialized 1).

(** One line of [km_dump]. *)
Definition km_dump_list (what : string) (first : Z) : K unit :=
  loop (fun block =>
    if negb (block =? NULL) then
      n <- blk_pages block ;;
      nx <- blk_next block ;;
      cio_printf (chars "block @ 0x%08x 0x%08x " ++ chars what
                  ++ chars " (ends at 0x%08x) next @ 0x%08x" ++ [10])%list
        [AI block; AI n; AI (u32 (P2B n + block)); AI nx] ;;
      ret (inl nx)
    else ret (inr tt)) first.

Section Dump.
(** The addresses of the two list heads, which [km_dump] prints. *)
Context (free_pages_addr free_slices_addr : Z).

Definition km_dump : K unit :=
  np <- km n_pages ;;
  ns <- km n_slices ;;
  cio_printf (chars "&free_pages=%08x, &free_slices %08x, %u pages, %u slices" ++ [10])%list
    [AI free_pages_addr; AI free_slices_addr; AI np; AI ns] ;;
  fp <- km free_pages ;;
  km_dump_list "pages" fp ;;
  fs <- km free_slices ;;
  km_dump_list "slices" fs.
End Dump.

(** * Page management *)

(** [blkinfo_t **pointer]: the list head, or the [next] field of a block. *)
Inductive link := Head | Next (b : Z).

Definition assign_link (l : link) (v : Z) : K unit :=
  match l with
  | Head => km_set (set_free_pages v)
  | Next b => set_next b v
  end.

Definition km_page_alloc (count : Z) : K Z :=
  init <- km km_initialized ;;
  assert "km_page_alloc: km_initialized" (negb (init =? 0)) ;;
  if count <? 1 then ret NULL
  else
    fp <- km free_pages ;;
    bp <- loop (fun '(block, pointer) =>
      if negb (block =? NULL) then
        n <- blk_pages block ;;
        if n <? count then
          nx <- blk_next block ;; ret (inl (nx, Next block))
        else ret (inr (block, pointer))
      else ret (inr (block, pointer))) (fp, Head) ;;
    let '(block, pointer) := bp in
    if block =? NULL then ret NULL
    else
      n <- blk_pages block ;;
      (if n =? count then
         nx <- blk_next block ;;
         assign_link pointer nx
       else
         let excess := s32 (n - count) in
         let fragment := u32 (block + P2B count) in
         set_pages fragment excess ;;
         nx <- blk_next block ;;
         set_next fragment nx ;;
         assign_link pointer fragment) ;;
      km_set (fun r => set_n_pages (u32 (n_pages r - count)) r) ;;
      ret block.

Definition km_page_free_multi (block count : Z) : K unit :=
  init <- km km_initialized ;;
  assert "km_page_free_multi: km_initialized" (negb (init =? 0)) ;;
  if block =? NULL then ret tt
  else
    let used := block in
    set_pages used count ;;
    fp <- km free_pages ;;
    pc <- loop (fun '(prev, curr) =>
      if negb (curr =? NULL) && (curr <? used) then
        nx <- blk_next curr ;; ret (inl (curr, nx))
      else ret (inr (prev, curr))) (NULL, fp) ;;
    let '(prev, curr) := pc in
    used <- (if negb (prev =? NULL) then
        adj <- adjacent prev used ;;
        if (adj : bool) then
          pn <- blk_pages prev ;;
          un <- blk_pages used ;;
          set_pages prev (u32 (pn + un)) ;;
          ret prev
        else
          pnx <- blk_next prev ;;
          set_next used pnx ;;
          set_next prev used ;;
          ret used
      else
        fp <- km free_pages ;;
        set_next used fp ;;
        km_set (set_free_pages used) ;;
        ret used) ;;
    (if negb (curr =? NULL) then
       adj <- adjacent used curr ;;
       when adj
         (cnx <- blk_next curr ;;
          set_next used cnx ;;
          un <- blk_pages used ;;
          cn <- blk_pages curr ;;
          set_pages used (u32 (un + cn)))
     else ret tt) ;;
    km_set (fun r => set_n_pages (u32 (n_pages r + count)) r).

Definition km_page_free (block : Z) : K unit :=
  if block =? NULL then ret tt else km_page_free_multi block 1.

(** * Slice management *)

Definition km_slice_free (block : Z) : K unit :=
  init <- km km_initialized ;;
  assert "km_slice_free: km_initialized" (negb (init =? 0)) ;;
  set_pages block SZ_SLICE ;;
  fs <- km free_slices ;;
  set_next block fs ;;
  km_set (set_free_slices block) ;;
  km_set (fun r => set_n_slices (u32 (n_slices r + 1)) r).

Definition carve_slices : K unit :=
  page <- km_page_alloc 1 ;;
  assert "carve_slices: page" (negb (page =? NULL)) ;;
  for_ 4 (fun i =>
    km_slice_free (u32 (page + i * SZ_SLICE)) ;;
    km_set (fun r => set_n_slices (u32 (n_slices r + 1)) r)).

Definition km_slice_alloc : K Z :=
  init <- km km_initialized ;;
  assert "km_slice_alloc: km_initialized" (negb (init =? 0)) ;;
  fs <- km free_slices ;;
  when (fs =? NULL) carve_slices ;;
  slice <- km free_slices ;;
  assert "km_slice_alloc: slice" (negb (slice =? NULL)) ;;
  km_set (fun r => set_n_slices (u32 (n_slices r - 1)) r) ;;
  nx <- blk_next slice ;;
  km_set (set_free_slices nx) ;;
  memclr slice SZ_SLICE ;;
  ret slice.
