(* ===== verification/KmemInv.v ===== *)
(** The page allocator's free list, abstractly: a list of (address, pages)
    pairs.  The chain of [blkinfo_t] headers in memory represents it, the blocks
    are in ascending order, do not overlap and lie between the two cutoffs. *)

From S2P Require Import Prelude Memory State Lib Kmem.

Open Scope kernel_scope.

Definition block : Type := Z * Z.
Definition blk_end (b : block) : Z := fst b + SZ_PAGE * snd b.

Fixpoint blk_chain (m : memory) (p : Z) (l : list block) : Prop :=
  match l with
  | [] => p = NULL
  | (a, n) :: l => p = a /\ ld32 m a = n /\ blk_chain m (ld32 m (a + 4)) l
  end.

Fixpoint blk_ok (lo : Z) (l : list block) : Prop :=
  match l with
  | [] => True
  | b :: l => lo <= fst b /\ 1 <= snd b /\ blk_end b <= KM_HIGH_CUTOFF /\ blk_ok (blk_end b) l
  end.

Definition total (l : list block) : Z := foldr (fun b acc => snd b + acc) 0 l.

(** The addresses covered by the blocks. *)
Definition in_blocks (l : list block) (x : Z) : Prop :=
  Exists (fun b => fst b <= x < blk_end b) l.

(** The invariant of kmem.c, for the free list [l]. *)
Record km_inv (l : list block) (s : kstate) : Prop := KmInv {
  inv_init : km_initialized (st_km s) <> 0;
  inv_chain : blk_chain (st_mem s) (free_pages (st_km s)) l;
  inv_ok : blk_ok KM_LOW_CUTOFF l;
  inv_total : n_pages (st_km s) = total l
}.

(** The end of the last block of a prefix. *)
Definition end_of (lo : Z) (l : list block) : Z := from_option blk_end lo (last l).

(** A state in which only the memory and the allocator's variables changed. *)
Definition with_km (m : memory) (k : kmem_t) (s : kstate) : kstate :=
  up_mem (fun _ => m) (up_km (fun _ => k) s).

(** * Facts on block lists *)

Lemma up_mem_same s : up_mem (fun _ => st_mem s) s = s.
Proof. now destruct s. Qed.

Lemma blk_ok_weaken lo lo' l : lo' <= lo -> blk_ok lo l -> blk_ok lo' l.
Proof. destruct l as [|b l]; [done|]. cbn. intros ? (? & ?). split; [lia|done]. Qed.

Lemma end_of_cons lo b l : end_of lo (b :: l) = end_of (blk_end b) l.
Proof. unfold end_of. rewrite last_cons. now destruct (last l). Qed.

Lemma blk_ok_app lo l1 l2 :
  blk_ok lo (l1 ++ l2) <-> blk_ok lo l1 /\ blk_ok (end_of lo l1) l2.
Proof.
  revert lo; induction l1 as [|b l1 IH]; intros lo; [cbn; tauto|].
  rewrite end_of_cons. cbn [app blk_ok]. rewrite IH. tauto.
Qed.

Lemma blk_ok_end lo l : blk_ok lo l -> lo <= end_of lo l.
Proof.
  revert lo; induction l as [|b l IH]; intros lo; [cbn; lia|].
  rewrite end_of_cons. cbn [blk_ok]. intros (H1 & H2 & H3 & H4). apply IH in H4.
  unfold blk_end, SZ_PAGE in *. lia.
Qed.

Lemma blk_ok_In lo l b :
  blk_ok lo l -> b ∈ l ->
  lo <= fst b /\ 1 <= snd b /\ blk_end b <= end_of lo l /\ blk_end b <= KM_HIGH_CUTOFF.
Proof.
  revert lo; induction l as [|c l IH]; intros lo Hok Hin; [now apply elem_of_nil in Hin|].
  rewrite end_of_cons. destruct Hok as (H1 & H2 & H3 & H4).
  apply elem_of_cons in Hin as [-> | Hin].
  - split; [lia|]. split; [lia|]. split; [|lia]. now apply blk_ok_end.
  - destruct (IH _ H4 Hin) as (? & ? & ? & ?). unfold blk_end, SZ_PAGE in *. lia.
Qed.

Lemma blk_ok_high lo l : blk_ok lo l -> lo <= KM_HIGH_CUTOFF -> end_of lo l <= KM_HIGH_CUTOFF.
Proof.
  revert lo; induction l as [|b l IH]; intros lo H Hlo; [done|].
  rewrite end_of_cons. destruct H as (H1 & H2 & H3 & H4). now apply IH.
Qed.

Lemma blk_ok_total lo l : blk_ok lo l -> 0 <= total l /\ lo + SZ_PAGE * total l <= end_of lo l.
Proof.
  revert lo; induction l as [|b l IH]; intros lo; [cbn; lia|].
  rewrite end_of_cons. cbn [blk_ok total foldr]. intros (H1 & H2 & H3 & H4).
  apply IH in H4. fold (total l). unfold blk_end, SZ_PAGE in *. lia.
Qed.

Lemma length_total lo l : blk_ok lo l -> Z.of_nat (length l) <= total l.
Proof.
  revert lo; induction l as [|b l IH]; intros lo; [cbn; lia|].
  cbn [blk_ok total foldr length]. intros (H1 & H2 & H3 & H4). apply IH in H4.
  fold (total l). lia.
Qed.

Lemma total_cons b l : total (b :: l) = snd b + total l.
Proof. done. Qed.

Lemma total_app l1 l2 : total (l1 ++ l2) = total l1 + total l2.
Proof.
  induction l1 as [|b l IH]; [done|]. cbn [app total foldr].
  fold (total (l ++ l2)). fold (total l). lia.
Qed.

Lemma total_bound l : blk_ok KM_LOW_CUTOFF l -> 0 <= total l < 2 ^ 18 /\ Z.of_nat (length l) < 2 ^ 18.
Proof.
  intros Hok. pose proof (blk_ok_total _ _ Hok). pose proof (length_total _ _ Hok).
  assert (KM_LOW_CUTOFF <= KM_HIGH_CUTOFF) as Hlh by done.
  pose proof (blk_ok_high _ _ Hok Hlh).
  unfold KM_LOW_CUTOFF, KM_HIGH_CUTOFF, SZ_PAGE in *. lia.
Qed.

Lemma km_total_bound l s : km_inv l s -> 0 <= total l < 2 ^ 18 /\ Z.of_nat (length l) < 2 ^ 18.
Proof. intros [_ _ Hok _]. now apply total_bound. Qed.

Lemma in_blocks_app l1 l2 x : in_blocks (l1 ++ l2) x <-> in_blocks l1 x \/ in_blocks l2 x.
Proof. apply Exists_app. Qed.

Lemma in_blocks_cons b l x :
  in_blocks (b :: l) x <-> fst b <= x < blk_end b \/ in_blocks l x.
Proof. apply Exists_cons. Qed.

Lemma in_blocks_range lo l x : blk_ok lo l -> in_blocks l x -> lo <= x < end_of lo l.
Proof.
  intros Hok Hx. apply Exists_exists in Hx as (b & Hin & Hb).
  pose proof (blk_ok_In _ _ _ Hok Hin). lia.
Qed.

Lemma P2B_small x : 0 <= x < 2 ^ 20 -> P2B x = SZ_PAGE * x.
Proof.
  intros H. unfold P2B, SZ_PAGE. rewrite Z.shiftl_mul_pow2 by lia.
  rewrite u32_small by lia. lia.
Qed.

(** * Facts on chains *)

Lemma blk_chain_agree m m' p l :
  (forall b, b ∈ l -> forall i, 0 <= i < 8 -> ld8 m' (fst b + i) = ld8 m (fst b + i)) ->
  blk_chain m p l -> blk_chain m' p l.
Proof.
  revert p; induction l as [|[a n] l IH]; intros p H; [done|]. cbn [blk_chain].
  intros (-> & Hn & Hc). pose proof (H (a, n) ltac:(left)) as Ha. cbn [fst] in Ha.
  rewrite (ld32_agree m m' a) by (intros i Hi; apply Ha; lia).
  rewrite (ld32_agree m m' (a + 4)).
  - split; [done|]. split; [done|]. apply IH; [|done]. intros b Hb. apply H. now right.
  - intros i Hi. replace (a + 4 + i) with (a + (4 + i)) by lia. apply Ha. lia.
Qed.

(** A change below or above the list's blocks. *)
Lemma blk_chain_st32 m p l x v lo :
  blk_ok lo l -> x + 4 <= lo \/ end_of lo l <= x -> blk_chain m p l ->
  blk_chain (st32 m x v) p l.
Proof.
  intros Hok Hx. apply blk_chain_agree. intros b Hb i Hi.
  pose proof (blk_ok_In _ _ _ Hok Hb). unfold blk_end, SZ_PAGE in *.
  apply ld8_st32_ne. lia.
Qed.

(** A fresh header. *)
Lemma blk_chain_cons m a n nx l lo :
  blk_ok lo l -> a + 8 <= lo -> 0 <= n < 2 ^ 32 -> 0 <= nx < 2 ^ 32 ->
  blk_chain m nx l -> blk_chain (st32 (st32 m a n) (a + 4) nx) a ((a, n) :: l).
Proof.
  intros Hok Ha Hn Hnx Hc. cbn [blk_chain]. split; [done|].
  rewrite ld32_st32_ne, ld32_st32_eq by lia. split; [done|].
  rewrite ld32_st32_eq by done.
  apply (blk_chain_st32 _ _ _ _ _ lo); [done|lia|].
  apply (blk_chain_st32 _ _ _ _ _ lo); [done|lia|done].
Qed.

(** The pointer that reaches what follows a prefix, and its assignment. *)
Definition link_after (pre : list block) : link :=
  match last pre with None => Head | Some b => Next (fst b) end.

Definition relinked (k : link) (v : Z) (s : kstate) : kstate :=
  match k with
  | Head => up_km (set_free_pages v) s
  | Next b => up_mem (fun m => st32 m (b + 4) v) s
  end.

Lemma assign_link_eq k v s : assign_link k v s = Ret tt (relinked k v s).
Proof. destruct k; reflexivity. Qed.

Lemma blk_chain_app_inv m p l1 l2 :
  blk_chain m p (l1 ++ l2) -> exists q, blk_chain m q l2.
Proof.
  revert p; induction l1 as [|[a n] l1 IH]; intros p H; [eauto|].
  destruct H as (_ & _ & H). eapply IH, H.
Qed.

Lemma blk_chain_relink m p pre b old l v lo :
  blk_ok lo (pre ++ [b]) -> 0 <= v < 2 ^ 32 ->
  blk_chain m p (pre ++ b :: old) ->
  blk_chain (st32 m (fst b + 4) v) v l ->
  blk_chain (st32 m (fst b + 4) v) p (pre ++ b :: l).
Proof.
  intros Hok Hv. revert p lo Hok. induction pre as [|[a n] pre IH]; intros p lo Hok Hc Hl.
  - destruct b as [a n]. cbn [app blk_chain fst] in *. destruct Hc as (-> & Hn & Hc).
    split; [done|]. rewrite ld32_st32_ne by lia. split; [done|].
    now rewrite ld32_st32_eq.
  - cbn [app blk_chain blk_ok] in *. destruct Hc as (-> & Hn & Hc).
    destruct Hok as (H1 & H2 & H3 & H4).
    assert (blk_end (a, n) <= fst b) as Hb.
    { pose proof (blk_ok_In _ _ b H4) as Hin. apply Hin.
      apply elem_of_app. right. left. }
    unfold blk_end, SZ_PAGE in Hb. cbn in Hb, H2.
    rewrite !ld32_st32_ne by lia. split; [done|]. split; [done|].
    eapply IH; eassumption.
Qed.

Lemma relinked_chain pre old l v lo s :
  blk_ok lo pre -> blk_ok (end_of lo pre) l -> 0 <= v < 2 ^ 32 ->
  blk_chain (st_mem s) (free_pages (st_km s)) (pre ++ old) ->
  blk_chain (st_mem s) v l ->
  let s' := relinked (link_after pre) v s in
  blk_chain (st_mem s') (free_pages (st_km s')) (pre ++ l).
Proof.
  intros Hpre Hl Hv Hc Hcl s'. subst s'. unfold link_after.
  destruct pre as [|b pre _] using rev_ind; [done|].
  rewrite last_snoc. cbn [relinked]. ksimpl. rewrite <- app_assoc in *. cbn [app] in *.
  eapply blk_chain_relink; [exact Hpre|done|exact Hc|].
  eapply blk_chain_st32; [exact Hl| |done].
  unfold end_of. rewrite last_snoc. cbn [from_option].
  pose proof (blk_ok_In _ _ b Hpre ltac:(apply elem_of_app; right; left)).
  unfold blk_end, SZ_PAGE. lia.
Qed.

Lemma relinked_mem k v s x :
  (forall b, k = Next b -> x < b + 4 \/ b + 8 <= x) ->
  ld8 (st_mem (relinked k v s)) x = ld8 (st_mem s) x.
Proof.
  destruct k as [|b]; intros H; [done|]. ksimpl. cbn [relinked]. ksimpl.
  apply ld8_st32_ne. specialize (H b eq_refl). lia.
Qed.

(** What an operation of the page allocator changes: the memory inside the
    given region and its two variables. *)
Definition km_frame (P : Z -> Prop) (s s' : kstate) : Prop :=
  exists m fp np,
    s' = with_km m (set_free_pages fp (set_n_pages np (st_km s))) s /\
    agree (fun x => ~ P x) (st_mem s) m.

Lemma km_frame_refl P s : km_frame P s s.
Proof.
  exists (st_mem s), (free_pages (st_km s)), (n_pages (st_km s)).
  split; [now destruct s as [? [] ? ? ? ? ? ? ? ?]|reflexivity].
Qed.

Lemma km_frame_trans P s1 s2 s3 : km_frame P s1 s2 -> km_frame P s2 s3 -> km_frame P s1 s3.
Proof.
  intros (m & fp & np & -> & Hm) (m' & fp' & np' & -> & Hm').
  exists m', fp', np'. split; [done|]. etransitivity; [exact Hm|exact Hm'].
Qed.

Lemma km_frame_weaken (P Q : Z -> Prop) s s' :
  (forall x, P x -> Q x) -> km_frame P s s' -> km_frame Q s s'.
Proof.
  intros H (m & fp & np & E & Hm). exists m, fp, np. split; [done|].
  eapply agree_weaken; [|exact Hm]. cbn. intros a Ha Hp. apply Ha, H, Hp.
Qed.

Lemma km_frame_mem P s s' x : km_frame P s s' -> ~ P x -> ld8 (st_mem s') x = ld8 (st_mem s) x.
Proof. intros (m & fp & np & -> & Hm) Hx. apply Hm, Hx. Qed.

(** Changes of the memory alone, and of the variables alone. *)
Lemma km_frame_st32 (P : Z -> Prop) a v s :
  (forall i, 0 <= i < 4 -> P (a + i)) -> km_frame P s (up_mem (fun m => st32 m a v) s).
Proof.
  intros H. exists (st32 (st_mem s) a v), (free_pages (st_km s)), (n_pages (st_km s)).
  split; [now destruct s as [? [] ? ? ? ? ? ? ? ?]|].
  intros x Hx. apply ld8_st32_ne.
  destruct (Z_lt_le_dec x a); [lia|]. destruct (Z_lt_le_dec x (a + 4)); [|lia].
  exfalso. apply Hx. replace x with (a + (x - a)) by lia. apply H. lia.
Qed.

Lemma km_frame_relinked (P : Z -> Prop) k v s :
  (forall b, k = Next b -> forall i, 4 <= i < 8 -> P (b + i)) ->
  km_frame P s (relinked k v s).
Proof.
  destruct k as [|b]; intros H; cbn [relinked].
  - exists (st_mem s), v, (n_pages (st_km s)).
    split; [now destruct s as [? [] ? ? ? ? ? ? ? ?]|reflexivity].
  - apply km_frame_st32. intros i Hi. replace (b + 4 + i) with (b + (4 + i)) by lia.
    apply (H b eq_refl). lia.
Qed.

Lemma km_frame_n_pages P n s : km_frame P s (up_km (set_n_pages n) s).
Proof.
  exists (st_mem s), (free_pages (st_km s)), n.
  split; [now destruct s as [? [] ? ? ? ? ? ? ? ?]|reflexivity].
Qed.

Lemma km_frame_mem_only (P : Z -> Prop) m s :
  agree (fun x => ~ P x) (st_mem s) m -> km_frame P s (up_mem (fun _ => m) s).
Proof.
  intros H. exists m, (free_pages (st_km s)), (n_pages (st_km s)).
  split; [now destruct s as [? [] ? ? ? ? ? ? ? ?]|done].
Qed.

Lemma relinked_init k v s :
  km_initialized (st_km (relinked k v s)) = km_initialized (st_km s) /\
  n_pages (st_km (relinked k v s)) = n_pages (st_km s).
Proof. now destruct k. Qed.

(** The header of a block is inside the block. *)
Lemma header_in_blocks lo l b i : blk_ok lo l -> b ∈ l -> 0 <= i < 8 -> in_blocks l (fst b + i).
Proof.
  intros Hok Hin Hi. apply Exists_exists. exists b. split; [done|].
  pose proof (blk_ok_In _ _ _ Hok Hin). unfold blk_end, SZ_PAGE. lia.
Qed.

(** The link word after a prefix is inside the prefix' last block. *)
Lemma link_after_in lo pre l b :
  blk_ok lo (pre ++ l) -> link_after pre = Next b ->
  forall i, 4 <= i < 8 -> in_blocks (pre ++ l) (b + i).
Proof.
  intros Hok Hb i Hi. unfold link_after in Hb.
  destruct pre as [|c pre _] using rev_ind; [done|]. rewrite last_snoc in Hb.
  injection Hb as <-. eapply header_in_blocks; [exact Hok| |lia].
  apply elem_of_app. left. apply elem_of_app. right. left.
Qed.

(** Writes that leave the headers alone preserve the invariant. *)
Lemma km_inv_write l s m :
  km_inv l s ->
  (forall b, b ∈ l -> forall i, 0 <= i < 8 -> ld8 m (fst b + i) = ld8 (st_mem s) (fst b + i)) ->
  km_inv l (up_mem (fun _ => m) s).
Proof.
  intros [Hi Hc Hok Hn] H. split; [done| |done|done].
  ksimpl. now apply (blk_chain_agree (st_mem s)).
Qed.

(** Replacing the part of a chain from one of its blocks on. *)
Lemma blk_chain_replace m m' p pre u n post l :
  blk_chain m p (pre ++ (u, n) :: post) ->
  (forall b, b ∈ pre -> forall i, 0 <= i < 8 -> ld8 m' (fst b + i) = ld8 m (fst b + i)) ->
  blk_chain m' u l -> blk_chain m' p (pre ++ l).
Proof.
  revert p; induction pre as [|[a k] pre IH]; intros p Hc Hag Hl.
  - now destruct Hc as (-> & _).
  - cbn [app blk_chain] in *. destruct Hc as (-> & Hk & Hc).
    pose proof (Hag (a, k) ltac:(left)) as Ha. cbn [fst] in Ha.
    rewrite (ld32_agree m m' a) by (intros i Hi; apply Ha; lia).
    rewrite (ld32_agree m m' (a + 4)).
    + split; [done|]. split; [done|]. apply IH; [done| |done].
      intros b Hb. apply Hag. now right.
    + intros i Hi. replace (a + 4 + i) with (a + (4 + i)) by lia. apply Ha. lia.
Qed.

(** Memory that agrees below an address keeps the headers of a prefix. *)
Lemma prefix_headers lo l m m' x :
  blk_ok lo l -> end_of lo l <= x -> (forall y, y < x -> ld8 m' y = ld8 m y) ->
  forall b, b ∈ l -> forall i, 0 <= i < 8 -> ld8 m' (fst b + i) = ld8 m (fst b + i).
Proof.
  intros Hok Hx Hag b Hb i Hi. apply Hag. pose proof (blk_ok_In _ _ _ Hok Hb).
  unfold blk_end, SZ_PAGE in *. lia.
Qed.

(** A region that no free block meets splits the list into what is below it and
    what is above. *)
Lemma split_around lo l b c :
  blk_ok lo l -> lo <= b -> 1 <= c ->
  (forall x, b <= x < b + SZ_PAGE * c -> ~ in_blocks l x) ->
  exists pre post, l = pre ++ post /\ end_of lo pre <= b /\ blk_ok (b + SZ_PAGE * c) post.
Proof.
  revert lo; induction l as [|a l IH]; intros lo Hok Hlo Hc Hd.
  - exists [], []. repeat split; done.
  - destruct Hok as (H1 & H2 & H3 & H4).
    destruct (Z_lt_le_dec (fst a) b) as [Hlt|Hge].
    + assert (blk_end a <= b) as Hab.
      { destruct (Z_lt_le_dec b (blk_end a)) as [Hx|]; [|done]. exfalso.
        apply (Hd b); [unfold SZ_PAGE; lia|]. apply in_blocks_cons. left. lia. }
      destruct (IH _ H4 Hab Hc) as (pre & post & -> & Hpre & Hpost).
      { intros x Hx Hin. apply (Hd x Hx). apply in_blocks_cons. now right. }
      exists (a :: pre), post. rewrite end_of_cons. repeat split; done.
    + exists [], (a :: l). repeat split; [done..| |done|done|done].
      destruct (Z_lt_le_dec (fst a) (b + SZ_PAGE * c)) as [Hx|]; [|done]. exfalso.
      apply (Hd (fst a)); [lia|]. apply in_blocks_cons. left.
      unfold blk_end, SZ_PAGE in *. lia.
Qed.
