(* ===== verification/KmemSpec.v ===== *)
(** kernel/kmem.c: the page allocator refines first-fit allocation with
    coalescing on an abstract list of free blocks. *)

From S2P Require Import Prelude Memory State Lib Kmem KmemInv.

Open Scope kernel_scope.

(** * Allocation *)

(** First fit: the address given out and the blocks that remain free. *)
Fixpoint first_fit (count : Z) (l : list block) : option (Z * list block) :=
  match l with
  | [] => None
  | (a, n) :: l =>
      if n <? count then
        match first_fit count l with
        | Some (x, l') => Some (x, (a, n) :: l')
        | None => None
        end
      else Some (a, if n =? count then l else (a + SZ_PAGE * count, n - count) :: l)
  end.

Definition remainder (count a n : Z) (post : list block) : list block :=
  if n =? count then post else (a + SZ_PAGE * count, n - count) :: post.

Lemma first_fit_cases count l :
  (first_fit count l = None /\ Forall (fun b => snd b < count) l) \/
  (exists (pre : list block) a n (post : list block), l = pre ++ (a, n) :: post /\ Forall (fun b => snd b < count) pre /\
     count <= n /\ first_fit count l = Some (a, pre ++ remainder count a n post)).
Proof.
  induction l as [|[a n] l IH]; [left; now split|].
  cbn [first_fit]. destruct (Z.ltb_spec n count) as [Hlt|Hge].
  - destruct IH as [[E H] | (pre & x & k & post & -> & Hpre & Hk & E)]; rewrite E.
    + left. split; [done|]. now constructor.
    + right. exists ((a, n) :: pre), x, k, post. repeat split; [now constructor|done].
  - right. exists [], a, n, l. repeat split; done.
Qed.

(** The search loop of [km_page_alloc]. *)
Definition fit_body (count : Z) : Z * link -> K (Z * link + Z * link) :=
  fun '(block, pointer) =>
    if negb (block =? NULL) then
      n <- blk_pages block ;;
      if n <? count then
        nx <- blk_next block ;; ret (inl (nx, Next block))
      else ret (inr (block, pointer))
    else ret (inr (block, pointer)).

Lemma fit_skip count (pre rest : list block) p k s n lo :
  blk_chain (st_mem s) p (pre ++ rest) -> blk_ok lo (pre ++ rest) -> 0 < lo ->
  Forall (fun b => snd b < count) pre ->
  exists q, blk_chain (st_mem s) q rest /\
    loopN (length pre + n) (fit_body count) (p, k) s
    = loopN n (fit_body count) (q, match last pre with None => k | Some b => Next (fst b) end) s.
Proof.
  revert p k lo; induction pre as [|[a c] pre IH]; intros p k lo Hc Hok Hlo Hpre.
  - exists p. split; [exact Hc|reflexivity].
  - cbn [app blk_chain blk_ok] in *. destruct Hc as (-> & Hn & Hc).
    destruct Hok as (H1 & H2 & H3 & H4). inversion Hpre as [|? ? Hlt Hpre']; subst.
    cbn in H1, H2, Hlt.
    destruct (IH _ (Next a) _ Hc H4) as (q & Hq & E);
      [unfold blk_end, SZ_PAGE; cbn; lia|done|].
    exists q. split; [done|]. cbn [length Nat.add].
    rewrite loopN_step with (a' := (ld32 (st_mem s) (a + 4), Next a)) (s' := s).
    + rewrite E, last_cons. do 2 f_equal. now destruct (last pre).
    + unfold fit_body. destruct (Z.eqb_spec a NULL); [unfold NULL in *; lia|].
      cbn [negb]. unfold blk_pages, blk_next, load32, bind, gets.
      destruct (Z.ltb_spec (ld32 (st_mem s) a) count); [done|lia].
Qed.

Lemma fit_loop_none count l s :
  km_inv l s -> Forall (fun b => snd b < count) l ->
  exists k, loop (fit_body count) (free_pages (st_km s), Head) s = Ret (NULL, k) s.
Proof.
  intros Hinv Hl. pose proof (km_total_bound _ _ Hinv). destruct Hinv as [_ Hc Hok _].
  eexists. apply (loop_intro _ (length l + 1)); [lia|].
  rewrite <- (app_nil_r l) in Hc, Hok.
  destruct (fit_skip count l [] _ Head s 1 _ Hc Hok ltac:(unfold KM_LOW_CUTOFF; lia) Hl)
    as (q & Hq & E).
  rewrite E. apply loopN_done. cbn in Hq. rewrite Hq. reflexivity.
Qed.

Lemma fit_loop_some count (pre : list block) a n (post : list block) s :
  km_inv (pre ++ (a, n) :: post) s -> Forall (fun b => snd b < count) pre -> count <= n ->
  loop (fit_body count) (free_pages (st_km s), Head) s = Ret (a, link_after pre) s.
Proof.
  intros Hinv Hpre Hn. pose proof (km_total_bound _ _ Hinv) as [_ Hlen].
  destruct Hinv as [_ Hc Hok _]. rewrite length_app in Hlen. cbn in Hlen.
  apply (loop_intro _ (length pre + 1)); [lia|].
  destruct (fit_skip count pre ((a, n) :: post) _ Head s 1 _ Hc Hok
              ltac:(unfold KM_LOW_CUTOFF; lia) Hpre) as (q & Hq & E).
  rewrite E. apply loopN_done. destruct Hq as (-> & Ha & Hq).
  assert (a <> 0).
  { pose proof (blk_ok_In _ _ (a, n) Hok ltac:(apply elem_of_app; right; left)).
    cbn in *. unfold KM_LOW_CUTOFF in *. lia. }
  unfold fit_body. destruct (Z.eqb_spec a NULL); [done|]. cbn [negb].
  unfold blk_pages, load32, bind, gets. rewrite Ha.
  destruct (Z.ltb_spec n count); [lia|]. reflexivity.
Qed.

(** Everything [km_page_alloc] does after it has found a block. *)
Definition alloc_take (count block : Z) (pointer : link) : K Z :=
  n <- blk_pages block ;;
  (if n =? count then
     nx <- blk_next block ;;
     assign_link pointer nx
   else
     let excess := s32 (n - count) in
     let fragment := u32 (block + P2B count) in
     set_pages fragment excess ;;
     nx <- blk_next block ;;
     set_next fragment nx ;;
     assign_link pointer fragment) ;;
  km_set (fun r => set_n_pages (u32 (n_pages r - count)) r) ;;
  ret block.

Lemma km_page_alloc_unfold count l s :
  km_inv l s -> 1 <= count ->
  km_page_alloc count s
  = (bp <- loop (fit_body count) (free_pages (st_km s), Head) ;;
     let '(block, pointer) := bp in
     if block =? NULL then ret NULL else alloc_take count block pointer) s.
Proof.
  intros [Hi _ _ _] Hc. unfold km_page_alloc, km, assert. unfold bind at 1, gets at 1.
  destruct (Z.eqb_spec (km_initialized (st_km s)) 0); [done|]. cbn [negb].
  unfold bind at 1. unfold ret at 1.
  destruct (Z.ltb_spec count 1); [lia|]. reflexivity.
Qed.

(** The state after the block at [a] is unlinked: what follows the prefix is
    now reached at [v]. *)
Lemma alloc_relink (pre : list block) a n (post l : list block) v s count :
  km_inv (pre ++ (a, n) :: post) s -> blk_ok (end_of KM_LOW_CUTOFF pre) l ->
  0 <= v < 2 ^ 32 -> blk_chain (st_mem s) v l ->
  total (pre ++ l) = total (pre ++ (a, n) :: post) - count ->
  let s' := up_km (fun r => set_n_pages (u32 (n_pages r - count)) r)
              (relinked (link_after pre) v s) in
  km_inv (pre ++ l) s'.
Proof.
  intros Hinv Hl Hv Hcl Ht s'. destruct Hinv as [Hi Hc Hok Hn].
  apply blk_ok_app in Hok as [Hpre Hrest].
  destruct (relinked_init (link_after pre) v s) as [Ei En].
  assert (blk_ok KM_LOW_CUTOFF (pre ++ l)) as Hok' by now apply blk_ok_app.
  split.
  - subst s'. ksimpl. now rewrite Ei.
  - subst s'. ksimpl. eapply relinked_chain; eassumption.
  - done.
  - subst s'. ksimpl. rewrite En, Hn, <- Ht. apply u32_small.
    pose proof (blk_ok_total _ _ Hok').
    assert (KM_LOW_CUTOFF <= KM_HIGH_CUTOFF) as Hlh by done.
    pose proof (blk_ok_high _ _ Hok' Hlh). unfold KM_LOW_CUTOFF, KM_HIGH_CUTOFF, SZ_PAGE in *.
    lia.
Qed.

Lemma alloc_take_exact count a k s :
  ld32 (st_mem s) a = count ->
  alloc_take count a k s
  = Ret a (up_km (fun r => set_n_pages (u32 (n_pages r - count)) r)
             (relinked k (ld32 (st_mem s) (a + 4)) s)).
Proof.
  intros H. unfold alloc_take. unfold bind at 1, blk_pages at 1, load32 at 1, gets at 1.
  rewrite H, Z.eqb_refl.
  erewrite bind_Ret; [|unfold blk_next, load32, bind, gets; apply assign_link_eq].
  reflexivity.
Qed.

Lemma alloc_take_split count a n k s :
  ld32 (st_mem s) a = n -> 1 <= count < n -> n < 2 ^ 18 ->
  0 <= a -> a + SZ_PAGE * n <= KM_HIGH_CUTOFF ->
  alloc_take count a k s
  = let f := a + SZ_PAGE * count in
    Ret a (up_km (fun r => set_n_pages (u32 (n_pages r - count)) r)
             (relinked k f
                (up_mem (fun m => st32 (st32 m f (n - count)) (f + 4) (ld32 m (a + 4))) s))).
Proof.
  intros H Hc Hn Ha Hhi. cbv zeta. set (f := a + SZ_PAGE * count).
  unfold SZ_PAGE, KM_HIGH_CUTOFF in Hhi.
  unfold alloc_take. unfold bind at 1, blk_pages at 1, load32 at 1, gets at 1.
  rewrite H. destruct (Z.eqb_spec n count); [lia|].
  rewrite P2B_small by lia. rewrite s32_small by lia.
  fold f. assert (u32 f = f) as -> by (unfold f, SZ_PAGE; apply u32_small; lia).
  erewrite bind_Ret.
  2: { unfold set_pages, set_next, blk_next, store32, load32, bind, modify, gets.
       apply assign_link_eq. }
  unfold bind, km_set, modify, ret. f_equal. f_equal. f_equal. ksimpl. unfold up_mem. f_equal.
  rewrite ld32_st32_ne; [reflexivity|]. unfold f, SZ_PAGE. lia.
Qed.

(** The abstract transition of [km_page_alloc]. *)
Lemma km_page_alloc_some (pre : list block) a n (post : list block) count s :
  km_inv (pre ++ (a, n) :: post) s -> Forall (fun b => snd b < count) pre ->
  1 <= count <= n ->
  exists s', km_page_alloc count s = Ret a s' /\
    km_inv (pre ++ remainder count a n post) s' /\
    km_frame (in_blocks (pre ++ (a, n) :: post)) s s'.
Proof.
  intros Hinv Hpre Hc. pose proof (km_total_bound _ _ Hinv) as [Htot _].
  pose proof Hinv as [Hi Hch Hok Hnp].
  pose proof (blk_ok_In _ _ (a, n) Hok ltac:(apply elem_of_app; right; left)) as Hin.
  unfold blk_end in Hin. cbn [fst snd] in Hin.
  rewrite (km_page_alloc_unfold _ _ _ Hinv) by lia.
  mstep (fit_loop_some _ _ _ _ _ _ Hinv Hpre ltac:(lia)).
  destruct (Z.eqb_spec a NULL); [unfold NULL, KM_LOW_CUTOFF in *; lia|].
  destruct (blk_chain_app_inv _ _ _ _ Hch) as (q & -> & Hn & Hpost).
  apply blk_ok_app in Hok as [Hokpre (H1 & H2 & H3 & H4)]. cbn [fst snd] in *.
  unfold blk_end in H3, H4. cbn [fst snd] in H3, H4.
  rewrite total_app in Htot. cbn [total foldr snd] in Htot. fold (total post) in Htot.
  pose proof (blk_ok_total _ _ Hokpre) as [Hp0 _]. pose proof (blk_ok_total _ _ H4) as [Hp1 _].
  assert (KM_LOW_CUTOFF <= end_of KM_LOW_CUTOFF pre) as Hlo by now apply blk_ok_end.
  unfold remainder. destruct (Z.eqb_spec n count) as [->|Hne].
  - rewrite alloc_take_exact by done. eexists. split; [reflexivity|]. split.
    + eapply alloc_relink; [exact Hinv| |apply ld32_range|exact Hpost|].
      * eapply blk_ok_weaken; [|exact H4]. unfold SZ_PAGE. lia.
      * rewrite !total_app. cbn [total foldr snd]. fold (total post). lia.
    + eapply km_frame_trans; [|apply km_frame_n_pages].
      apply km_frame_relinked. intros b Hb. eapply link_after_in; [apply Hinv|exact Hb].
  - rewrite (alloc_take_split count a n) by (done || lia || (unfold KM_LOW_CUTOFF in *; lia)).
    cbv zeta. set (f := a + SZ_PAGE * count).
    set (s1 := up_mem _ s). eexists. split; [reflexivity|].
    assert (km_frame (in_blocks (pre ++ (a, n) :: post)) s s1) as Hf.
    { assert (forall i, 0 <= i < 8 -> in_blocks (pre ++ (a, n) :: post) (f + i)) as Hin'.
      { intros i Hi'. apply in_blocks_app. right. apply in_blocks_cons. left.
        unfold f, blk_end, SZ_PAGE. cbn. lia. }
      eapply km_frame_trans.
      - apply (km_frame_st32 _ f (n - count)). intros i Hi'. apply Hin'. lia.
      - apply (km_frame_st32 _ (f + 4) (ld32 (st_mem s) (a + 4))).
        intros i Hi'. replace (f + 4 + i) with (f + (4 + i)) by lia. apply Hin'. lia. }
    assert (blk_ok (f + SZ_PAGE * (n - count)) post) as H4'.
    { replace (f + SZ_PAGE * (n - count)) with (a + SZ_PAGE * n) by (unfold f; lia). done. }
    split; [|eapply km_frame_trans; [exact Hf|];
             eapply km_frame_trans; [|apply km_frame_n_pages];
             apply km_frame_relinked; intros b Hb;
             eapply link_after_in; [apply Hinv|exact Hb]].
    apply alloc_relink with (a := a) (n := n) (post := post).
    + apply (km_inv_write _ s); [exact Hinv|]. intros b Hb i Hi'.
      unfold s1. ksimpl.
      assert (b ∈ pre \/ b = (a, n) \/ b ∈ post) as Hcase.
      { apply elem_of_app in Hb as [Hb|Hb]; [tauto|]. apply elem_of_cons in Hb. tauto. }
      assert (fst b + 8 <= f \/ f + 8 <= fst b) as Hsep.
      { unfold f, SZ_PAGE in *. destruct Hcase as [Hb'|[->|Hb']].
        - pose proof (blk_ok_In _ _ _ Hokpre Hb'). unfold blk_end, SZ_PAGE in *. lia.
        - cbn. lia.
        - pose proof (blk_ok_In _ _ _ H4 Hb'). lia. }
      rewrite !ld8_st32_ne by lia. done.
    + cbn [blk_ok fst snd]. unfold blk_end, f, SZ_PAGE in *. cbn [fst snd].
      repeat split; try lia. exact H4'.
    + unfold f, SZ_PAGE, KM_LOW_CUTOFF, KM_HIGH_CUTOFF in *. lia.
    + unfold s1. ksimpl. eapply blk_chain_cons; [exact H4'| |lia|apply ld32_range|exact Hpost].
      unfold f, SZ_PAGE. lia.
    + rewrite !total_app. cbn [total foldr snd]. fold (total post). lia.
Qed.

(** The refinement: on any free list, the code gives out what first fit gives
    out, and leaves the list first fit leaves. *)
Lemma km_page_alloc_refines count l s :
  km_inv l s -> 1 <= count ->
  match first_fit count l with
  | None => km_page_alloc count s = Ret NULL s
  | Some (a, l') =>
      exists s', km_page_alloc count s = Ret a s' /\ km_inv l' s' /\
        km_frame (in_blocks l) s s'
  end.
Proof.
  intros Hinv Hc.
  destruct (first_fit_cases count l) as [[-> H] | (pre & a & n & post & -> & Hpre & Hn & ->)].
  - rewrite (km_page_alloc_unfold _ _ _ Hinv) by done.
    destruct (fit_loop_none _ _ _ Hinv H) as (k & E). now mstep E.
  - apply km_page_alloc_some; done || lia.
Qed.

(** What first fit gives out and what it leaves make up what was free. *)
Lemma first_fit_region count l a l' lo :
  blk_ok lo l -> 1 <= count -> first_fit count l = Some (a, l') ->
  (forall x, in_blocks l x <-> a <= x < a + SZ_PAGE * count \/ in_blocks l' x) /\
  (forall x, a <= x < a + SZ_PAGE * count -> ~ in_blocks l' x) /\
  total l = total l' + count.
Proof.
  intros Hok Hc E.
  destruct (first_fit_cases count l) as [[E' _] | (pre & b & n & post & -> & Hpre & Hn & E')];
    rewrite E' in E; [done|]. injection E as <- <-.
  apply blk_ok_app in Hok as [Hok1 (H1 & H2 & H3 & H4)]. cbn [fst snd] in *.
  unfold remainder. destruct (Z.eqb_spec n count) as [->|Hne].
  - split; [|split].
    + intros x. rewrite !in_blocks_app, in_blocks_cons. unfold blk_end. cbn [fst snd]. tauto.
    + intros x Hx [Hi|Hi]%in_blocks_app.
      * apply (in_blocks_range _ _ _ Hok1) in Hi. lia.
      * apply (in_blocks_range _ _ _ H4) in Hi. unfold blk_end in Hi. cbn in Hi. lia.
    + rewrite !total_app, total_cons. cbn [snd]. lia.
  - split; [|split].
    + intros x. rewrite !in_blocks_app, !in_blocks_cons. unfold blk_end, SZ_PAGE. cbn [fst snd].
      destruct (Z_lt_le_dec x (b + 4096 * count)); intuition lia.
    + intros x Hx [Hi|[Hi|Hi]%in_blocks_cons]%in_blocks_app.
      * apply (in_blocks_range _ _ _ Hok1) in Hi. lia.
      * cbn [fst] in Hi. lia.
      * apply (in_blocks_range _ _ _ H4) in Hi. unfold blk_end, SZ_PAGE in *. cbn in Hi. lia.
    + rewrite !total_app, !total_cons. cbn [snd]. lia.
Qed.

(** It lies between the cutoffs. *)
Lemma first_fit_bounds count l a l' :
  blk_ok KM_LOW_CUTOFF l -> 1 <= count -> first_fit count l = Some (a, l') ->
  KM_LOW_CUTOFF <= a /\ a + SZ_PAGE * count <= KM_HIGH_CUTOFF.
Proof.
  intros Hok Hc Hff. destruct (first_fit_region count l a l' _ Hok Hc Hff) as (R1 & _ & _).
  assert (KM_LOW_CUTOFF <= KM_HIGH_CUTOFF) as Hlh by done. pose proof (blk_ok_high _ _ Hok Hlh).
  pose proof (in_blocks_range _ _ a Hok ltac:(apply R1; left; unfold SZ_PAGE; lia)).
  pose proof (in_blocks_range _ _ (a + SZ_PAGE * count - 1) Hok ltac:(apply R1; left; unfold SZ_PAGE; lia)). lia.
Qed.

Lemma first_fit_ok count l a l' :
  blk_ok KM_LOW_CUTOFF l -> first_fit count l = Some (a, l') -> 1 <= count -> blk_ok KM_LOW_CUTOFF l'.
Proof.
  intros Hok Hff Hc. destruct (first_fit_cases count l) as [[E _]|(pre & b & n & post & -> & _ & Hn & E)];
    rewrite E in Hff; [discriminate Hff|]. injection Hff as <- <-.
  apply blk_ok_app in Hok as [Hok1 (H1 & H2 & H3 & H4)]. apply blk_ok_app. split; [exact Hok1|].
  unfold remainder, blk_end in *. cbn [fst snd] in *. destruct (Z.eqb_spec n count).
  - eapply blk_ok_weaken; [|exact H4]. unfold SZ_PAGE in *. lia.
  - cbn [blk_ok fst snd]. unfold blk_end. cbn [fst snd]. unfold SZ_PAGE in *.
    replace (b + 4096 * count + 4096 * (n - count)) with (b + 4096 * n) by lia. repeat split; (lia || done).
Qed.

(** A list with a block of [n] pages, or with no need for one. *)
Definition has_pages (n : Z) (l : list block) : Prop := n <= 0 \/ exists b, b ∈ l /\ n <= snd b.

Lemma has_pages_fit n k l : 1 <= k <= n -> has_pages n l ->
  exists a l', first_fit k l = Some (a, l') /\ has_pages (n - k) l'.
Proof.
  intros Hk [|(b & Hb & Hn)]; [lia|].
  destruct (first_fit_cases k l) as [[_ Hall]|(pre & a & m & post & -> & Hpre & Hm & E)].
  - pose proof (proj1 (Forall_forall _ _) Hall b Hb). cbn in *. lia.
  - exists a, (pre ++ remainder k a m post). split; [exact E|]. unfold remainder.
    apply elem_of_app in Hb as [Hb|[->|Hb]%elem_of_cons].
    + pose proof (proj1 (Forall_forall _ _) Hpre b Hb). cbn in *. lia.
    + cbn [snd] in Hn. destruct (Z.eqb_spec m k); [left; lia|].
      right. exists (a + SZ_PAGE * k, m - k). split; [apply elem_of_app; right; left|cbn; lia].
    + right. exists b. split; [|lia]. apply elem_of_app. right. destruct (m =? k); [done|now right].
Qed.

Lemma first_fit_none count l : first_fit count l = None <-> Forall (fun b => snd b < count) l.
Proof.
  induction l as [|[a n] l IH]; cbn [first_fit]; [easy|]. rewrite Forall_cons. cbn [snd].
  destruct (Z.ltb_spec n count); [|split; [done|lia]].
  destruct (first_fit count l) as [[x l']|]; [|tauto].
  split; [done|]. intros [_ H']. apply IH in H'. done.
Qed.

(** * Deallocation *)

(** Merge a block with the one that follows it in the list, if they touch. *)
Definition join_next (b : block) (l : list block) : list block :=
  match l with
  | c :: l' => if blk_end b =? fst c then (fst b, snd b + snd c) :: l' else b :: l
  | [] => [b]
  end.

(** Put a block back, in order of address, merged with the neighbours it
    touches. *)
Fixpoint free_block (b : block) (l : list block) : list block :=
  match l with
  | [] => [b]
  | a :: l' =>
      if fst a <? fst b then
        if blk_end a =? fst b then join_next (fst a, snd a + snd b) l'
        else a :: free_block b l'
      else join_next b l
  end.

(** The search loop of [km_page_free_multi]. *)
Definition place_body (used : Z) : Z * Z -> K (Z * Z + Z * Z) :=
  fun '(prev, curr) =>
    if negb (curr =? NULL) && (curr <? used) then
      nx <- blk_next curr ;; ret (inl (curr, nx))
    else ret (inr (prev, curr)).

Definition last_addr (prev : Z) (l : list block) : Z := from_option fst prev (last l).
Definition head_addr (l : list block) : Z := from_option fst NULL (head l).

Lemma place_loop (pre post : list block) p prev used s lo :
  blk_chain (st_mem s) p (pre ++ post) -> blk_ok lo (pre ++ post) -> 0 < lo ->
  end_of lo pre <= used -> (forall b, head post = Some b -> used <= fst b) ->
  loopN (length pre + 1) (place_body used) (prev, p) s
  = Ret (inr (last_addr prev pre, head_addr post)) s.
Proof.
  revert p prev lo; induction pre as [|[a c] pre IH]; intros p prev lo Hc Hok Hlo He Hh.
  - apply loopN_done. unfold place_body. destruct post as [|[a n] post]; cbn in *.
    + now rewrite Hc.
    + destruct Hc as (-> & _). specialize (Hh _ eq_refl). cbn in Hh.
      destruct (Z.ltb_spec a used); [lia|]. now rewrite andb_false_r.
  - cbn [app blk_chain blk_ok] in *. destruct Hc as (-> & Hn & Hc).
    destruct Hok as (H1 & H2 & H3 & H4). cbn [fst snd] in *.
    rewrite end_of_cons in He. pose proof H4 as H4'. apply blk_ok_app in H4' as [H5 _].
    apply blk_ok_end in H5. unfold blk_end, SZ_PAGE in H5. cbn [fst snd] in H5.
    cbn [length Nat.add].
    rewrite loopN_step with (a' := (a, ld32 (st_mem s) (a + 4))) (s' := s).
    + rewrite (IH _ a _ Hc H4); [|unfold blk_end, SZ_PAGE; cbn; lia|done|done].
      unfold last_addr. rewrite last_cons. now destruct (last pre).
    + unfold place_body. destruct (Z.eqb_spec a NULL); [unfold NULL in *; lia|].
      unfold blk_end, SZ_PAGE in He. cbn [fst snd] in He.
      destruct (Z.ltb_spec a used); [reflexivity|].
      unfold blk_end, SZ_PAGE in *. cbn in *. lia.
Qed.

(** The two halves of [km_page_free_multi]: linking the block behind its
    predecessor, and merging the result with its successor. *)
Definition free_link (prev used : Z) : K Z :=
  if negb (prev =? NULL) then
    adj <- adjacent prev used ;;
    if (adj : bool) then
      pn <- blk_pages prev ;;
      un <- blk_pages used ;;
      set_pages prev (u32 (pn + un)) ;;
      ret prev
    else
      pnx <- blk_next prev ;;
      set_next used pnx ;;
      set_next prev used ;;
      ret used
  else
    fp <- km free_pages ;;
    set_next used fp ;;
    km_set (set_free_pages used) ;;
    ret used.

Definition free_join (used curr : Z) : K unit :=
  if negb (curr =? NULL) then
    adj <- adjacent used curr ;;
    when adj
      (cnx <- blk_next curr ;;
       set_next used cnx ;;
       un <- blk_pages used ;;
       cn <- blk_pages curr ;;
       set_pages used (u32 (un + cn)))
  else ret tt.

Lemma km_page_free_multi_unfold block count s :
  km_initialized (st_km s) <> 0 -> block <> NULL ->
  km_page_free_multi block count s
  = (set_pages block count ;;
     fp <- km free_pages ;;
     pc <- loop (place_body block) (NULL, fp) ;;
     let '(prev, curr) := pc in
     used <- free_link prev block ;;
     free_join used curr ;;
     km_set (fun r => set_n_pages (u32 (n_pages r + count)) r)) s.
Proof.
  intros Hi Hb. unfold km_page_free_multi, km at 1, assert.
  unfold bind at 1, gets at 1. destruct (Z.eqb_spec (km_initialized (st_km s)) 0); [done|].
  cbn [negb]. unfold bind at 1. unfold ret at 1.
  destruct (Z.eqb_spec block NULL); [done|]. reflexivity.
Qed.

(** ** Merging with the successor *)

Lemma adjacent_eq a n b s :
  ld32 (st_mem s) a = n -> 0 <= n < 2 ^ 18 -> 0 <= a -> a + SZ_PAGE * n <= KM_HIGH_CUTOFF ->
  adjacent a b s = Ret (blk_end (a, n) =? b) s.
Proof.
  intros H Hn Ha He. unfold adjacent, bind, blk_pages, load32, gets, ret. rewrite H.
  unfold KM_HIGH_CUTOFF, SZ_PAGE in He.
  rewrite P2B_small, u32_small by (unfold SZ_PAGE; lia). reflexivity.
Qed.

Lemma free_join_eq pre (u : block) post s :
  blk_chain (st_mem s) (free_pages (st_km s)) (pre ++ u :: post) ->
  blk_ok KM_LOW_CUTOFF (pre ++ u :: post) ->
  exists m, free_join (fst u) (head_addr post) s = Ret tt (up_mem (fun _ => m) s) /\
    blk_chain m (free_pages (st_km s)) (pre ++ join_next u post) /\
    agree (fun x => ~ in_blocks (pre ++ u :: post) x) (st_mem s) m.
Proof.
  intros Hc Hok. destruct post as [|[c k] post].
  { exists (st_mem s). cbn. rewrite up_mem_same. repeat split; done. }
  assert (Hlen := blk_ok_In _ _ u Hok ltac:(apply elem_of_app; right; left)).
  assert (Hlen' := blk_ok_In _ _ (c, k) Hok ltac:(apply elem_of_app; right; right; left)).
  pose proof Hok as Hok'. apply blk_ok_app in Hok' as [Hpre (Hu1 & Hu2 & Hu3 & Hk)].
  destruct Hk as (Hc1 & Hc2 & Hc3 & Hpost).
  destruct (blk_chain_app_inv _ _ _ _ Hc) as (q & Hq). destruct u as [u n].
  destruct Hq as (-> & Hn & Hcc & Hk & Hpc). unfold blk_end, head_addr in *. cbn in *.
  unfold KM_LOW_CUTOFF, KM_HIGH_CUTOFF, SZ_PAGE in *.
  unfold free_join. destruct (Z.eqb_spec c NULL); [unfold NULL in *; lia|]. cbn [negb].
  mstep (adjacent_eq u n c s Hn ltac:(lia) ltac:(lia)
           ltac:(unfold KM_HIGH_CUTOFF, SZ_PAGE; lia)).
  unfold join_next, blk_end, SZ_PAGE. cbn [fst snd].
  destruct (Z.eqb_spec (u + 4096 * n) c) as [Hadj|Hna]; cbn [when].
  2: { exists (st_mem s). rewrite up_mem_same. repeat split; done. }
  set (nx := ld32 (st_mem s) (c + 4)) in *.
  exists (st32 (st32 (st_mem s) (u + 4) nx) u (n + k)).
  split; [|split].
  - unfold bind, blk_next, set_next, set_pages, blk_pages, load32, store32, gets, modify.
    ksimpl. fold nx. rewrite !ld32_st32_ne by lia. rewrite Hn, Hk, u32_small by lia.
    reflexivity.
  - eapply blk_chain_replace; [exact Hc| |].
    + apply (prefix_headers (2 ^ 20) _ _ _ u Hpre Hu1). intros y Hy.
      now rewrite !ld8_st32_ne by lia.
    + cbn [blk_chain]. split; [done|]. rewrite ld32_st32_eq by lia. split; [done|].
      rewrite ld32_st32_ne, ld32_st32_eq by (lia || apply ld32_range).
      eapply blk_chain_st32; [exact Hpost|lia|].
      eapply blk_chain_st32; [exact Hpost|lia|done].
  - intros x Hx. rewrite !ld8_st32_ne; [done| |];
      (destruct (Z_lt_le_dec x u); [lia|]; destruct (Z_lt_le_dec x (u + 8)); [|lia];
       exfalso; apply Hx, in_blocks_app; right; apply in_blocks_cons; left;
       unfold blk_end, SZ_PAGE; cbn; lia).
Qed.

(** ** Linking behind the predecessor *)

Definition place_after (pre : list block) (b : block) : list block * block :=
  match last pre with
  | Some a => if blk_end a =? fst b
              then (removelast pre, (fst a, snd a + snd b)) else (pre, b)
  | None => (pre, b)
  end.

Lemma removelast_snoc {A} (l : list A) x : removelast (l ++ [x]) = l.
Proof. apply removelast_last. Qed.

Lemma free_block_split lo (pre : list block) (b : block) (post : list block) :
  blk_ok lo pre -> end_of lo pre <= fst b -> (forall c, head post = Some c -> fst b <= fst c) ->
  free_block b (pre ++ post)
  = let '(pre', u) := place_after pre b in pre' ++ join_next u post.
Proof.
  revert lo; induction pre as [|a pre IH]; intros lo Hok He Hh.
  - destruct post as [|c post]; [done|]. cbn. specialize (Hh c eq_refl).
    destruct (Z.ltb_spec (fst c) (fst b)); [lia|done].
  - destruct Hok as (H1 & H2 & H3 & H4). rewrite end_of_cons in He.
    pose proof (blk_ok_end _ _ H4). cbn [app free_block].
    assert (fst a < blk_end a) by (unfold blk_end, SZ_PAGE; lia).
    destruct (Z.ltb_spec (fst a) (fst b)); [|lia].
    unfold place_after. rewrite last_cons. specialize (IH _ H4 He Hh).
    unfold place_after in IH. destruct (last pre) as [p|] eqn:El.
    + apply last_Some in El as (pre' & ->).
      assert (blk_end a < fst b) as Hlt.
      { apply blk_ok_app in H4 as (Ha & Hb & Hc & _). apply blk_ok_end in Ha.
        unfold end_of in He. rewrite last_snoc in He. cbn in He.
        unfold blk_end, SZ_PAGE in *. lia. }
      destruct (Z.eqb_spec (blk_end a) (fst b)); [lia|].
      rewrite IH. destruct (blk_end p =? fst b).
      * rewrite removelast_snoc. change (a :: pre' ++ [p]) with ((a :: pre') ++ [p]).
        now rewrite removelast_snoc.
      * done.
    + apply last_None in El as ->. cbn.
      destruct (Z.eqb_spec (blk_end a) (fst b)); [done|]. f_equal. exact IH.
Qed.

Lemma free_link_eq pre post b c s :
  blk_chain (st_mem s) (free_pages (st_km s)) (pre ++ post) ->
  blk_ok KM_LOW_CUTOFF pre -> end_of KM_LOW_CUTOFF pre <= b ->
  1 <= c -> blk_end (b, c) <= KM_HIGH_CUTOFF -> blk_ok (blk_end (b, c)) post ->
  ld32 (st_mem s) b = c ->
  let '(pre', u) := place_after pre (b, c) in
  exists s', free_link (last_addr NULL pre) b s = Ret (fst u) s' /\
    blk_chain (st_mem s') (free_pages (st_km s')) (pre' ++ u :: post) /\
    blk_ok KM_LOW_CUTOFF (pre' ++ u :: post) /\
    km_frame (in_blocks (pre ++ (b, c) :: post)) s s' /\
    n_pages (st_km s') = n_pages (st_km s) /\
    km_initialized (st_km s') = km_initialized (st_km s).
Proof.
  intros Hch Hpre Hb Hc Hhi Hpost Hn. unfold place_after.
  unfold blk_end in *. cbn [fst snd] in *.
  assert (KM_LOW_CUTOFF <= b) as Hlo by (apply blk_ok_end in Hpre; lia).
  assert (forall i, 0 <= i < 8 -> in_blocks (pre ++ (b, c) :: post) (b + i)) as Hin.
  { intros i Hi. apply in_blocks_app. right. apply in_blocks_cons. left.
    unfold blk_end, SZ_PAGE. cbn. lia. }
  unfold KM_LOW_CUTOFF, KM_HIGH_CUTOFF, SZ_PAGE in *.
  destruct (last pre) as [[p np]|] eqn:El; cbn [fst snd].
  - apply last_Some in El as (pre' & ->). rewrite removelast_snoc, <- app_assoc in *.
    cbn [app] in *. unfold last_addr. rewrite last_snoc. cbn [from_option fst].
    unfold end_of in Hb. rewrite last_snoc in Hb. unfold blk_end, SZ_PAGE in Hb. cbn in Hb.
    pose proof Hpre as Hpre'. apply blk_ok_app in Hpre' as (Hpre1 & Hp1 & Hp2 & Hp3 & _).
    unfold blk_end, KM_HIGH_CUTOFF, SZ_PAGE in Hp3. cbn [fst snd] in *.
    pose proof (blk_ok_end _ _ Hpre1).
    destruct (blk_chain_app_inv _ _ _ _ Hch) as (q & -> & Hnp & Hpc).
    assert (forall i, 0 <= i < 8 -> in_blocks (pre' ++ (p, np) :: (b, c) :: post) (p + i)) as Hin'.
    { intros i Hi. apply in_blocks_app. right. apply in_blocks_cons. left.
      unfold blk_end, SZ_PAGE. cbn. lia. }
    unfold free_link. destruct (Z.eqb_spec p NULL); [unfold NULL in *; lia|]. cbn [negb].
    mstep (adjacent_eq p np b s Hnp ltac:(lia) ltac:(lia)
             ltac:(unfold KM_HIGH_CUTOFF, SZ_PAGE; lia)).
    unfold blk_end, SZ_PAGE. cbn [fst snd].
    destruct (Z.eqb_spec (p + 4096 * np) b) as [Hadj|Hna].
    + exists (up_mem (fun m => st32 m p (np + c)) s). cbn [fst snd]. split; [|split; [|split; [|split]]].
      * unfold bind, blk_pages, set_pages, load32, store32, gets, modify.
        rewrite Hnp, Hn, u32_small by lia. reflexivity.
      * ksimpl. eapply blk_chain_replace; [exact Hch| |].
        -- apply (prefix_headers (2 ^ 20) _ _ _ p Hpre1 Hp1). intros y Hy.
           now rewrite ld8_st32_ne by lia.
        -- cbn [blk_chain]. rewrite ld32_st32_eq by lia. split; [done|]. split; [done|].
           rewrite ld32_st32_ne by lia. eapply blk_chain_st32; [exact Hpost|lia|done].
      * apply blk_ok_app. split; [done|]. cbn [blk_ok fst snd]. unfold blk_end, SZ_PAGE. cbn [fst snd].
        unfold KM_HIGH_CUTOFF. repeat split; try lia.
        now replace (p + 4096 * (np + c)) with (b + 4096 * c) by lia.
      * apply km_frame_st32. intros i Hi. apply Hin'. lia.
      * split; reflexivity.
    + exists (up_mem (fun m => st32 (st32 m (b + 4) (ld32 m (p + 4))) (p + 4) b) s). cbn [fst snd].
      split; [|split; [|split; [|split]]].
      * unfold bind, blk_next, set_next, load32, store32, gets, modify. reflexivity.
      * ksimpl. rewrite <- app_assoc. cbn [app].
        eapply blk_chain_replace; [exact Hch| |].
        -- apply (prefix_headers (2 ^ 20) _ _ _ p Hpre1 Hp1). intros y Hy.
           now rewrite !ld8_st32_ne by lia.
        -- cbn [blk_chain]. rewrite !ld32_st32_ne by lia. split; [done|]. split; [done|].
           rewrite ld32_st32_eq by lia. split; [done|].
           rewrite !ld32_st32_ne by lia. split; [done|].
           rewrite ld32_st32_eq by apply ld32_range.
           eapply blk_chain_st32; [exact Hpost|lia|].
           eapply blk_chain_st32; [exact Hpost|lia|done].
      * rewrite <- app_assoc. cbn [app]. apply blk_ok_app. split; [done|].
        cbn [blk_ok fst snd]. unfold blk_end, SZ_PAGE, KM_HIGH_CUTOFF. cbn [fst snd].
        repeat split; try lia. exact Hpost.
      * eapply km_frame_trans.
        -- apply (km_frame_st32 _ (b + 4) (ld32 (st_mem s) (p + 4))). intros i Hi.
           replace (b + 4 + i) with (b + (4 + i)) by lia. apply in_blocks_app. right.
           apply in_blocks_cons. right. apply in_blocks_cons. left.
           unfold blk_end, SZ_PAGE. cbn. lia.
        -- apply (km_frame_st32 _ (p + 4) b). intros i Hi.
           replace (p + 4 + i) with (p + (4 + i)) by lia. apply Hin'. lia.
      * split; reflexivity.
  - apply last_None in El as ->. cbn [app] in *.
    exists (up_km (set_free_pages b)
              (up_mem (fun m => st32 m (b + 4) (free_pages (st_km s))) s)). cbn [fst snd].
    assert (0 <= free_pages (st_km s) < 2 ^ 32) as Hfp.
    { destruct post as [|[a n] post]; cbn in Hch; [rewrite Hch; unfold NULL; lia|].
      destruct Hch as (-> & _). destruct Hpost as (Ha1 & Ha2 & Ha3 & _).
      unfold blk_end, KM_HIGH_CUTOFF, SZ_PAGE in *. cbn in *. lia. }
    split; [|split; [|split; [|split]]].
    + unfold free_link, last_addr. cbn [last from_option]. reflexivity.
    + ksimpl. cbn [app blk_chain]. rewrite ld32_st32_ne, ld32_st32_eq by lia.
      split; [done|]. split; [done|]. eapply blk_chain_st32; [exact Hpost|lia|done].
    + cbn [app blk_ok fst snd]. unfold blk_end, SZ_PAGE, KM_HIGH_CUTOFF. cbn [fst snd].
      repeat split; try lia. exact Hpost.
    + eapply km_frame_trans.
      * apply (km_frame_st32 _ (b + 4) (free_pages (st_km s))). intros i Hi.
        replace (b + 4 + i) with (b + (4 + i)) by lia. apply Hin. lia.
      * apply (km_frame_relinked _ Head). done.
    + split; reflexivity.
Qed.

(** ** Merging keeps the pages, the order and the region *)

Lemma join_next_ok lo u post : blk_ok lo (u :: post) -> blk_ok lo (join_next u post).
Proof.
  destruct post as [|c post]; [done|]. cbn [join_next].
  destruct (Z.eqb_spec (blk_end u) (fst c)) as [E|]; [|done].
  intros (H1 & H2 & H3 & H4 & H5 & H6 & H7). unfold blk_end, SZ_PAGE in *. cbn [blk_ok fst snd].
  unfold blk_end, SZ_PAGE. cbn [fst snd].
  replace (fst u + 4096 * (snd u + snd c)) with (fst c + 4096 * snd c) by lia.
  repeat split; lia || done.
Qed.

Lemma join_next_total u post : total (join_next u post) = total (u :: post).
Proof.
  destruct post as [|c post]; [done|]. cbn [join_next].
  destruct (blk_end u =? fst c); [|done]. cbn [total foldr snd]. lia.
Qed.

Lemma join_next_in u post x :
  1 <= snd u -> (forall c, head post = Some c -> 1 <= snd c) ->
  in_blocks (join_next u post) x <-> in_blocks (u :: post) x.
Proof.
  intros Hu Hh. destruct post as [|c post]; [done|]. cbn [join_next].
  specialize (Hh c eq_refl).
  destruct (Z.eqb_spec (blk_end u) (fst c)) as [E|]; [|done].
  rewrite !in_blocks_cons. unfold blk_end, SZ_PAGE in *. cbn [fst snd].
  destruct (Z_lt_le_dec x (fst c)); intuition lia.
Qed.

Lemma place_after_total pre b :
  let '(pre', u) := place_after pre b in total (pre' ++ [u]) = total pre + snd b.
Proof.
  unfold place_after. destruct (last pre) as [a|] eqn:El.
  - apply last_Some in El as (pre' & ->). rewrite removelast_snoc.
    destruct (blk_end a =? fst b); rewrite !total_app; cbn [total foldr snd]; lia.
  - rewrite total_app. cbn. lia.
Qed.

Lemma free_total pre b post :
  let '(pre', u) := place_after pre b in
  total (pre' ++ join_next u post) = total (pre ++ post) + snd b.
Proof.
  pose proof (place_after_total pre b) as H. destruct (place_after pre b) as [pre' u].
  rewrite total_app, join_next_total. rewrite !total_app, !total_cons in *. cbn in H. lia.
Qed.

(** The block that is linked covers the old predecessor, if merged, and the
    region that is freed. *)
Lemma place_after_in pre b x pre' u post :
  in_blocks (pre' ++ u :: post) x -> place_after pre b = (pre', u) ->
  in_blocks pre x \/ fst b <= x < blk_end b \/ in_blocks post x.
Proof.
  intros Hx Hp. unfold place_after in Hp. rewrite in_blocks_app, in_blocks_cons in Hx.
  destruct (last pre) as [a|] eqn:El.
  - apply last_Some in El as (q & ->). rewrite removelast_snoc in Hp.
    destruct (Z.eqb_spec (blk_end a) (fst b)) as [E|]; simplify_eq; [|tauto].
    rewrite in_blocks_app, in_blocks_cons. unfold blk_end, SZ_PAGE in *. cbn [fst snd] in *.
    destruct (Z_lt_le_dec x (fst b)); intuition lia.
  - simplify_eq. tauto.
Qed.

(** Returning a region that the free list does not meet leaves the list with
    the region merged in. *)
Lemma km_page_free_multi_refines b c l s :
  km_inv l s -> KM_LOW_CUTOFF <= b -> 1 <= c -> b + SZ_PAGE * c <= KM_HIGH_CUTOFF ->
  (forall x, b <= x < b + SZ_PAGE * c -> ~ in_blocks l x) ->
  exists s', km_page_free_multi b c s = Ret tt s' /\ km_inv (free_block (b, c) l) s' /\
    km_frame (fun x => in_blocks l x \/ b <= x < b + SZ_PAGE * c) s s'.
Proof.
  intros Hinv Hlo Hc Hhi Hdis. pose proof (km_total_bound _ _ Hinv) as [Htot Hlen].
  destruct Hinv as [Hi Hch Hok Hnp].
  destruct (split_around _ _ _ _ Hok Hlo Hc Hdis) as (pre & post & -> & Hpre & Hpost).
  pose proof Hok as Hok'. apply blk_ok_app in Hok' as [Hokpre _].
  assert (b <> NULL) by (unfold NULL, KM_LOW_CUTOFF in *; lia).
  rewrite km_page_free_multi_unfold by done.
  set (s1 := up_mem (fun m => st32 m b c) s).
  assert (forall d, head post = Some d -> b <= fst d) as Hhead.
  { intros d Hd. destruct post as [|e post]; [done|]. injection Hd as ->.
    destruct Hpost as (? & _). unfold SZ_PAGE in *. lia. }
  assert (blk_chain (st_mem s1) (free_pages (st_km s1)) (pre ++ post)) as Hch1.
  { eapply blk_chain_agree; [|exact Hch]. intros d Hd i Hi'. unfold s1. ksimpl.
    apply ld8_st32_ne. apply elem_of_app in Hd as [Hd|Hd].
    - pose proof (blk_ok_In _ _ _ Hokpre Hd). unfold blk_end, SZ_PAGE in *. lia.
    - pose proof (blk_ok_In _ _ _ Hpost Hd). unfold blk_end, SZ_PAGE in *. lia. }
  erewrite bind_Ret; [|reflexivity]. fold s1.
  erewrite bind_Ret; [|reflexivity].
  erewrite bind_Ret.
  2: { apply (loop_intro _ (length pre + 1)).
       - rewrite length_app in Hlen. lia.
       - apply (place_loop pre post _ _ b s1 KM_LOW_CUTOFF Hch1 Hok);
           [unfold KM_LOW_CUTOFF; lia|done|done]. }
  cbn beta iota.
  assert (ld32 (st_mem s1) b = c) as Hb.
  { unfold s1. ksimpl. apply ld32_st32_eq. unfold KM_HIGH_CUTOFF, KM_LOW_CUTOFF, SZ_PAGE in *. lia. }
  pose proof (free_link_eq pre post b c s1 Hch1 Hokpre Hpre Hc Hhi Hpost Hb) as HL.
  pose proof (free_total pre (b, c) post) as HT. cbn [snd] in HT.
  rewrite (free_block_split KM_LOW_CUTOFF pre (b, c) post Hokpre Hpre Hhead).
  destruct (place_after pre (b, c)) as [pre' u] eqn:HP.
  destruct HL as (s2 & E2 & Hch2 & Hok2 & Hf2 & Hn2 & Hi2).
  mstep E2.
  destruct (free_join_eq pre' u post s2 Hch2 Hok2) as (m & E3 & Hch3 & Hag3).
  mstep E3. eexists. split; [reflexivity|].
  assert (blk_ok KM_LOW_CUTOFF (pre' ++ join_next u post)) as Hok3.
  { apply blk_ok_app in Hok2 as [? ?]. apply blk_ok_app. split; [done|]. now apply join_next_ok. }
  split; [split|].
  - ksimpl. now rewrite Hi2.
  - ksimpl. exact Hch3.
  - exact Hok3.
  - ksimpl. rewrite Hn2. unfold s1. ksimpl. rewrite Hnp, HT.
    apply u32_small. pose proof (blk_ok_total _ _ Hok3) as [? ?].
    assert (KM_LOW_CUTOFF <= KM_HIGH_CUTOFF) as Hlh by done.
    pose proof (blk_ok_high _ _ Hok3 Hlh). rewrite HT in *.
    unfold KM_LOW_CUTOFF, KM_HIGH_CUTOFF, SZ_PAGE in *. lia.
  - eapply km_frame_trans.
    { apply (km_frame_st32 _ b c). intros i Hi'. right. unfold SZ_PAGE. lia. }
    fold s1. eapply km_frame_trans.
    { eapply km_frame_weaken; [|exact Hf2]. intros x Hx. cbn in Hx.
      rewrite in_blocks_app, in_blocks_cons in Hx. rewrite in_blocks_app.
      unfold blk_end in Hx. cbn [fst snd] in Hx. tauto. }
    eapply km_frame_trans; [|apply km_frame_n_pages].
    apply km_frame_mem_only. eapply agree_weaken; [|exact Hag3].
    intros x Hx Hin. apply Hx. pose proof (place_after_in _ _ _ _ _ _ Hin HP) as HQ.
    rewrite in_blocks_app. unfold blk_end in HQ. cbn [fst snd] in HQ. tauto.
Qed.
