(* ===== verification/KmemInit.v ===== *)
(** kernel/kmem.c: the free list that [km_init] builds from the memory map of the
    BIOS. *)

From S2P Require Import Prelude Memory State Lib Sio Cio Frames Kmem KmemInv KmemSpec.

Open Scope kernel_scope.

(** ** Ordered insertion, without merging *)

Fixpoint insert_block (b : block) (l : list block) : list block :=
  match l with
  | [] => [b]
  | c :: l' => if fst c <? fst b then c :: insert_block b l' else b :: l
  end.

Lemma insert_block_split lo pre b post :
  blk_ok lo pre -> end_of lo pre <= fst b -> (forall c, head post = Some c -> fst b <= fst c) ->
  insert_block b (pre ++ post) = pre ++ b :: post.
Proof.
  revert lo; induction pre as [|a pre IH]; intros lo Hok He Hh.
  - destruct post as [|c post]; [done|]. cbn. specialize (Hh _ eq_refl).
    destruct (Z.ltb_spec (fst c) (fst b)); [lia|done].
  - rewrite end_of_cons in He. destruct Hok as (H1 & H2 & H3 & H4). pose proof (blk_ok_end _ _ H4).
    cbn [app insert_block]. assert (fst a < blk_end a) by (unfold blk_end, SZ_PAGE; lia).
    destruct (Z.ltb_spec (fst a) (fst b)); [|lia]. f_equal. eapply IH; [exact H4|lia|done].
Qed.

Lemma in_insert_block b l x : in_blocks (insert_block b l) x <-> fst b <= x < blk_end b \/ in_blocks l x.
Proof.
  induction l as [|c l IH]; cbn [insert_block].
  - now rewrite in_blocks_cons.
  - destruct (fst c <? fst b); rewrite !in_blocks_cons; [rewrite IH|]; tauto.
Qed.

(** ** The list while it is built

    [km_init] adds the blocks before it marks the allocator as initialised. *)
Record building (l : list block) (s : kstate) : Prop := Building {
  bd_chain : blk_chain (st_mem s) (free_pages (st_km s)) l;
  bd_ok : blk_ok KM_LOW_CUTOFF l;
  bd_total : n_pages (st_km s) = total l
}.

Lemma km_inv_building l s : building l s -> km_initialized (st_km s) <> 0 -> km_inv l s.
Proof. intros [H1 H2 H3] Hi. now split. Qed.

(** The masks of [add_block] and [km_region]. *)
Lemma page_mask x : 0 <= x < 2 ^ 32 -> Z.land x 0xfffff000 = SZ_PAGE * (x / SZ_PAGE).
Proof. intros H. change 0xfffff000 with (Z.ldiff (Z.ones 32) (Z.ones 12)). rewrite high_bits by lia. apply Z.mul_comm. Qed.

Lemma whole_pages x : 0 <= x < 2 ^ 32 ->
  (if negb (Z.land x 0xfff =? 0) then Z.land x 0xfffff000 else x) = SZ_PAGE * (x / SZ_PAGE).
Proof.
  intros H. rewrite page_mask by done. change 0xfff with (Z.ones 12). rewrite Z.land_ones by lia.
  change (2 ^ 12) with SZ_PAGE. pose proof (Z.div_mod x SZ_PAGE ltac:(done)).
  destruct (Z.eqb_spec (x mod SZ_PAGE) 0); cbn [negb]; lia.
Qed.

Lemma low_half x : 0 <= x < 2 ^ 32 -> Z.land x ADDR_LOW_HALF = x.
Proof. intros H. unfold ADDR_LOW_HALF. change 0xffffffff with (Z.ones 32). rewrite Z.land_ones by lia. now apply Z.mod_small. Qed.

(** A header written at [b], for a block followed by [nx]. *)
Definition headed (b n nx : Z) (s s' : kstate) : Prop :=
  exists m, s' = up_mem (fun _ => m) s /\ agree (outside b 8) (st_mem s) m /\
    ld32 m b = n /\ ld32 m (b + 4) = nx.

Lemma headed_first b n nx s : 0 <= n < 2 ^ 32 -> 0 <= nx < 2 ^ 32 ->
  headed b n nx s (up_mem (fun m => st32 (st32 m b n) (b + 4) nx) s).
Proof.
  intros Hn Hx. eexists. split; [reflexivity|]. split; [|split].
  - intros x Hx'. unfold outside in Hx'. now rewrite !ld8_st32_ne by lia.
  - rewrite ld32_st32_ne by lia. now apply ld32_st32_eq.
  - now apply ld32_st32_eq.
Qed.

Lemma headed_next b n nx nx' s s' : 0 <= nx' < 2 ^ 32 -> headed b n nx s s' ->
  headed b n nx' s (up_mem (fun m => st32 m (b + 4) nx') s').
Proof.
  intros Hx (m & -> & Hm & Hn & _). eexists. split; [reflexivity|]. ksimpl. split; [|split].
  - etransitivity; [exact Hm|]. intros x Hx'. unfold outside in Hx'. now rewrite ld8_st32_ne by lia.
  - now rewrite ld32_st32_ne by lia.
  - now apply ld32_st32_eq.
Qed.

Lemma headed_frame b n nx s s' : 1 <= n -> headed b n nx s s' ->
  km_frame (fun x => b <= x < b + SZ_PAGE * n) s s'.
Proof.
  intros Hn (m & -> & Hm & _). apply km_frame_mem_only. eapply agree_weaken; [|exact Hm].
  intros x Hx. unfold outside, SZ_PAGE in *. lia.
Qed.

Lemma headed_chain pre b n nx post p s s' :
  blk_ok KM_LOW_CUTOFF pre -> end_of KM_LOW_CUTOFF pre <= b -> 1 <= n -> blk_ok (b + SZ_PAGE * n) post ->
  headed b n nx s s' -> blk_chain (st_mem s) p (pre ++ post) -> blk_chain (st_mem s') p (pre ++ post).
Proof.
  intros Hok Hpre Hn Hpost (m & -> & Hm & _). apply blk_chain_agree. intros d Hd i Hi. apply Hm.
  unfold outside, SZ_PAGE in *. apply elem_of_app in Hd as [Hd|Hd].
  - pose proof (blk_ok_In _ _ _ Hok Hd). unfold blk_end, SZ_PAGE in *. lia.
  - pose proof (blk_ok_In _ _ _ Hpost Hd). unfold blk_end, SZ_PAGE in *. lia.
Qed.

(** Where the search for the place of a block ends. *)
Lemma place_found pre post p b s :
  blk_chain (st_mem s) p (pre ++ post) -> blk_ok KM_LOW_CUTOFF (pre ++ post) ->
  end_of KM_LOW_CUTOFF pre <= b -> (forall c, head post = Some c -> b <= fst c) ->
  loop (place_body b) (NULL, p) s = Ret (last_addr NULL pre, head_addr post) s.
Proof.
  intros Hc Hok He Hh. apply (loop_intro _ (length pre + 1)).
  - pose proof (total_bound _ Hok) as [_ Hl]. rewrite length_app in Hl. lia.
  - apply (place_loop pre post p NULL b s KM_LOW_CUTOFF Hc Hok); [unfold KM_LOW_CUTOFF; lia|done|done].
Qed.

(** The rest of [add_block] after the search. *)
Definition add_link (block prev curr : Z) : K unit :=
  set_next block curr ;;
  (if prev =? NULL then
     assert "add_block: curr" (negb (curr =? NULL)) ;;
     km_set (set_free_pages block)
   else set_next prev block) ;;
  n <- blk_pages block ;;
  km_set (fun r => set_n_pages (u32 (n_pages r + n)) r).

(** A list split around a region. *)
Definition gap (pre : list block) (b n : Z) (post : list block) : Prop :=
  blk_ok KM_LOW_CUTOFF pre /\ end_of KM_LOW_CUTOFF pre <= b /\ 1 <= n /\
  b + SZ_PAGE * n <= KM_HIGH_CUTOFF /\ blk_ok (b + SZ_PAGE * n) post.

Lemma gap_ok pre b n post : gap pre b n post -> blk_ok KM_LOW_CUTOFF (pre ++ (b, n) :: post).
Proof. intros (H1 & H2 & H3 & H4 & H5). apply blk_ok_app. split; [done|]. cbn. unfold blk_end. auto. Qed.

Lemma gap_old pre b n post : gap pre b n post -> blk_ok KM_LOW_CUTOFF (pre ++ post).
Proof.
  intros (H1 & H2 & H3 & H4 & H5). apply blk_ok_app. split; [done|].
  eapply blk_ok_weaken; [|exact H5]. unfold SZ_PAGE. lia.
Qed.

(** The new block is linked: behind its predecessor, or as the first one. *)
Lemma block_linked pre b n post s s1 :
  gap pre b n post -> building (pre ++ post) s -> headed b n (head_addr post) s s1 ->
  building (pre ++ (b, n) :: post)
    (up_km (fun r => set_n_pages (u32 (n_pages r + n)) r) (relinked (link_after pre) b s1)).
Proof.
  intros Hg [Hc _ Ht] Hd. pose proof (gap_ok _ _ _ _ Hg) as Hok. destruct Hg as (H1 & H2 & H3 & H4 & H5).
  pose proof (headed_chain pre b n _ post _ s s1 H1 H2 H3 H5 Hd Hc) as Hc1.
  destruct (relinked_init (link_after pre) b s1) as [_ En].
  assert (0 <= b < 2 ^ 32) as Hb by (apply blk_ok_end in H1; unfold KM_LOW_CUTOFF, KM_HIGH_CUTOFF, SZ_PAGE in *; lia).
  assert (st_km s1 = st_km s) as Ek by now destruct Hd as (m & -> & _).
  assert (blk_chain (st_mem s1) b ((b, n) :: post)) as Hn.
  { destruct (blk_chain_app_inv _ _ _ _ Hc1) as (q & Hq). destruct Hd as (m & -> & _ & Hn & Hx).
    split; [done|]. split; [exact Hn|]. revert Hq. ksimpl. rewrite Hx. now destruct post as [|[]]; [|intros (-> & ?)]. }
  split.
  - ksimpl. eapply relinked_chain; [exact H1| |exact Hb|rewrite Ek; exact Hc1|exact Hn].
    cbn. unfold blk_end. auto.
  - exact Hok.
  - pose proof (total_bound _ Hok) as [Ht' _]. revert Ht'. ksimpl. rewrite En, Ek, Ht, !total_app, total_cons.
    cbn [snd]. intros Hb'. rewrite u32_small by lia. lia.
Qed.

Lemma add_link_eq pre b n post s s1 :
  gap pre b n post -> (pre ++ post <> []) -> headed b n NULL s s1 ->
  exists s2, headed b n (head_addr post) s s2 /\
    add_link b (last_addr NULL pre) (head_addr post) s1
    = Ret tt (up_km (fun r => set_n_pages (u32 (n_pages r + n)) r) (relinked (link_after pre) b s2)).
Proof.
  intros (H1 & H2 & H3 & H4 & H5) Hne Hd. unfold KM_HIGH_CUTOFF, SZ_PAGE in H4.
  assert (2 ^ 20 <= b) as Hlo by (etransitivity; [exact (blk_ok_end _ _ H1)|exact H2]).
  set (s2 := up_mem (fun m => st32 m (b + 4) (head_addr post)) s1).
  assert (forall c, head post = Some c -> b < fst c < 2 ^ 32) as Hh.
  { intros c Hc. destruct post as [|d post]; [done|]. injection Hc as ->. destruct H5 as (? & ? & He & _).
    unfold blk_end, KM_HIGH_CUTOFF, SZ_PAGE in *. lia. }
  assert (headed b n (head_addr post) s s2) as Hd2.
  { eapply headed_next; [|exact Hd]. unfold head_addr. destruct (head post) as [c|]; [|done].
    specialize (Hh c eq_refl). change (0 <= fst c < 2 ^ 32). lia. }
  exists s2. split; [exact Hd2|]. unfold add_link. erewrite bind_Ret; [|reflexivity]. fold s2.
  assert (forall s', ld32 (st_mem s') b = n -> (n0 <- blk_pages b ;; km_set (fun r => set_n_pages (u32 (n_pages r + n0)) r)) s'
    = Ret tt (up_km (fun r => set_n_pages (u32 (n_pages r + n)) r) s')) as Hend.
  { intros s' E. unfold blk_pages, load32, bind, gets. now rewrite E. }
  destruct Hd2 as (m & E2 & _ & Hn & _). unfold last_addr, link_after.
  destruct pre as [|c pre _] using rev_ind.
  - cbn [last from_option]. assert (head_addr post =? NULL = false) as ->.
    { apply Z.eqb_neq. unfold head_addr. destruct post as [|d post]; [done|]. specialize (Hh d eq_refl). cbn.
      unfold NULL. lia. }
    erewrite bind_Ret; [|reflexivity]. apply Hend. rewrite E2. exact Hn.
  - rewrite last_snoc. cbn [from_option]. pose proof (blk_ok_In _ _ c H1 ltac:(apply elem_of_app; right; left)) as Hc.
    unfold end_of in H2. rewrite last_snoc in H2. cbn in H2. unfold blk_end, SZ_PAGE, KM_LOW_CUTOFF in *.
    destruct (Z.eqb_spec (fst c) NULL); [unfold NULL in *; lia|].
    erewrite bind_Ret; [|reflexivity]. apply Hend. cbn [relinked up_mem st_mem]. rewrite ld32_st32_ne by lia. rewrite E2. exact Hn.
Qed.

Lemma add_block_unfold base length s :
  SZ_PAGE <= length -> 0 <= length < 2 ^ 32 -> let n := length / SZ_PAGE in
  add_block base length s =
  (fp <- km free_pages ;;
   if fp =? NULL then
     km_set (set_free_pages base) ;;
     n <- blk_pages base ;;
     km_set (set_n_pages n)
   else
     pc <- loop (place_body base) (NULL, fp) ;;
     let '(prev, curr) := pc in add_link base prev curr)
  (up_mem (fun m => st32 (st32 m base n) (base + 4) NULL) s).
Proof.
  intros H1 H2 n. unfold add_block. destruct (Z.ltb_spec length SZ_PAGE); [lia|].
  cbv zeta. rewrite whole_pages by done. unfold B2P. rewrite Z.shiftr_div_pow2 by lia. change (2 ^ 12) with SZ_PAGE.
  rewrite Z.mul_comm, Z.div_mul by done. reflexivity.
Qed.

Lemma add_block_eq pre b n post length s :
  gap pre b n post -> building (pre ++ post) s -> n = length / SZ_PAGE ->
  SZ_PAGE <= length -> b + length <= KM_HIGH_CUTOFF ->
  exists s2, headed b n (head_addr post) s s2 /\
    add_block b length s
    = Ret tt (up_km (fun r => set_n_pages (u32 (n_pages r + n)) r) (relinked (link_after pre) b s2)).
Proof.
  intros Hg [Hc Hok Ht] En Hlen Hhi. pose proof Hg as (H1 & H2 & H3 & H4 & H5).
  assert (2 ^ 20 <= b) as Hlo by (etransitivity; [exact (blk_ok_end _ _ H1)|exact H2]).
  unfold KM_HIGH_CUTOFF in *.
  rewrite add_block_unfold by (unfold SZ_PAGE in *; lia). rewrite <- En.
  set (s1 := up_mem _ s). assert (headed b n NULL s s1) as Hd
    by (apply headed_first; unfold NULL, SZ_PAGE in *; lia).
  pose proof (headed_chain pre b n _ post _ _ _ H1 H2 H3 H5 Hd Hc) as Hc1.
  assert (st_km s1 = st_km s) as Ek by reflexivity.
  assert (ld32 (st_mem s1) b = n) as Eb by now destruct Hd as (m & -> & _ & ? & _).
  erewrite bind_Ret; [|reflexivity]. rewrite Ek. destruct (decide (pre ++ post = [])) as [Enil|Hne].
  - pose proof Enil as [-> ->]%app_nil. cbn in Hc, Ht. rewrite Hc, Z.eqb_refl. exists s1. split; [exact Hd|].
    unfold blk_pages, load32, km_set, modify, bind, gets. ksimpl. rewrite Eb. f_equal. cbn. unfold up_km. ksimpl.
    rewrite Ek, Ht. now rewrite (u32_small (0 + n)) by (unfold SZ_PAGE in *; lia).
  - destruct (Z.eqb_spec (free_pages (st_km s)) NULL) as [E0|Hnz].
    + exfalso. destruct (pre ++ post) as [|[a k] l]; [done|]. destruct Hc as (Ea & _). destruct Hok as (Ha & _).
      cbn in Ha. unfold NULL, KM_LOW_CUTOFF in *. lia.
    + assert (forall c, head post = Some c -> b <= fst c) as Hhead.
      { intros c Ec. destruct post as [|d post]; [done|]. injection Ec as ->. destruct H5 as (? & _).
        unfold SZ_PAGE in *. lia. }
      mstep (place_found pre post _ b s1 Hc1 Hok H2 Hhead). now apply add_link_eq.
Qed.

(** A block of at least a page, which the list does not meet, is inserted at its
    place, without the bytes after its last whole page. *)
Lemma add_block_inserts b length l s :
  let n := length / SZ_PAGE in
  building l s -> SZ_PAGE <= length -> KM_LOW_CUTOFF <= b -> b + length <= KM_HIGH_CUTOFF ->
  (forall x, b <= x < b + SZ_PAGE * n -> ~ in_blocks l x) ->
  exists s', add_block b length s = Ret tt s' /\ building (insert_block (b, n) l) s' /\
    km_frame (in_blocks (insert_block (b, n) l)) s s'.
Proof.
  intros n Hb Hlen Hlo Hhi Hdis. pose proof Hb as [Hc Hok Ht].
  assert (1 <= n) as Hn by (apply Z.div_le_lower_bound; unfold SZ_PAGE in *; lia).
  assert (SZ_PAGE * n <= length) as Hpg by (apply Z.mul_div_le; done).
  destruct (split_around _ _ _ _ Hok Hlo Hn Hdis) as (pre & post & -> & Hpre & Hpost).
  pose proof Hok as [Hok1 _]%blk_ok_app.
  assert (gap pre b n post) as Hg by (repeat split; [done..|lia|done]).
  rewrite (insert_block_split _ _ (b, n) _ Hok1 Hpre).
  2: { intros c Ec. destruct post as [|d post]; [done|]. injection Ec as ->. destruct Hpost as (? & _).
       cbn [fst]. unfold SZ_PAGE in *. lia. }
  destruct (add_block_eq pre b n post length s Hg Hb eq_refl Hlen Hhi) as (s2 & Hd & E).
  eexists. split; [exact E|]. split; [exact (block_linked _ _ _ _ _ _ Hg Hb Hd)|].
  eapply km_frame_trans; [|eapply km_frame_trans; [|apply km_frame_n_pages]].
  - eapply km_frame_weaken; [|exact (headed_frame _ _ _ _ _ Hn Hd)]. intros x Hx. apply in_blocks_app. right.
    apply in_blocks_cons. left. exact Hx.
  - apply km_frame_relinked. intros c Ec. eapply link_after_in; [exact (gap_ok _ _ _ _ Hg)|exact Ec].
Qed.

(** * The memory map *)

Record region_t := Region { rg_base : Z; rg_length : Z; rg_type : Z; rg_acpi : Z }.

(** The entry at [a]. *)
Definition region_at (m : memory) (a : Z) (r : region_t) : Prop :=
  ld64 m a = rg_base r /\ ld64 m (a + 8) = rg_length r /\ ld32 m (a + 16) = rg_type r /\
  ld32 m (a + 20) = rg_acpi r.

(** The whole pages of a region that the kernel uses: those between the cutoffs, if
    the region is ordinary memory. *)
Definition usable_block (r : region_t) : option block :=
  if Z.testbit (rg_acpi r) 0 && negb (Z.testbit (rg_acpi r) 1) && (rg_type r =? REGION_USABLE) then
    let b := Z.max (rg_base r) KM_LOW_CUTOFF in
    let e := Z.min (rg_base r + rg_length r) KM_HIGH_CUTOFF in
    if b + SZ_PAGE <=? e then Some (b, (e - b) / SZ_PAGE) else None
  else None.

Definition add_region (l : list block) (r : region_t) : list block :=
  match usable_block r with Some b => insert_block b l | None => l end.

Lemma land_bit a k : 0 <= k -> (Z.land a (2 ^ k) =? 0) = negb (Z.testbit a k).
Proof.
  intros Hk. destruct (Z.testbit a k) eqn:E; cbn [negb].
  - apply Z.eqb_neq. intros E0. apply (f_equal (fun x => Z.testbit x k)) in E0.
    rewrite Z.land_spec, E, Z.pow2_bits_true, Z.bits_0 in E0 by done. done.
  - apply Z.eqb_eq. apply Z.bits_inj'. intros i Hi. rewrite Z.land_spec, Z.bits_0, Z.pow2_bits_eqb by done.
    destruct (Z.eqb_spec k i) as [->|]; [now rewrite E|apply andb_false_r].
Qed.

(** The part of [km_region] for a usable region. *)
Definition clip (base length : Z) : K unit :=
  let endpt := u64 (base + length) in
  let high := (KM_HIGH_CUTOFF <=? base) || (KM_HIGH_CUTOFF <=? endpt) in
  if high && (KM_HIGH_CUTOFF <? base) then ret tt
  else
    let endpt := if high then KM_HIGH_CUTOFF else endpt in
    let low := (base <? KM_LOW_CUTOFF) || (endpt <? KM_LOW_CUTOFF) in
    if low && (endpt <? KM_LOW_CUTOFF) then ret tt
    else
      let base := if low then KM_LOW_CUTOFF else base in
      let length := u64 (endpt - base) in
      add_block (Z.land base ADDR_LOW_HALF) (Z.land length ADDR_LOW_HALF).

Lemma km_region_unfold a r s : region_at (st_mem s) a r ->
  km_region a s =
  (if Z.testbit (rg_acpi r) 0 && negb (Z.testbit (rg_acpi r) 1) && (rg_type r =? REGION_USABLE)
   then clip (rg_base r) (rg_length r) else ret tt) s.
Proof.
  intros (E1 & E2 & E3 & E4). unfold km_region, load32, load64. unfold bind at 1 2, gets. rewrite E3, E4.
  rewrite (land_bit _ 0), (land_bit _ 1) by done. destruct (Z.testbit _ 0), (Z.testbit _ 1), (rg_type r =? _); try reflexivity.
  cbn. unfold bind, gets. now rewrite E1, E2.
Qed.

(** The bounds that [clip] computes. *)
Lemma clip_eq base length s :
  0 <= base -> 0 <= length -> base + length < 2 ^ 64 ->
  let b := Z.max base KM_LOW_CUTOFF in
  let e := Z.min (base + length) KM_HIGH_CUTOFF in
  clip base length s = (if e <? b then ret tt else add_block b (e - b)) s.
Proof.
  intros Hb Hl Hs b e. unfold clip. rewrite u64_small by lia. cbv zeta.
  assert (KM_LOW_CUTOFF = 2 ^ 20 /\ KM_HIGH_CUTOFF = 2 ^ 30) as [EL EH] by done.
  destruct (Z.ltb_spec KM_HIGH_CUTOFF base).
  - rewrite (proj2 (Z.leb_le _ _)) by lia. cbn [orb andb]. destruct (Z.ltb_spec e b); [done|lia].
  - rewrite andb_false_r.
    assert ((if (KM_HIGH_CUTOFF <=? base) || (KM_HIGH_CUTOFF <=? base + length) then KM_HIGH_CUTOFF else base + length) = e)
      as -> by (destruct (Z.leb_spec KM_HIGH_CUTOFF base), (Z.leb_spec KM_HIGH_CUTOFF (base + length)); cbn [orb]; lia).
    destruct (Z.ltb_spec e KM_LOW_CUTOFF).
    + rewrite orb_true_r. cbn [andb]. destruct (Z.ltb_spec e b); [done|lia].
    + rewrite orb_false_r, andb_false_r. destruct (Z.ltb_spec e b); [lia|].
      assert ((if base <? KM_LOW_CUTOFF then KM_LOW_CUTOFF else base) = b) as ->
        by (destruct (Z.ltb_spec base KM_LOW_CUTOFF); lia).
      rewrite u64_small by lia. now rewrite !low_half by lia.
Qed.

(** A region adds its block to the list. *)
Lemma km_region_adds a r l s :
  region_at (st_mem s) a r -> rg_base r + rg_length r < 2 ^ 64 -> building l s ->
  (forall b, usable_block r = Some b -> forall x, fst b <= x < blk_end b -> ~ in_blocks l x) ->
  exists s', km_region a s = Ret tt s' /\ building (add_region l r) s' /\
    km_frame (in_blocks (add_region l r)) s s'.
Proof.
  intros Ha Hs Hb Hdis. rewrite (km_region_unfold a r s Ha). unfold add_region. revert Hdis. unfold usable_block.
  destruct (_ && _ && _); [|intros _; exists s; auto using km_frame_refl].
  destruct Ha as (E1 & E2 & _). pose proof (ld64_range (st_mem s) a). pose proof (ld64_range (st_mem s) (a + 8)).
  rewrite clip_eq by lia. cbv zeta.
  set (b := Z.max _ _). set (e := Z.min _ _). destruct (Z.leb_spec (b + SZ_PAGE) e) as [Hle|Hgt].
  - intros Hdis. destruct (Z.ltb_spec e b); [unfold SZ_PAGE in *; lia|].
    apply (add_block_inserts b (e - b) l s Hb); [lia|unfold b; lia|unfold e; lia|].
    exact (Hdis _ eq_refl).
  - intros _. exists s. split; [|auto using km_frame_refl]. destruct (Z.ltb_spec e b); [done|].
    unfold add_block. destruct (Z.ltb_spec (e - b) SZ_PAGE); [done|lia].
Qed.

(** ** The whole map *)

(** [count] entries from [a] on. *)
Fixpoint map_at (m : memory) (a : Z) (rs : list region_t) : Prop :=
  match rs with
  | [] => True
  | r :: rs => region_at m a r /\ map_at m (a + SZ_REGION) rs
  end.

(** The blocks of the list and those still to come do not meet. *)
Definition apart_blocks (b c : block) : Prop := blk_end b <= fst c \/ blk_end c <= fst b.

Record map_ok (rs : list region_t) : Prop := MapOk {
  mo_ends : Forall (fun r => rg_base r + rg_length r < 2 ^ 64) rs;
  mo_apart : ForallOrdPairs apart_blocks (omap usable_block rs)
}.

Definition region_block (r : region_t) (x : Z) : Prop :=
  exists b, usable_block r = Some b /\ fst b <= x < blk_end b.

Lemma in_add_region l r x : in_blocks (add_region l r) x <-> region_block r x \/ in_blocks l x.
Proof.
  unfold add_region, region_block. destruct (usable_block r) as [b|].
  - rewrite in_insert_block. split; [intros [?|?]; eauto|intros [(c & [= <-] & ?)|?]; auto].
  - split; [auto|intros [(c & ? & _)|?]; done].
Qed.

Lemma in_added rs l x :
  in_blocks (foldl add_region l rs) x <-> Exists (fun r => region_block r x) rs \/ in_blocks l x.
Proof.
  revert l; induction rs as [|r rs IH]; intros l; cbn [foldl]; [rewrite Exists_nil; tauto|].
  rewrite IH, in_add_region, Exists_cons. tauto.
Qed.

(** The map is not written. *)
Lemma region_at_same m m' a r :
  (forall x, a <= x < a + SZ_REGION -> ld8 m' x = ld8 m x) ->
  region_at m a r -> region_at m' a r.
Proof.
  unfold SZ_REGION. intros Hag. assert (forall k, 0 <= k <= 20 -> ld32 m' (a + k) = ld32 m (a + k)) as Hw
    by (intros k Hk; apply ld32_agree; intros i Hi; apply Hag; lia).
  unfold region_at, ld64. rewrite !Hw by lia. rewrite <- !Z.add_assoc, !Hw by lia.
  rewrite <- (Z.add_0_r a), !Hw by lia. tauto.
Qed.

Lemma map_at_same m m' a rs :
  (forall x, a <= x < a + SZ_REGION * Z.of_nat (length rs) -> ld8 m' x = ld8 m x) ->
  map_at m a rs -> map_at m' a rs.
Proof.
  revert a; induction rs as [|r rs IH]; intros a Hag; [done|]. cbn [map_at length] in *. unfold SZ_REGION in *.
  intros [H1 H2]. split; [eapply region_at_same; [|exact H1]|apply IH; [|exact H2]]; intros x Hx; apply Hag; unfold SZ_REGION in *; lia.
Qed.

Lemma usable_low r b : usable_block r = Some b -> KM_LOW_CUTOFF <= fst b.
Proof. unfold usable_block. destruct (_ && _); [|done]. cbv zeta. destruct (_ <=? _); [|done]. intros [= <-]. cbn [fst]. lia. Qed.

Lemma add_region_low l r x : blk_ok KM_LOW_CUTOFF l -> in_blocks (add_region l r) x -> KM_LOW_CUTOFF <= x.
Proof.
  intros Hok [(b & Hb & Hx)|Hx]%in_add_region; [apply usable_low in Hb; lia|].
  apply (in_blocks_range _ _ _ Hok) in Hx. lia.
Qed.

(** The loop of [km_init]. *)
Definition region_body (entries : Z) : Z * Z -> K (Z * Z + unit) :=
  fun '(i, region) =>
    if i <? entries then
      km_region region ;; ret (inl (i + 1, region + SZ_REGION))
    else ret (inr tt).

Lemma regions_loop rs entries i a l s :
  entries = i + Z.of_nat (length rs) -> a + SZ_REGION * Z.of_nat (length rs) <= KM_LOW_CUTOFF ->
  map_at (st_mem s) a rs -> map_ok rs -> building l s ->
  Forall (fun b => forall x, fst b <= x < blk_end b -> ~ in_blocks l x) (omap usable_block rs) ->
  exists s', loopN (length rs + 1) (region_body entries) (i, a) s = Ret (inr tt) s' /\
    building (foldl add_region l rs) s' /\ km_frame (in_blocks (foldl add_region l rs)) s s'.
Proof.
  revert i a l s; induction rs as [|r rs IH]; intros i a l s En Ha Hm Hok Hb Hdis.
  - exists s. split; [|auto using km_frame_refl]. apply loopN_done. unfold region_body. cbn [length] in En.
    destruct (Z.ltb_spec i entries); [lia|done].
  - destruct Hm as [Hm1 Hm2]. destruct Hok as [He Hp]. apply Forall_cons in He as [He He'].
    unfold SZ_REGION in *. cbn [length] in *. cbn [omap list_omap] in Hp, Hdis.
    assert (forall b, usable_block r = Some b -> forall x, fst b <= x < blk_end b -> ~ in_blocks l x) as Hr.
    { intros b Eb. rewrite Eb in Hdis. now apply Forall_cons in Hdis as [? _]. }
    destruct (km_region_adds a r l s Hm1 He Hb Hr) as (s1 & E1 & Hb1 & Hf1).
    destruct (IH (i + 1) (a + 24) (add_region l r) s1) as (s2 & E2 & Hb2 & Hf2); [lia|lia| | |exact Hb1| |].
    + eapply map_at_same; [|exact Hm2]. unfold SZ_REGION. intros x Hx. eapply km_frame_mem; [exact Hf1|].
      intros Hin%add_region_low; [lia|apply Hb].
    + split; [exact He'|]. destruct (usable_block r); [now inversion Hp|exact Hp].
    + destruct (usable_block r) as [b|] eqn:Eb; [|unfold add_region; now rewrite Eb].
      apply Forall_cons in Hdis as [_ Hdis]. inversion Hp as [|? ? Hap _]; subst.
      apply Forall_forall. intros c Hc x Hx [(d & Ed & Hd)|Hin]%in_add_region.
      * rewrite Eb in Ed. injection Ed as <-. pose proof (proj1 (Forall_forall _ _) Hap c Hc) as Hap'.
        unfold apart_blocks in Hap'. lia.
      * exact (proj1 (Forall_forall _ _) Hdis c Hc x Hx Hin).
    + exists s2. split; [|split; [exact Hb2|]].
      * cbn [Nat.add]. rewrite loopN_step with (a' := (i + 1, a + 24)) (s' := s1); [exact E2|].
        unfold region_body. destruct (Z.ltb_spec i entries); [|lia]. now mstep E1.
      * cbn [foldl]. eapply km_frame_trans; [|exact Hf2]. eapply km_frame_weaken; [|exact Hf1].
        intros x Hx. apply in_added. now right.
Qed.

(** The free list for a memory map: the usable blocks in the order of their addresses. *)
Definition free_list_of (rs : list region_t) : list block := foldl add_region [] rs.

Lemma km_init_spec rs s s1 :
  cio_puts (chars " KM") s = Ret tt s1 ->
  s32 (ld32 (st_mem s) MMAP_ADDR) = Z.of_nat (length rs) -> rs <> [] ->
  map_at (st_mem s) (MMAP_ADDR + 4) rs -> map_ok rs ->
  MMAP_ADDR + 4 + SZ_REGION * Z.of_nat (length rs) <= KM_LOW_CUTOFF ->
  exists m k, km_init s = Ret tt (with_km m k s1) /\ km_inv (free_list_of rs) (with_km m k s1) /\
    agree (fun x => ~ in_blocks (free_list_of rs) x) (st_mem s) m /\ free_slices k = NULL /\ n_slices k = 0.
Proof.
  intros E0 En Hne Hm Hok Hlow. pose proof (io_Ret _ _ _ _ (io_cio_puts _) E0) as (Em & _)%io_only_fields.
  rewrite <- Em in *. set (k0 := Kmem NULL NULL 0 0 0). set (s2 := up_km (fun _ => k0) s1).
  destruct (regions_loop rs (Z.of_nat (length rs)) 0 (MMAP_ADDR + 4) [] s2) as (s3 & E3 & Hb & Hf);
    [lia|exact Hlow|exact Hm|exact Hok|now split| |].
  { apply Forall_forall. intros b _ x _ Hx. now apply Exists_nil in Hx. }
  pose proof Hf as (m & fp & np & E & Hag).
  assert (km_init s = Ret tt (up_km (set_km_initialized 1) s3)) as Ei.
  { unfold km_init. mstep E0. do 5 (erewrite bind_Ret; [|reflexivity]).
    match goal with |- bind _ _ ?t = _ => change t with s2 end.
    unfold load32. unfold bind at 1, gets. change (st_mem s2) with (st_mem s1). rewrite En.
    destruct (Z.ltb_spec (Z.of_nat (length rs)) 1); [destruct rs; [done|cbn in *; lia]|].
    erewrite bind_Ret; [reflexivity|]. apply (loop_intro _ (length rs + 1)); [|exact E3].
    unfold SZ_REGION, MMAP_ADDR, KM_LOW_CUTOFF in Hlow. lia. }
  exists m, (set_km_initialized 1 (set_free_pages fp (set_n_pages np k0))).
  assert (up_km (set_km_initialized 1) s3 = with_km m (set_km_initialized 1 (set_free_pages fp (set_n_pages np k0))) s1) as <-
    by now rewrite E.
  split; [exact Ei|]. split; [|split; [exact Hag|done]]. apply km_inv_building; [|discriminate].
  destruct Hb as [B1 B2 B3]. now split.
Qed.
