(* ===== verification/KmemClaims.v ===== *)
(** The contract of the page allocator of kernel/kmem.c: what a caller of
    [km_page_alloc] and [km_page_free_multi] can rely on. *)

From S2P Require Import Prelude Memory State Lib Sio Cio Frames CioTypes CioClaims Kmem KmemInv KmemSpec KmemInit.

Open Scope kernel_scope.

(** A state with two free blocks, of four and of eight pages. *)
Definition km_example : kstate :=
  let put m b n nx := st32 (st32 m b n) (b + 4) nx in
  up_km (fun _ => Kmem 0x100000 0 12 0 1)
    (boot_state (put (put ∅ 0x100000 4 0x200000) 0x200000 8 0) (fun _ _ => 0)).

Definition km_example_list : list block := [(0x100000, 4); (0x200000, 8)].

Lemma km_example_inv : km_inv km_example_list km_example.
Proof. split; vm_compute; intuition congruence. Qed.

(** ** Lists in which no two neighbours touch *)

Fixpoint coalesced (l : list block) : Prop :=
  match l with
  | b :: l' => match head l' with Some c => blk_end b <> fst c | None => True end /\ coalesced l'
  | [] => True
  end.

Lemma coalesced_app l1 l2 :
  coalesced (l1 ++ l2) <->
  coalesced l1 /\ coalesced l2 /\
  match last l1, head l2 with Some b, Some c => blk_end b <> fst c | _, _ => True end.
Proof.
  induction l1 as [|b l1 IH]; [cbn; tauto|]. cbn [app coalesced]. rewrite IH, last_cons.
  destruct l1 as [|d l1]; cbn [app head last]; [destruct (head l2); tauto|].
  destruct (last (d :: l1)) eqn:E; [tauto|]. apply last_None in E. done.
Qed.

Lemma join_next_coalesced pre u post :
  coalesced pre -> coalesced post ->
  match last pre with Some b => blk_end b <> fst u | None => True end ->
  coalesced (pre ++ join_next u post).
Proof.
  intros Hp Hq Hl. apply coalesced_app. split; [done|].
  destruct post as [|c post]; cbn [join_next].
  { split; [cbn; tauto|]. destruct (last pre); done. }
  destruct Hq as [Hq1 Hq2]. destruct (Z.eqb_spec (blk_end u) (fst c)) as [E|E].
  - split.
    + cbn [coalesced]. split; [|done]. destruct (head post); [|done].
      unfold blk_end in *. cbn [fst snd]. intros E'. apply Hq1. rewrite <- E'. lia.
    + cbn. destruct (last pre); done.
  - split; [cbn; tauto|]. cbn. destruct (last pre); done.
Qed.

Lemma free_block_coalesced lo pre b post :
  blk_ok lo pre -> end_of lo pre <= fst b ->
  (forall c, head post = Some c -> fst b <= fst c) ->
  coalesced (pre ++ post) -> coalesced (free_block b (pre ++ post)).
Proof.
  intros Hok He Hh Hc. rewrite (free_block_split lo) by done.
  apply coalesced_app in Hc as (Hc1 & Hc2 & _). unfold place_after.
  destruct (last pre) as [a|] eqn:El.
  - destruct (Z.eqb_spec (blk_end a) (fst b)) as [E|E].
    + apply last_Some in El as (q & ->). rewrite removelast_snoc.
      apply coalesced_app in Hc1 as (Hq & _ & Hqa).
      apply join_next_coalesced; [done..|]. cbn [fst]. destruct (last q); done.
    + apply join_next_coalesced; [done..|]. now rewrite El.
  - apply join_next_coalesced; [done..|]. now rewrite El.
Qed.

(** What is left of a block joins with the part that was taken from it. *)
Lemma join_remainder count x n post :
  coalesced ((x, n) :: post) -> join_next (x, count) (remainder count x n post) = (x, n) :: post.
Proof.
  intros [Hh _]. unfold remainder. destruct (Z.eqb_spec n count) as [->|Hne].
  - destruct post as [|c post]; [done|]. cbn [join_next head] in *.
    destruct (Z.eqb_spec (blk_end (x, count)) (fst c)); done.
  - cbn [join_next fst snd]. unfold blk_end. cbn [fst snd]. rewrite Z.eqb_refl.
    now replace (count + (n - count)) with n by lia.
Qed.

(** ** The contract *)

(** C8: [km_page_alloc] implements first fit. If no free block has [count] pages
    it answers NULL and changes nothing; otherwise it answers the address that
    first fit selects, the invariant holds for the list first fit leaves, and it
    has written nothing outside the memory that was free. *)
Theorem page_alloc_first_fit (count : Z) (l : list block) (s : kstate) :
  km_inv l s -> 1 <= count ->
  (Forall (fun b => snd b < count) l /\ km_page_alloc count s = Ret NULL s) \/
  (exists a l' s', first_fit count l = Some (a, l') /\ km_page_alloc count s = Ret a s' /\
     km_inv l' s' /\ km_frame (in_blocks l) s s').
Proof.
  intros Hinv Hc. pose proof (km_page_alloc_refines count l s Hinv Hc) as H.
  destruct (first_fit count l) as [[a l']|] eqn:E.
  - right. destruct H as (s' & E' & H1 & H2). eauto 8.
  - left. split; [now apply first_fit_none|done].
Qed.

Lemma page_alloc_first_fit_witness :
  exists s', km_page_alloc 5 km_example = Ret 0x200000 s' /\
    km_inv [(0x100000, 4); (0x205000, 3)] s'.
Proof.
  destruct (page_alloc_first_fit 5 km_example_list km_example km_example_inv ltac:(lia))
    as [[H _] | (a & l' & s' & E & E' & H & _)].
  - unfold km_example_list in H. rewrite !Forall_cons in H. cbn in H. lia.
  - injection E as <- <-. eauto.
Defined.

(** The pages [km_page_alloc] hands out were free, are aligned with a free
    block, are not free afterwards, and nothing else stops being free: the page
    count drops by exactly the pages given out. *)
Theorem page_alloc_exclusive (count : Z) (l : list block) (s s' : kstate) (a : Z) :
  km_inv l s -> 1 <= count -> km_page_alloc count s = Ret a s' -> a <> NULL ->
  KM_LOW_CUTOFF <= a /\ a + SZ_PAGE * count <= KM_HIGH_CUTOFF /\
  exists l', km_inv l' s' /\
    (forall x, in_blocks l x <-> a <= x < a + SZ_PAGE * count \/ in_blocks l' x) /\
    (forall x, a <= x < a + SZ_PAGE * count -> ~ in_blocks l' x) /\
    n_pages (st_km s') = n_pages (st_km s) - count.
Proof.
  intros Hinv Hc E Ha. pose proof (km_page_alloc_refines count l s Hinv Hc) as H.
  destruct (first_fit count l) as [[b l']|] eqn:Ef; [|rewrite H in E; injection E as <- _; done].
  destruct H as (s'' & E' & H1 & H2). rewrite E in E'. injection E' as -> ->.
  destruct (first_fit_region _ _ _ _ _ (inv_ok _ _ Hinv) Hc Ef) as (R1 & R2 & R3).
  assert (forall x, b <= x < b + SZ_PAGE * count -> KM_LOW_CUTOFF <= x < KM_HIGH_CUTOFF) as Hr.
  { intros x Hx. assert (in_blocks l x) as Hin by (apply R1; tauto).
    apply (in_blocks_range _ _ _ (inv_ok _ _ Hinv)) in Hin.
    assert (KM_LOW_CUTOFF <= KM_HIGH_CUTOFF) as Hlh by done.
    pose proof (blk_ok_high _ _ (inv_ok _ _ Hinv) Hlh). lia. }
  pose proof (Hr b). pose proof (Hr (b + SZ_PAGE * count - 1)). unfold SZ_PAGE in *.
  split; [lia|]. split; [lia|]. exists l'. split; [done|]. split; [done|]. split; [done|].
  rewrite (inv_total _ _ H1), (inv_total _ _ Hinv). lia.
Qed.

Lemma page_alloc_exclusive_witness :
  exists s', km_page_alloc 5 km_example = Ret 0x200000 s' /\
    n_pages (st_km s') = 7.
Proof.
  destruct (km_page_alloc_refines 5 _ _ km_example_inv ltac:(lia)) as (s' & E & _).
  exists s'. split; [exact E|].
  destruct (page_alloc_exclusive 5 _ _ s' 0x200000 km_example_inv ltac:(lia) E ltac:(done))
    as (_ & _ & l' & _ & _ & _ & H).
  exact H.
Defined.

(** C10: [km_page_free_multi] on pages that are not free puts them back in order
    of address, merged with the blocks they touch; a list in which no two
    neighbours touch stays so; nothing outside the free memory and the freed
    pages is written. *)
Theorem page_free_merges (b c : Z) (l : list block) (s : kstate) :
  km_inv l s -> KM_LOW_CUTOFF <= b -> 1 <= c -> b + SZ_PAGE * c <= KM_HIGH_CUTOFF ->
  (forall x, b <= x < b + SZ_PAGE * c -> ~ in_blocks l x) ->
  exists s', km_page_free_multi b c s = Ret tt s' /\ km_inv (free_block (b, c) l) s' /\
    (coalesced l -> coalesced (free_block (b, c) l)) /\
    km_frame (fun x => in_blocks l x \/ b <= x < b + SZ_PAGE * c) s s'.
Proof.
  intros Hinv Hlo Hc Hhi Hd.
  destruct (km_page_free_multi_refines b c l s Hinv Hlo Hc Hhi Hd) as (s' & E & H1 & H2).
  exists s'. split; [done|]. split; [done|]. split; [|done]. intros Hco.
  destruct (split_around _ _ _ _ (inv_ok _ _ Hinv) Hlo Hc Hd) as (pre & post & -> & Hpre & Hpost).
  pose proof (inv_ok _ _ Hinv) as [Hok1 _]%blk_ok_app.
  apply (free_block_coalesced KM_LOW_CUTOFF); try done.
  intros d Hdd. destruct post as [|e post]; [done|]. injection Hdd as ->.
  destruct Hpost as (? & _). cbn [fst]. unfold SZ_PAGE in *. lia.
Qed.

Lemma page_free_merges_witness :
  exists s', km_page_free_multi 0x1ff000 1 km_example = Ret tt s' /\
    km_inv [(0x100000, 4); (0x1ff000, 9)] s'.
Proof.
  destruct (page_free_merges 0x1ff000 1 km_example_list km_example km_example_inv)
    as (s' & E & H & _); [done..| |eauto].
  intros x Hx Hin. unfold km_example_list in Hin. rewrite !in_blocks_cons in Hin.
  unfold blk_end, SZ_PAGE in *. cbn in Hin.
  destruct Hin as [Hin|[Hin|Hin]]; [lia..|]. now apply Exists_nil in Hin.
Defined.

(** Allocating pages and giving them back leaves the free list as it was. *)
Theorem page_alloc_free_roundtrip (count a : Z) (l : list block) (s s' : kstate) :
  km_inv l s -> coalesced l -> 1 <= count -> km_page_alloc count s = Ret a s' -> a <> NULL ->
  exists s'', km_page_free_multi a count s' = Ret tt s'' /\ km_inv l s''.
Proof.
  intros Hinv Hco Hc E Ha. pose proof (km_page_alloc_refines count l s Hinv Hc) as H.
  destruct (first_fit count l) as [[b l']|] eqn:Ef; [|rewrite H in E; injection E as <- _; done].
  destruct H as (s1 & E' & H1 & H2). rewrite E in E'. injection E' as -> ->.
  pose proof (inv_ok _ _ Hinv) as Hok.
  destruct (first_fit_region _ _ _ _ _ Hok Hc Ef) as (R1 & R2 & _).
  assert (free_block (b, count) l' = l /\ KM_LOW_CUTOFF <= b /\
          b + SZ_PAGE * count <= KM_HIGH_CUTOFF) as (Hfree & Hlo & Hhi).
  { destruct (first_fit_cases count l) as [[E' _] | (pre & x & n & post & -> & Hpre & Hn & E')];
      rewrite E' in Ef; [done|]. injection Ef as <- <-.
    pose proof (blk_ok_In _ _ (x, n) Hok ltac:(apply elem_of_app; right; left)) as Hin.
    unfold blk_end, SZ_PAGE in Hin. cbn [fst snd] in Hin.
    split; [|unfold SZ_PAGE; lia].
    apply blk_ok_app in Hok as [Hok1 (Hx1 & Hx2 & Hx3 & Hx4)].
    apply coalesced_app in Hco as (_ & Hco2 & Hco3). cbn [head] in Hco3.
    assert (forall d, head (remainder count x n post) = Some d -> x <= fst d) as Hhead.
    { intros d. unfold remainder. destruct (n =? count).
      - destruct post as [|e post]; [done|]. intros [= <-]. destruct Hx4 as (Hy & _).
        unfold blk_end, SZ_PAGE in Hy. cbn in *. lia.
      - intros [= <-]. cbn. unfold SZ_PAGE. lia. }
    rewrite (free_block_split KM_LOW_CUTOFF) by done.
    revert Hco3. unfold place_after. cbn [fst snd].
    destruct (last pre) as [p|]; intros Hco3.
    - destruct (Z.eqb_spec (blk_end p) x) as [Hpx|_]; [exfalso; exact (Hco3 Hpx)|].
      now rewrite join_remainder.
    - now rewrite join_remainder. }
  destruct (km_page_free_multi_refines b count l' s1 H1 Hlo Hc Hhi R2) as (s2 & E2 & H3 & _).
  rewrite Hfree in H3. eauto.
Qed.

Lemma page_alloc_free_roundtrip_witness :
  exists s' s'', km_page_alloc 5 km_example = Ret 0x200000 s' /\
    km_page_free_multi 0x200000 5 s' = Ret tt s'' /\ km_inv km_example_list s''.
Proof.
  destruct (km_page_alloc_refines 5 _ _ km_example_inv ltac:(lia)) as (s' & E & _).
  destruct (page_alloc_free_roundtrip 5 0x200000 _ _ s' km_example_inv) as (s'' & E2 & H);
    [vm_compute; intuition congruence|lia|exact E|done|]. eauto.
Defined.

(** * Initialisation *)

(** The block of a region starts at its base, as the map gives it, or at the cutoff: an
    unaligned base gives an unaligned block (the comment of kmem.c says that the blocks
    are aligned at 4K boundaries). *)
Definition starts_at_base (b : block) (r : region_t) : Prop := fst b = Z.max (rg_base r) KM_LOW_CUTOFF.

Lemma usable_starts r b : usable_block r = Some b -> starts_at_base b r.
Proof. unfold usable_block, starts_at_base. destruct (_ && _); [|done]. cbv zeta. destruct (_ <=? _); [|done]. now intros [= <-]. Qed.

Lemma insert_block_from b l c : c ∈ insert_block b l -> c = b \/ c ∈ l.
Proof.
  induction l as [|d l IH]; cbn [insert_block]; [intros ->%list_elem_of_singleton; now left|].
  destruct (_ <? _); intros [->|Hc]%elem_of_cons; [right; left|destruct (IH Hc); [now left|right; now right]|now left|now right].
Qed.

Lemma added_from rs l b : b ∈ foldl add_region l rs -> b ∈ l \/ exists r, r ∈ rs /\ usable_block r = Some b.
Proof.
  revert l. induction rs as [|r rs IH]; intros l Hb; [now left|]. cbn [foldl] in Hb.
  destruct (IH _ Hb) as [Hl|(r' & Hr & E)]; [|right; exists r'; split; [now right|exact E]].
  unfold add_region in Hl. destruct (usable_block r) as [c|] eqn:Ec; [|now left].
  apply insert_block_from in Hl as [->|Hl]; [right; exists r; split; [left|exact Ec]|now left].
Qed.

(** C11: [km_init] builds the free list from the memory map of the BIOS: it returns, the
    allocator's invariant holds for the list of the usable blocks in the order of their
    addresses, these are exactly the whole pages of the ordinary regions between the
    cutoffs, each block starts at the base of its region or at the cutoff (so it is
    aligned at 4K only when that base is), and no other memory is written. *)
Theorem km_init_builds rs s :
  con_wt (costs (chars " KM")) s -> rs <> [] ->
  s32 (ld32 (st_mem s) MMAP_ADDR) = Z.of_nat (length rs) -> map_at (st_mem s) (MMAP_ADDR + 4) rs -> map_ok rs ->
  MMAP_ADDR + 4 + SZ_REGION * Z.of_nat (length rs) <= KM_LOW_CUTOFF ->
  exists s', km_init s = Ret tt s' /\ km_inv (free_list_of rs) s' /\
    (forall x, in_blocks (free_list_of rs) x <-> Exists (fun r => region_block r x) rs) /\
    (forall b, b ∈ free_list_of rs -> exists r, r ∈ rs /\ usable_block r = Some b /\ starts_at_base b r) /\
    agree (fun x => ~ in_blocks (free_list_of rs) x) (st_mem s) (st_mem s').
Proof.
  intros Hw Hne En Hm Hok Hlow.
  destruct (ends_puts 0 (chars " KM") s ltac:(lia)) as ([] & s1 & E1 & _); [now rewrite Z.add_0_r|].
  destruct (km_init_spec rs s s1 E1 En Hne Hm Hok Hlow) as (m & k & E & Hinv & Hag & _).
  eexists. split; [exact E|]. split; [exact Hinv|]. split; [|split; [|exact Hag]].
  2: { intros b [Hb|(r & Hr & Eb)]%added_from; [now apply elem_of_nil in Hb|]. exists r. auto using usable_starts. }
  intros x. unfold free_list_of. rewrite in_added. split; [intros [?|Hx]; [done|now apply Exists_nil in Hx]|auto].
Qed.

(** A machine of 128 MB: low memory, the main memory up to a reserved region. *)
Definition example_map : list region_t :=
  [Region 0 0x9fc00 1 1; Region 0x100000 0x7ee0123 1 1; Region 0x7fe0000 0x20000 2 1].

Definition put_region (a : Z) (r : region_t) (m : memory) : memory :=
  st32 (st32 (st32 (st32 m a (rg_base r)) (a + 8) (rg_length r)) (a + 16) (rg_type r)) (a + 20) (rg_acpi r).

Fixpoint put_map (a : Z) (rs : list region_t) (m : memory) : memory :=
  match rs with [] => m | r :: rs => put_map (a + SZ_REGION) rs (put_region a r m) end.

Definition map_memory (m : memory) : memory := st32 (put_map (MMAP_ADDR + 4) example_map m) MMAP_ADDR 3.

Lemma example_map_ok : map_ok example_map.
Proof.
  assert (omap usable_block example_map = [(0x100000, 32480)]) as E by (vm_compute; reflexivity).
  split; [repeat constructor; cbn; lia|]. rewrite E. repeat constructor.
Qed.

(** An unaligned base. *)
Example unaligned_base : free_list_of [Region 0x100800 0x10000 1 1] = [(0x100800, 16)].
Proof. reflexivity. Qed.

Lemma km_init_builds_witness : exists s',
  km_init (up_mem map_memory console_example) = Ret tt s' /\ km_inv [(0x100000, 32480)] s'.
Proof.
  destruct (km_init_builds example_map (up_mem map_memory console_example)) as (s' & E & H & _).
  - apply con_wt_mem. eapply (con_wt_less 1024); [vm_compute; congruence|exact console_example_wt].
  - discriminate.
  - vm_compute; reflexivity.
  - vm_compute; intuition congruence.
  - exact example_map_ok.
  - vm_compute; congruence.
  - exists s'. split; [exact E|]. exact H.
Defined.
