(* ===== verification/Queues.v ===== *)
(** kernel/queues.c: the generic self-ordering queues.  The queue structures are
    a static array; the nodes live in pages of the flat memory ([qnode_t]: data
    word, next pointer) and are recycled through a free list. *)

From S2P Require Import Prelude Memory State Lib Sio Cio Kmem.

Open Scope kernel_scope.

Definition SZ_QNODE : Z := 8.
Definition QNODES_PER_PAGE : nat := 512.      (* SZ_PAGE / sizeof(qnode_t) *)
Definition N_QUEUES : Z := 8.
Definition QUE_FREE : Z := 1.
Definition QUE_INUSE : Z := 0.

(** What a queue needs from the module that owns the values it holds: how a
    comparison function, given by its address, compares two data words. *)
Class Comparators := call_compare : Z -> Z -> Z -> K Z.

(** [qn->data] and [qn->next] *)
Definition qn_data (q : Z) : K Z := load32 q.
Definition qn_next (q : Z) : K Z := load32 (q + 4).
Definition set_qn_data (q v : Z) : K unit := store32 q v.
Definition set_qn_next (q v : Z) : K unit := store32 (q + 4) v.

(** * Queue nodes *)

Definition qnode_free (qn : Z) : K unit :=
  assert "qnode_free: qn" (negb (qn =? NULL)) ;;
  f <- qs free_qnodes ;;
  set_qn_next qn f ;;
  qs_set (set_free_qnodes qn).

Definition qnode_add_page : K unit :=
  block <- km_page_alloc 1 ;;
  assert "qnode_add_page: block" (negb (block =? NULL)) ;;
  for_ QNODES_PER_PAGE (fun i => qnode_free (u32 (block + SZ_QNODE * i))).

Definition qnode_alloc : K Z :=
  f <- qs free_qnodes ;;
  when (f =? NULL) qnode_add_page ;;
  tmp <- qs free_qnodes ;;
  if tmp =? NULL then ret NULL
  else
    nx <- qn_next tmp ;;
    qs_set (set_free_qnodes nx) ;;
    memclr tmp SZ_QNODE ;;
    ret tmp.

(** * Queue handles *)

Section Queues.
Context {L : Layout} {C : Comparators}.

Definition que_addr (i : Z) : Z := queues_addr + 16 * i.

Definition que_ix (q : Z) : Z :=
  let ix := s32 (q - queues_addr) / 16 in
  if (ix <? 0) || (N_QUEUES <=? ix) then -1 else ix.

(** [*q]: the structure a queue handle designates. *)
Definition que_slot (q : Z) : option Z :=
  let d := q - queues_addr in
  if (0 <=? d) && (d <? 16 * N_QUEUES) && (d mod 16 =? 0) then Some (d / 16) else None.

Definition get_que (q : Z) : K queue_s := fun s =>
  match que_slot q with
  | Some i => aget "queue access" (queues (st_qs s)) i s
  | None => Undef "dereference of a bad queue pointer" s
  end.

Definition que_set (q : Z) (f : queue_s -> queue_s) : K unit := fun s =>
  match que_slot q with
  | Some i =>
      (x <- aget "queue access" (queues (st_qs s)) i ;;
       qs_set (fun r => set_queues (aset (queues r) i (f x)) r)) s
  | None => Undef "dereference of a bad queue pointer" s
  end.

Definition que_get {A} (q : Z) (f : queue_s -> A) : K A :=
  x <- get_que q ;; ret (f x).

(** * Public functions *)

Definition que_dump (msg : option (list Z)) (q : Z) : K unit :=
  cio_printf (chars "%s: ") [AS (default (chars "???") msg)] ;;
  if q =? NULL then cio_puts (chars "NULL???" ++ [10])%list
  else
    x <- get_que q ;;
    cio_printf (chars "head %08x tail %08x len %d")
      [AI (q_head x); AI (q_tail x); AI (q_count x)] ;;
    (if negb (q_compare x =? NULL) then
       cio_printf (chars " compare %08x" ++ [10])%list [AI (q_compare x)]
     else cio_puts (chars " FIFO" ++ [10])%list) ;;
    if 0 <? q_count x then
      cio_puts (chars " data: ") ;;
      tmp <- loop (fun '(i, tmp) =>
        if (i <? 5) && negb (tmp =? NULL) then
          d <- qn_data tmp ;;
          cio_printf (chars " [%08x]") [AI d] ;;
          nx <- qn_next tmp ;;
          ret (inl (i + 1, nx))
        else ret (inr tmp)) (0, q_head x) ;;
      when (negb (tmp =? NULL)) (cio_puts (chars " ...")) ;;
      cio_putchar 10
    else ret tt.

(** [memset( queue_free, sizeof(queue_free), QUE_FREE )] and
    [memclr( queues, sizeof(queues) )] on the static arrays. *)
Definition que_init : K unit :=
  cio_puts (chars " Que") ;;
  qs_set (fun r => set_queues (map (fun _ => queue0) (queues r)) r) ;;
  qs_set (fun r => set_queue_free (map (fun _ => QUE_FREE) (queue_free r)) r) ;;
  qs_set (set_free_qnodes NULL) ;;
  qnode_add_page.

Definition que_alloc (compare : Z) : K Z :=
  i <- loop (fun i =>
    if i <? N_QUEUES then
      fl <- qs queue_free ;;
      f <- aget "queue_free" fl i ;;
      if truth f then ret (inr i) else ret (inl (i + 1))
    else ret (inr i)) 0 ;;
  if N_QUEUES <=? i then ret NULL
  else
    let q := que_addr i in
    qs_set (fun r => set_queue_free (aset (queue_free r) i QUE_INUSE) r) ;;
    que_set q (fun x => set_q_head NULL (set_q_tail NULL x)) ;;
    que_set q (set_q_count 0) ;;
    que_set q (set_q_compare compare) ;;
    ret q.

Definition que_free (q : Z) : K unit :=
  let ix := que_ix q in
  when (ix <? 0) (panics "que_free, bad queue pointer") ;;
  fl <- qs queue_free ;;
  f <- aget "queue_free" fl ix ;;
  when (truth f) (panics "que_free of already-free queue") ;;
  qs_set (fun r => set_queue_free (aset (queue_free r) ix QUE_FREE) r) ;;
  que_set q (fun x => set_q_head NULL (set_q_tail NULL x)) ;;
  que_set q (set_q_compare NULL) ;;
  que_set q (set_q_count 0).

Definition que_length (q : Z) : K Z :=
  let ix := que_ix q in
  when (ix <? 0) (panics "que_length, bad que pointer") ;;
  fl <- qs queue_free ;;
  f <- aget "queue_free" fl ix ;;
  when (truth f) (panics "que_length, unallocated queue") ;;
  n <- que_get q q_count ;;
  ret (s32 n).

Definition que_insert (q data : Z) : K Z :=
  assert "que_insert: que_ix(q)" (0 <=? que_ix q) ;;
  qn <- qnode_alloc ;;
  if qn =? NULL then ret E_NO_QNODES
  else
    set_qn_data qn data ;;
    x <- get_que q ;;
    if q_count x =? 0 then
      assert "que_insert: empty" ((q_head x =? NULL) && (q_tail x =? NULL)) ;;
      que_set q (fun x => set_q_head qn (set_q_tail qn x)) ;;
      que_set q (set_q_count 1) ;;
      ret E_SUCCESS
    else
      assert "que_insert: not empty"
        (negb (q_head x =? NULL) && negb (q_tail x =? NULL)) ;;
      if q_compare x =? NULL then
        set_qn_next (q_tail x) qn ;;
        que_set q (set_q_tail qn) ;;
        que_set q (fun x => set_q_count (u32 (q_count x + 1)) x) ;;
        ret E_SUCCESS
      else
        let fcn := q_compare x in
        pc <- loop (fun '(prev, curr) =>
          if negb (curr =? NULL) then
            d <- qn_data curr ;;
            c <- call_compare fcn data d ;;
            if 0 <=? c then nx <- qn_next curr ;; ret (inl (curr, nx))
            else ret (inr (prev, curr))
          else ret (inr (prev, curr))) (NULL, q_head x) ;;
        let '(prev, curr) := pc in
        set_qn_next qn curr ;;
        (if prev =? NULL then que_set q (set_q_head qn)
         else
           set_qn_next prev qn ;;
           when (curr =? NULL) (que_set q (set_q_tail qn))) ;;
        que_set q (fun x => set_q_count (u32 (q_count x + 1)) x) ;;
        ret E_SUCCESS.

(** The data result is returned through a pointer: [data] tells whether the
    caller supplied one (not NULL); [Some v] is the value stored through it,
    [None] leaves its target untouched. *)
Definition que_peek (q : Z) (data : bool) : K (Z * option Z) :=
  assert "que_peek: q" (negb (q =? NULL)) ;;
  if negb data then ret (E_BAD_PARAM, None)
  else
  x <- get_que q ;;
  if q_count x <? 1 then ret (E_EMPTY, None)
  else
    assert "que_peek: pointers" (negb (q_head x =? NULL) && negb (q_tail x =? NULL)) ;;
    d <- qn_data (q_head x) ;;
    ret (E_SUCCESS, Some d).

Definition que_remove (q : Z) (data : bool) : K (Z * option Z) :=
  assert "que_remove: q" (negb (q =? NULL)) ;;
  if negb data then ret (E_BAD_PARAM, None)
  else
  x <- get_que q ;;
  if q_count x <? 1 then ret (E_EMPTY, None)
  else
    assert "que_remove: pointers" (negb (q_head x =? NULL) && negb (q_tail x =? NULL)) ;;
    let qn := q_head x in
    d <- qn_data qn ;;
    nx <- qn_next qn ;;
    que_set q (set_q_head nx) ;;
    when (nx =? NULL) (que_set q (set_q_tail NULL)) ;;
    que_set q (fun x => set_q_count (u32 (q_count x - 1)) x) ;;
    qnode_free qn ;;
    ret (E_SUCCESS, Some d).

Definition que_remove_by (q data : Z) : K Z :=
  assert "que_remove_by: q" (negb (q =? NULL)) ;;
  if data =? NULL then ret E_BAD_PARAM
  else
    x <- get_que q ;;
    if q_count x <? 1 then ret E_EMPTY
    else
      assert "que_remove_by: pointers"
        (negb (q_head x =? NULL) && negb (q_tail x =? NULL)) ;;
      pc <- loop (fun '(prev, curr) =>
        if negb (curr =? NULL) then
          d <- qn_data curr ;;
          if negb (data =? d) then nx <- qn_next curr ;; ret (inl (curr, nx))
          else ret (inr (prev, curr))
        else ret (inr (prev, curr))) (NULL, q_head x) ;;
      let '(prev, curr) := pc in
      if curr =? NULL then ret E_NOT_FOUND
      else
        cnx <- qn_next curr ;;
        (if prev =? NULL then que_set q (set_q_head cnx)
         else set_qn_next prev cnx) ;;
        cnx <- qn_next curr ;;
        when (cnx =? NULL) (que_set q (set_q_tail prev)) ;;
        que_set q (fun x => set_q_count (u32 (q_count x - 1)) x) ;;
        qnode_free curr ;;
        ret E_SUCCESS.
End Queues.
