(* ===== verification/QueuesInv.v ===== *)
(** The representation of the queues: chains of nodes in memory, the free list,
    and their separation; how the primitive accesses of queues.c act on it. *)

From S2P Require Import Prelude Memory State Lib LibMem Sio Cio Kmem Queues.

Open Scope kernel_scope.

(** A node and the data it carries; a queue's comparison function and nodes. *)
Notation node := (Z * Z)%type.
Notation aqueue := (Z * list node)%type.

Fixpoint qchain (m : memory) (p : Z) (l : list node) : Prop :=
  match l with
  | [] => p = NULL
  | (a, d) :: l => p = a /\ ld32 m a = d /\ qchain m (ld32 m (a + 4)) l
  end.

Fixpoint fchain (m : memory) (p : Z) (l : list Z) : Prop :=
  match l with
  | [] => p = NULL
  | a :: l => p = a /\ fchain m (ld32 m (a + 4)) l
  end.

Definition tail_of (l : list node) : Z := from_option fst NULL (last l).
Definition head_of (l : list node) : Z := from_option fst NULL (head l).

Record que_rep (m : memory) (q : queue_s) (aq : aqueue) : Prop := QueRep {
  rep_compare : q_compare q = fst aq;
  rep_count : q_count q = Z.of_nat (length (snd aq));
  rep_chain : qchain m (q_head q) (snd aq);
  rep_tail : q_tail q = tail_of (snd aq)
}.

Definition nodes_of (l : list node) : list Z := map fst l.
Definition all_nodes (Q : list aqueue) : list Z := concat (map (fun aq => nodes_of (snd aq)) Q).

(** Nodes do not overlap. *)
Definition apart (a b : Z) : Prop := a + 8 <= b \/ b + 8 <= a.
Definition separated (ns : list Z) : Prop :=
  NoDup ns /\ forall a b, a ∈ ns -> b ∈ ns -> a <> b -> apart a b.

(** A node is a proper address inside the region [H] that belongs to the queue
    module. *)
Definition node_ok (H : Z -> Prop) (a : Z) : Prop :=
  0 < a /\ a + 8 < 2 ^ 32 /\ forall i, 0 <= i < 8 -> H (a + i).

(** [A] are the nodes an operation holds while it runs, [F] the free ones, [Q]
    the eight queues. *)
Record qs_inv (H : Z -> Prop) (A F : list Z) (Q : list aqueue) (s : kstate) : Prop := QsInv {
  qi_queues : length Q = 8%nat;
  qi_flags : length (queue_free (st_qs s)) = 8%nat;
  qi_free : fchain (st_mem s) (free_qnodes (st_qs s)) F;
  qi_reps : Forall2 (que_rep (st_mem s)) (queues (st_qs s)) Q;
  qi_sep : separated (A ++ F ++ all_nodes Q);
  qi_ok : Forall (node_ok H) (A ++ F ++ all_nodes Q)
}.

(** What the operations change: the queue module's variables, but not its
    allocation flags, and the memory of its region. *)
Definition que_frame (H : Z -> Prop) (s s' : kstate) : Prop :=
  exists m q, s' = up_mem (fun _ => m) (up_qs (fun _ => q) s) /\
    agree (fun x => ~ H x) (st_mem s) m /\ queue_free q = queue_free (st_qs s).

Lemma que_frame_refl H s : que_frame H s s.
Proof. exists (st_mem s), (st_qs s). split; [now destruct s|]. split; reflexivity. Qed.

Lemma que_frame_trans H s1 s2 s3 : que_frame H s1 s2 -> que_frame H s2 s3 -> que_frame H s1 s3.
Proof.
  intros (m & q & -> & Hm & Hq) (m' & q' & -> & Hm' & Hq').
  exists m', q'. split; [done|]. split; [|etransitivity; [exact Hq'|exact Hq]].
  etransitivity; [exact Hm|exact Hm'].
Qed.

Lemma que_frame_intro H s m q :
  agree (fun x => ~ H x) (st_mem s) m -> queue_free q = queue_free (st_qs s) ->
  que_frame H s (up_mem (fun _ => m) (up_qs (fun _ => q) s)).
Proof. intros. exists m, q. auto. Qed.

Lemma que_frame_others H s s' :
  que_frame H s s' ->
  st_km s' = st_km s /\ st_stk s' = st_stk s /\ st_ps s' = st_ps s /\ st_clk s' = st_clk s /\
  st_sio s' = st_sio s /\ st_cio s' = st_cio s /\ st_krn s' = st_krn s /\ st_dev s' = st_dev s.
Proof. intros (m & q & -> & _). ksimpl. repeat split. Qed.

(** * Chains and memory *)

(** The addresses outside the nodes [D]. *)
Definition away (D : list Z) (x : Z) : Prop := forall a, a ∈ D -> outside a 8 x.

Lemma away_app D1 D2 x : away (D1 ++ D2) x <-> away D1 x /\ away D2 x.
Proof.
  unfold away. split.
  - intros H. split; intros a Ha; apply H, elem_of_app; auto.
  - intros [H1 H2] a [Ha|Ha]%elem_of_app; auto.
Qed.

Lemma ld32_away D m m' b :
  agree (away D) m m' -> (forall a, a ∈ D -> apart a b) ->
  ld32 m' b = ld32 m b /\ ld32 m' (b + 4) = ld32 m (b + 4).
Proof.
  intros Hag Hap.
  split; apply ld32_agree; intros i Hi; apply Hag; intros a Ha; apply Hap in Ha;
    unfold apart, outside in *; lia.
Qed.

Lemma agree_st32_away D a m v i :
  a ∈ D -> 0 <= i <= 4 -> agree (away D) m (st32 m (a + i) v).
Proof.
  intros Ha Hi. eapply agree_weaken; [|apply agree_st32]. intros x Hx. apply Hx in Ha.
  unfold outside in *. lia.
Qed.

Lemma qchain_away D m m' p l :
  agree (away D) m m' -> (forall a b, a ∈ D -> b ∈ nodes_of l -> apart a b) ->
  qchain m p l -> qchain m' p l.
Proof.
  intros Hag. revert p; induction l as [|[b d] l IH]; intros p Hap; [done|].
  cbn [qchain nodes_of map fst] in *. intros (-> & Hd & Hc).
  destruct (ld32_away _ _ _ b Hag) as [E1 E2]; [intros a Ha; apply Hap; [done|left]|].
  rewrite E1, E2. split; [done|]. split; [done|]. apply IH; [|done].
  intros a c Ha Hc'. apply Hap; [done|now right].
Qed.

Lemma fchain_away D m m' p l :
  agree (away D) m m' -> (forall a b, a ∈ D -> b ∈ l -> apart a b) -> fchain m p l -> fchain m' p l.
Proof.
  intros Hag. revert p; induction l as [|b l IH]; intros p Hap; [done|].
  cbn [fchain]. intros (-> & Hc).
  destruct (ld32_away _ _ _ b Hag) as [E1 E2]; [intros a Ha; apply Hap; [done|left]|].
  rewrite E2. split; [done|]. apply IH; [|done]. intros a c Ha Hc'. apply Hap; [done|now right].
Qed.

Lemma que_rep_away D m m' q aq :
  agree (away D) m m' -> (forall a b, a ∈ D -> b ∈ nodes_of (snd aq) -> apart a b) ->
  que_rep m q aq -> que_rep m' q aq.
Proof. intros Hag Hap [H1 H2 H3 H4]. split; try done. now apply (qchain_away D m m'). Qed.

Lemma qchain_app_inv m p l1 l2 : qchain m p (l1 ++ l2) -> exists q, qchain m q l2.
Proof.
  revert p; induction l1 as [|[a d] l1 IH]; intros p; [eauto|].
  cbn [app qchain]. intros (_ & _ & H). eapply IH, H.
Qed.

Lemma qchain_head m p l : qchain m p l -> p = head_of l.
Proof. destruct l as [|[a d] l]; cbn; tauto. Qed.

(** Replacing what follows the nodes of a prefix. *)
Lemma qchain_relink m p pre b d old l v :
  qchain m p (pre ++ (b, d) :: old) -> separated (nodes_of (pre ++ [(b, d)])) ->
  0 <= v < 2 ^ 32 -> qchain (st32 m (b + 4) v) v l ->
  qchain (st32 m (b + 4) v) p (pre ++ (b, d) :: l).
Proof.
  intros Hc [Hnd Hap] Hv Hl. revert p Hc Hnd Hap.
  induction pre as [|[a e] pre IH]; intros p Hc Hnd Hap; cbn [app qchain] in *.
  - destruct Hc as (-> & Hd & _). rewrite ld32_st32_ne, ld32_st32_eq by lia. done.
  - destruct Hc as (-> & Hd & Hc). cbn [nodes_of map fst] in *.
    apply NoDup_cons in Hnd as [Hni Hnd].
    assert (b ∈ nodes_of (pre ++ [(b, d)])) as Hb.
    { unfold nodes_of. rewrite map_app. apply elem_of_app. right. left. }
    assert (apart a b) as Hab.
    { apply Hap; [left|now right|]. intros ->. apply Hni, Hb. }
    unfold apart in Hab. rewrite !ld32_st32_ne by lia. split; [done|]. split; [done|].
    apply IH; [done|done|]. intros x y Hx Hy. apply Hap; now right.
Qed.

(** * Separation *)

Lemma separated_perm l l' : l ≡ₚ l' -> separated l -> separated l'.
Proof.
  intros Hp [Hnd Hap]. split; [now rewrite <- Hp|].
  intros a b Ha Hb. apply Hap; now rewrite Hp.
Qed.

Lemma separated_app l1 l2 : separated (l1 ++ l2) -> separated l1 /\ separated l2.
Proof.
  intros [Hnd Hap]. apply NoDup_app in Hnd as (H1 & H2 & H3).
  repeat split; [done| |done|]; intros a b Ha Hb; apply Hap; apply elem_of_app; auto.
Qed.

Lemma separated_cons a l : separated (a :: l) -> (forall b, b ∈ l -> apart a b) /\ separated l.
Proof.
  intros [[Hni Hnd]%NoDup_cons Hap]. repeat split; [|done|].
  - intros b Hb. apply Hap; [left|now right|]. intros ->. done.
  - intros x y Hx Hy. apply Hap; now right.
Qed.

#[export] Instance all_nodes_proper : Proper ((≡ₚ) ==> (≡ₚ)) all_nodes.
Proof.
  intros Q Q' HQ. unfold all_nodes. induction HQ as [|x Q Q' _ IH|x y Q|Q1 Q2 Q3 _ IH1 _ IH2].
  - done.
  - cbn. now rewrite IH.
  - cbn. rewrite !app_assoc. now rewrite (Permutation_app_comm (nodes_of (snd y))).
  - now rewrite IH1.
Qed.

Lemma all_nodes_insert Q i aq aq' :
  Q !! i = Some aq ->
  exists rest, all_nodes Q ≡ₚ nodes_of (snd aq) ++ rest /\
    all_nodes (<[i := aq']> Q) ≡ₚ nodes_of (snd aq') ++ rest.
Proof.
  intros Hi. exists (all_nodes (take i Q ++ drop (S i) Q)).
  rewrite insert_take_drop by (eapply lookup_lt_Some, Hi).
  rewrite <- (take_drop_middle Q i aq Hi) at 1.
  split; rewrite <- Permutation_middle; reflexivity.
Qed.

(** * Accesses through queue handles *)

Section Access.
Context {L : Layout}.

Lemma que_slot_addr i : 0 <= i < 8 -> que_slot (que_addr i) = Some i.
Proof.
  intros Hi. unfold que_slot, que_addr, N_QUEUES.
  replace (queues_addr + 16 * i - queues_addr) with (i * 16) by lia.
  rewrite Z.mod_mul, Z.div_mul by lia.
  destruct (Z.leb_spec 0 (i * 16)); [|lia].
  destruct (Z.ltb_spec (i * 16) (16 * 8)); [reflexivity|lia].
Qed.

Lemma que_ix_addr i : 0 <= i < 8 -> que_ix (que_addr i) = i.
Proof.
  intros Hi. unfold que_ix, que_addr, N_QUEUES.
  replace (queues_addr + 16 * i - queues_addr) with (i * 16) by lia.
  rewrite s32_small, Z.div_mul by lia.
  destruct (Z.ltb_spec i 0); [lia|]. destruct (Z.leb_spec 8 i); [lia|]. reflexivity.
Qed.

Lemma que_addr_nonnull i : 0 <= i -> que_addr i <> NULL.
Proof. unfold que_addr, NULL. pose proof layout_queues. lia. Qed.

(** The state in which memory is [m] and queue [i] is [q]; the primitive
    accesses move between such states. *)
Definition qstate (s : kstate) (i : nat) (m : memory) (q : queue_s) : kstate :=
  up_mem (fun _ => m) (up_qs (fun r => set_queues (<[i := q]> (queues r)) r) s).

Lemma qstate_id s i q : queues (st_qs s) !! i = Some q -> s = qstate s i (st_mem s) q.
Proof.
  destruct s as [m k [fq qq qf] t p c x o n d]. intros H.
  unfold qstate, up_mem, up_qs, set_queues. ksimpl in H. ksimpl. now rewrite list_insert_id.
Qed.

Lemma qstate_queue s i m q q0 :
  queues (st_qs s) !! i = Some q0 -> queues (st_qs (qstate s i m q)) !! i = Some q.
Proof.
  intros H. unfold qstate. ksimpl. apply list_lookup_insert_eq. eapply lookup_lt_Some, H.
Qed.

Lemma qstate_twice s i m q m' q' : qstate (qstate s i m q) i m' q' = qstate s i m' q'.
Proof.
  destruct s as [m0 k [fq qq qf] t p c x o n d].
  unfold qstate, up_mem, up_qs, set_queues. ksimpl. now rewrite list_insert_insert_eq.
Qed.

Lemma qstate_load s i m q a : load32 a (qstate s i m q) = Ret (ld32 m a) (qstate s i m q).
Proof. reflexivity. Qed.

Lemma qstate_store s i m q a v :
  store32 a v (qstate s i m q) = Ret tt (qstate s i (st32 m a v) q).
Proof. reflexivity. Qed.

Lemma get_que_ok (i : nat) q s :
  (i < 8)%nat -> queues (st_qs s) !! i = Some q -> get_que (que_addr (Z.of_nat i)) s = Ret q s.
Proof.
  intros Hi H. unfold get_que. rewrite que_slot_addr by lia.
  apply aget_ok; [lia|]. now rewrite Nat2Z.id.
Qed.

Lemma qstate_get s i m q q0 :
  (i < 8)%nat -> queues (st_qs s) !! i = Some q0 ->
  get_que (que_addr (Z.of_nat i)) (qstate s i m q) = Ret q (qstate s i m q).
Proof. intros Hi H. apply get_que_ok; [done|]. eapply qstate_queue, H. Qed.

Lemma qstate_set s i m q q0 f :
  (i < 8)%nat -> queues (st_qs s) !! i = Some q0 ->
  que_set (que_addr (Z.of_nat i)) f (qstate s i m q) = Ret tt (qstate s i m (f q)).
Proof.
  intros Hi H. unfold que_set. rewrite que_slot_addr by lia.
  erewrite bind_Ret; [|apply aget_ok; [lia|rewrite Nat2Z.id; eapply qstate_queue, H]].
  rewrite <- (qstate_twice s i m q m (f q)).
  unfold qs_set, modify, aset, qstate. rewrite Nat2Z.id.
  destruct s as [m0 k [fq qq qf] t p c x o n d]. reflexivity.
Qed.

End Access.

(** * The invariant under the primitive steps *)

Lemma qs_inv_lookup H A F Q s i aq :
  qs_inv H A F Q s -> Q !! i = Some aq ->
  exists q, queues (st_qs s) !! i = Some q /\ que_rep (st_mem s) q aq /\ (i < 8)%nat.
Proof.
  intros [H1 H2 H3 H4 H5 H6] Hi.
  destruct (Forall2_lookup_r _ _ _ _ _ H4 Hi) as (q & Hq & Hrep).
  exists q. repeat split; try apply Hrep; [done|]. rewrite <- H1. eapply lookup_lt_Some, Hi.
Qed.

Lemma all_nodes_elem Q i aq b : Q !! i = Some aq -> b ∈ nodes_of (snd aq) -> b ∈ all_nodes Q.
Proof.
  intros Hi Hb. destruct (all_nodes_insert Q i aq (0, []) Hi) as (rest & E1 & _).
  rewrite E1. apply elem_of_app. now left.
Qed.

Lemma separated_apart l1 l2 a b : separated (l1 ++ l2) -> a ∈ l1 -> b ∈ l2 -> apart a b.
Proof.
  intros [Hnd Hap] Ha Hb. apply Hap; [apply elem_of_app; now left|apply elem_of_app; now right|].
  intros ->. apply NoDup_app in Hnd as (_ & Hd & _). eapply Hd; eassumption.
Qed.

(** What an operation on queue [i] may write: the nodes it holds and those of
    the queue.  They are apart from the free nodes and from the other queues. *)
Lemma qs_inv_rearrange A F (Q : list aqueue) i (aq aq' : aqueue) A' rest :
  all_nodes Q ≡ₚ nodes_of (snd aq) ++ rest ->
  all_nodes (<[i := aq']> Q) ≡ₚ nodes_of (snd aq') ++ rest ->
  A' ++ nodes_of (snd aq') ≡ₚ A ++ nodes_of (snd aq) ->
  A' ++ F ++ all_nodes (<[i := aq']> Q) ≡ₚ (A ++ nodes_of (snd aq)) ++ F ++ rest /\
  A ++ F ++ all_nodes Q ≡ₚ (A ++ nodes_of (snd aq)) ++ F ++ rest.
Proof.
  intros E1 E2 E. rewrite E1, E2. split.
  - rewrite <- E, <- !app_assoc. apply Permutation_app_head, Permutation_app_swap_app.
  - rewrite <- !app_assoc. apply Permutation_app_head, Permutation_app_swap_app.
Qed.

Lemma other_in_rest (Q : list aqueue) i j (aq aq' : aqueue) a rest :
  Q !! i = Some aq -> all_nodes (<[i := (0, [])]> Q) ≡ₚ rest -> i <> j -> Q !! j = Some aq' ->
  a ∈ nodes_of (snd aq') -> a ∈ rest.
Proof.
  intros Hi E Hij Hj Ha. rewrite <- E. apply (all_nodes_elem _ j aq'); [|exact Ha].
  now rewrite list_lookup_insert_ne.
Qed.

Lemma qs_inv_update H A A' F Q s i aq aq' m q :
  qs_inv H A F Q s -> Q !! i = Some aq ->
  agree (away (A ++ nodes_of (snd aq))) (st_mem s) m -> que_rep m q aq' ->
  A' ++ nodes_of (snd aq') ≡ₚ A ++ nodes_of (snd aq) ->
  qs_inv H A' F (<[i := aq']> Q) (qstate s i m q).
Proof.
  intros [H1 H2 H3 H4 H5 H6] Hi Hag Hrep Hp.
  destruct (all_nodes_insert Q i aq aq' Hi) as (rest & E1 & E2).
  destruct (qs_inv_rearrange A F Q i aq aq' A' rest E1 E2 Hp) as [P1 P2].
  pose proof (separated_perm _ _ P2 H5) as Hs.
  assert (forall a b, a ∈ A ++ nodes_of (snd aq) -> b ∈ F ++ rest -> apart a b) as Hap
    by (intros a b; apply separated_apart, Hs).
  unfold qstate. split; ksimpl.
  - now rewrite length_insert.
  - done.
  - eapply fchain_away; [exact Hag| |done]. intros a b Ha Hb. apply Hap; [done|].
    apply elem_of_app. now left.
  - apply Forall2_same_length_lookup_2.
    { rewrite !length_insert. eapply Forall2_length, H4. }
    intros j qj aqj Hq Hj. destruct (decide (i = j)) as [<-|Hij].
    + apply lookup_lt_Some in Hi as Hlt.
      rewrite list_lookup_insert_eq in Hq by (now rewrite (Forall2_length _ _ _ H4)).
      rewrite list_lookup_insert_eq in Hj by done. congruence.
    + rewrite list_lookup_insert_ne in Hq by done. rewrite list_lookup_insert_ne in Hj by done.
      eapply que_rep_away; [exact Hag| |eapply Forall2_lookup_lr; eassumption].
      intros a b Ha Hb. apply Hap; [done|]. apply elem_of_app. right.
      eapply (other_in_rest Q i j); [done| |done|exact Hj|exact Hb].
      destruct (all_nodes_insert Q i aq (0, []) Hi) as (r' & F1 & F2). rewrite F2. cbn.
      rewrite E1 in F1. now apply Permutation_app_inv_l in F1.
  - eapply separated_perm; [symmetry; exact P1|exact Hs].
  - rewrite P1, <- P2. done.
Qed.
