(* ===== verification/QueuesSpec.v ===== *)
(** kernel/queues.c: the operations on queue nodes and queue handles refine
    operations on lists, FIFO or ordered by a key. *)

From Stdlib Require Import Sorting.Sorted.
From S2P Require Import Prelude Memory State Lib LibMem Sio Cio Kmem Queues QueuesInv.

Open Scope kernel_scope.

(** * Nodes *)

Lemma node_ok_bounds H a : node_ok H a -> 0 < a /\ a + 8 < 2 ^ 32.
Proof. intros (? & ? & _). done. Qed.

Lemma agree_away_outside H D m m' :
  Forall (node_ok H) D -> agree (away D) m m' -> agree (fun x => ~ H x) m m'.
Proof.
  intros HD. apply agree_weaken. intros x Hx a Ha. rewrite Forall_forall in HD.
  destruct (HD a Ha) as (_ & _ & Hi). unfold outside.
  destruct (Z_lt_le_dec x a); [now left|]. destruct (Z_lt_le_dec x (a + 8)); [|now right].
  exfalso. apply Hx. replace x with (a + (x - a)) by lia. apply Hi. lia.
Qed.

Lemma fchain_word H m p F : Forall (node_ok H) F -> fchain m p F -> 0 <= p < 2 ^ 32.
Proof.
  destruct F as [|a F]; cbn [fchain]; [intros _ ->; unfold NULL; lia|].
  intros [Ha _]%Forall_cons [-> _]. apply node_ok_bounds in Ha. lia.
Qed.

(** The invariant when only the held nodes are written. *)
Lemma qs_inv_held H A F Q s m :
  qs_inv H A F Q s -> agree (away A) (st_mem s) m -> qs_inv H A F Q (up_mem (fun _ => m) s).
Proof.
  intros [H1 H2 H3 H4 H5 H6] Hag.
  assert (forall a b, a ∈ A -> b ∈ F ++ all_nodes Q -> apart a b) as Hap
    by (intros a b; apply separated_apart, H5).
  split; ksimpl; try done.
  - eapply fchain_away; [exact Hag| |done]. intros a b Ha Hb. apply Hap; [done|].
    apply elem_of_app. now left.
  - apply Forall2_same_length_lookup_2; [eapply Forall2_length, H4|].
    intros j q aq Hq Hj. eapply que_rep_away; [exact Hag| |eapply Forall2_lookup_lr; eassumption].
    intros a b Ha Hb. apply Hap; [done|]. apply elem_of_app. right.
    eapply all_nodes_elem; eassumption.
Qed.

(** [qnode_free] puts a held node at the head of the free list. *)
Lemma qnode_free_spec H a A F Q s :
  qs_inv H (a :: A) F Q s ->
  exists s', qnode_free a s = Ret tt s' /\ qs_inv H A (a :: F) Q s' /\ que_frame H s s' /\
    queues (st_qs s') = queues (st_qs s).
Proof.
  intros Hinv. pose proof Hinv as [H1 H2 H3 H4 H5 H6].
  set (m := st32 (st_mem s) (a + 4) (free_qnodes (st_qs s))).
  assert (agree (away [a]) (st_mem s) m) as Hag
    by (apply agree_st32_away; [left|lia]).
  assert (a ∈ a :: A ++ F ++ all_nodes Q) as Hin by left.
  pose proof (proj1 (Forall_forall _ _) H6 a Hin) as Ha.
  pose proof (node_ok_bounds _ _ Ha) as Hb.
  destruct (separated_cons _ _ H5) as [Hap Hsep].
  assert (Forall (node_ok H) (A ++ F ++ all_nodes Q)) as Hok by (now apply Forall_cons in H6).
  assert (Forall (node_ok H) F) as HF.
  { apply Forall_app in Hok as [_ Hok]. now apply Forall_app in Hok as [Hok _]. }
  exists (up_mem (fun _ => m) (up_qs (set_free_qnodes a) s)).
  split; [|split; [|split]].
  - unfold qnode_free. destruct (Z.eqb_spec a NULL); [unfold NULL in *; lia|]. reflexivity.
  - assert (A ++ (a :: F) ++ all_nodes Q ≡ₚ a :: A ++ F ++ all_nodes Q) as P
      by (symmetry; apply (Permutation_middle A)).
    split; ksimpl; try done.
    + assert (ld32 m (a + 4) = free_qnodes (st_qs s)) as E
        by (apply ld32_st32_eq; eapply fchain_word; [exact HF|exact H3]).
      cbn [fchain]. split; [done|]. rewrite E. eapply fchain_away; [exact Hag| |exact H3]. intros x b ->%list_elem_of_singleton Hb'.
      apply Hap, elem_of_app. right. apply elem_of_app. now left.
    + apply Forall2_same_length_lookup_2; [eapply Forall2_length, H4|].
      intros j q aq Hq Hj.
      eapply que_rep_away; [exact Hag| |eapply Forall2_lookup_lr; eassumption].
      intros x b ->%list_elem_of_singleton Hb'. apply Hap, elem_of_app. right.
      apply elem_of_app. right. eapply all_nodes_elem; eassumption.
    + eapply separated_perm; [symmetry; exact P|exact H5].
    + rewrite P. exact H6.
  - apply que_frame_intro; [|done]. eapply agree_away_outside; [|exact Hag].
    now apply Forall_singleton.
  - reflexivity.
Qed.

(** [qnode_alloc] takes the node at the head of the free list and clears it. *)
Lemma qnode_alloc_spec H a A F Q s :
  qs_inv H A (a :: F) Q s ->
  exists s', qnode_alloc s = Ret a s' /\ qs_inv H (a :: A) F Q s' /\ que_frame H s s' /\
    queues (st_qs s') = queues (st_qs s) /\ ld32 (st_mem s') (a + 4) = 0.
Proof.
  intros Hinv. pose proof Hinv as [H1 H2 H3 H4 H5 H6].
  set (m := st_bytes (st_mem s) a (replicate 8 0)).
  destruct H3 as [Hp Hch].
  assert (A ++ (a :: F) ++ all_nodes Q ≡ₚ a :: A ++ F ++ all_nodes Q) as P
    by (symmetry; apply (Permutation_middle A)).
  assert (node_ok H a) as Ha.
  { apply (proj1 (Forall_forall _ _) H6). rewrite P. left. }
  pose proof (node_ok_bounds _ _ Ha) as Hb.
  set (s1 := up_qs (set_free_qnodes (ld32 (st_mem s) (a + 4))) s).
  assert (qs_inv H (a :: A) F Q s1) as Hinv1.
  { split; [done|done|exact Hch|exact H4|eapply separated_perm; [exact P|exact H5]|].
    cbn [app]. now rewrite <- P. }
  assert (agree (away (a :: A)) (st_mem s) m) as Hag.
  { intros x Hx. apply ld8_st_bytes_out. specialize (Hx a ltac:(left)).
    unfold outside in Hx. cbn. lia. }
  exists (up_mem (fun _ => m) s1). split; [|split; [|split; [|split]]].
  - unfold qnode_alloc, qs, gets. ksimpl. rewrite Hp.
    destruct (Z.eqb_spec a NULL); [unfold NULL in *; lia|]. ksimpl.
    destruct (Z.eqb_spec (free_qnodes (st_qs s)) NULL); [unfold NULL in *; lia|].
    rewrite Hp. ksimpl. unfold qn_next, load32, qs_set. ksimpl.
    change SZ_QNODE with (Z.of_nat 8). mstep (memclr_eq a 8 s1 ltac:(lia) ltac:(lia)).
    reflexivity.
  - exact (qs_inv_held H (a :: A) F Q s1 m Hinv1 Hag).
  - apply que_frame_intro; [|done]. eapply (agree_away_outside H [a]); [now apply Forall_singleton|].
    intros x Hx. apply ld8_st_bytes_out. specialize (Hx a ltac:(left)).
    unfold outside in Hx. cbn. lia.
  - reflexivity.
  - ksimpl. unfold m. cbn [replicate st_bytes].
    replace (a + 1 + 1 + 1 + 1) with (a + 4) by lia.
    replace (a + 4 + 1 + 1 + 1) with (a + 4 + 3) by lia.
    replace (a + 4 + 1 + 1) with (a + 4 + 2) by lia.
    match goal with |- ld32 (st8 (st8 (st8 (st8 ?M _ _) _ _) _ _) _ _) _ = _ =>
      exact (ld32_st32_eq M (a + 4) 0 ltac:(lia)) end.
Qed.

(** * The abstract queues

    A queue is its comparison function and the data words it holds, in order;
    the nodes are hidden.  [n] is the number of free nodes. *)

Definition contents (aq : aqueue) : Z * list Z := (fst aq, map snd (snd aq)).

Definition queues_hold (H : Z -> Prop) (n : nat) (V : list (Z * list Z)) (s : kstate) : Prop :=
  exists F Q, qs_inv H [] F Q s /\ length F = n /\ map contents Q = V.

(** Stable insertion in ascending order of [key]. *)
Fixpoint insert_by (key : Z -> Z) (x : Z) (l : list Z) : list Z :=
  match l with
  | [] => [x]
  | y :: l' => if key y <=? key x then y :: insert_by key x l' else x :: l
  end.

(** Removal of the first occurrence. *)
Fixpoint remove_first (x : Z) (l : list Z) : list Z :=
  match l with
  | [] => []
  | y :: l' => if x =? y then l' else y :: remove_first x l'
  end.

(** What the queue module requires of a comparison function [fcn]: on valid
    data its sign orders the data by a key, it changes nothing, and it reads
    the process module's state only. *)
Class ComparatorLaw {C : Comparators} (fcn : Z) := {
  cmp_valid : kstate -> Z -> Prop;
  cmp_key : kstate -> Z -> Z;
  cmp_nonnull : fcn <> NULL;
  cmp_order s x y :
    cmp_valid s x -> cmp_valid s y ->
    exists c, call_compare fcn x y s = Ret c s /\ (0 <= c <-> cmp_key s y <= cmp_key s x);
  cmp_stable s s' x :
    st_ps s' = st_ps s -> cmp_key s' x = cmp_key s x /\ (cmp_valid s x -> cmp_valid s' x)
}.

Lemma insert_by_split key x (l : list node) :
  exists pre post : list node, l = pre ++ post /\
    Forall (fun y => key (snd y) <= key x) pre /\
    match post with [] => True | y :: _ => key x < key (snd y) end /\
    insert_by key x (map snd l) = map snd pre ++ x :: map snd post.
Proof.
  induction l as [|[b d] l (pre & post & -> & H1 & H2 & H3)].
  - exists [], []. repeat split; constructor.
  - cbn [map insert_by snd]. destruct (Z.leb_spec (key d) (key x)).
    + exists ((b, d) :: pre), post. cbn [map app snd]. rewrite H3. repeat split; [|done].
      now constructor.
    + exists [], ((b, d) :: pre ++ post). repeat split; [constructor|done].
Qed.

Definition ordered_by (key : Z -> Z) : list Z -> Prop := StronglySorted (fun a b => key a <= key b).

Lemma insert_by_perm key x l : insert_by key x l ≡ₚ x :: l.
Proof.
  induction l as [|y l IH]; [done|]. cbn [insert_by]. destruct (key y <=? key x); [|done].
  rewrite IH. apply Permutation_swap.
Qed.

Lemma insert_by_ordered key x l : ordered_by key l -> ordered_by key (insert_by key x l).
Proof.
  unfold ordered_by. induction 1 as [|y l Hs IH Hy]; cbn [insert_by].
  - repeat constructor.
  - destruct (Z.leb_spec (key y) (key x)).
    + constructor; [exact IH|]. rewrite insert_by_perm. now constructor.
    + constructor; [now constructor|]. constructor; [lia|].
      eapply Forall_impl; [exact Hy|]. intros z Hz. cbn in Hz. lia.
Qed.

Lemma remove_first_split x (l : list node) :
  (~ x ∈ map snd l /\ Forall (fun y => snd y <> x) l) \/
  (exists (pre : list node) b (post : list node), l = pre ++ (b, x) :: post /\
     Forall (fun y => snd y <> x) pre /\
     remove_first x (map snd l) = map snd pre ++ map snd post).
Proof.
  induction l as [|[b d] l IH]; [left; split; [apply not_elem_of_nil|constructor]|].
  cbn [map snd remove_first]. destruct (Z.eqb_spec x d) as [->|Hne].
  - right. exists [], b, l. repeat split. constructor.
  - destruct IH as [[H1 H2] | (pre & a & post & -> & H2 & H3)].
    + left. split; [|constructor; [cbn; congruence|done]].
      intros [->|Hin]%elem_of_cons; tauto.
    + right. exists ((b, d) :: pre), a, post. cbn [map app snd]. rewrite H3.
      repeat split. constructor; [cbn; congruence|done].
Qed.

(** Nodes that do not overlap are fewer than the words of the address space. *)
Lemma separated_length H ns :
  separated ns -> Forall (node_ok H) ns -> Z.of_nat (length ns) <= 2 ^ 29.
Proof.
  intros [Hnd Hap] Hok.
  assert (NoDup (map (fun a => a / 8) ns)) as Hnd'.
  { apply NoDup_fmap_2_strong; [|done]. intros a b Ha Hb E.
    destruct (Z.eq_dec a b) as [|Hne]; [done|]. pose proof (Hap a b Ha Hb Hne) as Hd.
    unfold apart in Hd. pose proof (Z.div_mod a 8). pose proof (Z.div_mod b 8).
    pose proof (Z.mod_pos_bound a 8). pose proof (Z.mod_pos_bound b 8). lia. }
  assert (map (fun a => a / 8) ns ⊆ seqZ 0 (2 ^ 29)) as Hsub.
  { intros k (a & -> & Ha)%list_elem_of_fmap. apply elem_of_seqZ.
    rewrite Forall_forall in Hok. destruct (node_ok_bounds _ _ (Hok a Ha)) as [Hb1 Hb2].
    split; [apply Z.div_pos; lia|]. apply Z.div_lt_upper_bound; lia. }
  pose proof (submseteq_length _ _ (NoDup_submseteq _ _ Hnd' Hsub)) as Hlen.
  rewrite length_map, length_seqZ in Hlen. lia.
Qed.

Lemma qs_inv_length H A F Q s i aq :
  qs_inv H A F Q s -> Q !! i = Some aq -> Z.of_nat (length (snd aq)) <= 2 ^ 29.
Proof.
  intros [H1 H2 H3 H4 H5 H6] Hi.
  destruct (all_nodes_insert Q i aq (0, []) Hi) as (rest & E & _).
  assert (A ++ F ++ all_nodes Q ≡ₚ nodes_of (snd aq) ++ A ++ F ++ rest) as P.
  { rewrite E, (Permutation_app_swap_app F), (Permutation_app_swap_app A). done. }
  apply (separated_perm _ _ P) in H5. apply separated_app in H5 as [H5 _].
  rewrite P in H6. apply Forall_app in H6 as [H6 _].
  pose proof (separated_length _ _ H5 H6) as Hl. unfold nodes_of in Hl.
  now rewrite length_map in Hl.
Qed.

(** * Queue operations *)

(** The nodes of a queue are proper addresses, apart from one another. *)
Lemma qs_inv_nodes H A F Q s i aq :
  qs_inv H A F Q s -> Q !! i = Some aq ->
  Forall (node_ok H) (A ++ nodes_of (snd aq)) /\ separated (A ++ nodes_of (snd aq)).
Proof.
  intros [_ _ _ _ H5 H6] Hi. destruct (all_nodes_insert Q i aq (0, []) Hi) as (rest & E & _).
  assert (A ++ F ++ all_nodes Q ≡ₚ (A ++ nodes_of (snd aq)) ++ F ++ rest) as P.
  { rewrite E, <- app_assoc. apply Permutation_app_head, Permutation_app_swap_app. }
  rewrite P in H6. apply Forall_app in H6. apply (separated_perm _ _ P) in H5.
  apply separated_app in H5. tauto.
Qed.

Lemma head_of_null H (l : list node) :
  Forall (node_ok H) (nodes_of l) -> (head_of l =? NULL) = match l with [] => true | _ => false end.
Proof.
  destruct l as [|[b d] l]; [done|]. intros [Hb _]%Forall_cons. cbn in *.
  apply node_ok_bounds in Hb. apply Z.eqb_neq. unfold NULL. lia.
Qed.

Lemma tail_of_cons a d (l : list node) : l <> [] -> tail_of ((a, d) :: l) = tail_of l.
Proof.
  intros H. unfold tail_of. rewrite last_cons.
  destruct (last l) eqn:E; [done|]. now apply last_None in E.
Qed.

Lemma tail_of_snoc (l : list node) a d : tail_of (l ++ [(a, d)]) = a.
Proof. unfold tail_of. now rewrite last_snoc. Qed.

Lemma tail_of_In (l : list node) : l <> [] -> tail_of l ∈ nodes_of l.
Proof.
  intros H. destruct (exists_last H) as (pre & [b d] & ->). rewrite tail_of_snoc.
  unfold nodes_of. rewrite map_app. apply elem_of_app. right. left.
Qed.

Lemma tail_of_null H (l : list node) :
  Forall (node_ok H) (nodes_of l) -> (tail_of l =? NULL) = match l with [] => true | _ => false end.
Proof.
  intros Hok. destruct l as [|n l]; [done|].
  pose proof (proj1 (Forall_forall _ _) Hok _ (tail_of_In (n :: l) ltac:(done))) as Hb.
  apply node_ok_bounds in Hb. apply Z.eqb_neq. unfold NULL. lia.
Qed.

(** ** Linking a node into a chain *)

Lemma nodes_of_app (l1 l2 : list node) : nodes_of (l1 ++ l2) = nodes_of l1 ++ nodes_of l2.
Proof. apply map_app. Qed.

Definition linked (m : memory) (a : Z) (pre : list node) : memory :=
  match last pre with None => m | Some (b, _) => st32 m (b + 4) a end.

Lemma linked_chain m a x (pre post : list node) p :
  0 <= a < 2 ^ 32 -> ld32 m a = x -> ld32 m (a + 4) = head_of post ->
  qchain m p (pre ++ post) -> separated (a :: nodes_of (pre ++ post)) ->
  qchain (linked m a pre) (head_of (pre ++ (a, x) :: post)) (pre ++ (a, x) :: post).
Proof.
  intros Ha Hx Hn Hc Hsep. destruct (separated_cons _ _ Hsep) as [Hap Hsep'].
  destruct (qchain_app_inv _ _ _ _ Hc) as (r & Hr).
  pose proof (qchain_head _ _ _ Hr) as ->. pose proof (qchain_head _ _ _ Hc) as ->.
  destruct (last pre) as [[b e]|] eqn:El.
  - apply last_Some in El as (pre' & ->). unfold linked. rewrite last_snoc, <- !app_assoc.
    rewrite <- app_assoc in Hc, Hsep', Hap. cbn [app] in *.
    assert (apart a b) as Hab.
    { apply Hap. rewrite nodes_of_app. apply elem_of_app. right. left. }
    unfold apart in Hab.
    assert (qchain m (head_of (pre' ++ (b, e) :: (a, x) :: post)) (pre' ++ (b, e) :: post)) as Hc'
      by (now destruct pre').
    eapply qchain_relink; [exact Hc'| |done|].
    + change ((b, e) :: post) with ([(b, e)] ++ post) in Hsep'.
      rewrite app_assoc, nodes_of_app in Hsep'. now apply separated_app in Hsep' as [? _].
    + cbn [qchain]. rewrite !ld32_st32_ne by lia. rewrite Hn. split; [done|]. split; [done|].
      eapply (qchain_away [b]); [apply agree_st32_away; [left|lia]| |exact Hr].
      intros y z ->%list_elem_of_singleton Hz. rewrite nodes_of_app in Hsep'.
      apply separated_app in Hsep' as [_ Hs2]. cbn in Hs2.
      destruct (separated_cons _ _ Hs2) as [Hap2 _]. now apply Hap2.
  - apply last_None in El as ->. unfold linked. cbn [last app qchain] in *.
    rewrite Hn. done.
Qed.

Lemma linked_agree m a (pre : list node) l :
  agree (away (a :: nodes_of (pre ++ l))) m (linked m a pre).
Proof.
  unfold linked. destruct (last pre) as [[b e]|] eqn:El; [|reflexivity].
  apply agree_st32_away; [|lia]. apply last_Some in El as (pre' & ->). right.
  rewrite !nodes_of_app. apply elem_of_app. left. apply elem_of_app. right. left.
Qed.

Lemma insert_placed H a F Q s i c x (pre post : list node) m :
  qs_inv H [a] F Q s -> Q !! i = Some (c, pre ++ post) ->
  ld32 m a = x -> ld32 m (a + 4) = head_of post -> agree (away [a]) (st_mem s) m ->
  qs_inv H [] F (<[i := (c, pre ++ (a, x) :: post)]> Q)
    (qstate s i (linked m a pre)
      (Queue (head_of (pre ++ (a, x) :: post)) (tail_of (pre ++ (a, x) :: post))
         (Z.of_nat (length (pre ++ post)) + 1) c)) /\
  agree (fun y => ~ H y) (st_mem s) (linked m a pre).
Proof.
  intros Hinv Hi Hx Hn Hag.
  destruct (qs_inv_nodes _ _ _ _ _ _ _ Hinv Hi) as [Hok Hsep]. cbn [snd app] in Hok, Hsep.
  destruct (qs_inv_lookup _ _ _ _ _ _ _ Hinv Hi) as (q & Hq & [R1 R2 R3 R4] & Hlt).
  cbn [fst snd] in *. pose proof Hok as [Ha%node_ok_bounds _]%Forall_cons.
  destruct (separated_cons _ _ Hsep) as [Hap _].
  assert (agree (away (a :: nodes_of (pre ++ post))) (st_mem s) (linked m a pre)) as Hag'.
  { etransitivity; [|apply linked_agree]. eapply agree_weaken; [|exact Hag].
    intros y Hy b Hb. apply Hy. apply list_elem_of_singleton in Hb as ->. left. }
  split; [|eapply agree_away_outside; [exact Hok|exact Hag']].
  eapply qs_inv_update; [exact Hinv|exact Hi|exact Hag'| |].
  - split; [done| | |done].
    + cbn [snd q_count]. rewrite !length_app. cbn [length]. lia.
    + apply linked_chain with (p := q_head q); [lia|done|done| |done].
      eapply (qchain_away [a]); [exact Hag| |exact R3].
      intros y b ->%list_elem_of_singleton Hb. now apply Hap.
  - cbn [snd app]. rewrite !nodes_of_app. symmetry. apply Permutation_middle.
Qed.

Section Operations.
Context {L : Layout} {C : Comparators}.

(** What an operation on a queue with contents [l] finds. *)
Lemma que_view H A F Q s i c (l : list node) :
  qs_inv H A F Q s -> Q !! i = Some (c, l) ->
  exists q, (i < 8)%nat /\ queues (st_qs s) !! i = Some q /\ que_rep (st_mem s) q (c, l) /\
    s = qstate s i (st_mem s) q /\ 0 <= q_count q <= 2 ^ 29 /\
    (q_head q =? NULL) = (q_count q =? 0) /\ (q_tail q =? NULL) = (q_count q =? 0).
Proof.
  intros Hinv Hi. destruct (qs_inv_lookup _ _ _ _ _ _ _ Hinv Hi) as (q & Hq & Hrep & Hlt).
  pose proof (qs_inv_length _ _ _ _ _ _ _ Hinv Hi) as Hlen.
  destruct (qs_inv_nodes _ _ _ _ _ _ _ Hinv Hi) as [[_ Hok]%Forall_app _]. cbn [snd] in *.
  exists q. pose proof Hrep as [R1 R2 R3 R4]. cbn [fst snd] in *.
  rewrite R4, (qchain_head _ _ _ R3), (head_of_null _ _ Hok), (tail_of_null _ _ Hok), R2.
  repeat split; try done; try lia; [now apply qstate_id|destruct l; [done|]..];
    symmetry; apply Z.eqb_neq; cbn; lia.
Qed.

Lemma que_remove_nodes H F Q s i c a d (l : list node) :
  qs_inv H [] F Q s -> Q !! i = Some (c, (a, d) :: l) ->
  exists s', que_remove (que_addr (Z.of_nat i)) true s = Ret (E_SUCCESS, Some d) s' /\
    qs_inv H [] (a :: F) (<[i := (c, l)]> Q) s' /\ que_frame H s s'.
Proof.
  intros Hinv Hi. destruct (que_view _ _ _ _ _ _ _ _ Hinv Hi)
    as (q & Hlt & Hq & Hrep & Es & Hcnt & Hhn & Htn).
  destruct (qs_inv_nodes _ _ _ _ _ _ _ Hinv Hi) as [Hok _]. cbn [app snd nodes_of map fst] in Hok.
  apply Forall_cons in Hok as [Ha Hok].
  destruct Hrep as [R1 R2 R3 R4]. cbn [fst snd qchain] in *. destruct R3 as (Rh & Rd & Rc).
  assert (q_count q =? 0 = false) as Hc0 by (apply Z.eqb_neq; cbn in R2; lia).
  pose proof (qchain_head _ _ _ Rc) as Hnx.
  set (q' := Queue (head_of l) (tail_of l) (Z.of_nat (length l)) c).
  assert (qs_inv H [a] F (<[i := (c, l)]> Q) (qstate s i (st_mem s) q')) as Hinv'.
  { eapply qs_inv_update; [exact Hinv|exact Hi|reflexivity| |reflexivity].
    split; [done|done| |done]. unfold q'. cbn [q_head snd]. now rewrite <- Hnx. }
  destruct (qnode_free_spec _ _ _ _ _ _ Hinv') as (s' & E & Hs' & Hfr & _).
  exists s'. split; [|split; [done|]].
  - unfold que_remove, qn_data, qn_next. rewrite Es.
    unfold assert. pose proof (que_addr_nonnull (Z.of_nat i)).
    destruct (Z.eqb_spec (que_addr (Z.of_nat i)) NULL); [lia|]. cbn [negb]. rewrite bind_ret_l.
    mstep (qstate_get s i (st_mem s) q q Hlt Hq).
    zcase (q_count q) 1; [cbn in R2; lia|]. rewrite Hhn, Htn, Hc0. cbn [negb andb].
    rewrite bind_ret_l. rewrite Rh. mstep (qstate_load s i (st_mem s) q a).
    mstep (qstate_load s i (st_mem s) q (a + 4)). rewrite Hnx, Rd.
    rewrite (bind_Ret _ _ _ _ _ (qstate_set s i (st_mem s) q q _ Hlt Hq)).
    assert ((when (head_of l =? NULL) (que_set (que_addr (Z.of_nat i)) (set_q_tail NULL)))
      (qstate s i (st_mem s) (set_q_head (head_of l) q)) =
      Ret tt (qstate s i (st_mem s) (Queue (head_of l) (tail_of l) (q_count q) c))) as Ew.
    { rewrite (head_of_null _ _ Hok). destruct l as [|nd l]; cbn [when].
      - rewrite (qstate_set s i _ _ q _ Hlt Hq). unfold set_q_tail, set_q_head. cbn. now rewrite R1.
      - unfold set_q_head, ret. rewrite R4, tail_of_cons, R1 by done. reflexivity. }
    mstep Ew. rewrite (bind_Ret _ _ _ _ _ (qstate_set s i (st_mem s) _ q _ Hlt Hq)).
    unfold set_q_count. cbn [q_head q_tail q_count q_compare].
    rewrite (u32_small (q_count q - 1)) by lia.
    replace (q_count q - 1) with (Z.of_nat (length l)) by (cbn in R2; lia).
    mstep E. reflexivity.
  - eapply que_frame_trans; [|exact Hfr]. unfold qstate. now apply que_frame_intro.
Qed.

Lemma que_remove_empty H A F Q s i c :
  qs_inv H A F Q s -> Q !! i = Some (c, []) ->
  que_remove (que_addr (Z.of_nat i)) true s = Ret (E_EMPTY, None) s.
Proof.
  intros Hinv Hi. destruct (que_view _ _ _ _ _ _ _ _ Hinv Hi) as (q & Hlt & Hq & Hrep & _).
  unfold que_remove, assert. pose proof (que_addr_nonnull (Z.of_nat i)).
  destruct (Z.eqb_spec (que_addr (Z.of_nat i)) NULL); [lia|]. cbn [negb]. rewrite bind_ret_l.
  mstep (get_que_ok i q s Hlt Hq). pose proof (rep_count _ _ _ Hrep) as R2. cbn in R2.
  now rewrite R2.
Qed.

Lemma que_peek_eq H A F Q s i c (l : list node) :
  qs_inv H A F Q s -> Q !! i = Some (c, l) ->
  que_peek (que_addr (Z.of_nat i)) true s =
  Ret (match l with [] => (E_EMPTY, None) | (_, d) :: _ => (E_SUCCESS, Some d) end) s.
Proof.
  intros Hinv Hi. destruct (que_view _ _ _ _ _ _ _ _ Hinv Hi)
    as (q & Hlt & Hq & Hrep & Es & Hcnt & Hhn & Htn).
  unfold que_peek, assert. pose proof (que_addr_nonnull (Z.of_nat i)).
  destruct (Z.eqb_spec (que_addr (Z.of_nat i)) NULL); [lia|]. cbn [negb]. rewrite bind_ret_l.
  mstep (get_que_ok i q s Hlt Hq). destruct Hrep as [R1 R2 R3 R4]. cbn [fst snd] in *.
  destruct l as [|[a d] l]; cbn [length] in R2; [now rewrite R2|].
  zcase (q_count q) 1; [lia|].
  rewrite Hhn, Htn. destruct (Z.eqb_spec (q_count q) 0); [lia|]. cbn [negb andb].
  rewrite bind_ret_l. destruct R3 as (-> & <- & _). reflexivity.
Qed.

Lemma que_length_eq H A F Q s i c (l : list node) :
  qs_inv H A F Q s -> Q !! i = Some (c, l) -> queue_free (st_qs s) !! i = Some QUE_INUSE ->
  que_length (que_addr (Z.of_nat i)) s = Ret (Z.of_nat (length l)) s.
Proof.
  intros Hinv Hi Hf. destruct (que_view _ _ _ _ _ _ _ _ Hinv Hi)
    as (q & Hlt & Hq & Hrep & Es & Hcnt & _).
  unfold que_length. rewrite que_ix_addr by lia.
  destruct (Z.ltb_spec (Z.of_nat i) 0); [lia|]. unfold qs, gets. ksimpl.
  erewrite bind_Ret; [|apply aget_ok; [lia|rewrite Nat2Z.id; exact Hf]]. cbn [truth when].
  change (truth QUE_INUSE) with false. cbn [when]. rewrite bind_ret_l.
  unfold que_get. rewrite bind_assoc. mstep (get_que_ok i q s Hlt Hq). cbn.
  rewrite (rep_count _ _ _ Hrep) in *. rewrite s32_small by lia. done.
Qed.

(** ** Insertion *)

(** The search for the place of a datum in an ordered queue. *)
Definition place_body (fcn data : Z) : Z * Z -> K (Z * Z + Z * Z) :=
  fun '(prev, curr) =>
    if negb (curr =? NULL) then
      d <- qn_data curr ;;
      c <- call_compare fcn data d ;;
      if 0 <=? c then nx <- qn_next curr ;; ret (inl (curr, nx))
      else ret (inr (prev, curr))
    else ret (inr (prev, curr)).

Lemma ordered_skip fcn {law : ComparatorLaw fcn} x (pre rest : list node) k p s n :
  qchain (st_mem s) p (pre ++ rest) -> Forall (fun b => 0 < b) (nodes_of pre) ->
  cmp_valid s x -> Forall (fun y => cmp_valid s (snd y) /\ cmp_key s (snd y) <= cmp_key s x) pre ->
  loopN (length pre + n) (place_body fcn x) (k, p) s =
  loopN n (place_body fcn x) (from_option fst k (last pre), head_of rest) s.
Proof.
  intros Hc Hpos Hx Hpre. revert k p Hc. induction pre as [|[b d] pre IH]; intros k p Hc.
  - apply qchain_head in Hc. cbn [app] in Hc. now subst.
  - cbn [nodes_of map fst app qchain] in *. destruct Hc as (-> & Hd & Hc).
    apply Forall_cons in Hpos as [Hb Hpos]. apply Forall_cons in Hpre as [[Hv Hk] Hpre].
    cbn [snd] in *. destruct (cmp_order s x d Hx Hv) as (c & Ec & Hcc).
    cbn [length Nat.add].
    rewrite loopN_step with (a' := (b, ld32 (st_mem s) (b + 4))) (s' := s).
    + rewrite (IH Hpos Hpre _ _ Hc). rewrite last_cons. now destruct (last pre).
    + unfold place_body. destruct (Z.eqb_spec b NULL); [unfold NULL in *; lia|]. cbn [negb].
      unfold qn_data, qn_next. erewrite bind_Ret by reflexivity. rewrite Hd.
      rewrite (bind_Ret _ _ _ _ _ Ec). destruct (Z.leb_spec 0 c); [reflexivity|].
      apply Hcc in Hk. lia.
Qed.

Lemma ordered_loop fcn {law : ComparatorLaw fcn} x (pre post : list node) p s :
  qchain (st_mem s) p (pre ++ post) -> Forall (fun b => 0 < b) (nodes_of (pre ++ post)) ->
  Z.of_nat (length pre) <= 2 ^ 29 -> cmp_valid s x ->
  Forall (fun y => cmp_valid s (snd y)) (pre ++ post) ->
  Forall (fun y => cmp_key s (snd y) <= cmp_key s x) pre ->
  match post with [] => True | y :: _ => cmp_key s x < cmp_key s (snd y) end ->
  loop (place_body fcn x) (NULL, p) s = Ret (tail_of pre, head_of post) s.
Proof.
  intros Hc Hpos Hlen Hx Hval Hpre Hpost. apply (loop_intro _ (length pre + 1)); [lia|].
  rewrite nodes_of_app in Hpos. apply Forall_app in Hpos as [Hp1 Hp2].
  apply Forall_app in Hval as [Hv1 Hv2].
  rewrite (ordered_skip _ _ _ _ _ _ _ _ Hc Hp1 Hx); [|now apply Forall_and].
  destruct (qchain_app_inv _ _ _ _ Hc) as (r & Hr).
  apply loopN_done. unfold place_body. destruct post as [|[b d] post]; [reflexivity|].
  pose proof (qchain_head _ _ _ Hr) as ->. cbn [qchain head_of head from_option fst] in *.
  destruct Hr as (_ & Hd & _). apply Forall_cons in Hp2 as [Hb _].
  apply Forall_cons in Hv2 as [Hv _]. cbn [fst snd] in *.
  destruct (Z.eqb_spec b NULL); [unfold NULL in *; lia|]. cbn [negb].
  unfold qn_data. erewrite bind_Ret by reflexivity. rewrite Hd.
  destruct (cmp_order s x d Hx Hv) as (c & Ec & Hcc). rewrite (bind_Ret _ _ _ _ _ Ec).
  destruct (Z.leb_spec 0 c); [|reflexivity]. apply Hcc in H. lia.
Qed.

(** Where the code puts a datum: at the end of a queue without comparison
    function, in order otherwise. *)
Definition placement (s : kstate) (c x : Z) (pre post : list node) : Prop :=
  (c = NULL /\ post = []) \/
  exists law : ComparatorLaw c, cmp_valid s x /\
    Forall (fun y => cmp_valid s (snd y)) (pre ++ post) /\
    Forall (fun y => cmp_key s (snd y) <= cmp_key s x) pre /\
    match post with [] => True | y :: _ => cmp_key s x < cmp_key s (snd y) end.

Lemma placement_stable s s' c x (pre post : list node) :
  st_ps s' = st_ps s -> placement s c x pre post -> placement s' c x pre post.
Proof.
  intros E [H|(law & H1 & H2 & H3 & H4)]; [now left|right]. exists law.
  pose proof (fun z => cmp_stable s s' z E) as St.
  repeat split; [now apply St|..].
  - eapply Forall_impl; [exact H2|]. intros y Hy. now apply St.
  - eapply Forall_impl; [exact H3|]. intros y Hy. now rewrite !(proj1 (St _)).
  - destruct post; [done|]. now rewrite !(proj1 (St _)).
Qed.

(** The body of [que_insert] once it has a node. *)
Definition link_node (q qn : Z) : K Z :=
  x <- get_que q ;;
  d <- qn_data qn ;;
  if q_count x =? 0 then
    assert "que_insert: empty" ((q_head x =? NULL) && (q_tail x =? NULL)) ;;
    que_set q (fun x => set_q_head qn (set_q_tail qn x)) ;;
    que_set q (set_q_count 1) ;;
    ret E_SUCCESS
  else
    assert "que_insert: not empty" (negb (q_head x =? NULL) && negb (q_tail x =? NULL)) ;;
    if q_compare x =? NULL then
      set_qn_next (q_tail x) qn ;;
      que_set q (set_q_tail qn) ;;
      que_set q (fun x => set_q_count (u32 (q_count x + 1)) x) ;;
      ret E_SUCCESS
    else
      pc <- loop (place_body (q_compare x) d) (NULL, q_head x) ;;
      let '(prev, curr) := pc in
      set_qn_next qn curr ;;
      (if prev =? NULL then que_set q (set_q_head qn)
       else
         set_qn_next prev qn ;;
         when (curr =? NULL) (que_set q (set_q_tail qn))) ;;
      que_set q (fun x => set_q_count (u32 (q_count x + 1)) x) ;;
      ret E_SUCCESS.

Lemma que_insert_link (i : nat) x a q s s1 :
  (i < 8)%nat -> a <> NULL -> 0 <= x < 2 ^ 32 -> qnode_alloc s = Ret a s1 ->
  queues (st_qs s1) !! i = Some q ->
  que_insert (que_addr (Z.of_nat i)) x s =
  link_node (que_addr (Z.of_nat i)) a (qstate s1 i (st32 (st_mem s1) a x) q).
Proof.
  intros Hi Ha Hx E Hq. unfold que_insert, assert. rewrite que_ix_addr by lia.
  destruct (Z.leb_spec 0 (Z.of_nat i)); [|lia]. rewrite bind_ret_l. mstep E.
  destruct (Z.eqb_spec a NULL); [done|]. rewrite (qstate_id s1 i q Hq) at 1.
  unfold set_qn_data. rewrite (bind_Ret _ _ _ _ _ (qstate_store s1 i (st_mem s1) q a x)).
  unfold link_node. rewrite !(bind_Ret _ _ _ _ _ (qstate_get s1 i _ q q Hi Hq)).
  unfold qn_data. rewrite (bind_Ret _ _ _ _ _ (qstate_load s1 i _ q a)).
  rewrite ld32_st32_eq by lia. reflexivity.
Qed.

(** The state after linking node [a] between [pre] and [post]. *)
Definition linked_state (s : kstate) (i : nat) (m : memory) (a x c : Z) (pre post : list node) :=
  qstate s i (linked m a pre)
    (Queue (head_of (pre ++ (a, x) :: post)) (tail_of (pre ++ (a, x) :: post))
       (Z.of_nat (length (pre ++ post)) + 1) c).

Lemma link_between s i m q q0 a x (pre post : list node) H :
  (i < 8)%nat -> queues (st_qs s) !! i = Some q0 ->
  Forall (node_ok H) (nodes_of (pre ++ post)) -> pre ++ post <> [] ->
  q_head q = head_of (pre ++ post) -> q_tail q = tail_of (pre ++ post) ->
  (if tail_of pre =? NULL then que_set (que_addr (Z.of_nat i)) (set_q_head a)
   else
     store32 (tail_of pre + 4) a ;;
     when (head_of post =? NULL) (que_set (que_addr (Z.of_nat i)) (set_q_tail a)))
    (qstate s i m q) =
  Ret tt (qstate s i (linked m a pre)
    (Queue (head_of (pre ++ (a, x) :: post)) (tail_of (pre ++ (a, x) :: post))
       (q_count q) (q_compare q))).
Proof.
  intros Hi Hq Hok Hne Hh Ht. rewrite nodes_of_app in Hok. apply Forall_app in Hok as [Hok1 Hok2].
  rewrite (head_of_null _ _ Hok2). unfold linked.
  destruct (last pre) as [[b e]|] eqn:El.
  - apply last_Some in El as (l & ->). rewrite tail_of_snoc.
    rewrite nodes_of_app in Hok1. apply Forall_app in Hok1 as [_ [Hb%node_ok_bounds _]%Forall_cons].
    cbn [fst] in Hb. destruct (Z.eqb_spec b NULL); [unfold NULL in *; lia|].
    rewrite (bind_Ret _ _ _ _ _ (qstate_store s i m q _ a)).
    assert (head_of ((l ++ [(b, e)]) ++ (a, x) :: post) = q_head q) as ->
      by (rewrite Hh; now destruct l).
    destruct post as [|nd post]; cbn [when].
    + rewrite (qstate_set s i _ q q0 _ Hi Hq). unfold set_q_tail. now rewrite tail_of_snoc.
    + assert (tail_of ((l ++ [(b, e)]) ++ (a, x) :: nd :: post) = q_tail q) as ->; [|now destruct q].
      rewrite Ht. unfold tail_of. now rewrite !last_app_cons, last_cons_cons.
  - apply last_None in El as ->. cbn [app] in *. change (tail_of [] =? NULL) with true.
    cbv iota. rewrite (qstate_set s i _ q q0 _ Hi Hq).
    rewrite tail_of_cons by done. unfold set_q_head. now rewrite Ht.
Qed.

Section Link.
Context (s : kstate) (i : nat) (m : memory) (q : queue_s) (a x c : Z) (pre post : list node)
  (H : Z -> Prop).
Hypothesis Hi : (i < 8)%nat.
Hypothesis Hq : queues (st_qs s) !! i = Some q.
Hypothesis Hrep : que_rep m q (c, pre ++ post).
Hypothesis Hok : Forall (node_ok H) (nodes_of (pre ++ post)).
Hypothesis Hlen : Z.of_nat (length (pre ++ post)) <= 2 ^ 29.
Hypothesis Hx : ld32 m a = x.

Lemma rep_nulls :
  (q_head q =? NULL) = (q_count q =? 0) /\ (q_tail q =? NULL) = (q_count q =? 0).
Proof.
  destruct Hrep as [R1 R2 R3 R4]. cbn [fst snd] in *.
  rewrite R4, (qchain_head _ _ _ R3), (head_of_null _ _ Hok), (tail_of_null _ _ Hok), R2.
  split; destruct (pre ++ post); try done; symmetry; apply Z.eqb_neq; cbn; lia.
Qed.

Lemma rep_count_zero : (q_count q =? 0) = match pre ++ post with [] => true | _ => false end.
Proof.
  rewrite (rep_count _ _ _ Hrep). cbn [snd]. destruct (pre ++ post); [done|].
  apply Z.eqb_neq. cbn. lia.
Qed.

Lemma count_succ : u32 (q_count q + 1) = Z.of_nat (length (pre ++ post)) + 1.
Proof. rewrite (rep_count _ _ _ Hrep). cbn [snd]. apply u32_small. lia. Qed.

Lemma link_first :
  pre = [] -> post = [] ->
  link_node (que_addr (Z.of_nat i)) a (qstate s i m q) =
  Ret E_SUCCESS (linked_state s i m a x c pre post).
Proof.
  intros Epre Epost. destruct rep_nulls as [Hh Ht]. unfold link_node.
  rewrite (bind_Ret _ _ _ _ _ (qstate_get s i m q q Hi Hq)).
  unfold qn_data. rewrite (bind_Ret _ _ _ _ _ (qstate_load s i m q a)).
  assert (q_count q =? 0 = true) as Hz by (rewrite rep_count_zero, Epre, Epost; done).
  rewrite Hh, Ht, Hz. cbn [andb assert]. rewrite bind_ret_l.
  rewrite (bind_Ret _ _ _ _ _ (qstate_set s i m q q _ Hi Hq)).
  rewrite (bind_Ret _ _ _ _ _ (qstate_set s i m _ q _ Hi Hq)).
  unfold linked_state, set_q_count, set_q_head, set_q_tail.
  cbn [q_head q_tail q_count q_compare]. rewrite (rep_compare _ _ _ Hrep), Epre, Epost. done.
Qed.

Lemma link_last :
  pre <> [] -> post = [] -> c = NULL ->
  link_node (que_addr (Z.of_nat i)) a (qstate s i m q) =
  Ret E_SUCCESS (linked_state s i m a x c pre post).
Proof.
  intros Hp Epost Hc. destruct rep_nulls as [Hh Ht]. unfold link_node.
  rewrite (bind_Ret _ _ _ _ _ (qstate_get s i m q q Hi Hq)).
  unfold qn_data. rewrite (bind_Ret _ _ _ _ _ (qstate_load s i m q a)).
  assert (q_count q =? 0 = false) as Hz.
  { rewrite rep_count_zero, Epost. now destruct pre. }
  rewrite Hh, Ht, Hz. cbn [andb negb assert]. rewrite bind_ret_l.
  rewrite (rep_compare _ _ _ Hrep), Hc. change (fst (NULL, _) =? NULL) with true. cbv iota.
  unfold set_qn_next. rewrite (bind_Ret _ _ _ _ _ (qstate_store s i m q _ _)).
  rewrite (bind_Ret _ _ _ _ _ (qstate_set s i _ q q _ Hi Hq)).
  rewrite (bind_Ret _ _ _ _ _ (qstate_set s i _ _ q _ Hi Hq)).
  unfold linked_state, set_q_count, set_q_tail, ret, linked. cbn [q_head q_tail q_count q_compare].
  rewrite count_succ, (rep_tail _ _ _ Hrep), (rep_compare _ _ _ Hrep).
  rewrite (qchain_head _ _ _ (rep_chain _ _ _ Hrep)). cbn [fst snd].
  destruct (exists_last Hp) as (l & [b e] & El). rewrite Epost, El, Hc.
  rewrite app_nil_r, last_snoc, !tail_of_snoc. destruct l; done.
Qed.

Lemma link_place (Hpl : placement (qstate s i m q) c x pre post) :
  pre ++ post <> [] -> c <> NULL ->
  link_node (que_addr (Z.of_nat i)) a (qstate s i m q) =
  Ret E_SUCCESS (linked_state s i (st32 m (a + 4) (head_of post)) a x c pre post).
Proof.
  intros Hne Hc. destruct rep_nulls as [Hh Ht]. unfold link_node.
  rewrite (bind_Ret _ _ _ _ _ (qstate_get s i m q q Hi Hq)).
  unfold qn_data. rewrite (bind_Ret _ _ _ _ _ (qstate_load s i m q a)). rewrite Hx.
  assert (q_count q =? 0 = false) as Hz.
  { rewrite rep_count_zero. now destruct (pre ++ post). }
  rewrite Hh, Ht, Hz. cbn [andb negb assert]. rewrite bind_ret_l.
  rewrite (rep_compare _ _ _ Hrep). cbn [fst]. destruct (Z.eqb_spec c NULL); [done|].
  destruct Hpl as [[? _]|(law & V1 & V2 & V3 & V4)]; [done|].
  assert (Forall (fun b => 0 < b) (nodes_of (pre ++ post))) as Hpos.
  { eapply Forall_impl; [exact Hok|]. intros b Hb. now apply node_ok_bounds in Hb. }
  assert (Z.of_nat (length pre) <= 2 ^ 29) as Hl by (rewrite length_app in Hlen; lia).
  rewrite (bind_Ret _ _ _ _ _
    (ordered_loop c x pre post _ (qstate s i m q) (rep_chain _ _ _ Hrep) Hpos Hl V1 V2 V3 V4)).
  unfold set_qn_next. rewrite (bind_Ret _ _ _ _ _ (qstate_store s i m q _ _)).
  rewrite (bind_Ret _ _ _ _ _ (link_between s i _ q q a x pre post H Hi Hq Hok Hne
    (qchain_head _ _ _ (rep_chain _ _ _ Hrep)) (rep_tail _ _ _ Hrep))).
  rewrite (bind_Ret _ _ _ _ _ (qstate_set s i _ _ q _ Hi Hq)).
  unfold linked_state, set_q_count, ret. cbn [q_head q_tail q_count q_compare].
  now rewrite count_succ, (rep_compare _ _ _ Hrep).
Qed.
End Link.

(** Whatever the way, the state is that of [insert_placed]. *)
Lemma link_node_eq s i m q a x c (pre post : list node) H :
  (i < 8)%nat -> queues (st_qs s) !! i = Some q -> que_rep m q (c, pre ++ post) ->
  Forall (node_ok H) (nodes_of (pre ++ post)) -> Z.of_nat (length (pre ++ post)) <= 2 ^ 29 ->
  ld32 m a = x -> ld32 m (a + 4) = 0 -> placement (qstate s i m q) c x pre post ->
  exists m2, link_node (que_addr (Z.of_nat i)) a (qstate s i m q) =
    Ret E_SUCCESS (linked_state s i m2 a x c pre post) /\
  (m2 = m /\ post = [] \/ m2 = st32 m (a + 4) (head_of post)).
Proof.
  intros Hi Hq Hrep Hok Hlen Hx Hn Hpl.
  destruct (decide (pre ++ post = [])) as [[-> ->]%app_eq_nil|Hne].
  - exists m. split; [|now left]. eapply link_first; eassumption || done.
  - destruct (Z.eq_dec c NULL) as [Hc|Hc].
    + assert (post = []) as Hpost by (destruct Hpl as [[_ H']|(law & _)]; [done|destruct (cmp_nonnull Hc)]).
      exists m. split; [|now left]. eapply link_last; try eassumption.
      intros ->. now rewrite Hpost in Hne.
    + exists (st32 m (a + 4) (head_of post)). split; [|now right]. eapply link_place; eassumption.
Qed.

Lemma que_insert_nodes H a F Q s i c x (pre post : list node) :
  qs_inv H [] (a :: F) Q s -> Q !! i = Some (c, pre ++ post) -> 0 <= x < 2 ^ 32 ->
  placement s c x pre post ->
  exists s', que_insert (que_addr (Z.of_nat i)) x s = Ret E_SUCCESS s' /\
    qs_inv H [] F (<[i := (c, pre ++ (a, x) :: post)]> Q) s' /\ que_frame H s s'.
Proof.
  intros Hinv Hi Hx Hpl. destruct (qnode_alloc_spec _ _ _ _ _ _ Hinv)
    as (s1 & E & Hinv1 & Hfr & _ & Hz).
  destruct (que_view _ _ _ _ _ _ _ _ Hinv1 Hi) as (q & Hlt & Hq & Hrep & Es & _).
  pose proof (qs_inv_length _ _ _ _ _ _ _ Hinv1 Hi) as Hlen.
  destruct (qs_inv_nodes _ _ _ _ _ _ _ Hinv1 Hi) as [Hok Hsep].
  cbn [snd app] in Hok, Hsep, Hlen. pose proof Hok as [Ha Hok']%Forall_cons.
  pose proof (node_ok_bounds _ _ Ha) as Hb. destruct (separated_cons _ _ Hsep) as [Hap _].
  set (m := st32 (st_mem s1) a x).
  assert (agree (away [a]) (st_mem s1) m) as Hag.
  { intros y Hy. apply agree_st32. specialize (Hy a ltac:(left)). unfold outside in *. lia. }
  assert (que_rep m q (c, pre ++ post)) as Hrep1.
  { eapply que_rep_away; [exact Hag| |exact Hrep].
    intros y b ->%list_elem_of_singleton Hb'. now apply Hap. }
  assert (ld32 m a = x) as E1 by (apply ld32_st32_eq; lia).
  assert (ld32 m (a + 4) = 0) as E2 by (unfold m; rewrite ld32_st32_ne by lia; exact Hz).
  assert (placement (qstate s1 i m q) c x pre post) as Hpl1.
  { eapply placement_stable; [|exact Hpl]. destruct (que_frame_others _ _ _ Hfr) as (_ & _ & Hps & _).
    exact Hps. }
  destruct (link_node_eq s1 i m q a x c pre post H Hlt Hq Hrep1 Hok' Hlen E1 E2 Hpl1)
    as (m2 & El & Hm2).
  assert (ld32 m2 a = x /\ ld32 m2 (a + 4) = head_of post /\ agree (away [a]) (st_mem s1) m2)
    as (M1 & M2 & M3).
  { destruct Hm2 as [[-> ->] | -> ]; [done|]. rewrite ld32_st32_ne by lia.
    split; [done|]. split.
    - apply ld32_st32_eq. destruct post as [|[b d] post]; [cbn; unfold NULL; lia|].
      rewrite nodes_of_app in Hok'. apply Forall_app in Hok' as [_ [Hb'%node_ok_bounds _]%Forall_cons].
      cbn in *. lia.
    - etransitivity; [exact Hag|]. apply agree_st32_away; [left|lia]. }
  destruct (insert_placed H a F Q s1 i c x pre post m2 Hinv1 Hi M1 M2 M3) as [Hfin Hout].
  exists (linked_state s1 i m2 a x c pre post). split; [|split; [exact Hfin|]].
  - rewrite (que_insert_link i x a q s s1 Hlt ltac:(unfold NULL; lia) Hx E Hq). exact El.
  - eapply que_frame_trans; [exact Hfr|]. now apply que_frame_intro.
Qed.

(** ** Removal of a given datum *)

Definition find_body (data : Z) : Z * Z -> K (Z * Z + Z * Z) :=
  fun '(prev, curr) =>
    if negb (curr =? NULL) then
      d <- qn_data curr ;;
      if negb (data =? d) then nx <- qn_next curr ;; ret (inl (curr, nx))
      else ret (inr (prev, curr))
    else ret (inr (prev, curr)).

Lemma find_skip x (pre rest : list node) k p s n :
  qchain (st_mem s) p (pre ++ rest) -> Forall (fun b => 0 < b) (nodes_of pre) ->
  Forall (fun y => snd y <> x) pre ->
  loopN (length pre + n) (find_body x) (k, p) s =
  loopN n (find_body x) (from_option fst k (last pre), head_of rest) s.
Proof.
  intros Hc Hpos Hpre. revert k p Hc. induction pre as [|[b d] pre IH]; intros k p Hc.
  - apply qchain_head in Hc. cbn [app] in Hc. now subst.
  - cbn [nodes_of map fst app qchain] in *. destruct Hc as (-> & Hd & Hc).
    apply Forall_cons in Hpos as [Hb Hpos]. apply Forall_cons in Hpre as [Hk Hpre].
    cbn [snd length Nat.add] in *.
    rewrite loopN_step with (a' := (b, ld32 (st_mem s) (b + 4))) (s' := s).
    + rewrite (IH Hpos Hpre _ _ Hc). rewrite last_cons. now destruct (last pre).
    + unfold find_body. destruct (Z.eqb_spec b NULL); [unfold NULL in *; lia|]. cbn [negb].
      unfold qn_data, qn_next. erewrite bind_Ret by reflexivity. rewrite Hd.
      destruct (Z.eqb_spec x d); [congruence|]. reflexivity.
Qed.

Lemma find_loop x (pre rest : list node) p s :
  qchain (st_mem s) p (pre ++ rest) -> Forall (fun b => 0 < b) (nodes_of (pre ++ rest)) ->
  Z.of_nat (length pre) <= 2 ^ 29 -> Forall (fun y => snd y <> x) pre ->
  match rest with [] => True | y :: _ => snd y = x end ->
  loop (find_body x) (NULL, p) s = Ret (tail_of pre, head_of rest) s.
Proof.
  intros Hc Hpos Hlen Hpre Hrest. apply (loop_intro _ (length pre + 1)); [lia|].
  rewrite nodes_of_app in Hpos. apply Forall_app in Hpos as [Hp1 Hp2].
  rewrite (find_skip _ _ _ _ _ _ _ Hc Hp1 Hpre).
  destruct (qchain_app_inv _ _ _ _ Hc) as (r & Hr).
  apply loopN_done. unfold find_body. destruct rest as [|[b d] rest]; [reflexivity|].
  pose proof (qchain_head _ _ _ Hr) as ->. destruct Hr as (_ & Hd & _).
  apply Forall_cons in Hp2 as [Hb _]. cbn in Hb, Hrest. cbn [head_of head from_option fst].
  destruct (Z.eqb_spec b NULL); [unfold NULL in *; lia|]. cbn [negb].
  unfold qn_data. erewrite bind_Ret by reflexivity. rewrite Hd, Hrest, Z.eqb_refl. reflexivity.
Qed.

Definition unlinked (m : memory) (v : Z) (pre : list node) : memory :=
  match last pre with None => m | Some (p, _) => st32 m (p + 4) v end.

Lemma unlinked_chain H m b x (pre post : list node) p :
  Forall (node_ok H) (nodes_of (pre ++ (b, x) :: post)) ->
  qchain m p (pre ++ (b, x) :: post) -> separated (nodes_of (pre ++ (b, x) :: post)) ->
  qchain (unlinked m (head_of post) pre) (head_of (pre ++ post)) (pre ++ post).
Proof.
  intros Hok Hc Hsep. destruct (qchain_app_inv _ _ _ _ Hc) as (r & Hr).
  cbn [qchain] in Hr. destruct Hr as (_ & _ & Hr). pose proof (qchain_head _ _ _ Hr) as Er.
  rewrite Er in Hr. pose proof (qchain_head _ _ _ Hc) as ->. unfold unlinked.
  destruct (last pre) as [[q e]|] eqn:El; [|apply last_None in El as ->; exact Hr].
  apply last_Some in El as (pre' & ->). rewrite <- !app_assoc in *. cbn [app] in *.
  rewrite nodes_of_app in Hok, Hsep. pose proof Hsep as [_ Hs2]%separated_app. cbn in Hs2.
  destruct (separated_cons _ _ Hs2) as [Hap _].
  assert (qchain m (head_of (pre' ++ (q, e) :: post)) (pre' ++ (q, e) :: (b, x) :: post)) as Hc'
    by (now destruct pre').
  eapply qchain_relink; [exact Hc'| | |].
  - rewrite nodes_of_app. apply (separated_app _ (b :: nodes_of post)).
    rewrite <- app_assoc. exact Hsep.
  - destruct post as [|[y f] post]; [cbn; unfold NULL; lia|].
    apply Forall_app in Hok as [_ Hok]. cbn in *. rewrite !Forall_cons in Hok.
    destruct Hok as (_ & _ & Hy%node_ok_bounds & _). lia.
  - eapply (qchain_away [q]); [apply agree_st32_away; [left|lia]| |exact Hr].
    intros y z ->%list_elem_of_singleton Hz. apply Hap. now right.
Qed.

Lemma unlink_between s i m q q0 v (pre post : list node) H :
  (i < 8)%nat -> queues (st_qs s) !! i = Some q0 -> Forall (node_ok H) (nodes_of pre) ->
  (if tail_of pre =? NULL then que_set (que_addr (Z.of_nat i)) (set_q_head v)
   else store32 (tail_of pre + 4) v) (qstate s i m q) =
  Ret tt (qstate s i (unlinked m v pre)
    (Queue (match pre with [] => v | _ => q_head q end) (q_tail q) (q_count q) (q_compare q))).
Proof.
  intros Hi Hq Hok. rewrite (tail_of_null _ _ Hok). unfold unlinked.
  destruct (last pre) as [[p e]|] eqn:El.
  - apply last_Some in El as (l & ->). rewrite tail_of_snoc.
    destruct l; cbn [app]; cbv iota; rewrite (qstate_store s i m q _ v); now destruct q.
  - apply last_None in El as ->. exact (qstate_set s i m q q0 (set_q_head v) Hi Hq).
Qed.

Lemma unlinked_agree H m v (pre : list node) :
  Forall (node_ok H) (nodes_of pre) ->
  agree (away (nodes_of pre)) m (unlinked m v pre) /\
  agree (fun y => ~ H y) m (unlinked m v pre).
Proof.
  intros Hok. assert (agree (away (nodes_of pre)) m (unlinked m v pre)) as Hag.
  { unfold unlinked. destruct (last pre) as [[p e]|] eqn:El; [|reflexivity].
    apply agree_st32_away; [|lia]. apply last_Some in El as (l & ->).
    rewrite nodes_of_app. apply elem_of_app. right. left. }
  split; [exact Hag|]. eapply agree_away_outside; eassumption.
Qed.

(** The queue without the node [b], which is held. *)
Lemma unlink_inv H F Q s i c b x (pre post : list node) :
  qs_inv H [] F Q s -> Q !! i = Some (c, pre ++ (b, x) :: post) ->
  let m := unlinked (st_mem s) (head_of post) pre in
  qs_inv H [b] F (<[i := (c, pre ++ post)]> Q)
    (qstate s i m (Queue (head_of (pre ++ post)) (tail_of (pre ++ post))
       (Z.of_nat (length (pre ++ post))) c)) /\
  agree (fun y => ~ H y) (st_mem s) m /\
  ld32 (st_mem s) (b + 4) = head_of post /\ ld32 m (b + 4) = head_of post.
Proof.
  intros Hinv Hi m. destruct (qs_inv_nodes _ _ _ _ _ _ _ Hinv Hi) as [Hok Hsep].
  cbn [snd app] in Hok, Hsep.
  destruct (qs_inv_lookup _ _ _ _ _ _ _ Hinv Hi) as (q & Hq & [R1 R2 R3 R4] & Hlt).
  cbn [fst snd] in R1, R2, R3, R4. pose proof Hok as Hok0. rewrite nodes_of_app in Hok0.
  apply Forall_app in Hok0 as [Hok1 [Hb Hok2]%Forall_cons].
  destruct (unlinked_agree H (st_mem s) (head_of post) pre Hok1) as [Hag Hout].
  assert (ld32 (st_mem s) (b + 4) = head_of post) as Hnx.
  { destruct (qchain_app_inv _ _ _ _ R3) as (r & (_ & _ & Hr)). now apply qchain_head in Hr. }
  split; [|split; [exact Hout|split; [exact Hnx|]]].
  - eapply qs_inv_update; [exact Hinv|exact Hi| | |].
    + eapply agree_weaken; [|exact Hag]. intros y Hy. cbn [app snd] in Hy.
      rewrite nodes_of_app in Hy. now apply away_app in Hy.
    + split; [done|done| |done]. eapply unlinked_chain; eassumption.
    + cbn [snd app]. rewrite !nodes_of_app. apply Permutation_middle.
  - rewrite <- Hnx. rewrite nodes_of_app in Hsep.
    refine (proj2 (ld32_away (nodes_of pre) _ _ b Hag _)).
    intros a Ha. apply (separated_apart _ _ _ _ Hsep Ha). left.
Qed.

Lemma tail_of_remove b x (pre post : list node) :
  tail_of (pre ++ post) =
  match post with [] => tail_of pre | _ => tail_of (pre ++ (b, x) :: post) end.
Proof.
  destruct post as [|y post]; [now rewrite app_nil_r|].
  unfold tail_of. now rewrite !last_app_cons, last_cons_cons.
Qed.

Lemma que_remove_by_nodes H F Q s i c b x (pre post : list node) :
  qs_inv H [] F Q s -> Q !! i = Some (c, pre ++ (b, x) :: post) -> x <> NULL ->
  Forall (fun y => snd y <> x) pre ->
  exists s', que_remove_by (que_addr (Z.of_nat i)) x s = Ret E_SUCCESS s' /\
    qs_inv H [] (b :: F) (<[i := (c, pre ++ post)]> Q) s' /\ que_frame H s s'.
Proof.
  intros Hinv Hi Hx Hpre. destruct (que_view _ _ _ _ _ _ _ _ Hinv Hi)
    as (q & Hlt & Hq & Hrep & Es & Hcnt & Hhn & Htn).
  destruct (unlink_inv _ _ _ _ _ _ _ _ _ _ Hinv Hi) as (Hinv' & Hout & Hnx & Hnx').
  destruct (qnode_free_spec _ _ _ _ _ _ Hinv') as (s' & E & Hs' & Hfr & _).
  exists s'. split; [|split; [exact Hs'|]].
  2:{ eapply que_frame_trans; [|exact Hfr]. now apply que_frame_intro. }
  destruct (qs_inv_nodes _ _ _ _ _ _ _ Hinv Hi) as [Hok _]. cbn [snd app] in Hok.
  destruct Hrep as [R1 R2 R3 R4]. cbn [fst snd] in R1, R2, R3, R4.
  assert (Forall (fun a => 0 < a) (nodes_of (pre ++ (b, x) :: post))) as Hpos.
  { eapply Forall_impl; [exact Hok|]. intros a Ha. now apply node_ok_bounds in Ha. }
  rewrite length_app in R2. cbn [length] in R2. pose proof Hok as Hok0.
  rewrite nodes_of_app in Hok0. apply Forall_app in Hok0 as [Hok1 [Hb Hok2]%Forall_cons].
  cbn [fst] in Hb. apply node_ok_bounds in Hb.
  pose proof (que_addr_nonnull (Z.of_nat i) ltac:(lia)) as Hqn.
  unfold que_remove_by, assert. rewrite Es.
  destruct (Z.eqb_spec (que_addr (Z.of_nat i)) NULL); [done|]. cbn [negb]. rewrite bind_ret_l.
  destruct (Z.eqb_spec x NULL); [done|].
  rewrite (bind_Ret _ _ _ _ _ (qstate_get s i (st_mem s) q q Hlt Hq)).
  zcase (q_count q) 1; [lia|]. rewrite Hhn, Htn.
  destruct (Z.eqb_spec (q_count q) 0); [lia|]. cbn [negb andb]. rewrite bind_ret_l.
  rewrite (bind_Ret _ _ _ _ _ (find_loop x pre ((b, x) :: post) _ (qstate s i (st_mem s) q)
    R3 Hpos ltac:(lia) Hpre eq_refl)).
  cbn [head_of head from_option fst]. destruct (Z.eqb_spec b NULL); [unfold NULL in *; lia|].
  unfold qn_next, set_qn_next.
  rewrite (bind_Ret _ _ _ _ _ (qstate_load s i (st_mem s) q (b + 4))), Hnx.
  rewrite (bind_Ret _ _ _ _ _ (unlink_between s i _ q q (head_of post) pre post H Hlt Hq Hok1)).
  rewrite (bind_Ret _ _ _ _ _ (qstate_load s i _ _ (b + 4))), Hnx'.
  match goal with |- bind ?w _ (qstate _ _ ?m ?q1) = _ =>
    assert (w (qstate s i m q1) = Ret tt (qstate s i m
      (Queue (head_of (pre ++ post)) (tail_of (pre ++ post)) (q_count q) c))) as Ew end.
  { rewrite (head_of_null _ _ Hok2), (tail_of_remove b x), (qchain_head _ _ _ R3), R1, R4.
    destruct post as [|y post]; cbn [when].
    - rewrite (qstate_set s i _ _ q _ Hlt Hq). unfold set_q_tail. rewrite app_nil_r.
      now destruct pre.
    - unfold ret. now destruct pre. }
  rewrite (bind_Ret _ _ _ _ _ Ew), (bind_Ret _ _ _ _ _ (qstate_set s i _ _ q _ Hlt Hq)).
  unfold set_q_count. cbn [q_head q_tail q_count q_compare]. rewrite u32_small by lia.
  replace (q_count q - 1) with (Z.of_nat (length (pre ++ post))) by (rewrite length_app; lia).
  mstep E. reflexivity.
Qed.

(** ** The operations on the abstract queues *)

Lemma hold_lookup (Q : list aqueue) V i c l :
  map contents Q = V -> V !! i = Some (c, l) ->
  exists ns : list node, Q !! i = Some (c, ns) /\ map snd ns = l.
Proof.
  intros <- Hi. apply list_lookup_fmap_Some in Hi as ([c' ns] & E & Hi).
  unfold contents in E. cbn in E. injection E as -> ->. eauto.
Qed.

Lemma hold_insert (Q : list aqueue) V i c (ns : list node) :
  map contents Q = V -> map contents (<[i := (c, ns)]> Q) = <[i := (c, map snd ns)]> V.
Proof. intros <-. exact (list_fmap_insert contents Q i (c, ns)). Qed.

Lemma insert_step H n V s i c x (pre post : list node) Q F :
  qs_inv H [] F Q s -> length F = S n -> map contents Q = V ->
  Q !! i = Some (c, pre ++ post) -> 0 <= x < 2 ^ 32 -> placement s c x pre post ->
  exists s', que_insert (que_addr (Z.of_nat i)) x s = Ret E_SUCCESS s' /\
    queues_hold H n (<[i := (c, map snd pre ++ x :: map snd post)]> V) s' /\ que_frame H s s'.
Proof.
  intros Hinv Hn HV Hi Hx Hpl. destruct F as [|a F]; [done|].
  destruct (que_insert_nodes _ _ _ _ _ _ _ _ _ _ Hinv Hi Hx Hpl) as (s' & E & Hs' & Hfr).
  exists s'. split; [exact E|]. split; [|exact Hfr]. exists F, (<[i := (c, pre ++ (a, x) :: post)]> Q).
  split; [exact Hs'|]. split; [cbn in Hn; lia|]. rewrite (hold_insert _ _ _ _ _ HV).
  now rewrite map_app.
Qed.

Lemma insert_fifo H n V s i l x :
  queues_hold H (S n) V s -> V !! i = Some (NULL, l) -> 0 <= x < 2 ^ 32 ->
  exists s', que_insert (que_addr (Z.of_nat i)) x s = Ret E_SUCCESS s' /\
    queues_hold H n (<[i := (NULL, l ++ [x])]> V) s' /\ que_frame H s s'.
Proof.
  intros (F & Q & Hinv & Hn & HV) Hi Hx.
  destruct (hold_lookup _ _ _ _ _ HV Hi) as (ns & HQ & <-).
  rewrite <- (app_nil_r ns) in HQ.
  eapply (insert_step H n V s i NULL x ns []); try eassumption. now left.
Qed.

Lemma insert_ordered H n V s i c {law : ComparatorLaw c} l x :
  queues_hold H (S n) V s -> V !! i = Some (c, l) -> 0 <= x < 2 ^ 32 ->
  cmp_valid s x -> Forall (cmp_valid s) l ->
  exists s', que_insert (que_addr (Z.of_nat i)) x s = Ret E_SUCCESS s' /\
    queues_hold H n (<[i := (c, insert_by (cmp_key s) x l)]> V) s' /\ que_frame H s s'.
Proof.
  intros (F & Q & Hinv & Hn & HV) Hi Hx Hvx Hvl.
  destruct (hold_lookup _ _ _ _ _ HV Hi) as (ns & HQ & <-).
  destruct (insert_by_split (cmp_key s) x ns) as (pre & post & -> & H1 & H2 & ->).
  eapply insert_step; try eassumption. right. exists law. split; [exact Hvx|].
  split; [|split; assumption]. exact (proj1 (Forall_map _ _ _) Hvl).
Qed.

Lemma remove_hold H n V s i c x l :
  queues_hold H n V s -> V !! i = Some (c, x :: l) ->
  exists s', que_remove (que_addr (Z.of_nat i)) true s = Ret (E_SUCCESS, Some x) s' /\
    queues_hold H (S n) (<[i := (c, l)]> V) s' /\ que_frame H s s'.
Proof.
  intros (F & Q & Hinv & Hn & HV) Hi.
  destruct (hold_lookup _ _ _ _ _ HV Hi) as ([|[a d] ns] & HQ & E); [done|].
  injection E as -> <-. destruct (que_remove_nodes _ _ _ _ _ _ _ _ _ Hinv HQ) as (s' & E & Hs' & Hfr).
  exists s'. split; [exact E|]. split; [|exact Hfr]. eexists _, _. split; [exact Hs'|].
  split; [cbn; now rewrite Hn|]. apply (hold_insert _ _ _ _ _ HV).
Qed.

Lemma remove_hold_empty H n V s i c :
  queues_hold H n V s -> V !! i = Some (c, []) ->
  que_remove (que_addr (Z.of_nat i)) true s = Ret (E_EMPTY, None) s.
Proof.
  intros (F & Q & Hinv & Hn & HV) Hi.
  destruct (hold_lookup _ _ _ _ _ HV Hi) as ([|[a d] ns] & HQ & E); [|done].
  eapply que_remove_empty; eassumption.
Qed.

Lemma peek_hold H n V s i c l :
  queues_hold H n V s -> V !! i = Some (c, l) ->
  que_peek (que_addr (Z.of_nat i)) true s =
  Ret (match l with [] => (E_EMPTY, None) | d :: _ => (E_SUCCESS, Some d) end) s.
Proof.
  intros (F & Q & Hinv & Hn & HV) Hi.
  destruct (hold_lookup _ _ _ _ _ HV Hi) as (ns & HQ & <-).
  rewrite (que_peek_eq _ _ _ _ _ _ _ _ Hinv HQ). now destruct ns as [|[a d] ns].
Qed.

Lemma length_hold H n V s i c l :
  queues_hold H n V s -> V !! i = Some (c, l) -> queue_free (st_qs s) !! i = Some QUE_INUSE ->
  que_length (que_addr (Z.of_nat i)) s = Ret (Z.of_nat (length l)) s.
Proof.
  intros (F & Q & Hinv & Hn & HV) Hi Hf.
  destruct (hold_lookup _ _ _ _ _ HV Hi) as (ns & HQ & <-).
  rewrite (que_length_eq _ _ _ _ _ _ _ _ Hinv HQ Hf). now rewrite length_map.
Qed.

Lemma remove_by_hold H n V s i c x l :
  queues_hold H n V s -> V !! i = Some (c, l) -> x <> NULL -> x ∈ l ->
  exists s', que_remove_by (que_addr (Z.of_nat i)) x s = Ret E_SUCCESS s' /\
    queues_hold H (S n) (<[i := (c, remove_first x l)]> V) s' /\ que_frame H s s'.
Proof.
  intros (F & Q & Hinv & Hn & HV) Hi Hx Hin.
  destruct (hold_lookup _ _ _ _ _ HV Hi) as (ns & HQ & <-).
  destruct (remove_first_split x ns) as [[Hni _]|(pre & b & post & -> & Hpre & ->)]; [done|].
  destruct (que_remove_by_nodes _ _ _ _ _ _ _ _ _ _ Hinv HQ Hx Hpre) as (s' & E & Hs' & Hfr).
  exists s'. split; [exact E|]. split; [|exact Hfr]. eexists _, _. split; [exact Hs'|].
  split; [cbn; now rewrite Hn|]. rewrite (hold_insert _ _ _ _ _ HV). now rewrite map_app.
Qed.

Lemma remove_by_hold_absent H n V s i c x l :
  queues_hold H n V s -> V !! i = Some (c, l) -> x <> NULL -> ~ x ∈ l ->
  que_remove_by (que_addr (Z.of_nat i)) x s =
  Ret (match l with [] => E_EMPTY | _ => E_NOT_FOUND end) s.
Proof.
  intros (F & Q & Hinv & Hn & HV) Hi Hx Hin.
  destruct (hold_lookup _ _ _ _ _ HV Hi) as (ns & HQ & <-).
  destruct (que_view _ _ _ _ _ _ _ _ Hinv HQ) as (q & Hlt & Hq & Hrep & Es & Hcnt & Hhn & Htn).
  pose proof (qs_inv_length _ _ _ _ _ _ _ Hinv HQ) as Hlen.
  destruct (qs_inv_nodes _ _ _ _ _ _ _ Hinv HQ) as [Hok _]. cbn [snd app] in Hok, Hlen.
  assert (Forall (fun a => 0 < a) (nodes_of ns)) as Hpos.
  { eapply Forall_impl; [exact Hok|]. intros a Ha. now apply node_ok_bounds in Ha. }
  destruct (remove_first_split x ns) as [[_ Hne]|(pre & b & post & -> & _)].
  2:{ exfalso. apply Hin. rewrite map_app. apply elem_of_app. right. left. }
  destruct Hrep as [R1 R2 R3 R4]. cbn [fst snd] in R1, R2, R3, R4.
  pose proof (que_addr_nonnull (Z.of_nat i) ltac:(lia)) as Hqn.
  unfold que_remove_by, assert.
  destruct (Z.eqb_spec (que_addr (Z.of_nat i)) NULL); [done|]. cbn [negb]. rewrite bind_ret_l.
  destruct (Z.eqb_spec x NULL); [done|]. mstep (get_que_ok i q s Hlt Hq).
  destruct ns as [|[b d] ns]; [now rewrite R2|]. cbn [length] in R2. zcase (q_count q) 1; [lia|].
  rewrite Hhn, Htn. destruct (Z.eqb_spec (q_count q) 0); [lia|]. cbn [negb andb].
  rewrite bind_ret_l. rewrite <- (app_nil_r ((b, d) :: ns)) in R3, Hpos.
  rewrite (bind_Ret _ _ _ _ _ (find_loop x ((b, d) :: ns) [] _ s R3 Hpos Hlen Hne I)).
  reflexivity.
Qed.
End Operations.
