(* ===== verification/QueuesPages.v ===== *)
(** kernel/queues.c and kernel/kmem.c together: the nodes that a page provides,
    and how queue handles are given out and taken back. *)

From S2P Require Import Prelude Memory State Lib LibMem Sio Cio Kmem KmemInv KmemSpec Queues QueuesInv QueuesSpec.

Open Scope kernel_scope.

(** * Nodes from a page *)

(** Nodes [i] to [i + k - 1] of the page, in order. *)
Fixpoint nodes_from (a : Z) (i : Z) (k : nat) : list Z :=
  match k with O => [] | S k' => (a + SZ_QNODE * i) :: nodes_from a (i + 1) k' end.

Lemma nodes_from_length a i k : length (nodes_from a i k) = k.
Proof. revert i; induction k as [|k IH]; intros i; cbn; [done|now rewrite IH]. Qed.

Lemma nodes_from_In a i k b :
  b ∈ nodes_from a i k <-> exists j, i <= j < i + Z.of_nat k /\ b = a + SZ_QNODE * j.
Proof.
  revert i; induction k as [|k IH]; intros i; cbn [nodes_from].
  - split; [now intros ?%elem_of_nil|intros (j & ? & _); lia].
  - rewrite elem_of_cons, IH. split.
    + intros [->|(j & Hj & ->)]; [exists i; split; [lia|done]|exists j; split; [lia|done]].
    + intros (j & Hj & ->). destruct (Z.eq_dec j i) as [->|]; [now left|].
      right. exists j. split; [lia|done].
Qed.

Lemma nodes_from_separated a i k : separated (nodes_from a i k).
Proof.
  split.
  - revert i; induction k as [|k IH]; intros i; cbn [nodes_from]; [constructor|].
    constructor; [|apply IH]. intros (j & Hj & E)%nodes_from_In. unfold SZ_QNODE in E. lia.
  - intros x y (j & _ & ->)%nodes_from_In (j' & _ & ->)%nodes_from_In Hne.
    unfold apart, SZ_QNODE in *. lia.
Qed.

(** The region [H] grows by the page at [a]. *)
Definition with_page (H : Z -> Prop) (a : Z) (x : Z) : Prop := H x \/ a <= x < a + SZ_PAGE.

Lemma with_page_hold H a F Q s :
  qs_inv H [] F Q s -> 0 < a -> a + SZ_PAGE < 2 ^ 32 ->
  (forall x, a <= x < a + SZ_PAGE -> ~ H x) ->
  qs_inv (with_page H a) (nodes_from a 0 512) F Q s.
Proof.
  intros [H1 H2 H3 H4 H5 H6] Ha Hb Hd. unfold SZ_PAGE in *. cbn [app] in H5, H6.
  assert (forall x y, x ∈ nodes_from a 0 512 -> y ∈ F ++ all_nodes Q -> apart x y) as Hap.
  { intros x y (j & Hj & ->)%nodes_from_In Hy.
    pose proof (proj1 (Forall_forall _ _) H6 y Hy) as (_ & _ & HH). unfold apart, SZ_QNODE.
    destruct (Z_lt_le_dec y a) as [Hlt|Hge].
    - destruct (Z_lt_le_dec a (y + 8)); [|lia]. exfalso. apply (Hd (y + (a - y))); [lia|].
      apply HH. lia.
    - destruct (Z_lt_le_dec y (a + 4096)) as [Hlt|]; [|lia]. exfalso. apply (Hd (y + 0)); [lia|].
      apply HH. lia. }
  split; try done.
  - destruct (nodes_from_separated a 0 512) as [N1 N2]. destruct H5 as [N3 N4]. split.
    + apply NoDup_app. split; [done|]. split; [|done]. intros x Hx Hx'.
      pose proof (Hap x x Hx Hx'). unfold apart in *. lia.
    + intros x y [Hx|Hx]%elem_of_app [Hy|Hy]%elem_of_app Hne; [now apply N2|now apply Hap| |now apply N4].
      pose proof (Hap y x Hy Hx). unfold apart in *. lia.
  - apply Forall_app. split.
    + apply Forall_forall. intros x (j & Hj & ->)%nodes_from_In. unfold node_ok, with_page, SZ_QNODE.
      split; [lia|]. split; [lia|]. intros i Hi. right. unfold SZ_PAGE. lia.
    + eapply Forall_impl; [exact H6|]. intros x (? & ? & HH). split; [done|]. split; [done|].
      intros i Hi. left. now apply HH.
Qed.

(** Freeing the held nodes one after the other. *)
Lemma free_nodes_loop H a i k F Q s :
  0 < a -> a + SZ_QNODE * (i + Z.of_nat k) < 2 ^ 32 -> 0 <= i ->
  qs_inv H (nodes_from a i k) F Q s ->
  exists s', for_from i k (fun j => qnode_free (u32 (a + SZ_QNODE * j))) s = Ret tt s' /\
    (exists F', qs_inv H [] F' Q s' /\ F' = rev (nodes_from a i k) ++ F) /\ que_frame H s s'.
Proof.
  intros Ha. revert i F s. induction k as [|k IH]; intros i F s Hb Hi Hinv.
  - exists s. split; [reflexivity|]. split; [exists F; now split|apply que_frame_refl].
  - cbn [nodes_from] in Hinv. destruct (qnode_free_spec _ _ _ _ _ _ Hinv) as (s1 & E & Hinv1 & Hfr1 & _).
    destruct (IH (i + 1) _ _ ltac:(lia) ltac:(lia) Hinv1) as (s2 & E2 & (F' & HF & ->) & Hfr2).
    exists s2. split.
    + cbn [for_from]. rewrite u32_small by (unfold SZ_QNODE in *; lia). mstep E. exact E2.
    + split; [|eapply que_frame_trans; eassumption]. eexists. split; [exact HF|]. cbn [nodes_from rev].
      now rewrite <- app_assoc.
Qed.

Lemma km_frame_queues P s s' : km_frame P s s' -> st_qs s' = st_qs s.
Proof. now intros (m & fp & np & -> & _). Qed.

(** A memory change outside the region of the queues does not concern them. *)
Lemma qs_inv_outside H A F Q s s' :
  qs_inv H A F Q s -> st_qs s' = st_qs s -> agree H (st_mem s) (st_mem s') -> qs_inv H A F Q s'.
Proof.
  intros [H1 H2 H3 H4 H5 H6] E Hag.
  assert (forall b, b ∈ A ++ F ++ all_nodes Q -> forall i, 0 <= i < 8 ->
    ld8 (st_mem s') (b + i) = ld8 (st_mem s) (b + i)) as Hw.
  { intros b Hb i Hi. apply Hag. apply (proj1 (Forall_forall _ _) H6 b Hb). lia. }
  assert (forall b, b ∈ F ++ all_nodes Q -> ld32 (st_mem s') b = ld32 (st_mem s) b /\
    ld32 (st_mem s') (b + 4) = ld32 (st_mem s) (b + 4)) as Hl.
  { intros b Hb. assert (b ∈ A ++ F ++ all_nodes Q) as Hb' by (apply elem_of_app; now right).
    split; apply ld32_agree; intros i Hi; [apply Hw; [done|lia]|].
    replace (b + 4 + i) with (b + (4 + i)) by lia. apply Hw; [done|lia]. }
  split; rewrite ?E; try done.
  - assert (forall b, b ∈ F -> ld32 (st_mem s') (b + 4) = ld32 (st_mem s) (b + 4)) as HF
      by (intros b Hb; apply Hl, elem_of_app; now left).
    clear -H3 HF. revert H3. generalize (free_qnodes (st_qs s)).
    induction F as [|b F IH]; intros p; [done|]. cbn [fchain]. intros (-> & Hc).
    rewrite HF by left. split; [done|]. apply IH; [|done]. intros c Hc'. apply HF. now right.
  - apply Forall2_same_length_lookup_2; [eapply Forall2_length, H4|]. intros j q aq Hq Hj.
    pose proof (Forall2_lookup_lr _ _ _ _ _ _ H4 Hq Hj) as [R1 R2 R3 R4]. split; try done.
    assert (forall b, b ∈ nodes_of (snd aq) -> ld32 (st_mem s') b = ld32 (st_mem s) b /\
      ld32 (st_mem s') (b + 4) = ld32 (st_mem s) (b + 4)) as Hn.
    { intros b Hb. apply Hl, elem_of_app. right. eapply all_nodes_elem; eassumption. }
    clear -R3 Hn. revert R3. generalize (q_head q). destruct aq as [c l]. cbn [snd] in *.
    induction l as [|[b d] l IH]; intros p; [done|]. cbn [qchain]. intros (-> & Hd & Hc).
    destruct (Hn b ltac:(left)) as [-> ->]. split; [done|]. split; [done|].
    apply IH; [|done]. intros x Hx. apply Hn. now right.
Qed.

(** [qnode_add_page]: the page the allocator gives becomes 512 free nodes. *)
Lemma qnode_add_page_spec H l a l' F Q s :
  km_inv l s -> qs_inv H [] F Q s -> (forall x, H x -> ~ in_blocks l x) ->
  first_fit 1 l = Some (a, l') ->
  exists s', qnode_add_page s = Ret tt s' /\ km_inv l' s' /\
    (forall x, with_page H a x -> ~ in_blocks l' x) /\
    (exists s1, km_frame (in_blocks l) s s1 /\ que_frame (with_page H a) s1 s') /\
    exists F', qs_inv (with_page H a) [] F' Q s' /\ length F' = (512 + length F)%nat.
Proof.
  intros Hkm Hqs Hdis Hff. pose proof (km_page_alloc_refines 1 l s Hkm ltac:(lia)) as Hal.
  rewrite Hff in Hal. destruct Hal as (s1 & E1 & Hkm1 & Hfr1).
  pose proof (inv_ok _ _ Hkm) as Hok.
  destruct (first_fit_region 1 l a l' _ Hok ltac:(lia) Hff) as (R1 & R2 & _).
  rewrite Z.mul_1_r in R1, R2.
  destruct (first_fit_bounds 1 l a l' Hok ltac:(lia) Hff) as [Hlo Hhi].
  unfold KM_LOW_CUTOFF, KM_HIGH_CUTOFF, SZ_PAGE in Hlo, Hhi.
  assert (qs_inv H [] F Q s1) as Hqs1.
  { eapply qs_inv_outside; [exact Hqs|eapply km_frame_queues, Hfr1|].
    intros x Hx. eapply km_frame_mem; [exact Hfr1|]. now apply Hdis. }
  assert (qs_inv (with_page H a) (nodes_from a 0 512) F Q s1) as Hqs2.
  { apply with_page_hold; [done|lia|unfold SZ_PAGE; lia|].
    intros x Hx HH. apply (Hdis x HH), R1. now left. }
  destruct (free_nodes_loop _ a 0 512 F Q s1 ltac:(lia) ltac:(unfold SZ_QNODE; lia) ltac:(lia) Hqs2)
    as (s2 & E2 & (F' & HF & HF') & Hfr2).
  assert (forall x, with_page H a x -> ~ in_blocks l' x) as Hdis'.
  { intros x [HH|Hx] Hin; [|now apply (R2 x Hx)]. apply (Hdis x HH), R1. now right. }
  exists s2. split; [|split; [|split; [exact Hdis'|split; [eauto|]]]].
  - unfold qnode_add_page. mstep E1. unfold assert.
    destruct (Z.eqb_spec a NULL); [unfold NULL in *; lia|]. cbn [negb]. rewrite bind_ret_l. exact E2.
  - destruct Hfr2 as (m & q & -> & Hag & _). eapply (km_inv_write l' (up_qs (fun _ => q) s1)).
    + destruct Hkm1. now split.
    + intros b Hb i Hi. apply Hag. intros Hw. apply (Hdis' _ Hw).
      eapply header_in_blocks; [exact (inv_ok _ _ Hkm1)|exact Hb|lia].
  - exists F'. split; [exact HF|]. now rewrite HF', length_app, length_rev, nodes_from_length.
Qed.

(** Without a free page the queue module cannot go on. *)
Lemma qnode_add_page_none l s :
  km_inv l s -> first_fit 1 l = None ->
  qnode_add_page s = Panic "qnode_add_page: block" s.
Proof.
  intros Hkm Hff. pose proof (km_page_alloc_refines 1 l s Hkm ltac:(lia)) as Hal.
  rewrite Hff in Hal. unfold qnode_add_page. now mstep Hal.
Qed.

(** * Queue handles *)

(** The index of the first queue that is not in use. *)
Fixpoint first_set (fl : list Z) : option nat :=
  match fl with
  | [] => None
  | f :: fl' => if truth f then Some O else S <$> first_set fl'
  end.

Lemma first_set_Some fl i :
  first_set fl = Some i ->
  (exists f, fl !! i = Some f /\ truth f = true) /\
  forall j, (j < i)%nat -> exists f, fl !! j = Some f /\ truth f = false.
Proof.
  revert i; induction fl as [|f fl IH]; intros i; cbn [first_set]; [done|].
  destruct (truth f) eqn:Ef.
  - intros [= <-]. split; [eauto|]. intros j Hj. lia.
  - destruct (first_set fl) as [k|]; [|done]. intros [= <-].
    destruct (IH k eq_refl) as [H1 H2]. split; [exact H1|]. intros [|j] Hj; [cbn; eauto|].
    apply H2. lia.
Qed.

Lemma first_set_None fl j f : first_set fl = None -> fl !! j = Some f -> truth f = false.
Proof.
  revert j; induction fl as [|g fl IH]; intros j; cbn [first_set]; [done|].
  destruct (truth g) eqn:Eg; [done|]. destruct (first_set fl) as [k|] eqn:Ek; [done|].
  intros _. destruct j as [|j]; cbn; [now intros [= <-]|]. apply IH. reflexivity.
Qed.

Section Handles.
Context {L : Layout} {C : Comparators}.

Definition with_flag (i : nat) (f : Z) (s : kstate) : kstate :=
  up_qs (fun r => set_queue_free (<[i := f]> (queue_free r)) r) s.

Lemma qs_inv_flag H A F Q s i f : qs_inv H A F Q s -> qs_inv H A F Q (with_flag i f s).
Proof.
  intros [H1 H2 H3 H4 H5 H6]. split; try done. unfold with_flag. ksimpl.
  now rewrite length_insert.
Qed.

Lemma queues_hold_flags H n V s fl :
  queues_hold H n V s -> length fl = 8%nat -> queues_hold H n V (up_qs (set_queue_free fl) s).
Proof. intros (F & Q & [H1 H2 H3 H4 H5 H6] & Hn & HV) Hfl. exists F, Q. split; [now split|done]. Qed.

(** Clearing a queue; its nodes, if it holds any, are lost. *)
Lemma qs_inv_clear H F Q s i c0 (l : list node) c :
  qs_inv H [] F Q s -> Q !! i = Some (c0, l) ->
  qs_inv H [] F (<[i := (c, [])]> Q) (qstate s i (st_mem s) (Queue NULL NULL 0 c)).
Proof.
  intros Hinv Hi.
  assert (qs_inv H (nodes_of l) F (<[i := (c, [])]> Q) (qstate s i (st_mem s) (Queue NULL NULL 0 c)))
    as [H1 H2 H3 H4 H5 H6].
  { eapply qs_inv_update; [exact Hinv|exact Hi|reflexivity|split; done|].
    cbn. now rewrite app_nil_r. }
  split; try done; [now apply separated_app in H5|now apply Forall_app in H6].
Qed.

(** What the search of [que_alloc] finds. *)
Lemma flag_scan s fl :
  queue_free (st_qs s) = fl -> length fl = 8%nat ->
  loop (fun i =>
    if i <? N_QUEUES then
      fl <- qs queue_free ;;
      f <- aget "queue_free" fl i ;;
      if truth f then ret (inr i) else ret (inl (i + 1))
    else ret (inr i)) 0 s =
  Ret (match first_set fl with Some i => Z.of_nat i | None => 8 end) s.
Proof.
  intros Efl Hlen.
  assert (forall k f, fl !! k = Some f -> forall i, i = Z.of_nat k ->
    (if i <? N_QUEUES then
      fl <- qs queue_free ;;
      f <- aget "queue_free" fl i ;;
      if truth f then ret (inr i) else ret (inl (i + 1))
    else ret (inr i)) s = Ret (if truth f then inr i else inl (i + 1)) s) as Hbody.
  { intros k f Hk i ->. pose proof (lookup_lt_Some _ _ _ Hk). unfold N_QUEUES.
    destruct (Z.ltb_spec (Z.of_nat k) 8); [|lia]. unfold qs, gets. ksimpl. rewrite Efl.
    erewrite bind_Ret; [|apply aget_ok; [lia|rewrite Nat2Z.id; exact Hk]].
    now destruct (truth f). }
  destruct (first_set fl) as [i|] eqn:Ef.
  - destruct (first_set_Some _ _ Ef) as [(f & Hf & Ht) Hbefore].
    apply (loop_scan _ 0 (Z.of_nat i)); [lia| | |].
    + pose proof (lookup_lt_Some _ _ _ Hf). lia.
    + intros k Hk. destruct (Hbefore (Z.to_nat k) ltac:(lia)) as (g & Hg & Hgt).
      rewrite (Hbody _ _ Hg) by lia. now rewrite Hgt.
    + rewrite (Hbody _ _ Hf) by lia. now rewrite Ht.
  - apply (loop_scan _ 0 8); [lia|lia| |reflexivity].
    intros k Hk. destruct (lookup_lt_is_Some_2 fl (Z.to_nat k) ltac:(lia)) as (g & Hg).
    rewrite (Hbody _ _ Hg) by lia. now rewrite (first_set_None _ _ _ Ef Hg).
Qed.

(** [que_alloc] gives out the first queue not in use, cleared; NULL if there
    is none. *)
Lemma alloc_hold H n V s c :
  queues_hold H n V s ->
  match first_set (queue_free (st_qs s)) with
  | None => que_alloc c s = Ret NULL s
  | Some i =>
      exists s', que_alloc c s = Ret (que_addr (Z.of_nat i)) s' /\
        queues_hold H n (<[i := (c, [])]> V) s' /\
        queue_free (st_qs s') = <[i := QUE_INUSE]> (queue_free (st_qs s)) /\
        st_mem s' = st_mem s /\ st_ps s' = st_ps s /\ st_km s' = st_km s
  end.
Proof.
  intros (F & Q & Hinv & Hn & HV). pose proof (qi_flags _ _ _ _ _ Hinv) as Hfl.
  pose proof (flag_scan s _ eq_refl Hfl) as Hscan.
  destruct (first_set (queue_free (st_qs s))) as [i|] eqn:Ef.
  - destruct (first_set_Some _ _ Ef) as [(f & Hf & _) _]. pose proof (lookup_lt_Some _ _ _ Hf) as Hlt.
    rewrite Hfl in Hlt.
    destruct (lookup_lt_is_Some_2 Q i ltac:(rewrite (qi_queues _ _ _ _ _ Hinv); lia)) as ([c0 l] & HQ).
    set (s1 := with_flag i QUE_INUSE s).
    pose proof (qs_inv_flag _ _ _ _ _ i QUE_INUSE Hinv) as Hinv1. fold s1 in Hinv1.
    destruct (qs_inv_lookup _ _ _ _ _ _ _ Hinv1 HQ) as (q & Hq & _ & _).
    exists (qstate s1 i (st_mem s1) (Queue NULL NULL 0 c)). split; [|split; [|done]].
    + unfold que_alloc. mstep Hscan. unfold N_QUEUES.
      destruct (Z.leb_spec 8 (Z.of_nat i)); [lia|].
      assert (qs_set (fun r => set_queue_free (aset (queue_free r) (Z.of_nat i) QUE_INUSE) r) s
        = Ret tt s1) as E0.
      { unfold qs_set, modify, s1, with_flag, aset. now rewrite Nat2Z.id. }
      rewrite (bind_Ret _ _ _ _ _ E0). rewrite (qstate_id s1 i q Hq) at 1.
      rewrite !(bind_Ret _ _ _ _ _ (qstate_set s1 i _ _ q _ Hlt Hq)). reflexivity.
    + exists F, (<[i := (c, [])]> Q). split; [eapply qs_inv_clear; eassumption|].
      split; [exact Hn|]. exact (hold_insert _ _ _ _ [] HV).
  - unfold que_alloc. mstep Hscan. reflexivity.
Qed.

(** [que_free] marks the queue free and clears it. *)
Lemma free_hold H n V s (i : nat) :
  queues_hold H n V s -> (i < 8)%nat -> queue_free (st_qs s) !! i = Some QUE_INUSE ->
  exists s', que_free (que_addr (Z.of_nat i)) s = Ret tt s' /\
    queues_hold H n (<[i := (NULL, [])]> V) s' /\
    queue_free (st_qs s') = <[i := QUE_FREE]> (queue_free (st_qs s)) /\
    st_mem s' = st_mem s /\ st_ps s' = st_ps s /\ st_km s' = st_km s.
Proof.
  intros (F & Q & Hinv & Hn & HV) Hlt Hf.
  destruct (lookup_lt_is_Some_2 Q i ltac:(rewrite (qi_queues _ _ _ _ _ Hinv); lia)) as ([c0 l] & HQ).
  set (s1 := with_flag i QUE_FREE s).
  pose proof (qs_inv_flag _ _ _ _ _ i QUE_FREE Hinv) as Hinv1. fold s1 in Hinv1.
  destruct (qs_inv_lookup _ _ _ _ _ _ _ Hinv1 HQ) as (q & Hq & _ & _).
  exists (qstate s1 i (st_mem s1) (Queue NULL NULL 0 NULL)). split; [|split; [|done]].
  - unfold que_free. rewrite que_ix_addr by lia.
    destruct (Z.ltb_spec (Z.of_nat i) 0); [lia|]. cbn [when]. rewrite bind_ret_l.
    unfold qs at 1, gets. ksimpl.
    erewrite bind_Ret; [|apply aget_ok; [lia|rewrite Nat2Z.id; exact Hf]].
    change (truth QUE_INUSE) with false. cbn [when]. rewrite bind_ret_l.
    assert (qs_set (fun r => set_queue_free (aset (queue_free r) (Z.of_nat i) QUE_FREE) r) s
      = Ret tt s1) as E0.
    { unfold qs_set, modify, s1, with_flag, aset. now rewrite Nat2Z.id. }
    rewrite (bind_Ret _ _ _ _ _ E0). rewrite (qstate_id s1 i q Hq) at 1.
    rewrite !(bind_Ret _ _ _ _ _ (qstate_set s1 i _ _ q _ Hlt Hq)).
    rewrite (qstate_set s1 i _ _ q _ Hlt Hq). reflexivity.
  - exists F, (<[i := (NULL, [])]> Q). split; [eapply qs_inv_clear; eassumption|].
    split; [exact Hn|]. exact (hold_insert _ _ _ _ [] HV).
Qed.
End Handles.
