(* ===== verification/QueuesClaims.v ===== *)
(** The contract of the queues of kernel/queues.c, on the abstract queues. *)

From Stdlib Require Import Sorting.Sorted.
From S2P Require Import Prelude Memory State Lib LibMem Sio Cio Kmem KmemInv KmemSpec KmemClaims Queues QueuesInv QueuesSpec QueuesPages.

Open Scope kernel_scope.

(** ** Examples: the boot state with the first page above 2MB made into nodes *)

Definition no_queues : list (Z * list Z) := replicate 8 (NULL, []).
Definition example_region : Z -> Prop := with_page (fun _ => False) 0x200000.

Lemma example_region_high a : example_region a -> 0x200000 <= a.
Proof. intros [[]|H]. lia. Qed.

Lemma low_write m a v : 0 <= a < 0x100000 -> agree example_region m (st32 m a v).
Proof. intros Ha x Hx%example_region_high. apply ld8_st32_ne. lia. Qed.

Definition que_example : kstate :=
  final (for_from 0 512 (fun j => qnode_free (u32 (0x200000 + SZ_QNODE * j))))
    (boot_state ∅ (fun _ _ => 0)).

Lemma boot_queues :
  qs_inv (fun _ => False) [] [] (replicate 8 (NULL, [])) (boot_state ∅ (fun _ _ => 0)).
Proof.
  split; [done|done|done|cbn; repeat constructor| |constructor].
  split; [constructor|]. intros a b Ha. now apply elem_of_nil in Ha.
Qed.

Lemma que_example_holds : queues_hold example_region 512 no_queues que_example.
Proof.
  pose proof (with_page_hold _ 0x200000 _ _ _ boot_queues ltac:(lia) ltac:(unfold SZ_PAGE; lia)
    ltac:(tauto)) as H.
  destruct (free_nodes_loop _ 0x200000 0 512 [] _ _ ltac:(lia) ltac:(unfold SZ_QNODE; lia) ltac:(lia) H)
    as (s' & E & (F & HF & EF) & _).
  unfold que_example. rewrite (final_Ret _ _ _ _ E). exists F, (replicate 8 (NULL, [])).
  split; [exact HF|]. split; [|done]. rewrite EF, length_app, length_rev, nodes_from_length. done.
Qed.

#[global] Opaque que_example.

Definition example_que (i : nat) : Z := @que_addr example_layout (Z.of_nat i).

(** A queue module whose only comparison function, at address 7, compares the
    data words themselves. *)
Definition word_comparators : Comparators := fun fcn a b =>
  if fcn =? 7 then ret (a - b) else undef "call through a bad function pointer".

Lemma word_law : @ComparatorLaw word_comparators 7.
Proof.
  refine {| cmp_valid := fun _ _ => True; cmp_key := fun _ x => x |}; [done| |tauto].
  intros s x y _ _. exists (x - y). split; [reflexivity|lia].
Defined.

(** Queue 3 ordered by that function, holding the datum 6. *)
Definition ordered_start : kstate :=
  qstate que_example 3 (st_mem que_example) (Queue NULL NULL 0 7).
Definition ordered_example : kstate :=
  final (@que_insert example_layout word_comparators (example_que 3) 6) ordered_start.

Lemma ordered_start_holds :
  queues_hold example_region 512 (<[3%nat := (7, [])]> no_queues) ordered_start.
Proof.
  destruct que_example_holds as (F & Q & Hinv & Hn & HV).
  destruct (hold_lookup Q no_queues 3 NULL [] HV eq_refl) as (ns & HQ & _).
  exists F, (<[3%nat := (7, [])]> Q). split; [eapply qs_inv_clear; eassumption|].
  split; [exact Hn|]. exact (hold_insert Q no_queues 3 7 [] HV).
Qed.

Lemma ordered_example_holds :
  queues_hold example_region 511 (<[3%nat := (7, [6])]> no_queues) ordered_example.
Proof.
  destruct (@insert_ordered example_layout word_comparators _ _ _ _ 3%nat 7 word_law [] 6
    ordered_start_holds eq_refl ltac:(lia) I ltac:(constructor)) as (s' & E & H & _).
  unfold ordered_example, example_que. rewrite (final_Ret _ _ _ _ E).
  now rewrite list_insert_insert_eq in H.
Qed.

(** ** Sorted insertion *)

(** In a list in ascending order, the place of a datum is between the smaller
    or equal keys and the larger ones. *)
Lemma insert_by_filter key x l :
  ordered_by key l ->
  insert_by key x l = filter (fun y => key y <= key x) l ++ x :: filter (fun y => key x < key y) l.
Proof.
  unfold ordered_by. induction 1 as [|y l Hs IH Hy]; [done|]. cbn [insert_by].
  destruct (Z.leb_spec (key y) (key x)) as [Hle|Hgt].
  - rewrite filter_cons_True by done. rewrite filter_cons_False by lia. cbn. now rewrite IH.
  - rewrite filter_cons_False by lia. rewrite filter_cons_True by done.
    assert (Forall (fun z => key x < key z) l) as Hall.
    { eapply Forall_impl; [exact Hy|]. intros z Hz. cbn in Hz. lia. }
    rewrite (filter_all (fun z => key x < key z) l Hall).
    rewrite (filter_none (fun z => key z <= key x) l); [done|].
    eapply Forall_impl; [exact Hall|]. intros z Hz. cbn in Hz. lia.
Qed.

Lemma StronglySorted_ext (R R' : Z -> Z -> Prop) l :
  (forall a b, R a b -> R' a b) -> StronglySorted R l -> StronglySorted R' l.
Proof.
  intros H. induction 1 as [|y l Hs IH Hy]; constructor; [exact IH|].
  eapply Forall_impl; [exact Hy|]. intros z. apply H.
Qed.

Lemma remove_first_app x l :
  x ∈ l -> exists l1 l2, l = l1 ++ x :: l2 /\ ~ x ∈ l1 /\ remove_first x l = l1 ++ l2.
Proof.
  induction l as [|y l IH]; [now intros ?%elem_of_nil|]. cbn [remove_first].
  destruct (Z.eqb_spec x y) as [->|Hne].
  - intros _. exists [], l. repeat split. apply not_elem_of_nil.
  - intros [->|Hin]%elem_of_cons; [done|]. destruct (IH Hin) as (l1 & l2 & -> & Hn & ->).
    exists (y :: l1), l2. repeat split. now intros [->|?]%elem_of_cons.
Qed.

(** ** Runs of insertions and removals *)

Section Runs.
Context {L : Layout} {C : Comparators}.

Fixpoint insert_all (q : Z) (xs : list Z) : K unit :=
  match xs with
  | [] => ret tt
  | x :: xs' =>
      r <- que_insert q x ;;
      assert "que_insert" (r =? E_SUCCESS) ;;
      insert_all q xs'
  end.

Fixpoint remove_all (q : Z) (n : nat) : K (list Z) :=
  match n with
  | O => ret []
  | S n' =>
      r <- que_remove q true ;;
      match snd r with
      | Some x => xs <- remove_all q n' ;; ret (x :: xs)
      | None => undef "no datum"
      end
  end.

Lemma insert_all_fifo H n V s i l xs :
  queues_hold H (length xs + n) V s -> V !! i = Some (NULL, l) ->
  Forall (fun x => 0 <= x < 2 ^ 32) xs ->
  exists s', insert_all (que_addr (Z.of_nat i)) xs s = Ret tt s' /\
    queues_hold H n (<[i := (NULL, l ++ xs)]> V) s' /\ que_frame H s s'.
Proof.
  revert V s l; induction xs as [|x xs IH]; intros V s l Hq Hi Hxs.
  - exists s. rewrite app_nil_r, list_insert_id by done. split; [reflexivity|].
    split; [exact Hq|apply que_frame_refl].
  - apply Forall_cons in Hxs as [Hx Hxs]. cbn [length Nat.add] in Hq.
    destruct (insert_fifo _ _ _ _ _ _ _ Hq Hi Hx) as (s1 & E & Hq1 & Hf1).
    destruct (IH _ _ (l ++ [x]) Hq1) as (s2 & E2 & Hq2 & Hf2);
      [apply list_lookup_insert_eq; eapply lookup_lt_Some, Hi|exact Hxs|].
    exists s2. rewrite list_insert_insert_eq, <- app_assoc in Hq2. split; [|split; [exact Hq2|]].
    + cbn [insert_all]. mstep E. cbn. exact E2.
    + eapply que_frame_trans; eassumption.
Qed.

Lemma remove_all_hold H n V s i c xs l :
  queues_hold H n V s -> V !! i = Some (c, xs ++ l) ->
  exists s', remove_all (que_addr (Z.of_nat i)) (length xs) s = Ret xs s' /\
    queues_hold H (length xs + n) (<[i := (c, l)]> V) s' /\ que_frame H s s'.
Proof.
  revert n V s; induction xs as [|x xs IH]; intros n V s Hq Hi.
  - exists s. rewrite list_insert_id by done. split; [reflexivity|].
    split; [exact Hq|apply que_frame_refl].
  - destruct (remove_hold _ _ _ _ _ _ _ _ Hq Hi) as (s1 & E & Hq1 & Hf1).
    destruct (IH _ _ _ Hq1) as (s2 & E2 & Hq2 & Hf2);
      [apply list_lookup_insert_eq; eapply lookup_lt_Some, Hi|].
    exists s2. rewrite list_insert_insert_eq in Hq2.
    split; [|split; [|eapply que_frame_trans; eassumption]].
    + cbn [remove_all length]. mstep E. cbn [snd]. mstep E2. reflexivity.
    + cbn [length Nat.add]. now rewrite <- Nat.add_succ_r.
Qed.
End Runs.

(** ** The contract *)

(** A queue without comparison function is a FIFO: whatever is inserted
    comes out again in the same order, behind what the queue already held, and
    all the nodes it took are free again afterwards. Only the module's own
    variables and nodes have changed. *)
Theorem queue_fifo_roundtrip {L : Layout} {C : Comparators} H n V s i l xs :
  queues_hold H (length xs + n) V s -> V !! i = Some (NULL, l) ->
  Forall (fun x => 0 <= x < 2 ^ 32) xs ->
  exists s1 s2,
    insert_all (que_addr (Z.of_nat i)) xs s = Ret tt s1 /\
    queues_hold H n (<[i := (NULL, l ++ xs)]> V) s1 /\
    remove_all (que_addr (Z.of_nat i)) (length (l ++ xs)) s1 = Ret (l ++ xs) s2 /\
    queues_hold H (length l + (length xs + n)) (<[i := (NULL, [])]> V) s2 /\ que_frame H s s2.
Proof.
  intros Hq Hi Hxs. destruct (insert_all_fifo _ _ _ _ _ _ _ Hq Hi Hxs) as (s1 & E1 & Hq1 & Hf1).
  assert (<[i := (NULL, l ++ xs)]> V !! i = Some (NULL, (l ++ xs) ++ [])) as Hi1.
  { rewrite app_nil_r. apply list_lookup_insert_eq. eapply lookup_lt_Some, Hi. }
  destruct (remove_all_hold _ _ _ _ _ _ _ _ Hq1 Hi1) as (s2 & E2 & Hq2 & Hf2).
  exists s1, s2. rewrite list_insert_insert_eq, length_app, <- Nat.add_assoc in Hq2.
  repeat split; try done. eapply que_frame_trans; eassumption.
Qed.

Lemma queue_fifo_roundtrip_witness :
  exists s1 s2, @insert_all example_layout word_comparators (example_que 1) [5; 3; 9] que_example = Ret tt s1 /\
    @remove_all example_layout (example_que 1) 3 s1 = Ret [5; 3; 9] s2.
Proof.
  destruct (@queue_fifo_roundtrip example_layout word_comparators example_region 509 no_queues
    que_example 1 [] [5; 3; 9] que_example_holds eq_refl ltac:(repeat constructor; lia))
    as (s1 & s2 & E1 & _ & E2 & _).
  exists s1, s2. exact (conj E1 E2).
Defined.

(** C9: insertion into a queue with a comparison function places the datum
    behind those with a smaller or equal key and before those with a larger one:
    a queue in ascending order stays so, and equal keys keep their order of
    arrival. *)
Theorem queue_insert_ordered {L : Layout} {C : Comparators} H n V s i c (law : ComparatorLaw c) l x :
  queues_hold H (S n) V s -> V !! i = Some (c, l) -> 0 <= x < 2 ^ 32 ->
  cmp_valid s x -> Forall (cmp_valid s) l -> ordered_by (cmp_key s) l ->
  let l' := filter (fun y => cmp_key s y <= cmp_key s x) l ++ x
           :: filter (fun y => cmp_key s x < cmp_key s y) l in
  exists s', que_insert (que_addr (Z.of_nat i)) x s = Ret E_SUCCESS s' /\
    queues_hold H n (<[i := (c, l')]> V) s' /\ ordered_by (cmp_key s') l' /\ que_frame H s s'.
Proof.
  intros Hq Hi Hx Hvx Hvl Hord l'.
  destruct (insert_ordered _ _ _ _ _ _ _ _ Hq Hi Hx Hvx Hvl) as (s' & E & Hq' & Hf).
  unfold l'. rewrite <- (insert_by_filter _ _ _ Hord). exists s'. repeat split; try done.
  apply (insert_by_ordered (cmp_key s) x l) in Hord.
  destruct (que_frame_others _ _ _ Hf) as (_ & _ & Hps & _).
  unfold ordered_by in *. eapply StronglySorted_ext; [|exact Hord]. intros a b. cbn.
  now rewrite !(proj1 (cmp_stable _ _ _ Hps)).
Qed.

Lemma queue_insert_ordered_witness :
  exists s1, @que_insert example_layout word_comparators (example_que 3) 5 ordered_example = Ret E_SUCCESS s1 /\
    queues_hold example_region 510 (<[3%nat := (7, [5; 6])]> no_queues) s1.
Proof.
  destruct (@queue_insert_ordered example_layout word_comparators _ _ _ _ 3 7 word_law [6] 5
    ordered_example_holds eq_refl ltac:(lia) I ltac:(repeat constructor) ltac:(repeat constructor))
    as (s1 & E & H & _).
  exists s1. split; [exact E|]. now rewrite list_insert_insert_eq in H.
Defined.

(** C17: removal takes the first datum of a queue and frees its node; looking at
    the queue first finds the same datum and changes nothing. An empty queue
    answers E_EMPTY to both. *)
Theorem queue_remove_head {L : Layout} H n V s i c l :
  queues_hold H n V s -> V !! i = Some (c, l) ->
  que_peek (que_addr (Z.of_nat i)) true s =
    Ret (match l with [] => (E_EMPTY, None) | x :: _ => (E_SUCCESS, Some x) end) s /\
  match l with
  | [] => que_remove (que_addr (Z.of_nat i)) true s = Ret (E_EMPTY, None) s
  | x :: l' =>
      exists s', que_remove (que_addr (Z.of_nat i)) true s = Ret (E_SUCCESS, Some x) s' /\
        queues_hold H (S n) (<[i := (c, l')]> V) s' /\ que_frame H s s'
  end.
Proof.
  intros Hq Hi. split; [eapply peek_hold; eassumption|].
  destruct l; [eapply remove_hold_empty; eassumption|eapply remove_hold; eassumption].
Qed.

Lemma queue_remove_head_witness :
  exists s', @que_remove example_layout (example_que 3) true ordered_example = Ret (E_SUCCESS, Some 6) s' /\
    queues_hold example_region 512 (<[3%nat := (7, [])]> no_queues) s'.
Proof.
  destruct (@queue_remove_head example_layout _ _ _ _ 3 7 [6] ordered_example_holds eq_refl)
    as (_ & s' & E & H & _).
  exists s'. split; [exact E|]. now rewrite list_insert_insert_eq in H.
Defined.

(** Removal by value takes the first occurrence of the datum out of the
    queue, wherever it is, keeping the order of the rest; without one it answers
    E_NOT_FOUND (E_EMPTY for an empty queue) and changes nothing. *)
Theorem queue_remove_by {L : Layout} H n V s i c x l :
  queues_hold H n V s -> V !! i = Some (c, l) -> x <> NULL ->
  (x ∈ l -> exists l1 l2 s', l = l1 ++ x :: l2 /\ ~ x ∈ l1 /\
     que_remove_by (que_addr (Z.of_nat i)) x s = Ret E_SUCCESS s' /\
     queues_hold H (S n) (<[i := (c, l1 ++ l2)]> V) s' /\ que_frame H s s') /\
  (~ x ∈ l -> que_remove_by (que_addr (Z.of_nat i)) x s =
     Ret (match l with [] => E_EMPTY | _ => E_NOT_FOUND end) s).
Proof.
  intros Hq Hi Hx. split; [|intros Hn; eapply remove_by_hold_absent; eassumption].
  intros Hin. destruct (remove_by_hold _ _ _ _ _ _ _ _ Hq Hi Hx Hin) as (s' & E & Hq' & Hf).
  destruct (remove_first_app x l Hin) as (l1 & l2 & -> & Hn & El). rewrite El in Hq'. eauto 10.
Qed.

Lemma queue_remove_by_witness :
  @que_remove_by example_layout (example_que 3) 5 ordered_example = Ret E_NOT_FOUND ordered_example /\
  exists s', @que_remove_by example_layout (example_que 3) 6 ordered_example = Ret E_SUCCESS s'.
Proof.
  split.
  - apply (proj2 (@queue_remove_by example_layout _ _ _ _ 3 7 5 [6] ordered_example_holds
      eq_refl ltac:(done))). intros [?|?%elem_of_nil]%elem_of_cons; done.
  - destruct (proj1 (@queue_remove_by example_layout _ _ _ _ 3 7 6 [6] ordered_example_holds
      eq_refl ltac:(done)) ltac:(left)) as (l1 & l2 & s' & _ & _ & E & _).
    exists s'. exact E.
Defined.

(** [que_alloc] answers the first queue that is not in use, empty, with the
    comparison function asked for and now in use; NULL, with nothing changed,
    when all eight are. [que_free] undoes it. *)
Theorem queue_alloc_free {L : Layout} {C : Comparators} H n V s c :
  queues_hold H n V s ->
  match first_set (queue_free (st_qs s)) with
  | None => que_alloc c s = Ret NULL s
  | Some i => exists s1 s2,
      que_alloc c s = Ret (que_addr (Z.of_nat i)) s1 /\ queues_hold H n (<[i := (c, [])]> V) s1 /\
      queue_free (st_qs s1) = <[i := QUE_INUSE]> (queue_free (st_qs s)) /\
      que_free (que_addr (Z.of_nat i)) s1 = Ret tt s2 /\
      queues_hold H n (<[i := (NULL, [])]> V) s2 /\
      queue_free (st_qs s2) = <[i := QUE_FREE]> (queue_free (st_qs s)) /\
      st_mem s2 = st_mem s
  end.
Proof.
  intros Hq. pose proof (alloc_hold _ _ _ _ c Hq) as Ha.
  destruct (first_set (queue_free (st_qs s))) as [i|] eqn:Ef; [|exact Ha].
  destruct Ha as (s1 & E1 & Hq1 & Hf1 & Hm1 & _).
  destruct (first_set_Some _ _ Ef) as [(f & Hf & _) _]. pose proof (lookup_lt_Some _ _ _ Hf) as Hlt.
  assert ((i < 8)%nat) as Hi.
  { destruct Hq as (F & Q & Hinv & _). now rewrite (qi_flags _ _ _ _ _ Hinv) in Hlt. }
  assert (queue_free (st_qs s1) !! i = Some QUE_INUSE) as Hin
    by (rewrite Hf1; now apply list_lookup_insert_eq).
  destruct (free_hold _ _ _ _ _ Hq1 Hi Hin) as (s2 & E2 & Hq2 & Hf2 & Hm2 & _).
  exists s1, s2. rewrite list_insert_insert_eq in Hq2. rewrite Hf1, list_insert_insert_eq in Hf2.
  repeat split; try done. now rewrite Hm2.
Qed.

Definition free_example : kstate := with_flag 2 QUE_FREE que_example.

Lemma free_example_holds : queues_hold example_region 512 no_queues free_example.
Proof.
  destruct que_example_holds as (F & Q & Hinv & Hn & HV). exists F, Q.
  split; [now apply qs_inv_flag|done].
Qed.

Lemma queue_alloc_free_witness :
  exists s1, @que_alloc example_layout 7 free_example = Ret (example_que 2) s1.
Proof.
  pose proof (@queue_alloc_free example_layout word_comparators _ _ _ _ 7 free_example_holds) as H.
  assert (first_set (queue_free (st_qs free_example)) = Some 2%nat) as E by (vm_compute; reflexivity).
  rewrite E in H. destruct H as (s1 & s2 & E1 & _). exists s1. exact E1.
Defined.

(** The queue module gets its nodes from the page allocator: one page becomes
    512 free nodes, the queues are as before, and the page allocator keeps what
    first fit leaves it; when no page is free the module stops with a panic. *)
Theorem queue_nodes_from_page H l n V s :
  km_inv l s -> queues_hold H n V s -> (forall x, H x -> ~ in_blocks l x) ->
  match first_fit 1 l with
  | None => qnode_add_page s = Panic "qnode_add_page: block" s
  | Some (a, l') =>
      exists s', qnode_add_page s = Ret tt s' /\ km_inv l' s' /\
        queues_hold (with_page H a) (512 + n) V s' /\
        (forall x, with_page H a x -> ~ in_blocks l' x)
  end.
Proof.
  intros Hkm (F & Q & Hinv & Hn & HV) Hdis. destruct (first_fit 1 l) as [[a l']|] eqn:Ef.
  - destruct (qnode_add_page_spec _ _ _ _ _ _ _ Hkm Hinv Hdis Ef)
      as (s' & E & Hkm' & Hdis' & _ & F' & Hinv' & Hlen).
    exists s'. repeat split; try done; [apply Hkm'..|]. exists F', Q. rewrite Hlen, Hn. done.
  - eapply qnode_add_page_none; eassumption.
Qed.

Lemma queue_nodes_from_page_witness :
  exists s', qnode_add_page km_example = Ret tt s' /\
    queues_hold (with_page (fun _ => False) 0x100000) 512 no_queues s' /\
    km_inv [(0x101000, 3); (0x200000, 8)] s'.
Proof.
  assert (queues_hold (fun _ => False) 0 no_queues km_example) as Hq.
  { exists [], (replicate 8 (NULL, [])). split; [|done].
    eapply qs_inv_outside; [exact boot_queues|reflexivity|]. intros x []. }
  destruct (queue_nodes_from_page _ _ _ _ _ km_example_inv Hq ltac:(tauto)) as (s' & E & H1 & H2 & _).
  exists s'. exact (conj E (conj H2 H1)).
Defined.
