(* ===== verification/Stacks.v ===== *)
(** kernel/list.c and kernel/stacks.c: the linked list of free stacks, stack
    allocation, and the initial contents of a new process' stack. *)

From S2P Require Import Prelude Memory State Lib Sio Cio Kmem.

Open Scope kernel_scope.

(** * list.c: [list_t] is a next pointer; the list head is one, too *)

Definition list_add (list data : Z) : K unit :=
  assert "list_add: list" (negb (list =? NULL)) ;;
  assert "list_add: data" (negb (data =? NULL)) ;;
  nx <- load32 list ;;
  store32 data nx ;;
  store32 list data.

Definition list_remove (list : Z) : K Z :=
  assert "list_remove: list" (negb (list =? NULL)) ;;
  data <- load32 list ;;
  when (negb (data =? NULL))
    (nx <- load32 data ;;
     store32 list nx ;;
     store32 data NULL) ;;
  ret data.

(** * stacks.c *)

Definition GDT_CODE : Z := 0x10.
Definition GDT_DATA : Z := 0x18.
Definition GDT_STACK : Z := 0x20.
Definition DEFAULT_EFLAGS : Z := Z.lor 2 EFL_IF.
Definition MOD4_MASK : Z := 0xfffffffc.
Definition MOD16_MASK : Z := 0xfffffff0.
Definition ULOC_INIT : Z := 0.
Definition ULOC_FAKE : Z := 1.

(** The status, and the value stored through [stk] when there is one. *)
Definition stk_alloc : K (Z * option Z) :=
  f <- stk free_stacks ;;
  new <- (if f =? NULL then km_page_alloc STACK_PAGES
          else
            nx <- load32 f ;;
            stk_set (set_free_stacks nx) ;;
            ret f) ;;
  if negb (new =? NULL) then
    memclr new SZ_STACK ;;
    ret (E_SUCCESS, Some new)
  else ret (E_FAILURE, None).

Definition stk_init : K unit :=
  cio_puts (chars " Stk") ;;
  stk_set (set_free_stacks NULL) ;;
  r <- stk_alloc ;;
  (match snd r with Some v => stk_set (set_kstack v) | None => ret tt end) ;;
  assert "stk_init: stk_alloc" (fst r =? E_SUCCESS) ;;
  k <- stk kstack ;;
  stk_set (set_kesp (u32 (k + 4 * (STACK_WDS - 1)))).

Definition stk_free (s : Z) : K unit :=
  assert "stk_free: stk" (negb (s =? NULL)) ;;
  f <- stk free_stacks ;;
  store32 s f ;;
  stk_set (set_free_stacks s).

Definition stk_setup (s entry args : Z) : K Z :=
  n <- strlen args ;;
  let argbytes := u32 (n + 1) in
  let argbytes := Z.land (u32 (argbytes + 3)) MOD4_MASK in
  let argwords := Z.shiftr argbytes 2 in
  let totwords := u32 (u32 (1 + argwords) + 1) in
  let stackend := u32 (s + 4 * STACK_WDS) in
  let avptr := u32 (stackend - 4 * totwords) in
  let avptr := Z.land avptr MOD16_MASK in
  store32 avptr (u32 (avptr + 4)) ;;
  memmove (u32 (avptr + 4)) args argbytes ;;
  let avptr := u32 (avptr - 4) in
  ul <- krn user_locs ;;
  fake <- load32 (u32 (ul + 4 * ULOC_FAKE)) ;;
  store32 avptr fake ;;
  let ctx := u32 (avptr - SZ_CONTEXT) in
  store32 (ctx + reg_off EFLAGS) DEFAULT_EFLAGS ;;
  store32 (ctx + reg_off EIP) entry ;;
  store32 (ctx + reg_off CS) GDT_CODE ;;
  store32 (ctx + reg_off SS) GDT_STACK ;;
  store32 (ctx + reg_off GS) GDT_DATA ;;
  store32 (ctx + reg_off FS) GDT_DATA ;;
  store32 (ctx + reg_off ES) GDT_DATA ;;
  store32 (ctx + reg_off DS) GDT_DATA ;;
  ret ctx.

(** ** Dumping a stack.  One output line shows four words, in hexadecimal and
    as characters. *)

Fixpoint word_hex (n : nat) (data : Z) : list Z :=
  match n with
  | O => []
  | S n => nth (Z.to_nat (Z.land (Z.shiftr data 28) 0xf)) hexdigits 0
           :: word_hex n (u32 (Z.shiftl data 4))
  end.

Fixpoint word_chars (n : nat) (data : Z) : list Z :=
  match n with
  | O => []
  | S n =>
      let value := Z.land (Z.shiftr data 24) 0xff in
      (if (32 <=? value) && (value <? 127) then value else 46)
      :: word_chars n (u32 (Z.shiftl data 8))
  end.

Fixpoint dump_words (n : nat) (sp : Z) : K (list Z * list Z) :=
  match n with
  | O => ret ([], [])
  | S n =>
      curr <- load32 sp ;;
      r <- dump_words n (u32 (sp + 4)) ;;
      ret (([32; 32] ++ word_hex 8 curr ++ fst r)%list,
           ([32] ++ word_chars 4 curr ++ snd r)%list)
  end.

Definition stk_dump (msg : option (list Z)) (s limit : Z) : K unit :=
  let words :=
    if 0 <? limit then
      if negb (Z.land limit 3 =? 0) then Z.land (u32 (limit + 3)) MOD4_MASK else limit
    else STACK_WDS in
  let sp := if 0 <? limit then u32 (s + 4 * u32 (STACK_WDS - words)) else s in
  cio_puts (chars "*** stack") ;;
  (match msg with
   | Some m => cio_printf (chars " (%s):" ++ [10])%list [AS m]
   | None => cio_puts (chars ":" ++ [10])%list
   end) ;;
  loop (fun '(words, sp, addr, eliding, oldbuf) =>
    if 0 <? words then
      line <- dump_words 4 sp ;;
      let '(buf, cbuf) := line in
      if decide (oldbuf = buf) then
        ret (inl (u32 (words - 4), u32 (sp + 16), u32 (addr + 16), eliding + 1, oldbuf))
      else
        cio_printf (chars "%08x%c") [AI addr; AI (if truth eliding then 42 else 32)] ;;
        cio_printf (chars "%s %s" ++ [10])%list [AS buf; AS cbuf] ;;
        ret (inl (u32 (words - 4), u32 (sp + 16), u32 (addr + 16), 0, buf))
    else ret (inr tt)) (words, sp, sp, 0, []).
