(* ===== verification/StacksSpec.v ===== *)
(** kernel/stacks.c: what the initial contents of a process' stack are. *)

From S2P Require Import Prelude Memory State Lib LibMem Sio Cio Kmem Stacks.

Open Scope kernel_scope.

(** ** Rounding down with a mask *)

Lemma mod4_mask x : 0 <= x < 2 ^ 32 -> Z.land x MOD4_MASK = x / 4 * 4.
Proof. intros H. now rewrite <- (high_bits _ 2) by lia. Qed.

Lemma mod16_mask x : 0 <= x < 2 ^ 32 -> Z.land x MOD16_MASK = x / 16 * 16.
Proof. intros H. now rewrite <- (high_bits _ 4) by lia. Qed.

Lemma ld32_st_bytes_out m a bs b :
  b + 4 <= a \/ a + Z.of_nat (length bs) <= b -> ld32 (st_bytes m a bs) b = ld32 m b.
Proof. intros H. apply ld32_agree. intros i Hi. apply ld8_st_bytes_out. lia. Qed.

(** ** The initial stack *)

(** The string takes whole words; the pointer to it is below it, at a multiple of 16. *)
Definition arg_bytes (len : nat) : Z := (Z.of_nat len + 4) / 4 * 4.
Definition arg_pointer (b : Z) (len : nat) : Z := (b + SZ_STACK - (arg_bytes len + 8)) / 16 * 16.
Definition start_context (b : Z) (len : nat) : Z := arg_pointer b len - 4 - SZ_CONTEXT.

(** The string leaves room for the context. *)
Definition args_fit (len : nat) : Prop := Z.of_nat len + 104 <= SZ_STACK.

Lemma arg_bytes_bounds len : Z.of_nat len < arg_bytes len <= Z.of_nat len + 4 /\ arg_bytes len mod 4 = 0.
Proof.
  unfold arg_bytes. pose proof (Z.div_mod (Z.of_nat len + 4) 4 ltac:(lia)).
  pose proof (Z.mod_pos_bound (Z.of_nat len + 4) 4 ltac:(lia)). split; [lia|]. now apply Z.mod_mul.
Qed.

Lemma arg_pointer_bounds b len : args_fit len ->
  b + 76 <= arg_pointer b len /\ arg_pointer b len + 4 + arg_bytes len <= b + SZ_STACK - 4 /\
  arg_pointer b len mod 16 = 0.
Proof.
  unfold args_fit, arg_pointer. intros Hf. pose proof (arg_bytes_bounds len) as [Hb _].
  set (e := b + SZ_STACK - (arg_bytes len + 8)) in *.
  pose proof (Z.div_mod e 16 ltac:(lia)). pose proof (Z.mod_pos_bound e 16 ltac:(lia)).
  split; [lia|]. split; [lia|]. now apply Z.mod_mul.
Qed.

(** The words of the context, in a memory [m] that was there before. *)
Definition start_reg (m : memory) (ctx entry : Z) (r : reg) : Z :=
  match r with
  | EFLAGS => DEFAULT_EFLAGS
  | EIP => entry
  | CS => GDT_CODE
  | SS => GDT_STACK
  | GS | FS | ES | DS => GDT_DATA
  | _ => ld32 m (ctx + reg_off r)
  end.

(** A stack from which a process starts at [entry] with the argument [str]. *)
Record stack_ready (m m' : memory) (b entry fake : Z) (str : list Z) (ctx : Z) : Prop := StackReady {
  sr_inside : b <= ctx /\ ctx + SZ_CONTEXT + 8 + Z.of_nat (length str) < b + SZ_STACK - 4;
  sr_aligned : (ctx + SZ_CONTEXT + 4) mod 16 = 0;
  sr_return : ld32 m' (ctx + SZ_CONTEXT) = fake;
  sr_argument : ld32 m' (ctx + SZ_CONTEXT + 4) = ctx + SZ_CONTEXT + 8;
  sr_string : cstring m' (ctx + SZ_CONTEXT + 8) str;
  sr_context : forall r, ld32 m' (ctx + reg_off r) = start_reg m ctx entry r;
  sr_only : agree (fun a => a < ctx \/ b + SZ_STACK - 4 <= a) m m'
}.

(** The memory that [stk_setup] leaves, store by store. *)
Definition setup_frame (m : memory) (av args fake : Z) (len : nat) : memory :=
  let m1 := st32 m av (av + 4) in
  let m2 := st_bytes m1 (av + 4) (bytes_at m1 args (Z.to_nat (arg_bytes len))) in
  st32 m2 (av - 4) fake.

Definition setup_context (m : memory) (ctx entry : Z) : memory :=
  let m := st32 m (ctx + reg_off EFLAGS) DEFAULT_EFLAGS in
  let m := st32 m (ctx + reg_off EIP) entry in
  let m := st32 m (ctx + reg_off CS) GDT_CODE in
  let m := st32 m (ctx + reg_off SS) GDT_STACK in
  let m := st32 m (ctx + reg_off GS) GDT_DATA in
  let m := st32 m (ctx + reg_off FS) GDT_DATA in
  let m := st32 m (ctx + reg_off ES) GDT_DATA in
  st32 m (ctx + reg_off DS) GDT_DATA.

Lemma setup_context_reg m ctx entry r : 0 <= entry < 2 ^ 32 ->
  ld32 (setup_context m ctx entry) (ctx + reg_off r) = start_reg m ctx entry r.
Proof.
  intros He. unfold setup_context.
  destruct r; cbn [reg_off start_reg];
    repeat (rewrite ld32_st32_ne by lia); try reflexivity; now rewrite ld32_st32_eq.
Qed.

Lemma setup_context_other m ctx entry a : a < ctx \/ ctx + SZ_CONTEXT <= a ->
  ld8 (setup_context m ctx entry) a = ld8 m a.
Proof.
  intros Ha. unfold setup_context, SZ_CONTEXT in *. cbn [reg_off].
  repeat (rewrite ld8_st32_ne by lia). reflexivity.
Qed.

Lemma setup_frame_other m av args fake len a :
  a < av - 4 \/ av + 4 + arg_bytes len <= a -> ld8 (setup_frame m av args fake len) a = ld8 m a.
Proof.
  intros Ha. pose proof (arg_bytes_bounds len) as [Hb _]. unfold setup_frame.
  rewrite ld8_st32_ne by lia. rewrite ld8_st_bytes_out by (rewrite length_bytes_at; lia).
  apply ld8_st32_ne. lia.
Qed.

Lemma cstring_moved m m' a b s :
  (forall i, 0 <= i <= Z.of_nat (length s) -> ld8 m' (b + i) = ld8 m (a + i)) ->
  cstring m a s -> cstring m' b s.
Proof.
  revert a b. induction s as [|c s IH]; intros a b Heq; cbn [cstring length] in *.
  - specialize (Heq 0 ltac:(lia)). rewrite !Z.add_0_r in Heq. now rewrite Heq.
  - intros (H1 & H2 & H3). split; [|split; [done|]].
    + specialize (Heq 0 ltac:(lia)). rewrite !Z.add_0_r in Heq. now rewrite Heq.
    + apply (IH (a + 1)); [|done]. intros i Hi. replace (b + 1 + i) with (b + (1 + i)) by lia.
      rewrite Heq by lia. f_equal. lia.
Qed.

Lemma ld8_moved m a b n i : 0 <= i < Z.of_nat n ->
  ld8 (st_bytes m b (bytes_at m a n)) (b + i) = ld8 m (a + i).
Proof.
  intros Hi. pose proof (bytes_at_st_bytes m b (bytes_at m a n) (bytes_at_range m a n)) as E.
  rewrite length_bytes_at in E.
  pose proof (bytes_at_lookup (st_bytes m b (bytes_at m a n)) b n (Z.to_nat i) ltac:(lia)) as H1.
  rewrite E, bytes_at_lookup, Z2Nat.id in H1 by lia. now injection H1.
Qed.

Lemma setup_frame_string m av args fake str :
  cstring m args str -> (args + Z.of_nat (length str) < av \/ av + 4 <= args) ->
  cstring (setup_frame m av args fake (length str)) (av + 4) str.
Proof.
  intros Hc Ha. pose proof (arg_bytes_bounds (length str)) as [Hb _]. unfold setup_frame.
  apply (cstring_moved m _ args); [|exact Hc]. intros i Hi.
  rewrite ld8_st32_ne, ld8_moved by lia. apply ld8_st32_ne. lia.
Qed.

Lemma setup_frame_words m av args fake len : 0 <= av -> av + 4 < 2 ^ 32 -> 0 <= fake < 2 ^ 32 ->
  ld32 (setup_frame m av args fake len) (av - 4) = fake /\
  ld32 (setup_frame m av args fake len) av = av + 4.
Proof.
  intros Ha Hb Hf. pose proof (arg_bytes_bounds len) as [Hl _]. unfold setup_frame.
  split; [now apply ld32_st32_eq|]. rewrite ld32_st32_ne by lia.
  rewrite ld32_st_bytes_out by lia. apply ld32_st32_eq. lia.
Qed.

(** All together. *)
Lemma setup_ready m b entry fake args str :
  0 <= b -> b + SZ_STACK < 2 ^ 32 -> 0 <= entry < 2 ^ 32 -> 0 <= fake < 2 ^ 32 ->
  args_fit (length str) -> cstring m args str ->
  (args + Z.of_nat (length str) < b \/ b + SZ_STACK <= args) ->
  stack_ready m
    (setup_context (setup_frame m (arg_pointer b (length str)) args fake (length str))
      (start_context b (length str)) entry)
    b entry fake str (start_context b (length str)).
Proof.
  intros Hb He Hen Hf Hfit Hc Hap.
  destruct (arg_pointer_bounds b _ Hfit) as (P1 & P2 & P3).
  pose proof (arg_bytes_bounds (length str)) as [Pb _].
  set (av := arg_pointer b (length str)) in *. set (ctx := start_context b (length str)).
  assert (ctx = av - 76) as Ec by (unfold ctx, start_context, SZ_CONTEXT; fold av; lia).
  set (m1 := setup_frame m av args fake (length str)).
  assert (Hk : forall a, a < ctx \/ ctx + SZ_CONTEXT <= a -> ld8 (setup_context m1 ctx entry) a = ld8 m1 a)
    by apply setup_context_other.
  destruct (setup_frame_words m av args fake (length str) ltac:(lia) ltac:(unfold SZ_STACK in *; lia) Hf)
    as [W1 W2]. fold m1 in W1, W2. unfold SZ_CONTEXT in *.
  split; unfold SZ_CONTEXT.
  - lia.
  - replace (ctx + 72 + 4) with av by lia. exact P3.
  - replace (ctx + 72) with (av - 4) by lia. rewrite <- W1. apply ld32_agree.
    intros i Hi. apply Hk. lia.
  - replace (ctx + 72 + 4) with av by lia. replace (ctx + 72 + 8) with (av + 4) by lia.
    rewrite <- W2. apply ld32_agree. intros i Hi. apply Hk. lia.
  - replace (ctx + 72 + 8) with (av + 4) by lia. apply (cstring_agree m1).
    + intros i Hi. apply Hk. lia.
    + apply setup_frame_string; [exact Hc|lia].
  - intros r. rewrite setup_context_reg by done.
    assert (ld32 m1 (ctx + reg_off r) = ld32 m (ctx + reg_off r)) as E.
    { apply ld32_agree. intros i Hi. apply setup_frame_other. destruct r; cbn [reg_off]; lia. }
    destruct r; cbn [start_reg]; done.
  - intros a Ha. rewrite Hk by lia. apply setup_frame_other. lia.
Qed.

(** The addresses that [stk_setup] computes. *)
Lemma setup_bytes len : Z.of_nat len + 4 < 2 ^ 32 ->
  Z.land (u32 (u32 (Z.of_nat len + 1) + 3)) MOD4_MASK = arg_bytes len.
Proof.
  intros H. rewrite u32_add_l, u32_small, mod4_mask by lia. unfold arg_bytes. f_equal. f_equal. lia.
Qed.

Lemma setup_pointer b len : 0 <= b -> b + SZ_STACK < 2 ^ 32 -> args_fit len ->
  let argwords := Z.shiftr (arg_bytes len) 2 in
  Z.land (u32 (u32 (b + 4 * STACK_WDS) - 4 * u32 (u32 (1 + argwords) + 1))) MOD16_MASK = arg_pointer b len.
Proof.
  intros Hb He Hf. cbv zeta. pose proof (arg_bytes_bounds len) as [Pb Pm].
  change (4 * STACK_WDS) with SZ_STACK. unfold args_fit, SZ_STACK, STACK_PAGES, SZ_PAGE in *.
  assert (4 * Z.shiftr (arg_bytes len) 2 = arg_bytes len) as E.
  { rewrite Z.shiftr_div_pow2 by lia. change (2 ^ 2) with 4.
    pose proof (Z.div_mod (arg_bytes len) 4 ltac:(lia)). lia. }
  rewrite (u32_small (b + _)) by lia. rewrite u32_add_l, (u32_small (1 + _ + 1)) by lia.
  rewrite u32_small, mod16_mask by lia. unfold arg_pointer. f_equal. f_equal.
  unfold SZ_STACK, STACK_PAGES, SZ_PAGE. lia.
Qed.

Lemma stk_setup_eq s b entry args str :
  0 <= b -> b + SZ_STACK < 2 ^ 32 -> 0 <= args -> args + Z.of_nat (length str) + 4 < 2 ^ 32 ->
  args_fit (length str) -> cstring (st_mem s) args str ->
  (user_locs (st_krn s) + 8 <= b \/ b + SZ_STACK <= user_locs (st_krn s) + 4) ->
  0 <= user_locs (st_krn s) -> user_locs (st_krn s) + 8 < 2 ^ 32 ->
  stk_setup b entry args s =
  Ret (start_context b (length str))
    (up_mem (fun m => setup_context
      (setup_frame m (arg_pointer b (length str)) args (ld32 (st_mem s) (user_locs (st_krn s) + 4))
         (length str)) (start_context b (length str)) entry) s).
Proof.
  intros Hb He Ha Hl Hfit Hc Hu Hu0 Hu1. unfold stk_setup.
  destruct (arg_pointer_bounds b _ Hfit) as (P1 & P2 & P3).
  pose proof (arg_bytes_bounds (length str)) as [Pb Pm].
  rewrite (bind_Ret _ _ _ _ _ (strlen_eq args str s Hc Ha ltac:(lia))). cbv zeta.
  rewrite setup_bytes, setup_pointer by (done || lia).
  set (av := arg_pointer b (length str)) in *. unfold SZ_STACK, STACK_PAGES, SZ_PAGE in *.
  rewrite (u32_small (av + 4)), (u32_small (av - 4)) by lia.
  assert (u32 (av - 4 - SZ_CONTEXT) = start_context b (length str)) as ->.
  { unfold start_context. fold av. unfold SZ_CONTEXT. apply u32_small. lia. }
  set (n := Z.to_nat (arg_bytes (length str))).
  rewrite (bind_Ret _ _ s tt (up_mem (fun m => st32 m av (av + 4)) s) eq_refl).
  replace (arg_bytes (length str)) with (Z.of_nat n) at 1 by lia.
  rewrite (bind_Ret _ _ _ _ _ (memmove_eq n (av + 4) args _ ltac:(lia) ltac:(lia) ltac:(lia) ltac:(lia))).
  rewrite run_krn, run_load32. ksimpl. rewrite (u32_small (_ + 4 * ULOC_FAKE)) by (unfold ULOC_FAKE; lia).
  unfold setup_frame. fold n. set (ctx := start_context b (length str)).
  assert (ld32 (st_bytes (st32 (st_mem s) av (av + 4)) (av + 4)
     (bytes_at (st32 (st_mem s) av (av + 4)) args n)) (user_locs (st_krn s) + 4) =
     ld32 (st_mem s) (user_locs (st_krn s) + 4)) as E.
  { rewrite ld32_st_bytes_out by (rewrite length_bytes_at; lia). apply ld32_st32_ne. lia. }
  change (4 * ULOC_FAKE) with 4. ksimpl. rewrite E. reflexivity.
Qed.
