(* ===== verification/StacksClaims.v ===== *)
(** The contract of stack initialisation (kernel/stacks.c). *)

From S2P Require Import Prelude Memory State Lib LibMem Sio Cio Kmem Stacks StacksSpec.

Open Scope kernel_scope.

(** C20: [stk_setup] on a stack and an argument string that leaves room for the
    context: it returns, the result points to a context inside the stack from which
    the process starts at its entry point with the kernel's segments and with
    interrupts enabled; above it lie the fake return address, the argument pointer at
    a multiple of 16, and a copy of the string; the last word of the stack, the rest
    of the context and all memory outside are as before. *)
Theorem stk_setup_builds (s : kstate) (b entry args : Z) (str : list Z) :
  0 <= b -> b + SZ_STACK < 2 ^ 32 -> 0 <= entry < 2 ^ 32 ->
  cstring (st_mem s) args str -> 0 <= args -> args + Z.of_nat (length str) + 4 < 2 ^ 32 ->
  args_fit (length str) ->
  (args + Z.of_nat (length str) < b \/ b + SZ_STACK <= args) ->
  0 <= user_locs (st_krn s) -> user_locs (st_krn s) + 8 < 2 ^ 32 ->
  (user_locs (st_krn s) + 8 <= b \/ b + SZ_STACK <= user_locs (st_krn s) + 4) ->
  exists ctx m', stk_setup b entry args s = Ret ctx (up_mem (fun _ => m') s) /\
    stack_ready (st_mem s) m' b entry (ld32 (st_mem s) (user_locs (st_krn s) + 4 * ULOC_FAKE)) str ctx.
Proof.
  intros. eexists _, _. split; [|apply setup_ready; try eassumption; apply ld32_range].
  rewrite stk_setup_eq with (str := str) by assumption. reflexivity.
Qed.

(** The string "progABC X 10" at 0x2000, the entry points of the user blob at 0x3000,
    and a stack at 0x200000. *)
Definition setup_example : kstate :=
  up_krn (set_user_locs 0x3000)
    (boot_state (st32 (st_bytes ∅ 0x2000 (chars "progABC X 10" ++ [0])) 0x3004 0x140020) (fun _ _ => 0)).

Lemma stk_setup_builds_witness :
  exists ctx m', stk_setup 0x200000 0x140100 0x2000 setup_example =
      Ret ctx (up_mem (fun _ => m') setup_example) /\
    stack_ready (st_mem setup_example) m' 0x200000 0x140100 0x140020 (chars "progABC X 10") ctx.
Proof.
  apply (stk_setup_builds setup_example 0x200000 0x140100 0x2000 (chars "progABC X 10")).
  - lia.
  - reflexivity.
  - lia.
  - vm_compute. repeat split; congruence.
  - lia.
  - reflexivity.
  - vm_compute. congruence.
  - left. reflexivity.
  - vm_compute. congruence.
  - reflexivity.
  - left. vm_compute. congruence.
Defined.
