(* ===== verification/Procs.v ===== *)
(** kernel/procs.c: the process table, the process queues and the scheduler,
    with the routines that report on them. *)

From S2P Require Import Prelude Memory State Lib Sio Cio Kmem Queues Stacks.

Open Scope kernel_scope.

(** The name tables.  [state_str] has no initialiser for [STATE_WAITING]: the
    entry is the empty string. *)
Definition state_str : list (list Z) :=
  [chars "Unu"; chars "New"; chars "Rdy"; chars "Run"; chars "Slp"; chars "Blk"; [];
   chars "Zom"].
Definition prio_str : list (list Z) := [chars "High"; chars "Std "; chars "Low "].

(** Printing an optional message: [if( msg ) cio_puts( msg )]. *)
Definition put_msg (msg : option (list Z)) : K unit :=
  match msg with Some m => cio_puts m | None => ret tt end.

(** [table[ix]], or ["???"] past its end. *)
Definition name_of (table : list (list Z)) (ix : Z) : list Z :=
  nth (Z.to_nat ix) table (chars "???").

Section Procs.
Context {L : Layout}.

(** [p - &ptable[0]] counts entries: the byte difference, a signed word,
    shifted right by five. *)
Definition pcb_ix (p : Z) : Z :=
  let ix := s32 (p - ptable_addr) / 32 in
  if (ix <? 0) || (Z.of_nat N_PROCS <=? ix) then -1 else ix.

Definition comp_wakeup (p1 p2 : Z) : K Z :=
  w1 <- pcb_get p1 p_wakeup ;;
  w2 <- pcb_get p2 p_wakeup ;;
  ret (if w1 <? w2 then -1 else if w1 =? w2 then 0 else 1).

(** [comp_wakeup] is the only comparison function the kernel installs. *)
#[export] Instance kernel_comparators : Comparators := fun fcn a b =>
  if fcn =? comp_wakeup_addr then comp_wakeup a b
  else undef "call through a bad function pointer".

(** The words of a context, by register. *)
Definition ctx (c : Z) (r : reg) : K Z := load32 (c + reg_off r).

(** * Debugging and tracing *)

Definition pcb_dump (msg : option (list Z)) (pcb : Z) (all : bool) : K unit :=
  put_msg msg ;;
  cio_printf (chars " @ %08x:") [AI pcb] ;;
  if pcb =? NULL then cio_puts (chars " NULL???" ++ [10])%list
  else
    p <- get_pcb pcb ;;
    cio_printf (chars " %d %s") [AI (p_pid p); AS (name_of state_str (p_state p))] ;;
    if negb all then ret tt
    else
      cio_printf (chars " prio %s") [AS (name_of prio_str (p_priority p))] ;;
      cio_printf (chars " xit %d wake %08x" ++ [10])%list
        [AI (p_status p); AI (p_wakeup p)] ;;
      cio_printf (chars " parent %08x") [AI (p_parent p)] ;;
      when (negb (p_parent p =? NULL))
        (pid <- pcb_get (p_parent p) p_pid ;; cio_printf (chars " (%u)") [AI pid]) ;;
      cio_printf (chars " context %08x stk %08x") [AI (p_context p); AI (p_stack p)] ;;
      cio_printf (chars " fill") [] ;;
      for_ 5 (fun i =>
        cio_putchar 32 ;;
        f <- aget "filler" (p_filler p) i ;;
        put_char_or_code f) ;;
      cio_putchar 10.

Definition ctx_sanity_check (c : Z) : K unit :=
  cs <- ctx c CS ;; ss <- ctx c SS ;; gs <- ctx c GS ;; fs <- ctx c FS ;;
  es <- ctx c ES ;; ds <- ctx c DS ;;
  let bad_segs :=
    negb (cs =? GDT_CODE) || negb (ss =? GDT_STACK) || negb (gs =? GDT_DATA)
    || negb (fs =? GDT_DATA) || negb (es =? GDT_DATA) || negb (ds =? GDT_DATA) in
  when bad_segs
    (cio_printf
       (chars "CTXchk: cs %04x ss %04x ds %04x es %04x fs %04x gs %04x" ++ [10])%list
       [AI cs; AI ss; AI ds; AI es; AI fs; AI gs]) ;;
  esp <- ctx c ESP ;; ebp <- ctx c EBP ;; eip <- ctx c EIP ;;
  let bad_ptrs :=
    (negb (esp =? 0) && ((esp <? 0x100000) || (0x200000 <? esp)))
    || (negb (ebp =? 0) && ((ebp <? 0x100000) || (0x200000 <? ebp)))
    || (eip <? 0x10000) || (0x40000 <? eip) in
  when bad_ptrs
    (cio_printf (chars "        esp %08x ebp %08x eip %08x" ++ [10])%list
       [AI esp; AI ebp; AI eip]) ;;
  when (bad_segs || bad_ptrs)
    (cur <- ps current ;;
     when (negb (cur =? NULL))
       (pcb_dump (Some (chars "current process")) cur true ;; cio_putchar 10)).

Definition ctx_dump (msg : option (list Z)) (c : Z) : K unit :=
  put_msg msg ;;
  cio_printf (chars " @ %08x:" ++ [10])%list [AI c] ;;
  if c =? NULL then cio_puts (chars " NULL???" ++ [10])%list
  else
    ss <- ctx c SS ;; gs <- ctx c GS ;; fs <- ctx c FS ;;
    es <- ctx c ES ;; ds <- ctx c DS ;; cs <- ctx c CS ;;
    cio_printf (chars "  ss %04x gs %04x fs %04x es %04x ds %04x cs %04x" ++ [10])%list
      [AI (Z.land ss 0xff); AI (Z.land gs 0xff); AI (Z.land fs 0xff);
       AI (Z.land es 0xff); AI (Z.land ds 0xff); AI (Z.land cs 0xff)] ;;
    edi <- ctx c EDI ;; esi <- ctx c ESI ;; ebp <- ctx c EBP ;; esp <- ctx c ESP ;;
    cio_printf (chars "  edi %08x esi %08x ebp %08x esp %08x" ++ [10])%list
      [AI edi; AI esi; AI ebp; AI esp] ;;
    ebx <- ctx c EBX ;; edx <- ctx c EDX ;; ecx <- ctx c ECX ;; eax <- ctx c EAX ;;
    cio_printf (chars "  ebx %08x edx %08x ecx %08x eax %08x" ++ [10])%list
      [AI ebx; AI edx; AI ecx; AI eax] ;;
    vec <- ctx c VECTOR ;; cod <- ctx c CODE ;; eip <- ctx c EIP ;; efl <- ctx c EFLAGS ;;
    cio_printf (chars "  vec %08x cod %08x eip %08x efl %08x" ++ [10])%list
      [AI vec; AI cod; AI eip; AI efl].

Definition ctx_dump_all (msg : option (list Z)) : K unit :=
  put_msg msg ;;
  loop (fun '(i, n) =>
    if i <? Z.of_nat N_PROCS then
      p <- get_pcb (pcb_addr i) ;;
      if negb (p_state p =? STATE_UNUSED) then
        cio_printf (chars "%2d(%d): ") [AI (n + 1); AI (p_pid p)] ;;
        ctx_dump None (p_context p) ;;
        ret (inl (i + 1, n + 1))
      else ret (inl (i + 1, n))
    else ret (inr tt)) (0, 0).

Definition ptable_dump (msg : option (list Z)) (all : bool) : K unit :=
  put_msg msg ;;
  cio_putchar 32 ;;
  ue <- loop (fun '(i, used, empty) =>
    if i <? Z.of_nat N_PROCS then
      p <- get_pcb (pcb_addr i) ;;
      if p_state p =? STATE_UNUSED then ret (inl (i + 1, used, empty + 1))
      else
        when (negb all && truth (used + 1)) (cio_putchar 44) ;;
        cio_printf (chars " #%d:") [AI i] ;;
        pcb_dump None (pcb_addr i) all ;;
        ret (inl (i + 1, used + 1, empty))
    else ret (inr (used, empty))) (0, 0, 0) ;;
  let '(used, empty) := ue in
  when (negb all) (cio_putchar 10) ;;
  when (negb (used + empty =? Z.of_nat N_PROCS))
    (cio_printf (chars "Table size %d, used %d + empty %d = %d???" ++ [10])%list
       [AI (Z.of_nat N_PROCS); AI used; AI empty; AI (used + empty)]).

(** The counting loop: the entries in each state, and in no known state. *)
Definition count_states : K (list Z * Z) :=
  loop (fun '(n, nstate, unknown) =>
    if n <? Z.of_nat N_PROCS then
      p <- get_pcb (pcb_addr n) ;;
      let st := p_state p in
      if (st <? 0) || (Z.of_nat N_STATES <=? st) then
        ret (inl (n + 1, nstate, u32 (unknown + 1)))
      else
        c <- aget "nstate" nstate st ;;
        ret (inl (n + 1, aset nstate st (u32 (c + 1)), unknown))
    else ret (inr (nstate, unknown))) (0, replicate N_STATES 0, 0).

(** With a table to fill ([tbl != NULL]) the counts are the second result. *)
Definition ptable_dump_stats (tbl : bool) : K (Z * list Z) :=
  c <- count_states ;;
  let '(nstate, unknown) := c in
  if tbl then ret (unknown, nstate)
  else
    cio_printf (chars "Ptable: %u ???") [AI unknown] ;;
    for_ N_STATES (fun n =>
      c <- aget "nstate" nstate n ;;
      when (truth c) (cio_printf (chars " %u %s") [AI c; AS (name_of state_str n)])) ;;
    cio_putchar 10 ;;
    ret (unknown, nstate).

(** * Process operations *)

(** [assert( (ready[i] = que_alloc(NULL)) != NULL )] *)
Definition ready_alloc (i : Z) : K unit :=
  q <- que_alloc NULL ;;
  ps_set (fun r => set_ready (aset (ready r) i q) r) ;;
  assert "pcb_init: ready queue" (negb (q =? NULL)).

Definition queue_alloc (set : Z -> procs_t -> procs_t) (compare : Z) : K unit :=
  q <- que_alloc compare ;;
  ps_set (set q) ;;
  assert "pcb_init: queue" (negb (q =? NULL)).

(** [memclr( ptable, sizeof(ptable) )] on the static array. *)
Definition pcb_init : K unit :=
  cio_puts (chars " PCB") ;;
  ps_set (fun r => set_ptable (map (fun _ => pcb0) (ptable r)) r) ;;
  ready_alloc PRIO_HIGH ;;
  ready_alloc PRIO_STD ;;
  ready_alloc PRIO_LOW ;;
  queue_alloc set_sleeping comp_wakeup_addr ;;
  queue_alloc set_zombie NULL ;;
  queue_alloc set_blocked NULL ;;
  queue_alloc set_sioread NULL ;;
  ps_set (set_current NULL) ;;
  ps_set (set_init_pcb NULL) ;;
  ps_set (set_next_pid FIRST_USER_PID).

(** A scan of the table from its start: the address of the first entry that
    satisfies the test. *)
Definition find_pcb (test : Z -> pcb_t -> bool) : K (option Z) :=
  loop (fun i =>
    if i <? Z.of_nat N_PROCS then
      p <- get_pcb (pcb_addr i) ;;
      if test (pcb_addr i) p then ret (inr (Some (pcb_addr i))) else ret (inl (i + 1))
    else ret (inr None)) 0.

(** The status, and the pointer stored through the argument on success. *)
Definition pcb_alloc : K (Z * option Z) :=
  r <- find_pcb (fun _ p => p_state p =? STATE_UNUSED) ;;
  match r with
  | Some p => ret (E_SUCCESS, Some p)
  | None => ret (E_NO_PCBS, None)
  end.

Definition pcb_free (pcb : Z) : K unit :=
  assert "pcb_free: pcb" (negb (pcb =? NULL)) ;;
  pcb_set pcb (set_p_state STATE_UNUSED).

Definition pcb_find_pid (pid : Z) : K Z :=
  assert "pcb_find_pid: pid" (FIRST_USER_PID <=? pid) ;;
  r <- find_pcb (fun _ p => (p_pid p =? pid) && negb (p_state p =? STATE_UNUSED)) ;;
  ret (default NULL r).

Definition pcb_find_child_of (parent : Z) : K Z :=
  assert "pcb_find_child_of: parent"
    ((ptable_addr <=? parent) && (parent <? pcb_addr (Z.of_nat N_PROCS))) ;;
  r <- find_pcb (fun a p => negb (a =? parent) && (p_parent p =? parent)
                            && negb (p_state p =? STATE_UNUSED)) ;;
  ret (default NULL r).

Definition pcb_zombify (pcb : Z) : K unit :=
  if pcb =? NULL then ret tt
  else
    pcb_set pcb (set_p_state STATE_ZOMBIE) ;;
    z <- ps zombie ;;
    r <- que_insert z pcb ;;
    assert "pcb_zombify: que_insert" (r =? E_SUCCESS).

Definition pcb_cleanup (pcb : Z) : K unit :=
  if pcb =? NULL then ret tt
  else
    s <- pcb_get pcb p_stack ;;
    when (negb (s =? NULL)) (stk_free s ;; pcb_set pcb (set_p_stack NULL)) ;;
    pcb_free pcb.

(** * The scheduler *)

Definition schedule (p : Z) : K unit :=
  assert "schedule: pcb_ix" (0 <=? pcb_ix p) ;;
  prio <- pcb_get p p_priority ;;
  assert "schedule: priority" ((PRIO_FIRST <=? prio) && (prio <=? PRIO_LAST)) ;;
  rq <- ps ready ;;
  q <- aget "ready" rq prio ;;
  r <- que_insert q p ;;
  when (negb (r =? E_SUCCESS)) (panics "schedule, que insert fail") ;;
  pcb_set p (set_p_state STATE_READY).

Definition dispatch : K unit :=
  p <- loop (fun '(i, p) =>
    if i <=? PRIO_LAST then
      rq <- ps ready ;;
      q <- aget "ready" rq i ;;
      r <- que_remove q true ;;
      let p := default p (snd r) in
      if fst r =? E_SUCCESS then ret (inr p) else ret (inl (i + 1, p))
    else ret (inr p)) (PRIO_FIRST, NULL) ;;
  assert "dispatch: p" (negb (p =? NULL)) ;;
  ps_set (set_current p) ;;
  pcb_set p (set_p_state STATE_RUNNING) ;;
  pcb_set p (set_p_quantum Q_STD).
End Procs.
