(* ===== verification/ProcsSpec.v ===== *)
(** The process module: the invariant that ties the process table to the
    process queues, and what the scheduler's operations do to it. *)

From Stdlib Require Import Sorting.Sorted.
From S2P Require Import Prelude Memory State Lib LibMem Sio Cio Frames Kmem Queues QueuesInv QueuesSpec QueuesPages Stacks Procs.

Open Scope kernel_scope.

(** A list stays sorted when the key of its elements does not change. *)
Lemma StronglySorted_Forall_ext (k k' : Z -> Z) l :
  (forall x, x ∈ l -> k' x = k x) ->
  StronglySorted (fun a b => k a <= k b) l -> StronglySorted (fun a b => k' a <= k' b) l.
Proof.
  intros E Hs. induction Hs as [|y l Hs IH Hy]; constructor.
  - apply IH. intros x Hx. apply E. now right.
  - rewrite Forall_forall in *. intros z Hz. rewrite !E; [now apply Hy|now right|left].
Qed.

Section ProcsSpec.
Context {L : Layout}.
Implicit Types (V : list (Z * list Z)).

(** The PCB a pointer designates. *)
Definition pcb_at (s : kstate) (p : Z) : option pcb_t :=
  match pcb_slot p with Some i => ptable (st_ps s) !! Z.to_nat i | None => None end.

Definition wakeup_of (s : kstate) (p : Z) : Z := from_option p_wakeup 0 (pcb_at s p).

(** The state with the PCB at [p] replaced. *)
Definition with_pcb (p : Z) (x : pcb_t) (s : kstate) : kstate :=
  match pcb_slot p with
  | Some i => up_ps (fun r => set_ptable (aset (ptable r) i x) r) s
  | None => s
  end.

Lemma pcb_at_addr s p x :
  pcb_at s p = Some x ->
  exists i, p = pcb_addr i /\ 0 <= i < 25 /\ ptable (st_ps s) !! Z.to_nat i = Some x.
Proof.
  unfold pcb_at. destruct (pcb_slot p) as [i|] eqn:E; [|done]. intros H.
  apply pcb_slot_Some in E as [-> Hi]. eauto.
Qed.

Lemma pcb_at_word s p x : pcb_at s p = Some x -> 0 < p < 2 ^ 32.
Proof.
  intros (i & -> & Hi & _)%pcb_at_addr. pose proof (pcb_addr_word i Hi).
  pose proof (pcb_addr_nonnull i). lia.
Qed.

Lemma pcb_get_at {A} s p x (f : pcb_t -> A) : pcb_at s p = Some x -> pcb_get p f s = Ret (f x) s.
Proof. intros (i & -> & Hi & Hx)%pcb_at_addr. now apply pcb_get_ok. Qed.

Lemma get_pcb_at s p x : pcb_at s p = Some x -> get_pcb p s = Ret x s.
Proof. intros (i & -> & Hi & Hx)%pcb_at_addr. now apply get_pcb_ok. Qed.

Lemma pcb_set_at s p x f :
  pcb_at s p = Some x -> pcb_set p f s = Ret tt (with_pcb p (f x) s).
Proof.
  intros (i & -> & Hi & Hx)%pcb_at_addr. unfold with_pcb. rewrite pcb_slot_addr by done.
  now apply pcb_set_ok.
Qed.

Lemma pcb_at_with_eq s p x y : pcb_at s p = Some x -> pcb_at (with_pcb p y s) p = Some y.
Proof.
  intros (i & -> & Hi & Hx)%pcb_at_addr. unfold pcb_at, with_pcb. rewrite pcb_slot_addr by done.
  ksimpl. unfold aset. apply list_lookup_insert_eq. eapply lookup_lt_Some, Hx.
Qed.

Lemma pcb_at_with_ne s p q y : p <> q -> pcb_at (with_pcb p y s) q = pcb_at s q.
Proof.
  intros Hne. unfold pcb_at, with_pcb. destruct (pcb_slot p) as [i|] eqn:Ep; [|done].
  destruct (pcb_slot q) as [j|] eqn:Eq; [|done]. ksimpl.
  apply pcb_slot_Some in Ep as [-> Hi]. apply pcb_slot_Some in Eq as [-> Hj].
  unfold aset. apply list_lookup_insert_ne. intros E. apply Hne. f_equal. lia.
Qed.

Lemma with_pcb_others p x s :
  st_mem (with_pcb p x s) = st_mem s /\ st_qs (with_pcb p x s) = st_qs s /\
  st_km (with_pcb p x s) = st_km s /\ st_clk (with_pcb p x s) = st_clk s.
Proof. unfold with_pcb. destruct (pcb_slot p); done. Qed.

(** The comparison of wake-up times meets the requirements of the queues. *)
#[export] Instance comp_wakeup_law : @ComparatorLaw kernel_comparators comp_wakeup_addr.
Proof.
  refine {| cmp_valid := fun s p => is_Some (pcb_at s p); cmp_key := wakeup_of |}.
  - pose proof layout_compare. unfold NULL. lia.
  - intros s p q [x Hx] [y Hy].
    exists (if p_wakeup x <? p_wakeup y then -1 else if p_wakeup x =? p_wakeup y then 0 else 1).
    split.
    + unfold call_compare, kernel_comparators. rewrite Z.eqb_refl. unfold comp_wakeup.
      mstep (pcb_get_at s p x p_wakeup Hx). now mstep (pcb_get_at s q y p_wakeup Hy).
    + unfold wakeup_of. rewrite Hx, Hy. cbn [from_option].
      destruct (Z.ltb_spec (p_wakeup x) (p_wakeup y)); [lia|].
      destruct (Z.eqb_spec (p_wakeup x) (p_wakeup y)); lia.
  - intros s s' x E. unfold wakeup_of, pcb_at. now rewrite E.
Defined.

(** * The invariant *)

(** Queues 0 to 2 are the ready queues by priority, 3 the sleepers, 4 the
    zombies, 5 unused, 6 the processes waiting for serial input. *)
Definition queue_keys : list Z := [NULL; NULL; NULL; comp_wakeup_addr; NULL; NULL; NULL; NULL].
Definition queue_states : list Z :=
  [STATE_READY; STATE_READY; STATE_READY; STATE_SLEEPING; STATE_ZOMBIE; STATE_BLOCKED;
   STATE_BLOCKED; STATE_UNUSED].

Definition valid_prio (x : pcb_t) : Prop := 0 <= p_priority x <= 2.

(** A process in queue [i] has the state the queue stands for; in a ready
    queue also its priority. *)
Definition fits (i : nat) (x : pcb_t) : Prop :=
  nth i queue_states (-1) = p_state x /\ valid_prio x /\
  ((i < 3)%nat -> p_priority x = Z.of_nat i).

Definition queued (V : list (Z * list Z)) : list Z := concat (map snd V).

Record handles_ok (s : kstate) : Prop := HandlesOk {
  ho_ready : ready (st_ps s) = [que_addr 0; que_addr 1; que_addr 2];
  ho_sleeping : sleeping (st_ps s) = que_addr 3;
  ho_zombie : zombie (st_ps s) = que_addr 4;
  ho_blocked : blocked (st_ps s) = que_addr 5;
  ho_sioread : sioread (st_ps s) = que_addr 6
}.

Record proc_inv (H : Z -> Prop) (n : nat) (V : list (Z * list Z)) (s : kstate) : Prop := ProcInv {
  pi_queues : queues_hold H n V s;
  pi_keys : map fst V = queue_keys;
  pi_handles : handles_ok s;
  pi_table : length (ptable (st_ps s)) = 25%nat;
  pi_members : forall i c l p, V !! i = Some (c, l) -> p ∈ l ->
    exists x, pcb_at s p = Some x /\ fits i x;
  pi_nodup : NoDup (queued V);
  pi_sleep : forall c l, V !! 3%nat = Some (c, l) ->
    StronglySorted (fun p q => wakeup_of s p <= wakeup_of s q) l;
  pi_nodes : (25 <= n + length (queued V))%nat
}.

(** What the scheduler's operations may change. *)
Definition sched_frame (H : Z -> Prop) (s s' : kstate) : Prop :=
  exists m q t c,
    s' = up_mem (fun _ => m) (up_qs (fun _ => q) (up_ps (fun r => set_current c (set_ptable t r)) s)) /\
    agree (fun x => ~ H x) (st_mem s) m /\ queue_free q = queue_free (st_qs s).

Lemma sched_frame_refl H s : sched_frame H s s.
Proof.
  exists (st_mem s), (st_qs s), (ptable (st_ps s)), (current (st_ps s)).
  split; [now destruct s as [m k q t [r1 r2 r3 r4 r5 r6 r7 r8 r9] c x o g d]|]. split; reflexivity.
Qed.

Lemma sched_frame_trans H s1 s2 s3 :
  sched_frame H s1 s2 -> sched_frame H s2 s3 -> sched_frame H s1 s3.
Proof.
  intros (m & q & t & c & -> & Hm & Hq) (m' & q' & t' & c' & -> & Hm' & Hq').
  exists m', q', t', c'. split; [done|]. split; [|etransitivity; [exact Hq'|exact Hq]].
  etransitivity; [exact Hm|exact Hm'].
Qed.

Lemma sched_frame_que H s s' : que_frame H s s' -> sched_frame H s s'.
Proof.
  intros (m & q & -> & Hm & Hq). exists m, q, (ptable (st_ps s)), (current (st_ps s)).
  split; [now destruct s as [m0 k q0 t [r1 r2 r3 r4 r5 r6 r7 r8 r9] c x o g d]|done].
Qed.

Lemma sched_frame_pcb H s p x : sched_frame H s (with_pcb p x s).
Proof.
  unfold with_pcb. destruct (pcb_slot p) as [i|]; [|apply sched_frame_refl].
  exists (st_mem s), (st_qs s), (aset (ptable (st_ps s)) i x), (current (st_ps s)).
  split; [now destruct s as [m0 k q0 t [r1 r2 r3 r4 r5 r6 r7 r8 r9] c y o g d]|]. split; reflexivity.
Qed.

Lemma sched_frame_current H s c : sched_frame H s (up_ps (set_current c) s).
Proof.
  exists (st_mem s), (st_qs s), (ptable (st_ps s)), c.
  split; [now destruct s as [m0 k q0 t [r1 r2 r3 r4 r5 r6 r7 r8 r9] d y o g e]|]. split; reflexivity.
Qed.

(** * Facts on the invariant *)

Lemma queued_insert V i c l c' l' :
  V !! i = Some (c, l) ->
  exists rest, queued V ≡ₚ l ++ rest /\ queued (<[i := (c', l')]> V) ≡ₚ l' ++ rest.
Proof.
  intros Hi. exists (queued (take i V ++ drop (S i) V)). unfold queued.
  rewrite insert_take_drop by (eapply lookup_lt_Some, Hi).
  rewrite <- (take_drop_middle V i _ Hi) at 1.
  split; rewrite !map_app, !concat_app; cbn [map snd concat];
    apply Permutation_app_swap_app.
Qed.

Lemma queued_elem V i c l p : V !! i = Some (c, l) -> p ∈ l -> p ∈ queued V.
Proof.
  intros Hi Hp. destruct (queued_insert V i c l c [] Hi) as (rest & E & _).
  rewrite E. apply elem_of_app. now left.
Qed.

Lemma queued_elem_inv V p : p ∈ queued V -> exists i c l, V !! i = Some (c, l) /\ p ∈ l.
Proof.
  unfold queued. intros Hp. apply list_elem_of_In, in_concat in Hp as (l & Hl & Hp).
  apply list_elem_of_In, list_elem_of_fmap in Hl as ([c l'] & -> & Hl).
  apply list_elem_of_lookup_1 in Hl as (i & Hi). exists i, c, l'.
  split; [done|]. now apply list_elem_of_In.
Qed.

Lemma keys_insert V i c l c' l' :
  V !! i = Some (c, l) -> c' = c -> map fst (<[i := (c', l')]> V) = map fst V.
Proof.
  intros Hi ->. change (fst <$> <[i := (c, l')]> V = fst <$> V). rewrite list_fmap_insert. cbn.
  apply list_insert_id. rewrite list_lookup_fmap, Hi. done.
Qed.

Lemma queues_hold_same H n V s s' :
  st_mem s' = st_mem s -> st_qs s' = st_qs s -> queues_hold H n V s -> queues_hold H n V s'.
Proof.
  intros Em Eq (F & Q & [Q1 Q2 Q3 Q4 Q5 Q6] & Hn & HV). exists F, Q. split; [|done].
  split; rewrite ?Em, ?Eq; done.
Qed.

Lemma queues_hold_pcb H n V s p y : queues_hold H n V s -> queues_hold H n V (with_pcb p y s).
Proof. destruct (with_pcb_others p y s) as (Em & Eq & _). now apply queues_hold_same. Qed.

Lemma queues_hold_ps H n V s f : queues_hold H n V s -> queues_hold H n V (up_ps f s).
Proof. now apply queues_hold_same. Qed.

(** The invariant speaks of the memory, the queues and the processes only. *)
Lemma proc_inv_same H n V s s' :
  st_mem s' = st_mem s -> st_qs s' = st_qs s -> st_ps s' = st_ps s ->
  proc_inv H n V s -> proc_inv H n V s'.
Proof.
  intros Em Eq Ep [H1 H2 [R1 R2 R3 R4 R5] H4 H5 H6 H7 H8].
  assert (forall p, pcb_at s' p = pcb_at s p) as Epcb by (intros p; unfold pcb_at; now rewrite Ep).
  split; try done.
  - eapply queues_hold_same; eassumption.
  - split; now rewrite Ep.
  - now rewrite Ep.
  - intros i c l p Hi Hp. rewrite Epcb. eauto.
  - intros c l Hl. eapply StronglySorted_Forall_ext; [|exact (H7 c l Hl)]. intros q _.
    unfold wakeup_of. now rewrite Epcb.
Qed.

Lemma proc_inv_io H n V s s' : io_only s s' -> proc_inv H n V s -> proc_inv H n V s'.
Proof. intros (Em & _ & Eq & _ & Ep & _)%io_only_fields. now apply proc_inv_same. Qed.

Lemma pcb_ix_addr i : 0 <= i < 25 -> pcb_ix (pcb_addr i) = i.
Proof.
  intros Hi. unfold pcb_ix, pcb_addr, N_PROCS.
  replace (ptable_addr + 32 * i - ptable_addr) with (i * 32) by lia.
  rewrite s32_small, Z.div_mul by lia.
  destruct (Z.ltb_spec i 0); [lia|]. destruct (Z.leb_spec (Z.of_nat 25) i); [lia|]. done.
Qed.

Section Inv.
Context (H : Z -> Prop) (n : nat) (V : list (Z * list Z)) (s : kstate).
Hypothesis Hinv : proc_inv H n V s.

Lemma inv_key i c l : V !! i = Some (c, l) -> queue_keys !! i = Some c.
Proof.
  intros Hi. rewrite <- (pi_keys _ _ _ _ Hinv).
  change ((fst <$> V) !! i = Some c). now rewrite list_lookup_fmap, Hi.
Qed.

Lemma inv_queue i : (i < 8)%nat -> exists l, V !! i = Some (nth i queue_keys 0, l).
Proof.
  intros Hi. assert (length V = 8%nat) as HV.
  { rewrite <- (length_map fst), (pi_keys _ _ _ _ Hinv). done. }
  destruct (lookup_lt_is_Some_2 V i ltac:(lia)) as ([c l] & HVi). exists l. rewrite HVi.
  pose proof (inv_key _ _ _ HVi) as Hk. f_equal. f_equal. symmetry. now apply nth_lookup_Some.
Qed.

Lemma inv_pcb p : p ∈ queued V -> exists x, pcb_at s p = Some x /\ valid_prio x.
Proof.
  intros (i & c & l & Hi & Hp)%queued_elem_inv.
  destruct (pi_members _ _ _ _ Hinv i c l p Hi Hp) as (x & Hx & _ & Hv & _). eauto.
Qed.

(** Distinct entries of the process table are at most 25. *)
Lemma pcbs_bound ps :
  NoDup ps -> (forall p, p ∈ ps -> exists x, pcb_at s p = Some x) -> (length ps <= 25)%nat.
Proof.
  intros Hnd Hall. assert (length ps <= length (map pcb_addr (seqZ 0 25)))%nat as Hlen.
  { apply submseteq_length, NoDup_submseteq; [exact Hnd|]. intros p Hp.
    destruct (Hall p Hp) as (x & Hx). destruct (pcb_at_addr _ _ _ Hx) as (i & -> & Hi & _).
    apply list_elem_of_fmap. exists i. split; [done|]. apply elem_of_seqZ. lia. }
  rewrite length_map, length_seqZ in Hlen. lia.
Qed.

Lemma inv_bound i c l : V !! i = Some (c, l) -> (length l <= 25)%nat.
Proof.
  intros Hi. destruct (queued_insert V i c l c [] Hi) as (rest & P & _).
  pose proof (pi_nodup _ _ _ _ Hinv) as Hnd. rewrite P in Hnd. apply NoDup_app in Hnd as (Hnd & _).
  apply pcbs_bound; [exact Hnd|]. intros p Hp.
  destruct (pi_members _ _ _ _ Hinv i c l p Hi Hp) as (x & Hx & _). eauto.
Qed.

(** A process that is in no queue finds a free node. *)
Lemma inv_node p x : pcb_at s p = Some x -> ~ p ∈ queued V -> (1 <= n)%nat.
Proof.
  intros Hx Hp. pose proof (pi_nodes _ _ _ _ Hinv) as Hn.
  assert (length (p :: queued V) <= 25)%nat as Hlen; [|cbn [length] in Hlen; lia].
  apply pcbs_bound; [constructor; [exact Hp|exact (pi_nodup _ _ _ _ Hinv)]|].
  intros q [->|Hq]%elem_of_cons; [eauto|]. destruct (inv_pcb q Hq) as (z & Hz & _). eauto.
Qed.

Lemma inv_nodup_at i c l : V !! i = Some (c, l) -> NoDup l.
Proof.
  intros Hi. destruct (queued_insert V i c l c [] Hi) as (rest & P & _).
  pose proof (pi_nodup _ _ _ _ Hinv) as Hnd. rewrite P in Hnd. now apply NoDup_app in Hnd as (? & _).
Qed.

(** Changing a PCB that is in no queue. *)
Lemma proc_inv_pcb p y :
  ~ p ∈ queued V -> proc_inv H n V (with_pcb p y s).
Proof.
  intros Hp. pose proof Hinv as [H1 H2 [R1 R2 R3 R4 R5] H4 H5 H6 H7 H8].
  destruct (with_pcb_others p y s) as (Em & Eq & _).
  assert (forall q, q ∈ queued V -> pcb_at (with_pcb p y s) q = pcb_at s q) as Hsame.
  { intros q Hq. apply pcb_at_with_ne. intros ->. done. }
  split; try done.
  - now apply queues_hold_pcb.
  - split; unfold with_pcb; destruct (pcb_slot p); done.
  - unfold with_pcb. destruct (pcb_slot p); [|done]. ksimpl. now rewrite length_aset.
  - intros i c l q Hi Hq. rewrite Hsame by (eapply queued_elem; eassumption). eauto.
  - intros c l Hl. eapply StronglySorted_Forall_ext; [|exact (H7 c l Hl)].
    intros q Hq. unfold wakeup_of. now rewrite Hsame by (eapply queued_elem; eassumption).
Qed.
End Inv.

(** ** Moving processes in and out of queues *)

Definition same_pcbs_but (p : Z) (s s' : kstate) : Prop :=
  handles_ok s' /\ length (ptable (st_ps s')) = 25%nat /\
  forall q, q <> p -> pcb_at s' q = pcb_at s q.

Lemma same_pcbs_frame H n V s s' p : proc_inv H n V s -> que_frame H s s' -> same_pcbs_but p s s'.
Proof.
  intros Hinv Hf. destruct (que_frame_others _ _ _ Hf) as (_ & _ & Hps & _).
  pose proof Hinv as [_ _ [R1 R2 R3 R4 R5] H4 _ _ _ _].
  split; [split; now rewrite Hps|]. split; [now rewrite Hps|]. intros q _. unfold pcb_at.
  now rewrite Hps.
Qed.

Lemma same_pcbs_with p y s s' :
  same_pcbs_but p s s' -> same_pcbs_but p s (with_pcb p y s').
Proof.
  intros ([R1 R2 R3 R4 R5] & H2 & H3). split; [|split].
  - split; unfold with_pcb; destruct (pcb_slot p); done.
  - unfold with_pcb. destruct (pcb_slot p); [|done]. ksimpl. now rewrite length_aset.
  - intros q Hq. rewrite pcb_at_with_ne by done. now apply H3.
Qed.

Lemma proc_inv_change H n n' V s s' i c l l' p :
  proc_inv H n V s -> V !! i = Some (c, l) -> queues_hold H n' (<[i := (c, l')]> V) s' ->
  same_pcbs_but p s s' ->
  (forall q, q ∈ l' -> q <> p -> q ∈ l) -> (~ p ∈ queued V \/ p ∈ l /\ ~ p ∈ l') ->
  (p ∈ l' -> exists x, pcb_at s' p = Some x /\ fits i x) -> NoDup l' ->
  (i = 3%nat -> StronglySorted (fun a b => wakeup_of s' a <= wakeup_of s' b) l') ->
  (n + length l <= n' + length l')%nat ->
  proc_inv H n' (<[i := (c, l')]> V) s'.
Proof.
  intros Hinv Hi Hq (Hh & Ht & Hsame) Hin Hp Hfit Hnd Hs Hlen.
  pose proof Hinv as [I1 I2 I3 I4 I5 I6 I7 I8].
  destruct (queued_insert V i c l c l' Hi) as (rest & P1 & P2).
  pose proof I6 as Hnd0. rewrite P1 in Hnd0. apply NoDup_app in Hnd0 as (N1 & N2 & N3).
  assert (forall q, q ∈ rest -> q <> p) as Hrest.
  { intros q Hq' ->. destruct Hp as [Hp|[Hp _]]; [|eapply N2; eassumption].
    apply Hp. rewrite P1. apply elem_of_app. now right. }
  assert (forall j c1 l1 q, i <> j -> V !! j = Some (c1, l1) -> q ∈ l1 -> q ∈ rest) as Hother.
  { intros j c1 l1 q Hij Hj Hq'.
    destruct (queued_insert V i c l c [] Hi) as (r2 & P3 & P4).
    rewrite P1 in P3. apply Permutation_app_inv_l in P3. rewrite P3. cbn in P4. rewrite <- P4.
    apply (queued_elem _ j c1 l1); [|exact Hq']. now rewrite list_lookup_insert_ne. }
  pose proof (lookup_lt_Some _ _ _ Hi) as Hlt.
  split; try done.
  - now rewrite (keys_insert V i c l c l' Hi eq_refl).
  - intros j c1 l1 q Hj Hq'. destruct (decide (i = j)) as [<-|Hij].
    + rewrite list_lookup_insert_eq in Hj by done. injection Hj as <- <-.
      destruct (Z.eq_dec q p) as [->|Hne]; [now apply Hfit|].
      rewrite Hsame by done. eapply I5; [exact Hi|now apply Hin].
    + rewrite list_lookup_insert_ne in Hj by done.
      rewrite Hsame by (apply Hrest; eapply Hother; eassumption). eapply I5; eassumption.
  - rewrite P2. apply NoDup_app. split; [done|]. split; [|done]. intros q Hq1 Hq2.
    apply (N2 q); [|done]. apply Hin; [done|now apply Hrest].
  - intros c1 l1 Hj. destruct (decide (i = 3%nat)) as [->|Hij].
    + rewrite list_lookup_insert_eq in Hj by done. injection Hj as <- <-. now apply Hs.
    + rewrite list_lookup_insert_ne in Hj by done.
      eapply StronglySorted_Forall_ext; [|exact (I7 c1 l1 Hj)]. intros q Hq'.
      unfold wakeup_of. rewrite Hsame; [done|]. apply Hrest. eapply Hother; eassumption.
  - rewrite P1 in I8. rewrite P2. rewrite length_app in *. lia.
Qed.

(** A priority that is none of the three stops the system. *)
Lemma schedule_bad s p x : pcb_at s p = Some x -> ~ valid_prio x -> schedule p s = Panic "schedule: priority" s.
Proof.
  intros Hx Hv. destruct (pcb_at_addr _ _ _ Hx) as (j & -> & Hj & _).
  unfold schedule, assert. rewrite pcb_ix_addr by done.
  destruct (Z.leb_spec 0 j); [|lia]. rewrite bind_ret_l.
  rewrite (bind_Ret _ _ _ _ _ (pcb_get_at s _ x p_priority Hx)).
  unfold valid_prio in Hv. unfold PRIO_FIRST, PRIO_HIGH, PRIO_LAST, PRIO_LOW.
  destruct (Z.leb_spec 0 (p_priority x)), (Z.leb_spec (p_priority x) 2); try reflexivity. lia.
Qed.

(** [schedule]: the process joins the ready queue of its priority. *)
Lemma schedule_spec H n V s p x l :
  proc_inv H n V s -> pcb_at s p = Some x -> ~ p ∈ queued V -> valid_prio x ->
  V !! Z.to_nat (p_priority x) = Some (NULL, l) ->
  exists s' n', schedule p s = Ret tt s' /\ n = S n' /\
    proc_inv H n' (<[Z.to_nat (p_priority x) := (NULL, l ++ [p])]> V) s' /\
    pcb_at s' p = Some (set_p_state STATE_READY x) /\
    (forall q, q <> p -> pcb_at s' q = pcb_at s q) /\ sched_frame H s s' /\
    current (st_ps s') = current (st_ps s).
Proof.
  intros Hinv Hx Hp Hv Hi. pose proof (inv_node _ _ _ _ Hinv p x Hx Hp) as Hn.
  destruct n as [|n]; [lia|]. pose proof Hv as Hv'. unfold valid_prio in Hv'.
  set (k := p_priority x) in *. pose proof (pcb_at_word _ _ _ Hx) as Hw.
  destruct (insert_fifo H n V s (Z.to_nat k) l p (pi_queues _ _ _ _ Hinv) Hi ltac:(lia))
    as (s1 & E & Hq1 & Hf1). rewrite Z2Nat.id in E by lia.
  pose proof (same_pcbs_frame _ _ _ _ _ p Hinv Hf1) as Hs1.
  destruct (que_frame_others _ _ _ Hf1) as (_ & _ & Hps & _).
  assert (pcb_at s1 p = Some x) as Hx1 by (unfold pcb_at; rewrite Hps; exact Hx).
  set (s2 := with_pcb p (set_p_state STATE_READY x) s1).
  assert (pcb_at s2 p = Some (set_p_state STATE_READY x)) as Hx2
    by (eapply pcb_at_with_eq, Hx1).
  exists s2, n. split; [|split; [done|]].
  - unfold schedule, assert. apply pcb_at_addr in Hx as Hxa.
    destruct Hxa as (j & Ej & Hj & _). rewrite Ej, (pcb_ix_addr j Hj), <- Ej.
    destruct (Z.leb_spec 0 j); [|lia]. rewrite bind_ret_l.
    rewrite (bind_Ret _ _ _ _ _ (pcb_get_at s p x p_priority Hx)). fold k.
    unfold PRIO_FIRST, PRIO_HIGH, PRIO_LAST, PRIO_LOW.
    destruct (Z.leb_spec 0 k); [|lia]. destruct (Z.leb_spec k 2); [|lia]. cbn [andb].
    rewrite bind_ret_l. unfold ps, gets. erewrite bind_Ret by reflexivity.
    rewrite (ho_ready _ (pi_handles _ _ _ _ Hinv)).
    assert (aget "ready" [que_addr 0; que_addr 1; que_addr 2] k s = Ret (que_addr k) s) as Eg.
    { apply aget_ok; [lia|]. assert (k = 0 \/ k = 1 \/ k = 2) as [->|[->| ->]] by lia; done. }
    rewrite (bind_Ret _ _ _ _ _ Eg), (bind_Ret _ _ _ _ _ E). cbn [negb].
    change (E_SUCCESS =? E_SUCCESS) with true. cbn [negb when]. rewrite bind_ret_l.
    apply (pcb_set_at s1 p x _ Hx1).
  - destruct (same_pcbs_with p (set_p_state STATE_READY x) s s1 Hs1) as (Hh2 & Ht2 & Hs2).
    split; [|split; [exact Hx2|split; [exact Hs2|split]]].
    + eapply (proc_inv_change H (S n) n V s s2 _ NULL l _ p); try done.
      * now apply queues_hold_pcb.
      * intros q [Hq|Hq]%elem_of_app Hne; [done|]. now apply list_elem_of_singleton in Hq.
      * now left.
      * intros _. exists (set_p_state STATE_READY x). split; [exact Hx2|].
        unfold fits. cbn. fold k. split; [|split; [exact Hv|lia]].
        assert (k = 0 \/ k = 1 \/ k = 2) as [->|[->| ->]] by lia; done.
      * apply NoDup_app. split; [eapply inv_nodup_at; eassumption|]. split; [|apply NoDup_singleton].
        intros q Hq ->%list_elem_of_singleton. apply Hp. eapply queued_elem; eassumption.
      * lia.
      * rewrite length_app. cbn. lia.
    + eapply sched_frame_trans; [apply sched_frame_que, Hf1|apply sched_frame_pcb].
    + unfold s2, with_pcb. destruct (pcb_slot p); ksimpl; now rewrite Hps.
Qed.

(** Going to sleep: a process marked SLEEPING joins the sleep queue. *)
Lemma enqueue_sleeper H n V s p x c l :
  proc_inv H n V s -> V !! 3%nat = Some (c, l) -> pcb_at s p = Some x ->
  p_state x = STATE_SLEEPING -> valid_prio x -> ~ p ∈ queued V ->
  exists s' n', que_insert (que_addr (Z.of_nat 3)) p s = Ret E_SUCCESS s' /\ n = S n' /\
    proc_inv H n' (<[3%nat := (c, insert_by (wakeup_of s) p l)]> V) s' /\ que_frame H s s'.
Proof.
  intros Hinv Hi Hx Hst Hv Hp. pose proof (inv_node _ _ _ _ Hinv p x Hx Hp) as Hn.
  destruct n as [|n]; [lia|]. pose proof (pcb_at_word _ _ _ Hx) as Hw.
  pose proof (inv_key _ _ _ _ Hinv _ _ _ Hi) as Hk. injection Hk as <-.
  assert (cmp_valid s p) as Hvp by (exists x; exact Hx).
  assert (Forall (cmp_valid s) l) as Hval.
  { apply Forall_forall. intros q Hq.
    destruct (pi_members _ _ _ _ Hinv _ _ _ q Hi Hq) as (y & Hy & _). exists y. exact Hy. }
  destruct (insert_ordered H n V s 3 comp_wakeup_addr l p (pi_queues _ _ _ _ Hinv) Hi ltac:(lia)
    Hvp Hval) as (s' & E & Hq & Hf).
  destruct (que_frame_others _ _ _ Hf) as (_ & _ & Hps & _).
  exists s', n. split; [exact E|]. split; [done|]. split; [|exact Hf].
  eapply (proc_inv_change H (S n) n V s s' 3 comp_wakeup_addr l _ p); try done.
  - eapply same_pcbs_frame; eassumption.
  - intros q Hq' Hne. change (cmp_key s) with (wakeup_of s) in Hq'. rewrite insert_by_perm in Hq'.
    now apply elem_of_cons in Hq' as [?|?].
  - now left.
  - intros _. exists x. split; [unfold pcb_at; rewrite Hps; exact Hx|].
    split; [now rewrite Hst|]. split; [exact Hv|lia].
  - rewrite insert_by_perm. constructor; [|eapply inv_nodup_at; eassumption].
    intros Hin. apply Hp. eapply queued_elem; eassumption.
  - intros _. eapply (StronglySorted_Forall_ext (wakeup_of s)).
    + intros q _. unfold wakeup_of, pcb_at. now rewrite Hps.
    + apply (insert_by_ordered (wakeup_of s)). exact (pi_sleep _ _ _ _ Hinv _ _ Hi).
  - change (cmp_key s) with (wakeup_of s). rewrite (insert_by_perm (wakeup_of s) p l). cbn. lia.
Qed.

(** ** Dispatching *)

(** The process [dispatch] chooses, with its queue and the rest of the queue. *)
Fixpoint pick (i : nat) (qs : list (Z * list Z)) : option (nat * Z * list Z) :=
  match qs with
  | [] => None
  | (_, p :: l) :: _ => Some (i, p, l)
  | (_, []) :: qs' => pick (S i) qs'
  end.

Definition next_process V := pick 0 (take 3 V).

Lemma pick_Some i qs j p l :
  pick i qs = Some (j, p, l) ->
  exists k c, j = (i + k)%nat /\ qs !! k = Some (c, p :: l) /\
    forall m, (m < k)%nat -> exists c', qs !! m = Some (c', []).
Proof.
  revert i; induction qs as [|[c [|q r]] qs IH]; intros i; cbn [pick]; [done| |].
  - intros Hp. destruct (IH _ Hp) as (k & c' & -> & Hk & Hb). exists (S k), c'.
    split; [lia|]. split; [exact Hk|]. intros [|m] Hm; [cbn; eauto|]. apply Hb. lia.
  - intros [= <- <- <-]. exists 0%nat, c. split; [lia|]. split; [done|]. intros m Hm. lia.
Qed.

Lemma pick_None i qs m c l : pick i qs = None -> qs !! m = Some (c, l) -> l = [].
Proof.
  revert i m; induction qs as [|[c' [|q r]] qs IH]; intros i m; cbn [pick]; [done| |done].
  intros Hp. destruct m as [|m]; cbn; [now intros [= _ <-]|]. eapply IH, Hp.
Qed.

(** The search loop of [dispatch]. *)
Definition dispatch_body : Z * Z -> K (Z * Z + Z) := fun '(i, p) =>
  if i <=? PRIO_LAST then
    rq <- ps ready ;;
    q <- aget "ready" rq i ;;
    r <- que_remove q true ;;
    let p := default p (snd r) in
    if fst r =? E_SUCCESS then ret (inr p) else ret (inl (i + 1, p))
  else ret (inr p).

Lemma dispatch_empty H n V s k :
  proc_inv H n V s -> (k < 3)%nat -> V !! k = Some (NULL, []) ->
  dispatch_body (Z.of_nat k, NULL) s = Ret (inl (Z.of_nat (S k), NULL)) s.
Proof.
  intros Hinv Hk Hi. unfold dispatch_body, PRIO_LAST, PRIO_LOW.
  destruct (Z.leb_spec (Z.of_nat k) 2); [|lia]. unfold ps, gets. erewrite bind_Ret by reflexivity.
  rewrite (ho_ready _ (pi_handles _ _ _ _ Hinv)).
  assert (aget "ready" [que_addr 0; que_addr 1; que_addr 2] (Z.of_nat k) s =
    Ret (que_addr (Z.of_nat k)) s) as Eg.
  { apply aget_ok; [lia|]. rewrite Nat2Z.id. destruct k as [|[|[|k]]]; (reflexivity || lia). }
  rewrite (bind_Ret _ _ _ _ _ Eg).
  rewrite (bind_Ret _ _ _ _ _ (remove_hold_empty _ _ _ _ _ _ (pi_queues _ _ _ _ Hinv) Hi)).
  cbn [fst snd default from_option]. change (E_EMPTY =? E_SUCCESS) with false. cbv iota.
  unfold ret. do 4 f_equal. lia.
Qed.

Lemma dispatch_skip H n V s j k m :
  proc_inv H n V s -> (j + k <= 3)%nat ->
  (forall i, (j <= i < j + k)%nat -> V !! i = Some (NULL, [])) ->
  loopN (k + m) dispatch_body (Z.of_nat j, NULL) s =
  loopN m dispatch_body (Z.of_nat (j + k), NULL) s.
Proof.
  intros Hinv. revert j. induction k as [|k IH]; intros j Hk Hb; [now rewrite Nat.add_0_r|].
  cbn [Nat.add].
  rewrite (loopN_step _ _ _ _ _ _
    (dispatch_empty H n V s j Hinv ltac:(lia) (Hb j ltac:(lia)))).
  rewrite (IH (S j)); [do 3 f_equal; lia|lia|]. intros i Hi. apply Hb. lia.
Qed.

Lemma ready_key H n V s i c l : proc_inv H n V s -> (i < 3)%nat -> V !! i = Some (c, l) -> c = NULL.
Proof.
  intros Hinv Hi Hl. pose proof (inv_key _ _ _ _ Hinv _ _ _ Hl) as Hk.
  destruct i as [|[|[|i]]]; [now injection Hk..|lia].
Qed.

Lemma next_process_Some H n V s i p l :
  proc_inv H n V s -> next_process V = Some (i, p, l) ->
  (i < 3)%nat /\ V !! i = Some (NULL, p :: l) /\
  forall m, (m < i)%nat -> V !! m = Some (NULL, []).
Proof.
  intros Hinv Hp. unfold next_process in Hp.
  destruct (pick_Some _ _ _ _ _ Hp) as (k & c & -> & Hk & Hb). cbn [Nat.add].
  apply lookup_take_Some in Hk as [Hk Hlt]. split; [done|].
  rewrite (ready_key _ _ _ _ _ _ _ Hinv Hlt Hk) in Hk. split; [done|]. intros m Hm.
  destruct (Hb m Hm) as (c' & Hc'). apply lookup_take_Some in Hc' as [Hc' Hm3].
  now rewrite (ready_key _ _ _ _ _ _ _ Hinv Hm3 Hc') in Hc'.
Qed.

Lemma next_process_None H n V s :
  proc_inv H n V s -> next_process V = None ->
  forall m, (m < 3)%nat -> V !! m = Some (NULL, []).
Proof.
  intros Hinv Hp m Hm. destruct (inv_queue _ _ _ _ Hinv m ltac:(lia)) as (l & Hl).
  assert (l = []) as ->.
  { eapply (pick_None 0 (take 3 V) m); [exact Hp|]. apply lookup_take_Some.
    split; [exact Hl|lia]. }
  now rewrite (ready_key _ _ _ _ _ _ _ Hinv Hm Hl) in Hl.
Qed.

(** The chosen process is dequeued. *)
Lemma dispatch_loop H n V s i p l :
  proc_inv H n V s -> next_process V = Some (i, p, l) ->
  exists s1, loop dispatch_body (PRIO_FIRST, NULL) s = Ret p s1 /\
    queues_hold H (S n) (<[i := (NULL, l)]> V) s1 /\ que_frame H s s1.
Proof.
  intros Hinv Hp. destruct (next_process_Some _ _ _ _ _ _ _ Hinv Hp) as (Hi & HV & Hb).
  destruct (remove_hold _ _ _ _ _ _ _ _ (pi_queues _ _ _ _ Hinv) HV) as (s1 & E & Hq & Hf).
  exists s1. split; [|done]. apply (loop_intro _ (i + 1)); [lia|].
  change (PRIO_FIRST, NULL) with (Z.of_nat 0, NULL).
  rewrite (dispatch_skip H n V s 0 i 1 Hinv); [|lia|intros m Hm; apply Hb; lia]. cbn [Nat.add].
  apply loopN_done. unfold dispatch_body, PRIO_LAST, PRIO_LOW.
  destruct (Z.leb_spec (Z.of_nat i) 2); [|lia]. unfold ps, gets. erewrite bind_Ret by reflexivity.
  rewrite (ho_ready _ (pi_handles _ _ _ _ Hinv)).
  assert (aget "ready" [que_addr 0; que_addr 1; que_addr 2] (Z.of_nat i) s =
    Ret (que_addr (Z.of_nat i)) s) as Eg.
  { apply aget_ok; [lia|]. rewrite Nat2Z.id. destruct i as [|[|[|i]]]; (reflexivity || lia). }
  rewrite (bind_Ret _ _ _ _ _ Eg), (bind_Ret _ _ _ _ _ E). reflexivity.
Qed.

Lemma dispatch_spec H n V s i p l :
  proc_inv H n V s -> next_process V = Some (i, p, l) ->
  exists s' x, dispatch s = Ret tt s' /\ proc_inv H (S n) (<[i := (NULL, l)]> V) s' /\
    pcb_at s p = Some x /\
    pcb_at s' p = Some (set_p_quantum Q_STD (set_p_state STATE_RUNNING x)) /\
    (forall q, q <> p -> pcb_at s' q = pcb_at s q) /\ sched_frame H s s' /\
    current (st_ps s') = p.
Proof.
  intros Hinv Hp. destruct (next_process_Some _ _ _ _ _ _ _ Hinv Hp) as (Hi & HV & _).
  destruct (dispatch_loop _ _ _ _ _ _ _ Hinv Hp) as (s1 & E & Hq & Hf).
  destruct (que_frame_others _ _ _ Hf) as (_ & _ & Hps & _).
  destruct (pi_members _ _ _ _ Hinv i NULL (p :: l) p HV ltac:(left)) as (x & Hx & Hfit).
  pose proof (pcb_at_word _ _ _ Hx) as Hw.
  set (s2 := up_ps (set_current p) s1).
  assert (pcb_at s2 p = Some x) as Hx2 by (unfold pcb_at, s2; ksimpl; rewrite Hps; exact Hx).
  set (s3 := with_pcb p (set_p_state STATE_RUNNING x) s2).
  assert (pcb_at s3 p = Some (set_p_state STATE_RUNNING x)) as Hx3 by (eapply pcb_at_with_eq, Hx2).
  set (s4 := with_pcb p (set_p_quantum Q_STD (set_p_state STATE_RUNNING x)) s3).
  assert (same_pcbs_but p s s2) as Hs2.
  { destruct (same_pcbs_frame _ _ _ _ _ p Hinv Hf) as ([R1 R2 R3 R4 R5] & T & S1).
    split; [now split|]. split; [exact T|exact S1]. }
  pose proof (same_pcbs_with p _ _ _ (same_pcbs_with p (set_p_state STATE_RUNNING x) _ _ Hs2)
    : same_pcbs_but p s s4) as Hs4.
  pose proof (inv_nodup_at _ _ _ _ Hinv _ _ _ HV) as [Hpl Hnd]%NoDup_cons.
  exists s4, x. split; [|split; [|split; [exact Hx|split; [|split; [apply Hs4|split]]]]].
  - unfold dispatch. change (loop _ _) with (loop dispatch_body (PRIO_FIRST, NULL)). mstep E.
    unfold assert. destruct (Z.eqb_spec p NULL); [unfold NULL in *; lia|]. cbn [negb].
    rewrite bind_ret_l. unfold ps_set, modify. erewrite bind_Ret by reflexivity. fold s2.
    rewrite (bind_Ret _ _ _ _ _ (pcb_set_at s2 p x _ Hx2)). apply (pcb_set_at s3 p _ _ Hx3).
  - eapply (proc_inv_change H n (S n) V s s4 i NULL (p :: l) l p); try done.
    + do 2 apply queues_hold_pcb. now apply queues_hold_ps.
    + intros q Hq' _. now right.
    + right. split; [left|done].
    + intros ->. lia.
    + cbn. lia.
  - eapply pcb_at_with_eq, Hx3.
  - eapply sched_frame_trans; [apply sched_frame_que, Hf|].
    eapply sched_frame_trans; [apply sched_frame_current|].
    eapply sched_frame_trans; apply sched_frame_pcb.
  - unfold s4, s3, with_pcb. destruct (pcb_slot p); done.
Qed.

Lemma dispatch_none H n V s :
  proc_inv H n V s -> next_process V = None -> dispatch s = Panic "dispatch: p" s.
Proof.
  intros Hinv Hp. pose proof (next_process_None _ _ _ _ Hinv Hp) as Hb.
  assert (loop dispatch_body (PRIO_FIRST, NULL) s = Ret NULL s) as E.
  { apply (loop_intro _ (3 + 1)); [lia|]. change (PRIO_FIRST, NULL) with (Z.of_nat 0, NULL).
    rewrite (dispatch_skip H n V s 0 3 1 Hinv); [reflexivity|lia|]. intros m Hm. apply Hb. lia. }
  unfold dispatch. change (loop _ _) with (loop dispatch_body (PRIO_FIRST, NULL)). now mstep E.
Qed.

(** * Searching the process table *)

Definition first_pcb (test : Z -> pcb_t -> bool) (t : list pcb_t) (i : nat) (x : pcb_t) : Prop :=
  t !! i = Some x /\ test (pcb_addr (Z.of_nat i)) x = true /\
  forall j y, (j < i)%nat -> t !! j = Some y -> test (pcb_addr (Z.of_nat j)) y = false.

Lemma first_pcb_dec test t :
  (exists i x, first_pcb test t i x) \/
  (forall j y, t !! j = Some y -> test (pcb_addr (Z.of_nat j)) y = false).
Proof.
  induction t as [|y t IH] using rev_ind; [right; now intros j y|].
  destruct IH as [(i & x & Hx & Ht & Hb)|Hn].
  - left. exists i, x. split; [now apply lookup_app_l_Some|]. split; [done|]. intros j z Hj Hz.
    apply (Hb j z Hj). apply lookup_lt_Some in Hx. now rewrite lookup_app_l in Hz by lia.
  - destruct (test (pcb_addr (Z.of_nat (length t))) y) eqn:E.
    + left. exists (length t), y. split; [now rewrite list_lookup_middle|]. split; [done|].
      intros j z Hj Hz. apply (Hn j z). now rewrite lookup_app_l in Hz by lia.
    + right. intros j z Hz. destruct (decide (j < length t)%nat) as [Hlt|Hge].
      * apply (Hn j z). now rewrite lookup_app_l in Hz by lia.
      * pose proof (lookup_lt_Some _ _ _ Hz) as Hlt. rewrite length_app in Hlt. cbn in Hlt.
        replace j with (length t) in * by lia. rewrite list_lookup_middle in Hz by done.
        now injection Hz as <-.
Qed.

Lemma find_body_eq (test : Z -> pcb_t -> bool) (s : kstate) (j : nat) x :
  ptable (st_ps s) !! j = Some x -> (j < 25)%nat ->
  (if Z.of_nat j <? Z.of_nat N_PROCS then
     p <- get_pcb (pcb_addr (Z.of_nat j)) ;;
     if test (pcb_addr (Z.of_nat j)) p then ret (inr (Some (pcb_addr (Z.of_nat j))))
     else ret (inl (Z.of_nat j + 1))
   else ret (inr None)) s =
  Ret (if test (pcb_addr (Z.of_nat j)) x then inr (Some (pcb_addr (Z.of_nat j)))
       else inl (Z.of_nat j + 1)) s.
Proof.
  intros Hx Hj. unfold N_PROCS. destruct (Z.ltb_spec (Z.of_nat j) (Z.of_nat 25)); [|lia].
  rewrite (bind_Ret _ _ _ _ _ (get_pcb_ok (Z.of_nat j) x s ltac:(lia) ltac:(rewrite Nat2Z.id; exact Hx))).
  now destruct (test _ x).
Qed.

Lemma find_pcb_some test s i x :
  length (ptable (st_ps s)) = 25%nat -> first_pcb test (ptable (st_ps s)) i x ->
  find_pcb test s = Ret (Some (pcb_addr (Z.of_nat i))) s.
Proof.
  intros Hlen (Hx & Ht & Hb). pose proof (lookup_lt_Some _ _ _ Hx) as Hlt.
  unfold find_pcb. apply (loop_scan _ 0 (Z.of_nat i)); [lia|lia| |].
  - intros k Hk. destruct (lookup_lt_is_Some_2 (ptable (st_ps s)) (Z.to_nat k) ltac:(lia)) as (y & Hy).
    pose proof (find_body_eq test s (Z.to_nat k) y Hy ltac:(lia)) as E.
    rewrite (Hb (Z.to_nat k) y ltac:(lia) Hy), Z2Nat.id in E by lia. exact E.
  - pose proof (find_body_eq test s i x Hx ltac:(lia)) as E. now rewrite Ht in E.
Qed.

Lemma find_pcb_none test s :
  length (ptable (st_ps s)) = 25%nat ->
  (forall j y, ptable (st_ps s) !! j = Some y -> test (pcb_addr (Z.of_nat j)) y = false) ->
  find_pcb test s = Ret None s.
Proof.
  intros Hlen Hb. unfold find_pcb. apply (loop_scan _ 0 25); [lia|lia| |reflexivity].
  intros k Hk. destruct (lookup_lt_is_Some_2 (ptable (st_ps s)) (Z.to_nat k) ltac:(lia)) as (y & Hy).
  pose proof (find_body_eq test s (Z.to_nat k) y Hy ltac:(lia)) as E.
  rewrite (Hb _ _ Hy), Z2Nat.id in E by lia. exact E.
Qed.

Lemma find_pid_cases s pid :
  length (ptable (st_ps s)) = 25%nat -> FIRST_USER_PID <= pid ->
  (exists i x, ptable (st_ps s) !! i = Some x /\ p_pid x = pid /\ p_state x <> STATE_UNUSED /\
     (forall j y, (j < i)%nat -> ptable (st_ps s) !! j = Some y ->
        p_pid y <> pid \/ p_state y = STATE_UNUSED) /\
     pcb_find_pid pid s = Ret (pcb_addr (Z.of_nat i)) s) \/
  (Forall (fun x => p_pid x <> pid \/ p_state x = STATE_UNUSED) (ptable (st_ps s)) /\
     pcb_find_pid pid s = Ret NULL s).
Proof.
  intros Hlen Hp. unfold pcb_find_pid, assert.
  destruct (Z.leb_spec FIRST_USER_PID pid); [|lia]. rewrite bind_ret_l.
  set (test := fun (_ : Z) p => (p_pid p =? pid) && negb (p_state p =? STATE_UNUSED)).
  assert (forall a y, test a y = false -> p_pid y <> pid \/ p_state y = STATE_UNUSED) as Hfalse.
  { intros a y. unfold test. destruct (Z.eqb_spec (p_pid y) pid); [|now left].
    destruct (Z.eqb_spec (p_state y) STATE_UNUSED); [now right|done]. }
  destruct (first_pcb_dec test (ptable (st_ps s))) as [(i & x & Hf)|Hn].
  - left. exists i, x. pose proof Hf as (Hx & Ht & Hb). split; [exact Hx|].
    unfold test in Ht. apply andb_true_iff in Ht as [Ht1%Z.eqb_eq Ht2%negb_true_iff%Z.eqb_neq].
    split; [exact Ht1|]. split; [exact Ht2|].
    split; [intros j y Hj Hy; eapply Hfalse, (Hb j y Hj Hy)|].
    now mstep (find_pcb_some test s i x Hlen Hf).
  - right. split; [|now mstep (find_pcb_none test s Hlen Hn)].
    apply Forall_lookup. intros j y Hy. eapply Hfalse, (Hn j y Hy).
Qed.

Lemma find_pid_same s pid q s' :
  length (ptable (st_ps s)) = 25%nat -> pcb_find_pid pid s = Ret q s' -> s' = s.
Proof.
  intros Hlen E. destruct (Z.le_gt_cases FIRST_USER_PID pid) as [Hge|Hlt].
  - destruct (find_pid_cases s pid Hlen Hge) as [(i & y & _ & _ & _ & _ & E')|[_ E']];
      rewrite E' in E; now injection E.
  - unfold pcb_find_pid, assert in E. destruct (Z.leb_spec FIRST_USER_PID pid); [lia|]. discriminate E.
Qed.

(** * Initialisation *)

Definition flags_used (k : nat) : list Z := replicate k QUE_INUSE ++ replicate (8 - k) QUE_FREE.

Lemma flags_used_first k : (k < 8)%nat -> first_set (flags_used k) = Some k.
Proof. intros Hk. do 8 (destruct k as [|k]; [reflexivity|]). lia. Qed.

Lemma flags_used_next k : (k < 8)%nat -> <[k := QUE_INUSE]> (flags_used k) = flags_used (S k).
Proof. intros Hk. do 8 (destruct k as [|k]; [reflexivity|]). lia. Qed.

(** The [k]-th allocation: the process module stores the handle. *)
Lemma alloc_kth H n V s k c f msg :
  queues_hold H n V s -> queue_free (st_qs s) = flags_used k -> (k < 8)%nat ->
  exists s', (q <- que_alloc c ;; ps_set (f q) ;; assert msg (negb (q =? NULL))) s = Ret tt s' /\
    queues_hold H n (<[k := (c, [])]> V) s' /\ queue_free (st_qs s') = flags_used (S k) /\
    st_ps s' = f (que_addr (Z.of_nat k)) (st_ps s).
Proof.
  intros Hq Hf Hk. pose proof (alloc_hold H n V s c Hq) as Ha.
  rewrite Hf, (flags_used_first k Hk) in Ha.
  destruct Ha as (s1 & E & Hq1 & Hf1 & _ & Hps & _). rewrite (flags_used_next k Hk) in Hf1.
  exists (up_ps (f (que_addr (Z.of_nat k))) s1). split; [|split; [now apply queues_hold_ps|]].
  - mstep E. unfold ps_set, modify, assert. erewrite bind_Ret by reflexivity.
    pose proof (que_addr_nonnull (Z.of_nat k) ltac:(lia)).
    destruct (Z.eqb_spec (que_addr (Z.of_nat k)) NULL); [done|]. reflexivity.
  - split; [exact Hf1|]. ksimpl. now rewrite Hps.
Qed.

Definition fresh_procs : procs_t :=
  Procs [que_addr 0; que_addr 1; que_addr 2] (que_addr 3) (que_addr 4) (que_addr 5) (que_addr 6)
    NULL (replicate 25 pcb0) FIRST_USER_PID NULL.

Lemma map_const_replicate {A B} (b : B) (l : list A) : map (fun _ => b) l = replicate (length l) b.
Proof. induction l as [|x l IH]; [done|]. cbn. now f_equal. Qed.

Lemma pcb_init_spec H n s s1 :
  cio_puts (chars " PCB") s = Ret tt s1 -> queues_hold H n (replicate 8 (NULL, [])) s1 ->
  queue_free (st_qs s1) = flags_used 0 -> length (ptable (st_ps s1)) = 25%nat ->
  length (ready (st_ps s1)) = 3%nat -> (25 <= n)%nat ->
  exists s', pcb_init s = Ret tt s' /\
    queues_hold H n (map (fun k => (k, [])) queue_keys) s' /\
    st_ps s' = fresh_procs /\ queue_free (st_qs s') = flags_used 7.
Proof.
  intros E0 Hq Hf Ht Hr Hn. unfold pcb_init. mstep E0.
  unfold ps_set at 1, modify. erewrite bind_Ret by reflexivity.
  set (s2 := up_ps (fun r => set_ptable (map (fun _ => pcb0) (ptable r)) r) s1).
  pose proof (queues_hold_ps _ _ _ _ (fun r => set_ptable (map (fun _ => pcb0) (ptable r)) r) Hq)
    as Hq2. fold s2 in Hq2.
  unfold ready_alloc, queue_alloc.
  destruct (alloc_kth _ _ _ s2 0 NULL (fun q r => set_ready (aset (ready r) PRIO_HIGH q) r)
    "pcb_init: ready queue" Hq2 Hf ltac:(lia)) as (s3 & E3 & Hq3 & Hf3 & Hp3). mstep E3.
  destruct (alloc_kth _ _ _ s3 1 NULL (fun q r => set_ready (aset (ready r) PRIO_STD q) r)
    "pcb_init: ready queue" Hq3 Hf3 ltac:(lia)) as (s4 & E4 & Hq4 & Hf4 & Hp4). mstep E4.
  destruct (alloc_kth _ _ _ s4 2 NULL (fun q r => set_ready (aset (ready r) PRIO_LOW q) r)
    "pcb_init: ready queue" Hq4 Hf4 ltac:(lia)) as (s5 & E5 & Hq5 & Hf5 & Hp5). mstep E5.
  destruct (alloc_kth _ _ _ s5 3 comp_wakeup_addr set_sleeping
    "pcb_init: queue" Hq5 Hf5 ltac:(lia)) as (s6 & E6 & Hq6 & Hf6 & Hp6). mstep E6.
  destruct (alloc_kth _ _ _ s6 4 NULL set_zombie
    "pcb_init: queue" Hq6 Hf6 ltac:(lia)) as (s7 & E7 & Hq7 & Hf7 & Hp7). mstep E7.
  destruct (alloc_kth _ _ _ s7 5 NULL set_blocked
    "pcb_init: queue" Hq7 Hf7 ltac:(lia)) as (s8 & E8 & Hq8 & Hf8 & Hp8). mstep E8.
  destruct (alloc_kth _ _ _ s8 6 NULL set_sioread
    "pcb_init: queue" Hq8 Hf8 ltac:(lia)) as (s9 & E9 & Hq9 & Hf9 & Hp9). mstep E9.
  unfold ps_set, modify. do 2 (erewrite bind_Ret by reflexivity). eexists. split; [reflexivity|].
  split; [now do 3 apply queues_hold_ps|]. split; [|exact Hf9]. clear Hf3 Hf4 Hf5 Hf6 Hf7 Hf8 Hf9. ksimpl.
  destruct (st_ps s1) as [rd sl z b r cur t np ip] eqn:Ep. ksimpl in Ht. ksimpl in Hr.
  assert (st_ps s2 = Procs rd sl z b r cur (map (fun _ => pcb0) t) np ip) as Hp2
    by (unfold s2; ksimpl; now rewrite Ep).
  destruct rd as [|r0 [|r1 [|r2 [|]]]]; try done.
  rewrite Hp2 in Hp3. unfold set_ready in Hp3. ksimpl in Hp3.
  rewrite Hp3 in Hp4. unfold set_ready in Hp4. ksimpl in Hp4.
  rewrite Hp4 in Hp5. unfold set_ready in Hp5. ksimpl in Hp5.
  rewrite Hp5 in Hp6. unfold set_sleeping in Hp6. ksimpl in Hp6.
  rewrite Hp6 in Hp7. unfold set_zombie in Hp7. ksimpl in Hp7.
  rewrite Hp7 in Hp8. unfold set_blocked in Hp8. ksimpl in Hp8.
  rewrite Hp8 in Hp9. unfold set_sioread in Hp9. ksimpl in Hp9.
  rewrite Hp9. unfold set_current, set_init_pcb, set_next_pid, fresh_procs. ksimpl.
  now rewrite map_const_replicate, Ht.
Qed.

Lemma fresh_inv H n s :
  queues_hold H n (map (fun k => (k, [])) queue_keys) s -> (25 <= n)%nat ->
  st_ps s = fresh_procs -> proc_inv H n (map (fun k => (k, [])) queue_keys) s.
Proof.
  intros Hq Hn Hp. assert (queued (map (fun k => (k, [])) queue_keys) = []) as Hnil by reflexivity.
  split; try done.
  - split; now rewrite Hp.
  - now rewrite Hp.
  - intros i c l p Hi Hpl. pose proof (queued_elem _ _ _ _ _ Hi Hpl) as Hx.
    rewrite Hnil in Hx. now apply elem_of_nil in Hx.
  - rewrite Hnil. constructor.
  - intros c l Hl. injection Hl as _ <-. constructor.
  - rewrite Hnil. cbn. lia.
Qed.

(** * The running process

    Outside the handlers there is a current process: RUNNING, of valid priority
    and in no queue. *)
Record running_inv (H : Z -> Prop) (n : nat) V (s : kstate) : Prop := RunningInv {
  ri_proc : proc_inv H n V s;
  ri_running : exists x, pcb_at s (current (st_ps s)) = Some x /\ p_state x = STATE_RUNNING /\
    valid_prio x /\ 0 <= p_quantum x < 256;
  ri_out : ~ current (st_ps s) ∈ queued V
}.

(** After a dispatch the chosen process runs. *)
Lemma dispatch_running H n V s i p l :
  proc_inv H n V s -> next_process V = Some (i, p, l) ->
  exists s' x, dispatch s = Ret tt s' /\ running_inv H (S n) (<[i := (NULL, l)]> V) s' /\
    pcb_at s p = Some x /\
    pcb_at s' p = Some (set_p_quantum Q_STD (set_p_state STATE_RUNNING x)) /\
    (forall q, q <> p -> pcb_at s' q = pcb_at s q) /\ sched_frame H s s' /\
    current (st_ps s') = p.
Proof.
  intros Hinv Hp. destruct (dispatch_spec _ _ _ _ _ _ _ Hinv Hp) as (s' & x & E & Hinv' & Hx & Hx' & Hrest).
  exists s', x. split; [exact E|]. split; [|split; [exact Hx|split; [exact Hx'|exact Hrest]]].
  destruct Hrest as (_ & _ & Hc).
  destruct (next_process_Some _ _ _ _ _ _ _ Hinv Hp) as (Hi & HV & _).
  destruct (pi_members _ _ _ _ Hinv i NULL (p :: l) p HV ltac:(left)) as (y & Hy & _ & Hv & _).
  rewrite Hx in Hy. injection Hy as <-. split; [exact Hinv'| |].
  - rewrite Hc. eexists. split; [exact Hx'|]. split; [done|]. split; [exact Hv|].
    unfold Q_STD. cbn. lia.
  - rewrite Hc. destruct (queued_insert V i NULL (p :: l) NULL l HV) as (rest & P1 & P2).
    rewrite P2. pose proof (pi_nodup _ _ _ _ Hinv) as Hn. rewrite P1 in Hn. cbn in Hn.
    now apply NoDup_cons in Hn as [Hn _].
Qed.
End ProcsSpec.
