(* ===== verification/ProcsClaims.v ===== *)
(** The contract of the process module (kernel/procs.c): the searches of the
    process table, the scheduler and the dispatcher. *)

From Stdlib Require Import Sorting.Sorted.
From S2P Require Import Prelude Memory State Lib LibMem Sio Cio Frames Kmem Queues QueuesInv QueuesSpec QueuesPages QueuesClaims Stacks Procs ProcsSpec.

Open Scope kernel_scope.

(** ** Examples: 512 free nodes, empty queues, a table [t] and a current process *)

#[local] Existing Instance example_layout.

Definition proc_queues : list (Z * list Z) := map (fun k => (k, [])) queue_keys.

Definition proc_example (t : list pcb_t) (cur : Z) : kstate :=
  up_ps (fun _ => Procs [que_addr 0; que_addr 1; que_addr 2] (que_addr 3) (que_addr 4) (que_addr 5)
      (que_addr 6) cur t 4 (pcb_addr 0))
    (qstate que_example 3 (st_mem que_example) (Queue NULL NULL 0 comp_wakeup_addr)).

Lemma proc_example_inv t cur :
  length t = 25%nat -> proc_inv example_region 512 proc_queues (proc_example t cur).
Proof.
  intros Hlen. destruct que_example_holds as (F & Q & Hinv & Hn & HV).
  destruct (hold_lookup Q no_queues 3 NULL [] HV eq_refl) as (ns & HQ & _).
  assert (queued proc_queues = []) as Hnil by (vm_compute; reflexivity).
  split; try done.
  - apply queues_hold_ps. exists F, (<[3%nat := (comp_wakeup_addr, [])]> Q).
    split; [eapply qs_inv_clear; eassumption|]. split; [exact Hn|].
    exact (hold_insert Q no_queues 3 comp_wakeup_addr [] HV).
  - intros i c l p Hi Hp. pose proof (queued_elem _ _ _ _ _ Hi Hp) as Hq.
    rewrite Hnil in Hq. now apply elem_of_nil in Hq.
  - rewrite Hnil. constructor.
  - intros c l Hl. injection Hl as _ <-. constructor.
  - rewrite Hnil. cbn. lia.
Qed.

(** A process of the given pid, state, priority and wake-up time. *)
Definition example_pcb (pid state prio wakeup : Z) : pcb_t :=
  Pcb 0 0 0x50000 wakeup 0 pid state prio 3 (replicate 5 0).

Definition example_table : list pcb_t :=
  [example_pcb 1 STATE_RUNNING 0 0; example_pcb 2 STATE_NEW 1 0; example_pcb 3 STATE_NEW 0 0]
    ++ replicate 22 pcb0.

Definition sched_example : kstate := proc_example example_table (pcb_addr 0).

Lemma sched_example_inv : proc_inv example_region 512 proc_queues sched_example.
Proof. now apply proc_example_inv. Qed.

(** ** The scheduler *)

Section Claims.
Context {L : Layout}.

(** Where a process stands in no queue and has a valid priority. *)
Definition schedulable (V : list (Z * list Z)) (s : kstate) (p : Z) (x : pcb_t) : Prop :=
  pcb_at s p = Some x /\ ~ p ∈ queued V /\ valid_prio x.

(** [k] dispatches in a row, with the process each made current. *)
Fixpoint dispatches (k : nat) : K (list Z) :=
  match k with
  | O => ret []
  | S k' => dispatch ;; c <- ps current ;; cs <- dispatches k' ;; ret (c :: cs)
  end.

Lemma dispatches_run H n V s i l1 l2 :
  proc_inv H n V s -> (i < 3)%nat -> V !! i = Some (NULL, l1 ++ l2) ->
  (forall j, (j < i)%nat -> V !! j = Some (NULL, [])) ->
  exists s', dispatches (length l1) s = Ret l1 s' /\
    proc_inv H (length l1 + n) (<[i := (NULL, l2)]> V) s' /\ sched_frame H s s'.
Proof.
  revert n V s; induction l1 as [|p l1 IH]; intros n V s Hinv Hi HV Hb.
  - exists s. rewrite list_insert_id by done. split; [reflexivity|].
    split; [exact Hinv|apply sched_frame_refl].
  - assert (next_process V = Some (i, p, l1 ++ l2)) as Hnext.
    { unfold next_process. pose proof (lookup_lt_Some _ _ _ HV) as Hlt.
      destruct V as [|v0 [|v1 [|v2 V]]]; destruct i as [|[|[|i]]]; cbn in Hlt; try lia;
        cbn in HV; simplify_eq; try reflexivity;
        pose proof (Hb 0%nat ltac:(lia)) as B0; cbn in B0; simplify_eq; try reflexivity;
        pose proof (Hb 1%nat ltac:(lia)) as B1; cbn in B1; simplify_eq; reflexivity. }
    destruct (dispatch_spec _ _ _ _ _ _ _ Hinv Hnext)
      as (s1 & x & E & Hinv1 & _ & _ & _ & Hf1 & Hcur).
    pose proof (lookup_lt_Some _ _ _ HV) as Hlt.
    destruct (IH _ _ _ Hinv1 Hi) as (s2 & E2 & Hinv2 & Hf2).
    { now apply list_lookup_insert_eq. }
    { intros j Hj. rewrite list_lookup_insert_ne by lia. now apply Hb. }
    exists s2. rewrite list_insert_insert_eq in Hinv2. split; [|split].
    + cbn [dispatches length]. mstep E. unfold ps at 1, gets. erewrite bind_Ret by reflexivity.
      rewrite Hcur. now mstep E2.
    + cbn [length Nat.add]. now rewrite <- Nat.add_succ_r.
    + eapply sched_frame_trans; eassumption.
Qed.

(** The last process dispatched is the current one. *)
Lemma dispatches_last k s cs p s' :
  dispatches k s = Ret (cs ++ [p]) s' -> current (st_ps s') = p.
Proof.
  revert s cs. induction k as [|k IH]; intros s cs E.
  - injection E as E _. now apply app_cons_not_nil in E.
  - cbn [dispatches] in E. apply bind_inv_Ret in E as ([] & s1 & E1 & E).
    unfold ps at 1, gets in E. apply bind_inv_Ret in E as (c & s2 & [= <- <-] & E).
    apply bind_inv_Ret in E as (cs' & s3 & E2 & [= Ecs <-]).
    destruct k as [|k].
    + injection E2 as <- <-. destruct cs as [|? [|]]; simplify_eq/=. done.
    + destruct cs as [|c cs].
      * simplify_eq/=. cbn [dispatches] in E2. apply bind_inv_Ret in E2 as ([] & s4 & _ & E2).
        apply bind_inv_Ret in E2 as (c & s5 & _ & E2).
        now apply bind_inv_Ret in E2 as (x & s6 & _ & ?).
      * simplify_eq/=. eapply IH, E2.
Qed.
End Claims.

(** C14: [schedule] puts a process that is in no queue at the end of the ready
    queue of its priority and marks it READY; it cannot fail, since a process
    outside the queues always finds a free node, and it changes no other process
    and nothing outside the queue module's nodes. *)
Theorem schedule_enqueues {L : Layout} H n V s p x l :
  proc_inv H n V s -> schedulable V s p x -> V !! Z.to_nat (p_priority x) = Some (NULL, l) ->
  exists s' n', schedule p s = Ret tt s' /\
    proc_inv H n' (<[Z.to_nat (p_priority x) := (NULL, l ++ [p])]> V) s' /\
    pcb_at s' p = Some (set_p_state STATE_READY x) /\
    (forall q, q <> p -> pcb_at s' q = pcb_at s q) /\ sched_frame H s s' /\
    current (st_ps s') = current (st_ps s).
Proof.
  intros Hinv (Hx & Hp & Hv) Hi.
  destruct (schedule_spec _ _ _ _ _ _ _ Hinv Hx Hp Hv Hi) as (s' & n' & E & _ & Hrest).
  exists s', n'. exact (conj E Hrest).
Qed.

Lemma schedule_enqueues_witness :
  exists s' n', schedule (pcb_addr 1) sched_example = Ret tt s' /\
    proc_inv example_region n' (<[1%nat := (NULL, [pcb_addr 1])]> proc_queues) s'.
Proof.
  destruct (schedule_enqueues _ _ _ _ (pcb_addr 1) (example_pcb 2 STATE_NEW 1 0) [] sched_example_inv)
    as (s' & n' & E & H & _).
  - split; [reflexivity|]. split; [|unfold valid_prio; cbn; lia].
    assert (queued proc_queues = []) as -> by (vm_compute; reflexivity). apply not_elem_of_nil.
  - reflexivity.
  - exists s', n'. exact (conj E H).
Defined.

(** [schedule] stops the system when the pointer designates no entry of the
    process table, and when the priority is not one of the three. *)
Theorem schedule_rejects {L : Layout} s p :
  (pcb_ix p < 0 -> schedule p s = Panic "schedule: pcb_ix" s) /\
  (forall x, pcb_at s p = Some x -> ~ valid_prio x -> schedule p s = Panic "schedule: priority" s).
Proof.
  split.
  - intros Hp. unfold schedule, assert. destruct (Z.leb_spec 0 (pcb_ix p)); [lia|]. reflexivity.
  - intros x. apply schedule_bad.
Qed.

Lemma schedule_rejects_witness :
  schedule (pcb_addr 25) sched_example = Panic "schedule: pcb_ix" sched_example /\
  let s := proc_example (example_pcb 1 STATE_RUNNING 77 0 :: replicate 24 pcb0) 0 in
  schedule (pcb_addr 0) s = Panic "schedule: priority" s.
Proof.
  split.
  - apply (schedule_rejects sched_example (pcb_addr 25)). vm_compute. reflexivity.
  - intros s. refine (proj2 (schedule_rejects s (pcb_addr 0)) (example_pcb 1 STATE_RUNNING 77 0) eq_refl _).
    unfold valid_prio. cbn. lia.
Defined.

(** C6: [dispatch] gives the processor to the process at the head of the first
    ready queue that is not empty: HIGH before STD before LOW. That process
    leaves its queue, becomes current and RUNNING with a full quantum, and
    nothing else about the processes changes. When all three are empty the
    system stops. *)
Theorem dispatch_highest {L : Layout} H n V s :
  proc_inv H n V s ->
  (forall i p l, (i < 3)%nat -> V !! i = Some (NULL, p :: l) ->
     (forall j, (j < i)%nat -> V !! j = Some (NULL, [])) ->
     exists s' x, dispatch s = Ret tt s' /\ proc_inv H (S n) (<[i := (NULL, l)]> V) s' /\
       pcb_at s p = Some x /\
       pcb_at s' p = Some (set_p_quantum Q_STD (set_p_state STATE_RUNNING x)) /\
       (forall q, q <> p -> pcb_at s' q = pcb_at s q) /\ sched_frame H s s' /\
       current (st_ps s') = p) /\
  ((forall j, (j < 3)%nat -> V !! j = Some (NULL, [])) -> dispatch s = Panic "dispatch: p" s).
Proof.
  intros Hinv. split.
  - intros i p l Hi HV Hb. apply dispatch_spec; [done|]. destruct (next_process V) as [[[i' p'] l']|] eqn:E.
    + destruct (next_process_Some _ _ _ _ _ _ _ Hinv E) as (Hi' & HV' & Hb').
      destruct (lt_eq_lt_dec i i') as [[Hlt| ->]|Hlt].
      * rewrite (Hb' i Hlt) in HV. done.
      * congruence.
      * rewrite (Hb i' Hlt) in HV'. done.
    + rewrite (next_process_None _ _ _ _ Hinv E i Hi) in HV. done.
  - intros Hb. apply (dispatch_none H n V); [done|]. destruct (next_process V) as [[[i p] l]|] eqn:E; [|done].
    destruct (next_process_Some _ _ _ _ _ _ _ Hinv E) as (Hi & HV & _). now rewrite Hb in HV.
Qed.

(** Two processes made ready: pid 2 at STD, then pid 3 at HIGH. *)
Definition ready_example : kstate :=
  final (schedule (pcb_addr 1) ;; schedule (pcb_addr 2)) sched_example.

Lemma ready_example_inv : exists n,
  proc_inv example_region n
    (<[0%nat := (NULL, [pcb_addr 2])]> (<[1%nat := (NULL, [pcb_addr 1])]> proc_queues)) ready_example.
Proof.
  assert (queued proc_queues = []) as Hnil by (vm_compute; reflexivity).
  destruct (schedule_spec _ _ _ _ (pcb_addr 1) (example_pcb 2 STATE_NEW 1 0) [] sched_example_inv)
    as (s1 & n1 & E1 & _ & Hinv1 & _ & Hs1 & _); [reflexivity|..].
  { rewrite Hnil. apply not_elem_of_nil. }
  { unfold valid_prio. cbn. lia. }
  { reflexivity. }
  destruct (schedule_spec _ _ _ _ (pcb_addr 2) (example_pcb 3 STATE_NEW 0 0) [] Hinv1)
    as (s2 & n2 & E2 & _ & Hinv2 & _).
  { rewrite Hs1; [reflexivity|]. intros E. now apply pcb_addr_inj in E. }
  { match goal with |- ~ _ ∈ queued ?q =>
      assert (queued q = [pcb_addr 1]) as -> by (vm_compute; reflexivity) end. intros E%list_elem_of_singleton. now apply pcb_addr_inj in E. }
  { unfold valid_prio. cbn. lia. }
  { reflexivity. }
  exists n2. unfold ready_example.
  assert ((schedule (pcb_addr 1) ;; schedule (pcb_addr 2)) sched_example = Ret tt s2) as E
    by (mstep E1; exact E2).
  rewrite (final_Ret _ _ _ _ E). exact Hinv2.
Qed.

Lemma dispatch_highest_witness :
  exists s', dispatch ready_example = Ret tt s' /\ current (st_ps s') = pcb_addr 2.
Proof.
  destruct ready_example_inv as (n & Hinv).
  destruct (proj1 (dispatch_highest _ _ _ _ Hinv) 0%nat (pcb_addr 2) [])
    as (s' & x & E & _ & _ & _ & _ & _ & Hc); [lia|reflexivity|intros j Hj; lia|].
  exists s'. exact (conj E Hc).
Defined.

(** C24: round robin: the processes of a ready queue, when no queue of a higher
    priority holds any, get the processor one after the other in the order in
    which they joined the queue, each after exactly as many dispatches as there
    were processes before it. *)
Theorem dispatch_round_robin {L : Layout} H n V s i l1 p l2 :
  proc_inv H n V s -> (i < 3)%nat -> V !! i = Some (NULL, l1 ++ p :: l2) ->
  (forall j, (j < i)%nat -> V !! j = Some (NULL, [])) ->
  exists s', dispatches (S (length l1)) s = Ret (l1 ++ [p]) s' /\
    current (st_ps s') = p /\ proc_inv H (S (length l1) + n) (<[i := (NULL, l2)]> V) s'.
Proof.
  intros Hinv Hi HV Hb.
  replace (l1 ++ p :: l2) with ((l1 ++ [p]) ++ l2) in HV by (now rewrite <- app_assoc).
  destruct (dispatches_run _ _ _ _ _ _ _ Hinv Hi HV Hb) as (s' & E & Hinv' & _).
  rewrite length_app, (Nat.add_comm (length l1)) in E, Hinv'. cbn [length Nat.add] in E, Hinv'.
  exists s'. split; [exact E|]. split; [|exact Hinv'].
  eapply dispatches_last; exact E.
Qed.

Lemma dispatch_round_robin_witness :
  exists s', dispatches 1 ready_example = Ret [pcb_addr 2] s' /\ current (st_ps s') = pcb_addr 2.
Proof.
  destruct ready_example_inv as (n & Hinv).
  destruct (dispatch_round_robin _ _ _ _ 0%nat [] (pcb_addr 2) [] Hinv) as (s' & E & Hc & _);
    [lia|reflexivity|intros j Hj; lia|].
  exists s'. exact (conj E Hc).
Defined.

(** ** The process table *)

(** [pcb_alloc] answers the first unused entry of the process table, or
    E_NO_PCBS when every entry is in use; it changes nothing. *)
Theorem pcb_alloc_first_unused {L : Layout} s :
  length (ptable (st_ps s)) = 25%nat ->
  (exists i x, ptable (st_ps s) !! i = Some x /\ p_state x = STATE_UNUSED /\
     (forall j y, (j < i)%nat -> ptable (st_ps s) !! j = Some y -> p_state y <> STATE_UNUSED) /\
     pcb_alloc s = Ret (E_SUCCESS, Some (pcb_addr (Z.of_nat i))) s) \/
  (Forall (fun x => p_state x <> STATE_UNUSED) (ptable (st_ps s)) /\
     pcb_alloc s = Ret (E_NO_PCBS, None) s).
Proof.
  intros Hlen. set (test := fun (_ : Z) p => p_state p =? STATE_UNUSED).
  destruct (first_pcb_dec test (ptable (st_ps s))) as [(i & x & Hf)|Hn].
  - left. exists i, x. pose proof Hf as (Hx & Ht & Hb). split; [exact Hx|].
    split; [now apply Z.eqb_eq|]. split; [intros j y Hj Hy; now apply Z.eqb_neq, (Hb j y)|].
    unfold pcb_alloc. fold test. now mstep (find_pcb_some test s i x Hlen Hf).
  - right. split; [|unfold pcb_alloc; fold test; now mstep (find_pcb_none test s Hlen Hn)].
    apply Forall_lookup. intros j y Hy. now apply Z.eqb_neq, (Hn j y).
Qed.

Lemma pcb_alloc_first_unused_witness :
  pcb_alloc sched_example = Ret (E_SUCCESS, Some (pcb_addr 3)) sched_example.
Proof.
  destruct (pcb_alloc_first_unused sched_example eq_refl) as [(i & x & Hx & Hu & Hb & E)|[Hall _]].
  - assert (i = 3%nat) as ->; [|exact E].
    destruct i as [|[|[|[|i]]]]; [injection Hx as <-; discriminate Hu..|reflexivity|].
    destruct (Hb 3%nat pcb0 ltac:(lia) eq_refl eq_refl).
  - apply (Forall_lookup_1 _ _ 3 pcb0) in Hall; [|reflexivity]. destruct (Hall eq_refl).
Defined.

(** [pcb_find_pid] answers the first process in use with the given pid, and
    NULL when there is none; below FIRST_USER_PID it stops the system, so that
    neither init nor a negative pid can be looked up. *)
Theorem pcb_find_pid_finds {L : Layout} s pid :
  length (ptable (st_ps s)) = 25%nat ->
  (pid < FIRST_USER_PID -> pcb_find_pid pid s = Panic "pcb_find_pid: pid" s) /\
  (FIRST_USER_PID <= pid ->
   (exists i x, ptable (st_ps s) !! i = Some x /\ p_pid x = pid /\ p_state x <> STATE_UNUSED /\
      (forall j y, (j < i)%nat -> ptable (st_ps s) !! j = Some y ->
         p_pid y <> pid \/ p_state y = STATE_UNUSED) /\
      pcb_find_pid pid s = Ret (pcb_addr (Z.of_nat i)) s) \/
   (Forall (fun x => p_pid x <> pid \/ p_state x = STATE_UNUSED) (ptable (st_ps s)) /\
      pcb_find_pid pid s = Ret NULL s)).
Proof.
  intros Hlen. split; intros Hp.
  - unfold pcb_find_pid, assert. destruct (Z.leb_spec FIRST_USER_PID pid); [lia|]. reflexivity.
  - now apply find_pid_cases.
Qed.

Lemma pcb_find_pid_finds_witness :
  pcb_find_pid 1 sched_example = Panic "pcb_find_pid: pid" sched_example /\
  exists p, pcb_find_pid 3 sched_example = Ret p sched_example /\ p <> NULL.
Proof.
  split; [now apply (pcb_find_pid_finds sched_example 1)|].
  destruct (proj2 (pcb_find_pid_finds sched_example 3 eq_refl) ltac:(done))
    as [(i & x & _ & _ & _ & _ & E)|[Hall _]].
  - exists (pcb_addr (Z.of_nat i)). split; [exact E|]. apply pcb_addr_nonnull. lia.
  - apply (Forall_lookup_1 _ _ 2 (example_pcb 3 STATE_NEW 0 0)) in Hall; [|reflexivity].
    destruct Hall as [Hp|Hu]; [now destruct Hp|discriminate Hu].
Defined.

(** [pcb_init], on eight free queues and at least as many free nodes as there
    are processes, sets up the process module: it allocates the seven queues in
    their fixed order, the sleep queue ordered by wake-up time, clears the table
    and establishes the invariant on which the scheduler rests. *)
Theorem pcb_init_establishes {L : Layout} H n s s1 :
  cio_puts (chars " PCB") s = Ret tt s1 -> queues_hold H n (replicate 8 (NULL, [])) s1 ->
  queue_free (st_qs s1) = replicate 8 QUE_FREE -> length (ptable (st_ps s1)) = 25%nat ->
  length (ready (st_ps s1)) = 3%nat -> (25 <= n)%nat ->
  exists s', pcb_init s = Ret tt s' /\ proc_inv H n (map (fun k => (k, [])) queue_keys) s' /\
    current (st_ps s') = NULL /\ next_pid (st_ps s') = FIRST_USER_PID /\
    Forall (fun x => p_state x = STATE_UNUSED) (ptable (st_ps s')).
Proof.
  intros E0 Hq Hf Ht Hr Hn.
  destruct (pcb_init_spec H n s s1 E0 Hq Hf Ht Hr Hn) as (s' & E & Hq' & Hp & _).
  exists s'. split; [exact E|]. split; [now apply fresh_inv|]. rewrite Hp.
  split; [done|]. split; [done|]. apply (Forall_replicate (fun x => p_state x = STATE_UNUSED) 25 pcb0).
  reflexivity.
Qed.

Definition init_example : kstate :=
  up_qs (set_queue_free (replicate 8 QUE_FREE)) que_example.

Lemma pcb_init_establishes_witness :
  exists s', pcb_init init_example = Ret tt s' /\ proc_inv example_region 512 proc_queues s'.
Proof.
  set (s1 := final (cio_puts (chars " PCB")) init_example).
  assert (cio_puts (chars " PCB") init_example = Ret tt s1) as E0
    by (apply final_unit; vm_compute; reflexivity).
  pose proof (io_Ret _ _ _ _ (io_cio_puts (chars " PCB")) E0) as (Em & _ & Eq & _ & Ep & _)%io_only_fields.
  assert (queues_hold example_region 512 no_queues s1) as Hq.
  { eapply queues_hold_same; [exact Em|exact Eq|].
    apply queues_hold_flags; [exact que_example_holds|reflexivity]. }
  destruct (pcb_init_establishes example_region 512 init_example s1 E0 Hq) as (s' & E & H & _);
    [now rewrite Eq|now rewrite Ep; vm_compute|now rewrite Ep; vm_compute|lia|].
  exists s'. exact (conj E H).
Defined.
