(* ===== verification/Drivers.v ===== *)
(** kernel/sio.c, the parts that need the process module: the serial interrupt
    handler, the initialisation of the device and the status report. *)

From S2P Require Import Prelude Memory State Lib Sio Cio Kmem Queues Stacks Procs.

Open Scope kernel_scope.

Definition UA4_IIR_INT_PRI_MASK : Z := 0x0f.
Definition UA4_IIR_NO_INT : Z := 0x01.
Definition UA4_IIR_LINE_STATUS : Z := 0x06.
Definition UA4_IIR_RX : Z := 0x04.
Definition UA5_IIR_RX_FIFO : Z := 0x0c.
Definition UA4_IIR_TX : Z := 0x02.
Definition UA4_IIR_MODEM_STATUS : Z := 0x00.

Section Drivers.
Context {L : Layout}.

(** [*inlast++ = ch] *)
Definition put_inlast (ch : Z) : K unit :=
  i <- sio inlast ;;
  b <- sio inbuffer ;;
  if in_bounds b i then
    sio_set (set_inbuffer (aset b i (u8 ch))) ;;
    sio_set (set_inlast (i + 1))
  else undef "inbuffer overrun".

(** A received character: to the first process waiting for one, or into the
    input buffer if there is room. *)
Definition sio_rx (ch : Z) : K unit :=
  q <- ps sioread ;;
  n <- que_length q ;;
  if negb (n <? 1) then
    r <- que_remove q true ;;
    assert "sio_isr: que_remove" (fst r =? E_SUCCESS) ;;
    let pcb := default NULL (snd r) in
    assert "sio_isr: pcb" (negb (pcb =? NULL)) ;;
    buf <- ARG pcb 2 ;;
    len <- ARG pcb 3 ;;
    (if 0 <? len then
       store8 buf (Z.land ch 0xff) ;;
       set_RET pcb 1
     else set_RET pcb 0) ;;
    schedule pcb
  else
    n <- sio incount ;;
    when (n <? BUF_SIZE)
      (put_inlast ch ;;
       sio_set (fun r => set_incount (u32 (incount r + 1)) r)).

(** The transmitter is ready for the next character of the output buffer. *)
Definition sio_tx : K unit :=
  busy <- sio sending ;;
  n <- sio outcount ;;
  if truth busy && (0 <? n) then
    i <- sio outnext ;;
    b <- sio outbuffer ;;
    c <- aget "outbuffer overrun" b i ;;
    outb UA4_TXD c ;;
    sio_set (set_outnext (i + 1)) ;;
    when (BUF_SIZE <=? i + 1) (sio_set (set_outnext 0)) ;;
    sio_set (set_outcount (n - 1))
  else
    sio_set (set_outcount 0) ;;
    sio_set (set_outnext 0) ;;
    sio_set (set_outlast 0) ;;
    sio_set (set_sending 0) ;;
    sio_disable SIO_TX ;;
    ret tt.

(** One pending event; [true] when there is none left. *)
Definition sio_event : K bool :=
  v <- inb UA4_IIR ;;
  let iir := Z.land v UA4_IIR_INT_PRI_MASK in
  if iir =? UA4_IIR_LINE_STATUS then
    v <- inb UA4_LSR ;;
    cio_printf (chars "** SIO int, LSR = %02x" ++ [10])%list [AI v] ;;
    ret false
  else if iir =? UA4_IIR_RX then
    ch <- inb UA4_RXD ;;
    sio_rx (if ch =? 13 then 10 else ch) ;;
    ret false
  else if iir =? UA5_IIR_RX_FIFO then
    ch <- inb UA4_RXD ;;
    cio_printf (chars "** SIO FIFO timeout, RXD = %02x" ++ [10])%list [AI ch] ;;
    ret false
  else if iir =? UA4_IIR_TX then sio_tx ;; ret false
  else if iir =? UA4_IIR_NO_INT then outb PIC1_CMD PIC_EOI ;; ret true
  else if iir =? UA4_IIR_MODEM_STATUS then
    v <- inb UA4_MSR ;;
    cio_printf (chars "** SIO int, MSR = %02x" ++ [10])%list [AI v] ;;
    ret false
  else panics "sio isr: IIR".

Definition sio_isr (vector ecode : Z) : K unit :=
  loop (fun _ : unit =>
    finished <- sio_event ;;
    ret (if finished : bool then inr tt else inl tt)) tt.

Definition UA5_FCR_FIFO_EN : Z := 0x01.
Definition UA5_FCR_RXSR : Z := 0x02.
Definition UA5_FCR_TXSR : Z := 0x04.
Definition UA4_LCR_DLAB : Z := 0x80.
Definition UA4_LCR_WLS_8 : Z := 0x03.
Definition DL_BAUD_9600 : Z := 12.
Definition UA4_MCR_DTR : Z := 0x01.
Definition UA4_MCR_RTS : Z := 0x02.
Definition UA4_MCR_ISEN : Z := 0x08.

Definition sio_init : K unit :=
  cio_puts (chars " Sio") ;;
  sio_set (fun r => set_inbuffer (map (fun _ => 0) (inbuffer r)) r) ;;
  sio_set (fun r => set_inlast 0 (set_innext 0 r)) ;;
  sio_set (set_incount 0) ;;
  sio_set (fun r => set_outbuffer (map (fun _ => 0) (outbuffer r)) r) ;;
  sio_set (fun r => set_outlast 0 (set_outnext 0 r)) ;;
  sio_set (set_outcount 0) ;;
  sio_set (set_sending 0) ;;
  outb UA5_FCR 0x20 ;;
  outb UA5_FCR 0 ;;
  outb UA5_FCR UA5_FCR_FIFO_EN ;;
  outb UA5_FCR (Z.lor UA5_FCR_FIFO_EN UA5_FCR_RXSR) ;;
  outb UA5_FCR (Z.lor (Z.lor UA5_FCR_FIFO_EN UA5_FCR_RXSR) UA5_FCR_TXSR) ;;
  outb UA4_IER 0 ;;
  sio_set (set_ier 0) ;;
  outb UA4_LCR UA4_LCR_DLAB ;;
  outb UA4_DLL (Z.land DL_BAUD_9600 0xff) ;;
  outb UA4_DLM (Z.land (Z.shiftr DL_BAUD_9600 8) 0xff) ;;
  outb UA4_LCR UA4_LCR_WLS_8 ;;
  outb UA4_MCR (Z.lor (Z.lor UA4_MCR_ISEN UA4_MCR_DTR) UA4_MCR_RTS) ;;
  install_isr VEC_COM1 HSio ;;
  sio_set (set_sio_ready 1).

(** [put_char_or_code( *ptr++ )], [count] times, from index [ptr]. *)
Definition dump_chars (why : string) (buf : list Z) (ptr count : Z) : K unit :=
  loop (fun n =>
    if n <? count then
      c <- aget why buf (ptr + n) ;;
      put_char_or_code (s8 c) ;;
      ret (inl (n + 1))
    else ret (inr tt)) 0.

Definition sio_dump (full : bool) : K unit :=
  r <- sio (fun r => r) ;;
  cio_printf_at 48 0 (chars "SIO: IER %02x (%c%c%c) in %d ot %d")
    [AI (Z.land (ier r) 0xff); AI (if truth (sending r) then 42 else 46);
     AI (if truth (Z.land (ier r) UA4_IER_TX_IE) then 84 else 116);
     AI (if truth (Z.land (ier r) UA4_IER_RX_IE) then 82 else 114);
     AI (incount r); AI (outcount r)] ;;
  if negb full then ret tt
  else
    r <- sio (fun r => r) ;;
    when (truth (incount r))
      (cio_puts (chars "SIO input queue: " ++ [34])%list ;;
       dump_chars "inbuffer overrun" (inbuffer r) (innext r) (incount r) ;;
       cio_puts [34; 10]) ;;
    r <- sio (fun r => r) ;;
    when (truth (outcount r))
      (cio_puts (chars "SIO output queue: " ++ [34])%list ;;
       cio_puts (chars " ot: " ++ [34])%list ;;
       ptr <- sio outnext ;;
       (* the loop re-reads [outcount], which the echo of the dump itself to
          the serial device can increase *)
       loop (fun n =>
         count <- sio outcount ;;
         if n <? count then
           buf <- sio outbuffer ;;
           c <- aget "outbuffer overrun" buf (ptr + n) ;;
           put_char_or_code (s8 c) ;;
           ret (inl (n + 1))
         else ret (inr tt)) 0 ;;
       cio_puts [34; 10]).
End Drivers.
