(* ===== verification/SerialSpec.v ===== *)
(** kernel/sio.c: the serial device is two queues of characters.  The transmitter takes its
    characters from a circular buffer; the receiver fills a buffer that starts again at
    its beginning whenever it has been emptied. *)

From S2P Require Import Prelude Memory State Lib LibMem Sio Cio Frames CioTypes Kmem Queues Stacks Procs Drivers.

Open Scope kernel_scope.

(** Steps over reads of the driver's variables. *)
Ltac sio_reads :=
  repeat match goal with |- context [bind (sio ?f) ?k ?s] => change (bind (sio f) k s) with (k (f (st_sio s)) s); cbv beta end.

(** * The circular buffer *)

(** The cell [k] places behind cell [i]. *)
Definition slot (i k : Z) : Z := if i + k <? BUF_SIZE then i + k else i + k - BUF_SIZE.

Definition ring (b : list Z) (i : Z) (q : list Z) : Prop :=
  forall k c, q !! k = Some c -> b !! Z.to_nat (slot i (Z.of_nat k)) = Some c.

Lemma slot_range i k : 0 <= i < BUF_SIZE -> 0 <= k <= BUF_SIZE -> 0 <= slot i k < BUF_SIZE.
Proof. unfold slot, BUF_SIZE. intros. zcase (i + k) 1024; lia. Qed.

Lemma slot_0 i : 0 <= i < BUF_SIZE -> slot i 0 = i.
Proof. unfold slot, BUF_SIZE. intros. rewrite Z.add_0_r. zcase i 1024; lia. Qed.

(** The step of the code: one further, or back to the start. *)
Lemma slot_next i k : 0 <= i < BUF_SIZE -> 0 <= k < BUF_SIZE ->
  slot i (k + 1) = if BUF_SIZE <=? slot i k + 1 then 0 else slot i k + 1.
Proof. unfold slot, BUF_SIZE. intros. repeat match goal with |- context [?a <? ?b] => zcase a b | |- context [?a <=? ?b] => zcase a b end; lia. Qed.

Lemma slot_slot i k : 0 <= i < BUF_SIZE -> 0 <= k < BUF_SIZE -> slot (slot i 1) k = slot i (k + 1).
Proof. unfold slot, BUF_SIZE. intros. repeat match goal with |- context [?a <? ?b] => zcase a b end; lia. Qed.

Lemma slot_inj i j k : 0 <= j < BUF_SIZE -> 0 <= k < BUF_SIZE -> slot i j = slot i k -> j = k.
Proof. unfold slot, BUF_SIZE. intros. repeat match goal with H : context [?a <? ?b] |- _ => destruct (Z.ltb_spec a b) end; lia. Qed.

Lemma ring_nil b i : ring b i [].
Proof. intros k c H. discriminate H. Qed.

Lemma ring_push b i q c : Z.of_nat (length b) = BUF_SIZE -> 0 <= i < BUF_SIZE -> Z.of_nat (length q) < BUF_SIZE ->
  ring b i q -> ring (aset b (slot i (Z.of_nat (length q))) c) i (q ++ [c]).
Proof.
  intros Hb Hi Hq Hr k x Hx. unfold aset. pose proof (slot_range i (Z.of_nat (length q)) Hi ltac:(lia)) as Hs.
  apply lookup_app_Some in Hx as [Hx|[Hk Hx]].
  - pose proof (lookup_lt_Some _ _ _ Hx) as Hlt. pose proof (slot_range i (Z.of_nat k) Hi ltac:(lia)) as Hs'.
    rewrite list_lookup_insert_ne; [exact (Hr k x Hx)|]. intros E. apply Z2Nat.inj in E; [|lia..].
    apply slot_inj in E; lia.
  - apply list_lookup_singleton_Some in Hx as [Hk0 <-]. replace k with (length q) by lia.
    apply list_lookup_insert_eq. lia.
Qed.

Lemma ring_pop b i c q : 0 <= i < BUF_SIZE -> Z.of_nat (length (c :: q)) <= BUF_SIZE -> ring b i (c :: q) ->
  b !! Z.to_nat i = Some c /\ ring b (slot i 1) q.
Proof.
  intros Hi Hq Hr. split.
  - rewrite <- (slot_0 i Hi). exact (Hr 0%nat c eq_refl).
  - intros k x Hx. pose proof (lookup_lt_Some _ _ _ Hx). cbn [length] in Hq.
    rewrite slot_slot by lia. replace (Z.of_nat k + 1) with (Z.of_nat (S k)) by lia. exact (Hr (S k) x Hx).
Qed.

(** * The transmitter *)

(** The buffer holds [q]. *)
Record tx_ring (q : list Z) (o : sio_t) : Prop := TxRing {
  tx_buffer : Z.of_nat (length (outbuffer o)) = BUF_SIZE;
  tx_next : 0 <= outnext o < BUF_SIZE;
  tx_count : outcount o = Z.of_nat (length q);
  tx_fits : Z.of_nat (length q) <= BUF_SIZE;
  tx_last : outlast o = slot (outnext o) (Z.of_nat (length q));
  tx_chars : ring (outbuffer o) (outnext o) q;
  tx_bytes : Forall (fun c => 0 <= c < 256) q
}.

(** The line is idle, or sends and has [q] still to send. *)
Definition tx_rep (line : option (list Z)) (o : sio_t) : Prop :=
  tx_ring (default [] line) o /\
  match line with None => sending o = 0 /\ outnext o = 0 | Some _ => sending o = 1 end.

(** What an operation on the output buffer leaves alone. *)
Definition same_but_out (o o' : sio_t) : Prop :=
  inbuffer o' = inbuffer o /\ inlast o' = inlast o /\ innext o' = innext o /\ incount o' = incount o /\
  outnext o' = outnext o /\ sending o' = sending o /\ ier o' = ier o /\ sio_ready o' = sio_ready o.

#[export] Instance same_but_out_preorder : PreOrder same_but_out.
Proof. split; [repeat split|]. intros o1 o2 o3 (?&?&?&?&?&?&?&?) (?&?&?&?&?&?&?&?). repeat split; congruence. Qed.

(** A character at the end of the buffer, as [sio_write] puts it there. *)
Definition out_pushed (c : Z) (o : sio_t) : sio_t :=
  let o1 := set_outlast (outlast o + 1) (set_outbuffer (aset (outbuffer o) (outlast o) (u8 c)) o) in
  set_outcount (u32 (outcount o + 1)) (if BUF_SIZE <=? outlast o1 then set_outlast 0 o1 else o1).

Lemma out_pushed_same c o : same_but_out o (out_pushed c o).
Proof. unfold out_pushed. cbv zeta. destruct (BUF_SIZE <=? _); repeat split. Qed.

Lemma out_pushed_ring c q o : tx_ring q o -> Z.of_nat (length q) < BUF_SIZE -> tx_ring (q ++ [u8 c]) (out_pushed c o).
Proof.
  intros [Hb Hn Hc Hf Hl Hr By] Hq. pose proof (ring_push _ _ _ (u8 c) Hb Hn Hq Hr) as Hr'. rewrite <- Hl in Hr'.
  pose proof (out_pushed_same c o) as (_ & _ & _ & _ & En & _).
  assert (outbuffer (out_pushed c o) = aset (outbuffer o) (outlast o) (u8 c)) as Eb
    by (unfold out_pushed; cbv zeta; now destruct (BUF_SIZE <=? _)).
  unfold BUF_SIZE in Hq. split; rewrite ?En, ?Eb, ?length_app, ?length_aset; cbn [length]; try assumption; try (unfold BUF_SIZE; lia).
  - unfold out_pushed. cbn [outcount set_outcount]. rewrite Hc, u32_small by lia. lia.
  - replace (Z.of_nat (length q + 1)) with (Z.of_nat (length q) + 1) by lia. rewrite slot_next by (unfold BUF_SIZE in *; lia).
    rewrite <- Hl. unfold out_pushed. cbn [outlast set_outlast]. now destruct (BUF_SIZE <=? _).
  - apply Forall_app_2; [exact By|]. constructor; [apply u8_range|constructor].
Qed.

Lemma put_outlast_eq c s : in_bounds (outbuffer (st_sio s)) (outlast (st_sio s)) = true ->
  put_outlast c s = Ret tt (up_sio (fun o => set_outlast (outlast o + 1) (set_outbuffer (aset (outbuffer o) (outlast o) (u8 c)) o)) s).
Proof. intros H. unfold put_outlast. unfold bind at 1 2, sio, gets. now rewrite H. Qed.

Lemma byte_s8 c : 0 <= c < 256 -> u8 (s8 c) = c.
Proof. intros H. rewrite u8_s8. now apply u8_small. Qed.

(** One round of the loop of [sio_write]. *)
Lemma write_body_eq l k c q s : l !! k = Some c -> tx_ring q (st_sio s) -> Z.of_nat (length q) < BUF_SIZE ->
  write_body (lit_source l) (Z.of_nat (length l)) (Z.of_nat k, Z.of_nat k) s =
    Ret (inl (Z.of_nat (S k), Z.of_nat (S k))) (up_sio (out_pushed (s8 c)) s).
Proof.
  intros Hc HR Hq. pose proof HR as [Hb Hn Hct Hf Hl _ _]. pose proof (lookup_lt_Some _ _ _ Hc).
  unfold write_body. sio_reads. rewrite Hct.
  destruct (Z.ltb_spec (Z.of_nat k) (Z.of_nat (length l))) as [_|]; [|lia].
  destruct (Z.ltb_spec (Z.of_nat (length q)) BUF_SIZE) as [_|]; [|lia]. cbn [andb].
  assert (lit_source l (Z.of_nat k) s = Ret (s8 c) s) as E.
  { unfold lit_source. erewrite bind_Ret; [reflexivity|]. apply aget_ok; [lia|]. rewrite Nat2Z.id. now apply lookup_app_l_Some. }
  rewrite (bind_Ret _ _ _ _ _ E).
  assert (in_bounds (outbuffer (st_sio s)) (outlast (st_sio s)) = true) as Hin.
  { apply in_bounds_spec. rewrite Hb, Hl. apply slot_range; lia. }
  rewrite (bind_Ret _ _ _ _ _ (put_outlast_eq (s8 c) s Hin)). sio_reads. cbn [st_sio up_sio outlast set_outlast].
  replace (Z.of_nat (S k)) with (Z.of_nat k + 1) by lia. rewrite <- Hct. unfold out_pushed, when.
  unfold bind, sio_set, modify, ret, up_sio. cbn [st_sio st_mem st_km st_qs st_stk st_ps st_clk st_cio st_krn st_dev outlast set_outlast].
  now destruct (BUF_SIZE <=? outlast (st_sio s) + 1).
Qed.

(** The loop: as many characters as there is room for. *)
Lemma write_loop_eq l k q s : (k <= length l)%nat -> Forall (fun c => 0 <= c < 256) l -> tx_ring q (st_sio s) ->
  exists o', let more := take (Z.to_nat BUF_SIZE - length q) (drop k l) in
    loop (write_body (lit_source l) (Z.of_nat (length l))) (Z.of_nat k, Z.of_nat k) s =
      Ret (Z.of_nat (k + length more)) (up_sio (fun _ => o') s) /\
    tx_ring (q ++ more) o' /\ same_but_out (st_sio s) o'.
Proof.
  intros Hk Hl HR. cbv zeta. remember (Z.to_nat BUF_SIZE - length q)%nat as n eqn:En.
  assert (exists o', loopN (S n) (write_body (lit_source l) (Z.of_nat (length l))) (Z.of_nat k, Z.of_nat k) s =
      Ret (inr (Z.of_nat (k + length (take n (drop k l))))) (up_sio (fun _ => o') s) /\
    tx_ring (q ++ take n (drop k l)) o' /\ same_but_out (st_sio s) o') as (o' & E & H).
  { revert k q s Hk HR En. induction n as [|n IH]; intros k q s Hk HR En.
    - pose proof (tx_count _ _ HR) as Ec. pose proof (tx_fits _ _ HR) as Ef. exists (st_sio s). cbn [take]. rewrite app_nil_r. split; [|split; [exact HR|reflexivity]].
      rewrite (loopN_done _ _ _ s (Z.of_nat k) s); [cbn; rewrite Nat.add_0_r; now destruct s|].
      unfold write_body, bind, sio, gets. rewrite Ec. destruct (Z.ltb_spec (Z.of_nat (length q)) BUF_SIZE) as [Hlt|_]; [unfold BUF_SIZE in *; lia|].
      now rewrite andb_false_r.
    - destruct (drop k l) as [|c r] eqn:Ed.
      + assert (length l = k) as <- by (apply (f_equal length) in Ed; rewrite length_drop in Ed; cbn in Ed; lia).
        exists (st_sio s). rewrite take_nil, app_nil_r. split; [|split; [exact HR|reflexivity]].
        rewrite (loopN_done _ _ _ s (Z.of_nat (length l)) s); [cbn; rewrite Nat.add_0_r; now destruct s|].
        unfold write_body, bind, sio, gets. now rewrite Z.ltb_irrefl.
      + assert (l !! k = Some c) as Hc by (rewrite <- (Nat.add_0_r k), <- lookup_drop, Ed; reflexivity).
        assert (drop (S k) l = r) as Er by (replace (S k) with (k + 1)%nat by lia; now rewrite <- drop_drop, Ed).
        assert (Z.of_nat (length q) < BUF_SIZE) as Hq by (unfold BUF_SIZE in *; lia).
        pose proof (lookup_lt_Some _ _ _ Hc) as Hlt.
        rewrite (loopN_step _ _ _ _ _ _ (write_body_eq l k c q s Hc HR Hq)).
        pose proof (out_pushed_ring (s8 c) q _ HR Hq) as HR'.
        destruct (IH (S k) (q ++ [u8 (s8 c)]) (up_sio (out_pushed (s8 c)) s) Hlt HR') as (o' & E & HR2 & Hs).
        { rewrite length_app. cbn. unfold BUF_SIZE in *. lia. }
        rewrite Er in E, HR2. exists o'. split; [|split].
        * rewrite E. cbn [take length]. do 2 f_equal. lia.
        * rewrite <- app_assoc in HR2. cbn [take]. rewrite (byte_s8 c) in HR2; [exact HR2|]. now apply (Forall_lookup_1 _ _ _ _ Hl Hc).
        * etransitivity; [apply (out_pushed_same (s8 c))|exact Hs]. }
  exists o'. split; [|exact H]. apply (loop_intro _ (S n)); [unfold BUF_SIZE in *; lia|exact E].
Qed.

(** * What the line has seen *)

(** The characters that went to the transmitter, in order. *)
Definition sent_of (d : dev_t) : list Z := rev (map snd (filter (fun pv => pv.1 = UA4_TXD) (dev_out d))).
Notation sent s := (sent_of (st_dev s)).

(** The driver is now in state [o], has read [n] ports and has sent [out]; nothing else
    has changed. *)
Definition effect (n : N) (o : sio_t) (out : list Z) (s s' : kstate) : Prop :=
  exists d, s' = up_dev (fun _ => d) (up_sio (fun _ => o) s) /\
    dev_in d = dev_in (st_dev s) /\ dev_count d = (dev_count (st_dev s) + n)%N /\ sent_of d = sent s ++ out.

Lemma effect_sio f s : effect 0 (f (st_sio s)) [] s (up_sio f s).
Proof. exists (st_dev s). split; [now destruct s|]. split; [done|]. split; [now rewrite N.add_0_r|now rewrite app_nil_r]. Qed.

Lemma effect_refl s : effect 0 (st_sio s) [] s s.
Proof. exists (st_dev s). split; [now destruct s|]. split; [done|]. split; [now rewrite N.add_0_r|now rewrite app_nil_r]. Qed.

Lemma effect_trans n1 n2 o1 o2 l1 l2 s s1 s2 :
  effect n1 o1 l1 s s1 -> effect n2 o2 l2 s1 s2 -> effect (n1 + n2) o2 (l1 ++ l2) s s2.
Proof.
  intros (d1 & -> & I1 & C1 & S1) (d2 & -> & I2 & C2 & S2). exists d2. cbn in *. split; [reflexivity|].
  split; [congruence|]. split; [rewrite C2, C1; lia|]. now rewrite S2, S1, app_assoc.
Qed.

Lemma effect_state n o out s s' : effect n o out s s' -> st_sio s' = o.
Proof. now intros (d & -> & _). Qed.

Lemma effect_outb p v s : effect 0 (st_sio s) (if p =? UA4_TXD then [u8 v] else []) s
  (up_dev (fun d => set_dev_out ((p, u8 v) :: dev_out d) d) s).
Proof.
  eexists. split; [now destruct s|]. split; [done|]. split; [cbn; now rewrite N.add_0_r|]. unfold sent_of. cbn [dev_out set_dev_out].
  destruct (Z.eqb_spec p UA4_TXD) as [E|E].
  - now rewrite filter_cons_True by exact E.
  - now rewrite filter_cons_False, app_nil_r by exact E.
Qed.

Lemma effect_inb p s : exists s', inb p s = Ret (u8 (dev_in (st_dev s) (dev_count (st_dev s)) p)) s' /\ effect 1 (st_sio s) [] s s'.
Proof. eexists. split; [reflexivity|]. eexists. split; [now destruct s|]. cbn. split; [done|]. split; [done|]. now rewrite app_nil_r. Qed.

(** Switching interrupts on or off sends nothing and keeps the buffers. *)
Lemma ier_change f s :
  exists s', (sio_set (fun r => set_ier (f (ier r)) r) ;; new <- sio ier ;;
      when (negb (ier (st_sio s) =? new)) (outb UA4_IER new) ;; ret (ier (st_sio s))) s = Ret (ier (st_sio s)) s' /\
    effect 0 (set_ier (f (ier (st_sio s))) (st_sio s)) [] s s'.
Proof.
  pose proof (effect_sio (fun r => set_ier (f (ier r)) r) s) as E1. set (s1 := up_sio (fun r => set_ier (f (ier r)) r) s) in *.
  change (exists s', (new <- sio ier ;; when (negb (ier (st_sio s) =? new)) (outb UA4_IER new) ;; ret (ier (st_sio s))) s1 =
    Ret (ier (st_sio s)) s' /\ effect 0 (set_ier (f (ier (st_sio s))) (st_sio s)) [] s s').
  destruct (negb (ier (st_sio s) =? ier (st_sio s1))) eqn:Ec.
  - eexists. split; [unfold bind at 1, sio at 1, gets at 1; rewrite Ec; reflexivity|].
    pose proof (effect_outb UA4_IER (ier (st_sio s1)) s1) as E2. rewrite (effect_state _ _ _ _ _ E1) in E2 at 1.
    exact (effect_trans _ _ _ _ _ _ _ _ _ E1 E2).
  - exists s1. split; [unfold bind at 1, sio at 1, gets at 1; rewrite Ec; reflexivity|exact E1].
Qed.

Lemma sio_enable_eq s : exists s', sio_enable SIO_TX s = Ret (ier (st_sio s)) s' /\
  effect 0 (set_ier (Z.lor (ier (st_sio s)) UA4_IER_TX_IE) (st_sio s)) [] s s'.
Proof. exact (ier_change (fun i => Z.lor i UA4_IER_TX_IE) s). Qed.

Lemma sio_disable_eq s : exists s', sio_disable SIO_TX s = Ret (ier (st_sio s)) s' /\
  effect 0 (set_ier (Z.ldiff (ier (st_sio s)) UA4_IER_TX_IE) (st_sio s)) [] s s'.
Proof. exact (ier_change (fun i => Z.ldiff i UA4_IER_TX_IE) s). Qed.

(** * Writing *)

(** What the line makes of the characters it is offered: its next state, what is sent at
    once, how many it takes.  An idle line sends the first one; behind a line feed the
    driver puts the line feed itself at the end of the buffer. *)
Definition offer (l : list Z) (line : option (list Z)) : option (list Z) * list Z * Z :=
  match line, l with
  | Some q, _ => let more := take (Z.to_nat BUF_SIZE - length q) l in (Some (q ++ more), [], Z.of_nat (length more))
  | None, c :: l =>
      let more := take (Z.to_nat BUF_SIZE) l in
      if c =? 10 then (Some (more ++ [10]), [13], 1 + Z.of_nat (length more))
      else (Some more, [c], 1 + Z.of_nat (length more))
  | None, [] => (Some [], [0], 1)
  end.

(** Characters, with room for a line feed that comes first. *)
Definition offer_ok (l : list Z) (line : option (list Z)) : Prop :=
  Forall (fun c => 0 <= c < 256) l /\
  match line, l with None, c :: l => c = 10 -> Z.of_nat (length l) < BUF_SIZE - 1 | _, _ => True end.

(** The receiver's variables. *)
Definition same_rx (o o' : sio_t) : Prop :=
  inbuffer o' = inbuffer o /\ inlast o' = inlast o /\ innext o' = innext o /\ incount o' = incount o.

(** An idle line starts to send [c]. *)
Lemma start_sending c q s : tx_ring q (st_sio s) -> sending (st_sio s) = 0 ->
  exists s' o', sio_writec_raw c s = Ret tt s' /\ effect 0 o' [u8 c] s s' /\ tx_rep (Some q) o' /\ same_rx (st_sio s) o' /\
    outlast o' = outlast (st_sio s).
Proof.
  intros HR Hs. unfold sio_writec_raw. sio_reads. rewrite Hs. cbn [truth Z.eqb negb].
  pose proof (effect_sio (set_sending 1) s) as E1. set (s1 := up_sio (set_sending 1) s) in *.
  change (exists s' o', (outb UA4_TXD c ;; sio_enable SIO_TX ;; ret tt) s1 = Ret tt s' /\ effect 0 o' [u8 c] s s' /\
    tx_rep (Some q) o' /\ same_rx (st_sio s) o' /\ outlast o' = outlast (st_sio s)).
  pose proof (effect_outb UA4_TXD c s1) as E2. change (UA4_TXD =? UA4_TXD) with true in E2. cbv iota in E2.
  rewrite (effect_state _ _ _ _ _ E1) in E2 at 1. pose proof (effect_trans _ _ _ _ _ _ _ _ _ E1 E2) as E3.
  set (s2 := up_dev _ s1) in E3. destruct (sio_enable_eq s2) as (s3 & En & E4).
  exists s3. eexists. split; [|split; [exact (effect_trans _ _ _ _ _ _ _ _ _ E3 E4)|]].
  - unfold bind at 1. change (outb UA4_TXD c s1) with (Ret tt s2 : outcome kstate unit). cbv iota.
    now rewrite (bind_Ret _ _ _ _ _ En).
  - rewrite (effect_state _ _ _ _ _ E3). destruct HR. split; [|repeat split]. split; [split; assumption|reflexivity].
Qed.

(** A line that sends takes [c] into the buffer; there must be room for it behind the last
    character. *)
Lemma add_raw c q s : tx_rep (Some q) (st_sio s) -> Z.of_nat (length q) < BUF_SIZE -> outlast (st_sio s) < BUF_SIZE - 1 ->
  exists o', sio_writec_raw c s = Ret tt (up_sio (fun _ => o') s) /\ tx_rep (Some (q ++ [u8 c])) o' /\ same_rx (st_sio s) o'.
Proof.
  intros [HR Hs] Hq Hlast. unfold sio_writec_raw. sio_reads. rewrite Hs. cbn [truth Z.eqb negb].
  assert (0 <= outlast (st_sio s)) as H0 by (rewrite (tx_last _ _ HR); apply slot_range; [apply (tx_next _ _ HR)|cbn in *; lia]).
  assert (in_bounds (outbuffer (st_sio s)) (outlast (st_sio s)) = true) as Hin
    by (apply in_bounds_spec; rewrite (tx_buffer _ _ HR); lia).
  exists (out_pushed c (st_sio s)). split.
  - rewrite (bind_Ret _ _ _ _ _ (put_outlast_eq c s Hin)). unfold out_pushed. cbn [outlast set_outlast].
    destruct (Z.leb_spec BUF_SIZE (outlast (st_sio s) + 1)); [lia|]. reflexivity.
  - pose proof (out_pushed_same c (st_sio s)) as (S1 & S2 & S3 & S4 & S5 & S6 & _). split; [|repeat split; assumption].
    split; [now apply (out_pushed_ring c q)|congruence].
Qed.

Lemma effect_set n o o' out s s' : effect n o out s s' -> effect n o' out s (up_sio (fun _ => o') s').
Proof. intros (d & -> & H). exists d. split; [reflexivity|exact H]. Qed.

(** [sio_write], with the name of its loop. *)
Lemma sio_write_unfold src n : sio_write src n =
  (first <- src 0 ;; busy <- sio sending ;;
   copied <- loop (write_body src n) (if truth busy then (0, 0) else (1, 1)) ;;
   busy <- sio sending ;; when (negb (truth busy)) (sio_writec first) ;; ret copied).
Proof. reflexivity. Qed.

Lemma write_busy l q s : tx_rep (Some q) (st_sio s) -> Forall (fun c => 0 <= c < 256) l ->
  exists o', let more := take (Z.to_nat BUF_SIZE - length q) l in
    sio_write (lit_source l) (Z.of_nat (length l)) s = Ret (Z.of_nat (length more)) (up_sio (fun _ => o') s) /\
    tx_rep (Some (q ++ more)) o' /\ same_rx (st_sio s) o'.
Proof.
  intros [HR Hs] Hl. destruct (ends_lit l 0 s ltac:(lia)) as (first & Ef).
  destruct (write_loop_eq l 0 q s ltac:(lia) Hl HR) as (o' & E & HR' & S1 & S2 & S3 & S4 & S5 & S6 & _).
  rewrite drop_0 in *. exists o'. split; [|split; [split; [exact HR'|congruence]|repeat split; assumption]].
  rewrite sio_write_unfold, (bind_Ret _ _ _ _ _ Ef). sio_reads. rewrite Hs. cbn [truth Z.eqb negb].
  rewrite (bind_Ret _ _ _ _ _ E). sio_reads. cbn [st_sio up_sio]. rewrite S6, Hs. reflexivity.
Qed.

(** The characters behind the first one, on an idle line. *)
Lemma write_idle_loop c l s : tx_rep None (st_sio s) -> Forall (fun c => 0 <= c < 256) (c :: l) ->
  exists o', let more := take (Z.to_nat BUF_SIZE) l in
    (forall r s', (busy <- sio sending ;; when (negb (truth busy)) (sio_writec (s8 c)) ;; ret (1 + Z.of_nat (length more)))
        (up_sio (fun _ => o') s) = Ret r s' ->
      sio_write (lit_source (c :: l)) (Z.of_nat (length (c :: l))) s = Ret r s') /\
    tx_ring more o' /\ same_but_out (st_sio s) o'.
Proof.
  intros [HR [Hs Hn]] Hl. cbn [default] in HR.
  destruct (write_loop_eq (c :: l) 1 [] s ltac:(cbn; lia) Hl HR) as (o' & E & HR' & HS).
  exists o'. split; [|split; [exact HR'|exact HS]]. intros r s' Hr.
  assert (lit_source (c :: l) 0 s = Ret (s8 c) s) as Ef by reflexivity.
  rewrite sio_write_unfold, (bind_Ret _ _ _ _ _ Ef). sio_reads. rewrite Hs. cbn [truth Z.eqb negb].
  rewrite (bind_Ret _ _ _ _ _ E). cbn [drop] in *. rewrite Nat2Z.inj_add. exact Hr.
Qed.

Lemma same_but_out_rx o o' : same_but_out o o' -> same_rx o o'.
Proof. intros (S1 & S2 & S3 & S4 & _). repeat split; assumption. Qed.

Lemma same_rx_trans o1 o2 o3 : same_rx o1 o2 -> same_rx o2 o3 -> same_rx o1 o3.
Proof. intros (?&?&?&?) (?&?&?&?). repeat split; congruence. Qed.

(** Every write. *)
Lemma sio_write_eq l line s : tx_rep line (st_sio s) -> offer_ok l line ->
  exists s' o', sio_write (lit_source l) (Z.of_nat (length l)) s = Ret (offer l line).2 s' /\
    effect 0 o' (offer l line).1.2 s s' /\ tx_rep (offer l line).1.1 o' /\ same_rx (st_sio s) o'.
Proof.
  intros HR [Hl Hlf]. destruct line as [q|].
  - destruct (write_busy l q s HR Hl) as (o' & E & HR' & HS). exists (up_sio (fun _ => o') s), o'.
    split; [exact E|]. split; [|split; [exact HR'|exact HS]]. exact (effect_sio (fun _ => o') s).
  - destruct l as [|c l]; cbn [offer].
    + destruct (start_sending 0 [] s (proj1 HR) (proj1 (proj2 HR))) as (s' & o' & E & He & HR' & HS & _).
      exists s', o'. cbn [fst snd]. split; [|split; [exact He|split; [exact HR'|exact HS]]].
      rewrite sio_write_unfold. change (lit_source [] 0) with (ret (s8 0) : K Z). rewrite bind_ret_l.
      assert (forall s, loop (write_body (lit_source []) (Z.of_nat (@length Z []))) (1, 1) s = Ret 1 s) as El.
      { intros s0. apply (loop_intro _ 1); [lia|]. apply loopN_done. reflexivity. }
      sio_reads. rewrite (proj1 (proj2 HR)). cbn [truth Z.eqb negb].
      rewrite (bind_Ret _ _ _ _ _ (El s)). sio_reads. rewrite (proj1 (proj2 HR)). cbn [truth Z.eqb negb when].
      change (sio_writec (s8 0)) with (ret tt ;; sio_writec_raw 0 : K unit). rewrite bind_assoc, bind_ret_l. now rewrite (bind_Ret _ _ _ _ _ E).
    + destruct (write_idle_loop c l s HR Hl) as (o1 & Hw & HR1 & HS1). cbv zeta in Hw. set (more := take _ l) in *.
      pose proof HS1 as (_ & _ & _ & _ & En & Es & _). rewrite (proj1 (proj2 HR)) in Es.
      set (s1 := up_sio (fun _ => o1) s). assert (effect 0 o1 [] s s1) as E1 by exact (effect_sio (fun _ => o1) s).
      destruct (Z.eqb_spec c 10) as [->|Hc]; cbn [fst snd].
      * destruct (start_sending 13 more s1 HR1 Es) as (s2 & o2 & E2 & He2 & HR2 & HS2 & Hl2).
        pose proof (effect_state _ _ _ _ _ He2) as Eo. rewrite <- Eo in HR2.
        specialize (Hlf eq_refl). assert (Z.of_nat (length more) < BUF_SIZE - 1) as Hm by (unfold more; rewrite length_take; lia).
        destruct (add_raw 10 more s2 HR2 ltac:(lia)) as (o3 & E3 & HR3 & HS3).
        { rewrite Eo, Hl2. cbn [st_sio up_sio s1]. unfold s1. cbn [st_sio up_sio]. rewrite (tx_last _ _ HR1), En, (proj2 (proj2 HR)).
          unfold slot, BUF_SIZE in *. zcase (0 + Z.of_nat (length more)) 1024; lia. }
        exists (up_sio (fun _ => o3) s2), o3. split; [|split; [|split; [exact HR3|]]].
        -- apply Hw. fold s1. sio_reads. unfold s1 at 1. cbn [st_sio up_sio]. rewrite Es. cbn [truth Z.eqb negb when].
           change (sio_writec (s8 10)) with (sio_writec_raw 13 ;; sio_writec_raw 10 : K unit).
           rewrite bind_assoc, (bind_Ret _ _ _ _ _ E2), (bind_Ret _ _ _ _ _ E3). reflexivity.
        -- apply (effect_set _ o2). exact (effect_trans _ _ _ _ _ _ _ _ _ E1 He2).
        -- eapply same_rx_trans; [exact (same_but_out_rx _ _ HS1)|]. eapply same_rx_trans; [exact HS2|]. now rewrite Eo in HS3.
      * assert (s8 c <> 10) as Hc' by (inversion Hl as [|? ? H0]; subst; intros E; apply Hc; rewrite <- (byte_s8 c), E by assumption; reflexivity).
        destruct (start_sending (s8 c) more s1 HR1 Es) as (s2 & o2 & E2 & He2 & HR2 & HS2 & _).
        exists s2, o2. split; [|split; [|split; [exact HR2|exact (same_rx_trans _ _ _ (same_but_out_rx _ _ HS1) HS2)]]].
        -- apply Hw. fold s1. sio_reads. unfold s1 at 1. cbn [st_sio up_sio]. rewrite Es. cbn [truth Z.eqb negb when].
           unfold sio_writec. destruct (Z.eqb_spec (s8 c) 10) as [|_]; [contradiction|]. cbn [when].
           rewrite bind_assoc, bind_ret_l, (bind_Ret _ _ _ _ _ E2). reflexivity.
        -- pose proof (effect_trans _ _ _ _ _ _ _ _ _ E1 He2) as E. rewrite byte_s8 in E by now inversion Hl. exact E.
Qed.

(** * Interrupts *)

(** The received characters, from index [pos] of the buffer on. *)
Record rx_at (pos : Z) (q : list Z) (o : sio_t) : Prop := RxAt {
  rx_buffer : Z.of_nat (length (inbuffer o)) = BUF_SIZE;
  rx_next : innext o = pos;
  rx_count : incount o = Z.of_nat (length q);
  rx_last : inlast o = pos + Z.of_nat (length q);
  rx_bound : 0 <= pos /\ pos + Z.of_nat (length q) <= BUF_SIZE;
  rx_chars : forall k c, q !! k = Some c -> inbuffer o !! Z.to_nat (pos + Z.of_nat k) = Some c
}.

(** Between operations an empty queue is at the start of the buffer. *)
Definition rx_rep (pos : Z) (q : list Z) (o : sio_t) : Prop := rx_at pos q o /\ (q = [] -> pos = 0).

(** The device: the line, the place and the characters of the input. *)
Record serial := Serial { line : option (list Z); in_pos : Z; typed : list Z }.

Definition serial_rep (a : serial) (o : sio_t) : Prop := tx_rep (line a) o /\ rx_rep (in_pos a) (typed a) o.

(** What the device reports: it can take a character, or it has received one. *)
Inductive event := Tx | Rx (c : Z).

(** What the driver makes of it: its next state, what it sends.  No answer: the character
    would be stored behind the end of the buffer. *)
Definition event_step (e : event) (a : serial) : option (serial * list Z) :=
  match e with
  | Tx =>
      match line a with
      | Some (c :: q) => Some (Serial (Some q) (in_pos a) (typed a), [c])
      | _ => Some (Serial None (in_pos a) (typed a), [])
      end
  | Rx c =>
      let n := Z.of_nat (length (typed a)) in
      if BUF_SIZE <=? n then Some (a, [])
      else if in_pos a + n <? BUF_SIZE then
        Some (Serial (line a) (in_pos a) (typed a ++ [if c =? 13 then 10 else c]), [])
      else None
  end.

Fixpoint events_step (l : list event) (a : serial) : option (serial * list Z) :=
  match l with
  | [] => Some (a, [])
  | e :: l =>
      match event_step e a with
      | Some (a1, out1) => match events_step l a1 with Some (a2, out2) => Some (a2, out1 ++ out2) | None => None end
      | None => None
      end
  end.

(** The device reports exactly the events [l], from its [n]-th answer on. *)
Fixpoint pending (l : list event) (input : N -> Z -> Z) (n : N) : Prop :=
  let iir := Z.land (u8 (input n UA4_IIR)) UA4_IIR_INT_PRI_MASK in
  match l with
  | [] => iir = UA4_IIR_NO_INT
  | Tx :: l => iir = UA4_IIR_TX /\ pending l input (n + 1)
  | Rx c :: l => iir = UA4_IIR_RX /\ u8 (input (n + 1)%N UA4_RXD) = c /\ pending l input (n + 2)
  end.

Section Interrupts.
Context {L : Layout}.

(** Nobody waits for input: the driver's test of its queue of readers fails. *)
Definition unread (s : kstate) : Prop := que_length (sioread (st_ps s)) s = Ret 0 s.

Lemma que_length_frame q n s s' : st_qs s' = st_qs s -> que_length q s = Ret n s -> que_length q s' = Ret n s'.
Proof.
  intros Hq H. unfold que_length, que_get, qs in *. destruct (que_ix q <? 0); [discriminate H|]. cbn [when] in *.
  rewrite !bind_ret_l in *. apply bind_inv_Ret in H as (fl & s1 & E1 & H). injection E1 as <- <-.
  apply bind_inv_Ret in H as (f & s1 & E1 & H).
  match goal with |- bind (gets ?f) ?k s' = _ => change (k (f s') s' = Ret n s') end. cbv beta. rewrite Hq.
  unfold aget in E1 at 1. destruct (0 <=? que_ix q) eqn:Ei; [|discriminate E1].
  destruct (queue_free (st_qs s) !! Z.to_nat (que_ix q)) as [f'|] eqn:Ef; [|discriminate E1]. injection E1 as -> <-.
  rewrite (bind_Ret _ _ _ _ _ (aget_ok _ _ _ _ _ (proj1 (Z.leb_le _ _) Ei) Ef)).
  destruct (truth f); [discriminate H|]. cbn [when] in *. rewrite !bind_ret_l, !bind_assoc in *.
  apply bind_inv_Ret in H as (x & s1 & E1 & H).
  assert (s1 = s /\ get_que q s' = Ret x s') as [-> E2].
  { revert E1. unfold get_que, aget. destruct (que_slot q) as [i|]; [|discriminate]. rewrite Hq.
    destruct (0 <=? i); [|discriminate]. destruct (queues (st_qs s) !! Z.to_nat i); [|discriminate]. intros E1. now injection E1 as -> ->. }
  rewrite (bind_Ret _ _ _ _ _ E2). rewrite bind_ret_l in *. injection H as <-. reflexivity.
Qed.

Lemma unread_effect n o out s s' : effect n o out s s' -> unread s -> unread s'.
Proof. intros (d & -> & _) H. unfold unread in *. cbn [st_ps up_dev up_sio]. eapply que_length_frame; [|exact H]. reflexivity. Qed.

(** [sio_tx], its variables read. *)
Lemma sio_tx_unfold s : let o := st_sio s in sio_tx s =
  (if truth (sending o) && (0 <? outcount o) then
     c <- aget "outbuffer overrun" (outbuffer o) (outnext o) ;;
     outb UA4_TXD c ;;
     sio_set (set_outnext (outnext o + 1)) ;;
     when (BUF_SIZE <=? outnext o + 1) (sio_set (set_outnext 0)) ;;
     sio_set (set_outcount (outcount o - 1))
   else
     sio_set (set_outcount 0) ;; sio_set (set_outnext 0) ;; sio_set (set_outlast 0) ;; sio_set (set_sending 0) ;;
     sio_disable SIO_TX ;; ret tt) s.
Proof. unfold sio_tx, bind at 1 2, sio at 1 2, gets at 1 2. now destruct (_ && _). Qed.

(** The transmitter asks for a character. *)
Lemma sio_tx_eq a s : serial_rep a (st_sio s) ->
  match event_step Tx a with
  | Some (a', out) => exists s' o', sio_tx s = Ret tt s' /\ effect 0 o' out s s' /\ serial_rep a' o'
  | None => False
  end.
Proof.
  intros [[HR Hs] HX]. destruct a as [ln pos q]. cbn [line in_pos typed event_step] in *.
  assert (sending (st_sio s) = 0 \/ ln = Some [] -> exists s' o', (sio_set (set_outcount 0) ;; sio_set (set_outnext 0) ;;
    sio_set (set_outlast 0) ;; sio_set (set_sending 0) ;; sio_disable SIO_TX ;; ret tt) s = Ret tt s' /\ effect 0 o' [] s s' /\
    serial_rep (Serial None pos q) o') as Hidle.
  { intros _. set (o1 := set_sending 0 (set_outlast 0 (set_outnext 0 (set_outcount 0 (st_sio s))))).
    set (s1 := up_sio (fun _ => o1) s). destruct (sio_disable_eq s1) as (s2 & E & He).
    pose proof (effect_sio (fun _ => o1) s) as He1. fold s1 in He1.
    exists s2. eexists. split; [|split; [exact (effect_trans _ _ _ _ _ _ _ _ _ He1 He)|]].
    - change ((sio_disable SIO_TX ;; ret tt) s1 = Ret tt s2). now rewrite (bind_Ret _ _ _ _ _ E).
    - destruct HR as [Hb Hn _ _ _ _ _]. split; [split; [|split; reflexivity]|].
      + split; cbn; try assumption; unfold slot, BUF_SIZE; try reflexivity; try lia; [apply ring_nil|constructor].
      + destruct HX as [[] ?]; split; [split; assumption|assumption]. }
  rewrite sio_tx_unfold. pose proof (tx_count _ _ HR) as Ec. rewrite Ec.
  destruct ln as [[|c l]|]; cbn [default id length] in *.
  - rewrite Hs. cbn [truth Z.eqb negb andb Z.of_nat Z.ltb Z.compare]. auto.
  - rewrite Hs. cbn [truth Z.eqb negb andb]. destruct (Z.ltb_spec 0 (Z.of_nat (S (length l)))) as [_|]; [|lia]. cbv iota.
    destruct HR as [Hb Hn _ Hf Hl Hr By]. destruct (ring_pop _ _ _ _ Hn Hf Hr) as [Hc Hr'].
    rewrite (bind_Ret _ _ _ _ _ (aget_ok _ _ _ _ _ (proj1 Hn) Hc)).
    pose proof (effect_outb UA4_TXD c s) as E1. change (UA4_TXD =? UA4_TXD) with true in E1. cbv iota in E1. set (s1 := up_dev _ s) in E1.
    set (o2 := set_outcount (Z.of_nat (S (length l)) - 1) (set_outnext (slot (outnext (st_sio s)) 1) (st_sio s))).
    exists (up_sio (fun _ => o2) s1), o2. split; [|split].
    + unfold bind at 1. change (outb UA4_TXD c s) with (Ret tt s1 : outcome kstate unit). cbv iota.
      assert (slot (outnext (st_sio s)) 1 = if BUF_SIZE <=? outnext (st_sio s) + 1 then 0 else outnext (st_sio s) + 1) as Es.
      { pose proof (slot_next _ 0 Hn ltac:(unfold BUF_SIZE; lia)) as X. now rewrite (slot_0 _ Hn) in X. }
      unfold o2. rewrite Es. destruct (BUF_SIZE <=? _); reflexivity.
    + apply (effect_set _ (st_sio s)). rewrite u8_small in E1 by now inversion By. exact E1.
    + assert (Forall (fun c => 0 <= c < 256) l) as By' by now inversion By.
      split; [split; [|exact Hs]|destruct HX as [[] ?]; split; [split; assumption|assumption]]. cbn [length] in *.
      pose proof (slot_range (outnext (st_sio s)) 1 Hn ltac:(unfold BUF_SIZE; lia)).
      split; cbn; try assumption; try lia. rewrite Hl, slot_slot by (try assumption; lia). f_equal. lia.
  - destruct Hs as [Hs _]. rewrite Hs. cbn [truth Z.eqb negb andb]. auto.
Qed.

(** A received character, with nobody waiting for it. *)
Lemma sio_rx_unfold ch s : unread s -> let o := st_sio s in sio_rx ch s =
  (when (incount o <? BUF_SIZE) (put_inlast ch ;; sio_set (fun r => set_incount (u32 (incount r + 1)) r))) s.
Proof.
  intros Hu. unfold sio_rx. match goal with |- bind (ps ?f) ?k s = _ => change (bind (ps f) k s) with (k (f (st_ps s)) s) end.
  cbv beta. rewrite (bind_Ret _ _ _ _ _ Hu). reflexivity.
Qed.

Definition in_pushed (c : Z) (o : sio_t) : sio_t :=
  set_incount (u32 (incount o + 1)) (set_inlast (inlast o + 1) (set_inbuffer (aset (inbuffer o) (inlast o) (u8 c)) o)).

Lemma rx_push c pos q o : rx_rep pos q o -> pos + Z.of_nat (length q) < BUF_SIZE -> rx_rep pos (q ++ [u8 c]) (in_pushed c o).
Proof.
  intros [[Hb Hn Hc Hl Hr Hq] He] Hlt. unfold BUF_SIZE in *. split; [|now destruct q].
  split; cbn; rewrite ?length_aset, ?length_app; cbn [length]; try assumption; unfold BUF_SIZE; try lia.
  - rewrite Hc, u32_small; lia.
  - intros k x Hx. rewrite Hl. unfold aset. apply lookup_app_Some in Hx as [Hx|[Hk Hx]].
    + pose proof (lookup_lt_Some _ _ _ Hx). rewrite list_lookup_insert_ne by lia. exact (Hq k x Hx).
    + apply list_lookup_singleton_Some in Hx as [Hk0 <-]. replace (Z.of_nat k) with (Z.of_nat (length q)) by lia.
      apply list_lookup_insert_eq. lia.
Qed.

Lemma sio_rx_eq c a s : serial_rep a (st_sio s) -> unread s -> 0 <= c < 256 ->
  let ch := if c =? 13 then 10 else c in
  match event_step (Rx c) a with
  | Some (a', out) => exists o', sio_rx ch s = Ret tt (up_sio (fun _ => o') s) /\ out = [] /\ serial_rep a' o'
  | None => sio_rx ch s = Undef "inbuffer overrun" s
  end.
Proof.
  intros [HT HX] Hu Hc. cbv zeta. set (ch := if c =? 13 then 10 else c).
  assert (u8 ch = ch) as Hch by (apply u8_small; unfold ch; zcase c 13; lia).
  destruct a as [ln pos q]. cbn [line in_pos typed event_step] in *. fold ch.
  rewrite (sio_rx_unfold ch s Hu). pose proof HX as [[Hb Hn Ec Hl Hr Hq] He]. rewrite Ec.
  destruct (Z.leb_spec BUF_SIZE (Z.of_nat (length q))); destruct (Z.ltb_spec (Z.of_nat (length q)) BUF_SIZE); try lia; cbn [when].
  - exists (st_sio s). split; [now destruct s|]. split; [reflexivity|now split].
  - assert (put_inlast ch s = if in_bounds (inbuffer (st_sio s)) (inlast (st_sio s)) then
      Ret tt (up_sio (fun o => set_inlast (inlast o + 1) (set_inbuffer (aset (inbuffer o) (inlast o) (u8 ch)) o)) s)
      else Undef "inbuffer overrun" s) as Ep.
    { unfold put_inlast, bind, sio, gets. now destruct (in_bounds _ _). }
    destruct (in_bounds (inbuffer (st_sio s)) (inlast (st_sio s))) eqn:Ei.
    + apply in_bounds_spec in Ei. destruct (Z.ltb_spec (pos + Z.of_nat (length q)) BUF_SIZE); [|lia].
      exists (in_pushed ch (st_sio s)). split; [now rewrite (bind_Ret _ _ _ _ _ Ep)|]. split; [reflexivity|].
      split; [destruct HT as [T1 T2]; destruct T1; split; [split; assumption|exact T2]|].
      pose proof (rx_push ch pos q _ HX ltac:(lia)) as HP. now rewrite Hch in HP.
    + assert (~ (0 <= inlast (st_sio s) < Z.of_nat (length (inbuffer (st_sio s))))) as Hno
        by (intros Hx; apply in_bounds_spec in Hx; congruence).
      destruct (Z.ltb_spec (pos + Z.of_nat (length q)) BUF_SIZE); [lia|]. now rewrite (bind_Undef _ _ _ _ _ Ep).
Qed.

Definition reads (e : event) : N := match e with Tx => 1 | Rx _ => 2 end.

Lemma pending_bytes c l input n : pending (Rx c :: l) input n -> 0 <= c < 256.
Proof. intros (_ & <- & _). apply u8_range. Qed.

(** One pending event. *)
Lemma sio_event_eq e l a s : serial_rep a (st_sio s) -> unread s -> pending (e :: l) (dev_in (st_dev s)) (dev_count (st_dev s)) ->
  match event_step e a with
  | Some (a', out) => exists s' o', sio_event s = Ret false s' /\ effect (reads e) o' out s s' /\ serial_rep a' o'
  | None => exists why s', sio_event s = Undef why s'
  end.
Proof.
  intros HR Hu Hp. unfold sio_event. destruct (effect_inb UA4_IIR s) as (s1 & E1 & He1). set (v := u8 _) in E1.
  pose proof (effect_state _ _ _ _ _ He1) as Es1.
  destruct e as [|c]; cbn [pending] in Hp.
  - destruct Hp as [Hp _]. rewrite <- Es1 in HR. pose proof (sio_tx_eq a s1 HR) as Ht.
    destruct (event_step Tx a) as [[a' out]|]; [|destruct Ht]. destruct Ht as (s2 & o' & E2 & He2 & HR2).
    exists s2, o'. split; [|split; [exact (effect_trans 1 0 _ _ _ _ _ _ _ He1 He2)|exact HR2]].
    rewrite (bind_Ret _ _ _ _ _ E1). cbv zeta. fold v in Hp. rewrite Hp. cbn. now rewrite (bind_Ret _ _ _ _ _ E2).
  - pose proof (pending_bytes c l _ _ Hp) as Hc. destruct Hp as (Hp & Ec & _).
    destruct (effect_inb UA4_RXD s1) as (s2 & E2 & He2). pose proof (effect_trans _ _ _ _ _ _ _ _ _ He1 He2) as He.
    rewrite Es1 in He at 1. pose proof (effect_state _ _ _ _ _ He) as Es2. rewrite <- Es2 in HR.
    assert (u8 (dev_in (st_dev s1) (dev_count (st_dev s1)) UA4_RXD) = c) as Ec1.
    { destruct He1 as (d & -> & Ei & En & _). cbn [st_dev up_dev]. now rewrite Ei, En. }
    rewrite Ec1 in E2. pose proof (sio_rx_eq c a s2 HR (unread_effect _ _ _ _ _ He Hu) Hc) as Hx. cbv zeta in Hx.
    assert (sio_event s = (sio_rx (if c =? 13 then 10 else c) ;; ret false) s2) as Ee.
    { unfold sio_event. rewrite (bind_Ret _ _ _ _ _ E1). cbv zeta. fold v in Hp. rewrite Hp.
      change ((ch <- inb UA4_RXD ;; sio_rx (if ch =? 13 then 10 else ch) ;; ret false) s1 = (sio_rx (if c =? 13 then 10 else c) ;; ret false) s2).
      now rewrite (bind_Ret _ _ _ _ _ E2). }
    fold sio_event. rewrite Ee. destruct (event_step (Rx c) a) as [[a' out]|].
    + destruct Hx as (o' & E3 & -> & HR3). exists (up_sio (fun _ => o') s2), o'.
      split; [now rewrite (bind_Ret _ _ _ _ _ E3)|]. split; [|exact HR3]. apply (effect_set 2 (st_sio s)). exact He.
    + exists "inbuffer overrun", s2. now rewrite (bind_Undef _ _ _ _ _ Hx).
Qed.
(** All of them: the handler returns when the device reports nothing more. *)
Lemma sio_isr_eq vector ecode l a s : serial_rep a (st_sio s) -> unread s ->
  pending l (dev_in (st_dev s)) (dev_count (st_dev s)) -> Z.of_nat (length l) < 2 ^ 40 ->
  match events_step l a with
  | Some (a', out) => exists s' n o', sio_isr vector ecode s = Ret tt s' /\ effect n o' out s s' /\ serial_rep a' o'
  | None => exists why s', sio_isr vector ecode s = Undef why s'
  end.
Proof.
  intros HR Hu Hp Hl. unfold sio_isr. set (body := fun _ : unit => finished <- sio_event ;; ret (if finished : bool then inr tt else inl tt)).
  assert (match events_step l a with
    | Some (a', out) => exists s' n o', loopN (S (length l)) body tt s = Ret (inr tt) s' /\ effect n o' out s s' /\ serial_rep a' o'
    | None => exists why s', loopN (S (length l)) body tt s = Undef why s'
    end) as Hn.
  { clear Hl. revert a s HR Hu Hp. induction l as [|e l IH]; intros a s HR Hu Hp; cbn [events_step length].
    - destruct (effect_inb UA4_IIR s) as (s1 & E1 & He1). pose proof (effect_outb PIC1_CMD PIC_EOI s1) as He2.
      set (s2 := up_dev _ s1) in He2. cbn [pending] in Hp.
      exists s2, 1%N, (st_sio s). split; [|split; [|exact HR]].
      + apply loopN_done. unfold body, sio_event. rewrite bind_assoc, (bind_Ret _ _ _ _ _ E1). cbv zeta. rewrite Hp. reflexivity.
      + rewrite <- (effect_state _ _ _ _ _ He1) at 1. exact (effect_trans 1 0 _ _ _ _ _ _ _ He1 He2).
    - pose proof (sio_event_eq e l a s HR Hu Hp) as He. destruct (event_step e a) as [[a1 out1]|].
      + destruct He as (s1 & o1 & E1 & He1 & HR1). rewrite <- (effect_state _ _ _ _ _ He1) in HR1.
        assert (pending l (dev_in (st_dev s1)) (dev_count (st_dev s1))) as Hp1.
        { destruct He1 as (d & -> & Ei & En & _). cbn [st_dev up_dev]. rewrite Ei, En. destruct e; cbn [pending] in Hp; tauto. }
        assert (body tt s = Ret (inl tt) s1) as Eb by (unfold body; now rewrite (bind_Ret _ _ _ _ _ E1)).
        specialize (IH a1 s1 HR1 (unread_effect _ _ _ _ _ He1 Hu) Hp1). rewrite (loopN_step _ _ _ _ _ _ Eb).
        destruct (events_step l a1) as [[a2 out2]|]; [|exact IH]. destruct IH as (s2 & n & o2 & E2 & He2 & HR2).
        exists s2, (reads e + n)%N, o2. split; [exact E2|]. split; [exact (effect_trans _ _ _ _ _ _ _ _ _ He1 He2)|exact HR2].
      + destruct He as (why & s1 & E1). exists why, s1. cbn [loopN]. apply bind_Undef. unfold body. now apply bind_Undef. }
  destruct (events_step l a) as [[a' out]|].
  - destruct Hn as (s' & n & o' & E & H). exists s', n, o'. split; [|exact H]. apply (loop_intro _ (S (length l))); [lia|exact E].
  - destruct Hn as (why & s' & E). exists why, s'. apply (loop_intro_Undef _ (S (length l))); [lia|exact E].
Qed.
End Interrupts.

(** * Reading *)

(** The transmitter's variables. *)
Definition same_tx (o o' : sio_t) : Prop :=
  outbuffer o' = outbuffer o /\ outlast o' = outlast o /\ outnext o' = outnext o /\ outcount o' = outcount o /\ sending o' = sending o.

Lemma tx_rep_same ln o o' : same_tx o o' -> tx_rep ln o -> tx_rep ln o'.
Proof. intros (E1 & E2 & E3 & E4 & E5) [[] Hs].
  split; [split; rewrite ?E1, ?E2, ?E3, ?E4; assumption|]. rewrite E3, E5. exact Hs. Qed.

Lemma rx_rep_same pos q o o' : same_rx o o' -> rx_rep pos q o -> rx_rep pos q o'.
Proof. intros (E1 & E2 & E3 & E4) [[] He].
  split; [split; rewrite ?E1, ?E2, ?E3, ?E4; assumption|exact He]. Qed.

(** The first character leaves the queue. *)
Definition in_popped (o : sio_t) : sio_t := set_incount (incount o - 1) (set_innext (innext o + 1) o).

Lemma rx_pop pos c q o : rx_at pos (c :: q) o ->
  inbuffer o !! Z.to_nat pos = Some c /\ rx_at (pos + 1) q (in_popped o).
Proof.
  intros [Hb Hn Hc Hl [H0 H1] Hq]. cbn [length] in *. split.
  - rewrite <- (Z.add_0_r pos). exact (Hq 0%nat c eq_refl).
  - split; cbn; try assumption; try lia. intros k x Hx.
    replace (pos + 1 + Z.of_nat k) with (pos + Z.of_nat (S k)) by lia. exact (Hq (S k) x Hx).
Qed.

(** An empty queue starts at the beginning again. *)
Definition reset_in (o : sio_t) : sio_t := if incount o <? 1 then set_innext 0 (set_inlast 0 o) else o.

Lemma rx_reset pos q o : rx_at pos q o -> rx_rep (match q with [] => 0 | _ => pos end) q (reset_in o).
Proof.
  intros [Hb Hn Hc Hl [H0 H1] Hq]. unfold reset_in. rewrite Hc. destruct q as [|c q].
  - split; [|done]. split; cbn; done.
  - cbn [length] in *. destruct (Z.ltb_spec (Z.of_nat (S (length q))) 1); [lia|]. split; [now split|done].
Qed.

(** The device without its first [k] characters. *)
Definition taken (k : nat) (a : serial) : serial :=
  match drop k (typed a) with [] => Serial (line a) 0 [] | q => Serial (line a) (in_pos a + Z.of_nat k) q end.

Lemma sio_readc_eq a s : serial_rep a (st_sio s) ->
  exists o', sio_readc s = Ret (hd (-1) (typed a)) (up_sio (fun _ => o') s) /\ serial_rep (taken 1 a) o'.
Proof.
  intros [HT [HX He]]. destruct a as [ln pos q]. unfold taken. cbn [line in_pos typed] in *. pose proof HX as [_ Hn Hc _ [H0 _] _].
  unfold sio_readc. sio_reads. rewrite Hc.
  destruct q as [|c q]; cbn [length hd] in *.
  - exists (st_sio s). rewrite (He eq_refl) in HX. split; [now destruct s|]. split; [exact HT|now split].
  - destruct (rx_pop _ _ _ _ HX) as [Hb HX1]. pose proof (rx_reset _ _ _ HX1) as HX2.
    exists (reset_in (in_popped (st_sio s))). split.
    + destruct (Z.ltb_spec 0 (Z.of_nat (S (length q)))) as [_|]; [|lia]. sio_reads. rewrite Hn.
      rewrite (bind_Ret _ _ _ _ _ (aget_ok _ _ _ _ s H0 Hb)). unfold reset_in, in_popped. cbn [incount set_incount]. rewrite Hc, Hn.
      destruct (Z.of_nat (S (length q)) - 1 <? 1); reflexivity.
    + assert (tx_rep ln (reset_in (in_popped (st_sio s)))) as HT'
        by (refine (tx_rep_same _ _ _ _ HT); unfold reset_in; destruct (_ <? 1); repeat split).
      destruct q; (split; [exact HT'|exact HX2]).
Qed.

(** The loop of [sio_read]: [copied] characters are at their places. *)
Definition read_body (length : Z) : Z * Z -> K (Z * Z + Z) :=
  fun '(ptr, copied) =>
    n <- sio incount ;;
    if (0 <? n) && (copied <? length) then
      i <- sio innext ;;
      b <- sio inbuffer ;;
      c <- aget "inbuffer overrun" b i ;;
      store8 ptr c ;;
      sio_set (set_innext (i + 1)) ;;
      when (BUF_SIZE <? i + 1) (sio_set (set_innext 0)) ;;
      sio_set (set_incount (n - 1)) ;;
      ret (inl (u32 (ptr + 1), copied + 1))
    else ret (inr copied).

Lemma read_loop q pos ptr copied n s : rx_at pos q (st_sio s) -> 0 <= ptr -> ptr + Z.of_nat (length q) < 2 ^ 32 ->
  let k := Nat.min (length q) (Z.to_nat (n - copied)) in
  exists o', loopN (S k) (read_body n) (ptr, copied) s =
      Ret (inr (copied + Z.of_nat k)) (up_mem (fun m => st_bytes m ptr (take k q)) (up_sio (fun _ => o') s)) /\
    rx_at (pos + Z.of_nat k) (drop k q) o' /\ same_tx (st_sio s) o'.
Proof.
  revert pos ptr copied s. induction q as [|c q IH]; intros pos ptr copied s HX H0 Hb; cbv zeta.
  - exists (st_sio s). cbn [length Nat.min take drop]. rewrite !Z.add_0_r. split; [|split; [exact HX|repeat split]].
    apply loopN_done. unfold read_body, bind, sio, gets. rewrite (rx_count _ _ _ HX). now destruct s.
  - pose proof HX as [_ Hn Hc _ [Hp Hf] _]. destruct (rx_pop _ _ _ _ HX) as [Hx HX1]. cbn [length] in *.
    destruct (Z.ltb_spec copied n) as [Hlt|Hge].
    + replace (Z.to_nat (n - copied)) with (S (Z.to_nat (n - (copied + 1)))) by lia. cbn [Nat.min].
      set (s1 := up_mem (fun m => st8 m ptr c) (up_sio in_popped s)).
      assert (read_body n (ptr, copied) s = Ret (inl (ptr + 1, copied + 1)) s1) as Eb.
      { unfold read_body. sio_reads. rewrite Hc.
        destruct (Z.ltb_spec 0 (Z.of_nat (S (length q)))) as [_|]; [|lia]. destruct (Z.ltb_spec copied n) as [_|]; [|lia]. cbn [andb].
        sio_reads. rewrite Hn.
        rewrite (bind_Ret _ _ _ _ _ (aget_ok _ _ _ _ s Hp Hx)).
        destruct (Z.ltb_spec BUF_SIZE (pos + 1)) as [|_]; [lia|]. rewrite u32_small by lia.
        unfold s1, in_popped, up_sio. rewrite Hc, Hn. reflexivity. }
      rewrite (loopN_step _ _ _ _ _ _ Eb).
      destruct (IH (pos + 1) (ptr + 1) (copied + 1) s1 HX1 ltac:(lia) ltac:(lia)) as (o' & E & HX' & HS).
      exists o'. split; [|split].
      * rewrite E. cbn [take st_bytes]. f_equal. f_equal. lia.
      * cbn [drop]. match goal with |- rx_at ?p _ _ => replace p with (pos + 1 + Z.of_nat (length q `min` Z.to_nat (n - (copied + 1)))) by lia end. exact HX'.
      * destruct HS as (?&?&?&?&?). repeat split; assumption.
    + replace (Z.to_nat (n - copied)) with 0%nat by lia. cbn [Nat.min take drop]. exists (st_sio s). rewrite !Z.add_0_r.
      split; [|split; [exact HX|repeat split]]. apply loopN_done. unfold read_body, bind, sio, gets.
      destruct (Z.ltb_spec copied n) as [|_]; [lia|]. rewrite andb_false_r. now destruct s.
Qed.

Lemma sio_read_eq buf n a s : serial_rep a (st_sio s) -> 0 <= buf -> buf + Z.of_nat (length (typed a)) < 2 ^ 32 ->
  let k := Nat.min (length (typed a)) (Z.to_nat n) in
  exists o', sio_read buf n s = Ret (Z.of_nat k) (up_mem (fun m => st_bytes m buf (take k (typed a))) (up_sio (fun _ => o') s)) /\
    serial_rep (taken k a) o'.
Proof.
  intros [HT [HX He]] H0 Hb. cbv zeta. destruct a as [ln pos q]. unfold taken. cbn [line in_pos typed] in *.
  unfold sio_read. sio_reads. rewrite (rx_count _ _ _ HX).
  destruct q as [|c q].
  - exists (st_sio s). rewrite (He eq_refl) in HX. cbn. split; [now destruct s|]. split; [exact HT|now split].
  - destruct (Z.ltb_spec (Z.of_nat (length (c :: q))) 1) as [H1|_]; [cbn in H1; lia|].
    destruct (read_loop (c :: q) pos buf 0 n s HX H0 Hb) as (o1 & E & HX1 & HS). rewrite Z.sub_0_r in *. set (k := Nat.min _ _) in *.
    assert (Z.of_nat (S k) <= 2 ^ 40) as Hk by (unfold k; lia).
    pose proof (rx_reset _ _ _ HX1) as HX2. exists (reset_in o1). split.
    + rewrite (bind_Ret _ _ _ _ _ (loop_intro _ _ _ _ _ _ Hk E)). sio_reads. cbn [st_sio up_mem up_sio].
      unfold reset_in. destruct (incount o1 <? 1); reflexivity.
    + assert (tx_rep ln (reset_in o1)) as HT'.
      { refine (tx_rep_same _ _ _ _ HT). destruct HS as (?&?&?&?&?). unfold reset_in. destruct (_ <? 1); repeat split; assumption. }
      destruct (drop k (c :: q)); (split; [exact HT'|exact HX2]).
Qed.
