(* ===== verification/SerialClaims.v ===== *)
(** The contract of the serial device: two queues of characters. *)

From S2P Require Import Prelude Memory State LibMem Sio Cio CioTypes Kmem Queues QueuesSpec QueuesClaims Procs ProcsSpec ProcsClaims Drivers SerialSpec.

Open Scope kernel_scope.

(** What the kernel does with the device: it writes characters, takes an interrupt on
    which the device reports some events, and reads. *)
Inductive serial_op :=
| Write (l : list Z)
| Interrupt (l : list event)
| ReadChar
| Read (buf n : Z).

(** The next state of the device, what it sends, the answer; nothing, when the driver would
    store a character behind its buffer. *)
Definition serial_step (op : serial_op) (a : serial) : option (serial * list Z * Z) :=
  match op with
  | Write l => let '(ln, out, n) := offer l (line a) in Some (Serial ln (in_pos a) (typed a), out, n)
  | Interrupt l => match events_step l a with Some (a', out) => Some (a', out, 0) | None => None end
  | ReadChar => Some (taken 1 a, [], hd (-1) (typed a))
  | Read _ n => let k := Nat.min (length (typed a)) (Z.to_nat n) in Some (taken k a, [], Z.of_nat k)
  end.

(** What is stored through the pointer of the caller. *)
Definition stored (op : serial_op) (a : serial) (m : memory) : memory :=
  match op with
  | Read buf n => st_bytes m buf (take (Nat.min (length (typed a)) (Z.to_nat n)) (typed a))
  | _ => m
  end.

(** Characters are bytes, the events are those that the device reports, the caller's buffer
    ends inside the address space. *)
Definition serial_ok (op : serial_op) (a : serial) (s : kstate) : Prop :=
  match op with
  | Write l => offer_ok l (line a)
  | Interrupt l => pending l (dev_in (st_dev s)) (dev_count (st_dev s)) /\ Z.of_nat (length l) < 2 ^ 40
  | ReadChar => True
  | Read buf _ => 0 <= buf /\ buf + Z.of_nat (length (typed a)) < 2 ^ 32
  end.

(** Nothing but the driver's variables, the ports and the memory has changed. *)
Definition driver_only (s s' : kstate) : Prop :=
  s' = up_mem (fun _ => st_mem s') (up_sio (fun _ => st_sio s') (up_dev (fun _ => st_dev s') s)).

Lemma effect_driver n o out s s' : effect n o out s s' -> driver_only s s' /\ st_sio s' = o /\ sent s' = sent s ++ out /\ st_mem s' = st_mem s.
Proof. intros (d & -> & _ & _ & E). repeat split. exact E. Qed.

Section Claims.
Context {L : Layout}.

Definition run_serial (op : serial_op) : K Z :=
  match op with
  | Write l => sio_write (lit_source l) (Z.of_nat (length l))
  | Interrupt _ => sio_isr VEC_COM1 0 ;; ret 0
  | ReadChar => sio_readc
  | Read buf n => sio_read buf n
  end.

(** When the queue of readers is empty in the process system, the driver sees it so. *)
Lemma proc_inv_unread H n V s c : proc_inv H n V s -> V !! 6%nat = Some (c, []) ->
  queue_free (st_qs s) !! 6%nat = Some QUE_INUSE -> unread s.
Proof.
  intros Hinv HV Hf. unfold unread. rewrite (ho_sioread _ (pi_handles _ _ _ _ Hinv)).
  exact (length_hold _ _ _ _ 6 _ _ (pi_queues _ _ _ _ Hinv) HV Hf).
Qed.

(** C27: the serial device refines two queues of characters.  While no process waits for
    input, every operation does what [serial_step] says of the queues: a write puts as
    many characters behind the output as there is room for (an idle line sends the first
    one at once), each request of the transmitter sends the first one of the queue or ends
    the transmission, received characters (with line feeds for carriage returns) go behind
    the input and are dropped when 1024 of them wait, and reading takes them in order;
    with none there, [sio_readc] answers -1 and [sio_read] 0 (the header of sio.c says -1).
    Nothing else changes.  Where [serial_step] has no answer (a character arrives when the
    input, not yet read to its end, has come to the end of the buffer) the driver stores
    behind its buffer. *)
Theorem serial_refines_queues (op : serial_op) (a : serial) (s : kstate) :
  serial_rep a (st_sio s) -> unread s -> serial_ok op a s ->
  match serial_step op a with
  | Some (a', out, r) =>
      exists s', run_serial op s = Ret r s' /\ serial_rep a' (st_sio s') /\ unread s' /\
        sent s' = sent s ++ out /\ st_mem s' = stored op a (st_mem s) /\ driver_only s s'
  | None => exists why s', run_serial op s = Undef why s'
  end.
Proof.
  intros HR Hu Hok. assert (forall f o, unread (up_mem f (up_sio (fun _ => o) s))) as Hu'
    by (intros f o; exact (que_length_frame _ _ s (up_mem f (up_sio (fun _ => o) s)) eq_refl Hu)).
  destruct op as [l|l| |buf n]; cbn [serial_step run_serial serial_ok stored] in *.
  - destruct (sio_write_eq l (line a) s (proj1 HR) Hok) as (s' & o' & E & He & HT & HX).
    destruct (offer l (line a)) as [[ln out] r]. cbn [fst snd] in *. exists s'.
    pose proof (effect_driver _ _ _ _ _ He) as (Hd & Eo & Es & Em). rewrite Eo.
    split; [exact E|]. split; [split; [exact HT|exact (rx_rep_same _ _ _ _ HX (proj2 HR))]|]. split; [exact (unread_effect _ _ _ _ _ He Hu)|auto].
  - destruct Hok as [Hp Hl]. pose proof (sio_isr_eq VEC_COM1 0 l a s HR Hu Hp Hl) as H.
    destruct (events_step l a) as [[a' out]|].
    + destruct H as (s' & n & o' & E & He & HR'). pose proof (effect_driver _ _ _ _ _ He) as (Hd & Eo & Es & Em).
      exists s'. rewrite Eo. split; [now rewrite (bind_Ret _ _ _ _ _ E)|]. split; [exact HR'|]. split; [exact (unread_effect _ _ _ _ _ He Hu)|auto].
    + destruct H as (why & s' & E). exists why, s'. exact (bind_Undef _ _ _ _ _ E).
  - destruct (sio_readc_eq a s HR) as (o' & E & HR'). exists (up_sio (fun _ => o') s). split; [exact E|]. split; [exact HR'|].
    split; [exact (Hu' (fun m => m) o')|]. now rewrite app_nil_r.
  - destruct (sio_read_eq buf n a s HR (proj1 Hok) (proj2 Hok)) as (o' & E & HR'). eexists. split; [exact E|]. split; [exact HR'|].
    split; [apply Hu'|]. now rewrite app_nil_r.
Qed.

(** Requests of the transmitter alone: the whole queue is sent, then the line is idle. *)
Lemma events_drain q pos t : events_step (replicate (S (length q)) Tx) (Serial (Some q) pos t) = Some (Serial None pos t, q).
Proof.
  induction q as [|c q IH]; [reflexivity|]. change (replicate (S (length (c :: q))) Tx) with (Tx :: replicate (S (length q)) Tx).
  cbn [events_step event_step line in_pos typed]. now rewrite IH.
Qed.

(** C28: a line feed at the start of a text is sent at its end.  When the line is idle and a
    text that begins with a line feed is written, the carriage return goes out first, but
    the line feed comes behind the rest of the text: the driver stores the rest before it
    hands the first character to [sio_writec]. *)
Theorem newline_sent_last (l : list Z) (pos : Z) (t : list Z) (s : kstate) :
  serial_rep (Serial None pos t) (st_sio s) -> unread s -> Forall (fun c => 0 <= c < 256) l ->
  Z.of_nat (length l) < BUF_SIZE - 1 ->
  pending (replicate (2 + length l) Tx) (dev_in (st_dev s)) (dev_count (st_dev s)) ->
  exists s1 s2, sio_write (lit_source (10 :: l)) (Z.of_nat (length (10 :: l))) s = Ret (Z.of_nat (length (10 :: l))) s1 /\
    sio_isr VEC_COM1 0 s1 = Ret tt s2 /\ sent s2 = sent s ++ 13 :: l ++ [10] /\ serial_rep (Serial None pos t) (st_sio s2).
Proof.
  intros HR Hu Hl Hn Hp. assert (offer_ok (10 :: l) None) as Hok by (split; [constructor; [lia|exact Hl]|auto]).
  assert (offer (10 :: l) None = (Some (l ++ [10]), [13], Z.of_nat (length (10 :: l)))) as Eo.
  { cbn [offer Z.eqb Pos.eqb]. rewrite take_ge by (unfold BUF_SIZE in *; lia). cbn [length]. do 2 f_equal. lia. }
  destruct (sio_write_eq (10 :: l) None s (proj1 HR) Hok) as (s1 & o1 & E1 & He1 & HT & HX). rewrite Eo in *. cbn [fst snd] in *.
  assert (serial_rep (Serial (Some (l ++ [10])) pos t) (st_sio s1)) as HR1.
  { rewrite (effect_state _ _ _ _ _ He1). split; [exact HT|exact (rx_rep_same _ _ _ _ HX (proj2 HR))]. }
  assert (2 + length l = S (length (l ++ [10%Z])))%nat as El by (rewrite length_app; cbn; lia). rewrite El in Hp.
  assert (pending (replicate (S (length (l ++ [10]))) Tx) (dev_in (st_dev s1)) (dev_count (st_dev s1))) as Hp1.
  { destruct He1 as (d & -> & Ei & En & _). cbn [st_dev up_dev]. rewrite Ei, En, N.add_0_r. exact Hp. }
  pose proof (sio_isr_eq VEC_COM1 0 _ _ s1 HR1 (unread_effect _ _ _ _ _ He1 Hu) Hp1) as H. rewrite events_drain in H.
  destruct H as (s2 & n & o2 & E2 & He2 & HR2); [rewrite length_replicate; unfold BUF_SIZE in *; lia|].
  exists s1, s2. split; [exact E1|]. split; [exact E2|].
  destruct (effect_trans _ _ _ _ _ _ _ _ _ He1 He2) as (d & Es2 & _ & _ & Es). split; [|now rewrite (effect_state _ _ _ _ _ He2)].
  rewrite Es2. exact Es.
Qed.
End Claims.

(** * An example *)

#[local] Existing Instance example_layout.

(** Empty buffers; the device reports the key 'a', then that it can take a character. *)
Definition idle_line : sio_t := Sio (replicate 1024 0) 0 0 0 (replicate 1024 0) 0 0 0 0 0 1.

Definition serial_example : kstate :=
  up_sio (fun _ => idle_line) (up_dev (fun _ => Dev [] (fun n _ => nth (N.to_nat n) [4; 97; 2; 1] 1) 0 0) sched_example).

Lemma serial_example_rep : serial_rep (Serial None 0 []) (st_sio serial_example).
Proof.
  split; [split; [split|split]|split; [split|]]; try reflexivity; try (vm_compute; intuition congruence); try constructor.
Qed.

Lemma sched_example_unread : unread sched_example.
Proof. apply (proc_inv_unread _ _ _ _ NULL sched_example_inv); reflexivity. Qed.

Lemma serial_example_unread : unread serial_example.
Proof. exact (que_length_frame _ _ sched_example serial_example eq_refl sched_example_unread). Qed.

Lemma serial_refines_queues_witness :
  serial_step (Interrupt [Rx 97; Tx]) (Serial None 0 []) = Some (Serial None 0 [97], [], 0) /\
  exists s', run_serial (Interrupt [Rx 97; Tx]) serial_example = Ret 0 s' /\ serial_rep (Serial None 0 [97]) (st_sio s').
Proof.
  split; [reflexivity|].
  assert (serial_ok (Interrupt [Rx 97; Tx]) (Serial None 0 []) serial_example) as Hok
    by (split; [vm_compute; intuition congruence|reflexivity]).
  destruct (serial_refines_queues (Interrupt [Rx 97; Tx]) (Serial None 0 []) serial_example serial_example_rep
    serial_example_unread Hok) as (s' & E & HR & _).
  exists s'. split; [exact E|exact HR].
Defined.

(** A device that asks for four characters. *)
Definition asking_example : kstate :=
  up_dev (fun d => Dev [] (fun n _ => nth (N.to_nat n) [2; 2; 2; 2] 1) 0 0) serial_example.

Lemma newline_sent_last_witness : exists s1 s2,
  sio_write (lit_source [10; 72; 105]) 3 asking_example = Ret 3 s1 /\ sio_isr VEC_COM1 0 s1 = Ret tt s2 /\
  sent s2 = [13; 72; 105; 10].
Proof.
  assert (pending (replicate 4 Tx) (dev_in (st_dev asking_example)) (dev_count (st_dev asking_example))) as Hp
    by (vm_compute; intuition congruence).
  assert (unread asking_example) as Hu by exact (que_length_frame _ _ serial_example asking_example eq_refl serial_example_unread).
  destruct (newline_sent_last [72; 105] 0 [] asking_example serial_example_rep Hu) as (s1 & s2 & E1 & E2 & E3 & _).
  - repeat constructor; lia.
  - reflexivity.
  - exact Hp.
  - exists s1, s2. split; [exact E1|]. split; [exact E2|exact E3].
Defined.
