(* ===== verification/Clock.v ===== *)
(** kernel/clock.c: the system clock.  The interrupt handler keeps the time,
    wakes the processes whose time has come and ends the time slice of the
    current process. *)

From S2P Require Import Prelude Memory State Lib Sio Cio Kmem Queues Stacks Procs.

Open Scope kernel_scope.

Definition PIT_FREQ : Z := 1193182.
Definition PIT_CONTROL_PORT : Z := 0x43.
Definition PIT_0_PORT : Z := 0x40.
Definition PIT_LOAD : Z := 0x30.
Definition PIT_SQUARE : Z := 0x06.
Definition VEC_TIMER : Z := 0x20.
(** The Makefile's -DSYSTEM_STATUS=5, and [SEC_TO_TICKS]. *)
Definition SYSTEM_STATUS : Z := 5.
Definition SEC_TO_TICKS (n : Z) : Z := n * 1000.
Definition TBUF_SIZE : Z := 128.

Section Clock.
Context {L : Layout}.

Definition spin_pinwheel : K unit :=
  p <- clk pinwheel ;;
  clk_set (set_pinwheel (s32 (p + 1))) ;;
  when (s32 (p + 1) =? CLOCK_FREQ / 10)
    (clk_set (set_pinwheel 0) ;;
     clk_set (fun r => set_pindex (u32 (pindex r + 1)) r) ;;
     i <- clk pindex ;;
     cio_putchar_at 0 0 (nth (Z.to_nat (Z.land i 3)) [124; 47; 45; 92] 0)).

(** The periodic report on the queues, in the buffer [tbuf]. *)
Definition status_report : K unit :=
  st <- ptable_dump_stats true ;;
  let '(nunk, nst) := st in
  cur <- ps current ;;
  pid <- (if truth cur then pcb_get cur p_pid else ret (-1)) ;;
  rq <- ps ready ;;
  q0 <- aget "ready" rq PRIO_HIGH ;; n0 <- que_length q0 ;;
  q1 <- aget "ready" rq PRIO_STD ;; n1 <- que_length q1 ;;
  q2 <- aget "ready" rq PRIO_LOW ;; n2 <- que_length q2 ;;
  s <- ps sleeping ;; ns <- que_length s ;;
  z <- ps zombie ;; nz <- que_length z ;;
  b <- ps blocked ;; nb <- que_length b ;;
  i <- ps sioread ;; ni <- que_length i ;;
  w <- aget "nst" nst STATE_WAITING ;;
  tbuf <- sprint
    (chars " curr %d, Qs: R[%d,%d,%d] S[%d] Z[%d] B[%d] I[%d] W[%u] ?[%u]")
    [AI pid; AI n0; AI n1; AI n2; AI ns; AI nz; AI nb; AI ni; AI w; AI nunk] ;;
  if TBUF_SIZE <=? Z.of_nat (length tbuf) then undef "tbuf overrun"
  else
    cio_puts_at 15 0
      (if (60 <? length tbuf)%nat then take 60 tbuf ++ [32; 42; 42] else tbuf)%list.

(** The [do] loop: wake the sleepers from the head of the queue while their
    time has come. *)
Definition wake_body : unit -> K (unit + unit) := fun _ =>
  s <- ps sleeping ;;
  r <- que_peek s true ;;
  if fst r =? E_EMPTY then ret (inr tt)
  else
    match snd r with
    | None => undef "clk_isr: uninitialised pcb"
    | Some pcb =>
        when (pcb =? NULL) (panics "clk_isr: sleeping peek status") ;;
        w <- pcb_get pcb p_wakeup ;;
        t <- clk system_time ;;
        if t <? w then ret (inr tt)
        else
          r <- que_remove s true ;;
          assert "clk_isr: que_remove" (fst r =? E_SUCCESS) ;;
          schedule (default pcb (snd r)) ;;
          ret (inl tt)
    end.

Definition wake_sleepers : K unit := loop wake_body tt.

Definition end_slice : K unit :=
  cur <- ps current ;;
  q <- pcb_get cur p_quantum ;;
  pcb_set cur (set_p_quantum (u8 (q - 1))) ;;
  q <- pcb_get cur p_quantum ;;
  when (q <? 1) (schedule cur ;; dispatch).

Definition clk_isr (vector code : Z) : K unit :=
  spin_pinwheel ;;
  t <- clk system_time ;;
  cio_printf_at 1 0 (chars " time %08x") [AI t] ;;
  when (t mod SEC_TO_TICKS SYSTEM_STATUS =? 0) status_report ;;
  clk_set (fun r => set_system_time (u32 (system_time r + 1)) r) ;;
  wake_sleepers ;;
  end_slice ;;
  outb PIC1_CMD PIC_EOI.

Definition clk_init : K unit :=
  cio_puts (chars " Clk") ;;
  clk_set (set_pinwheel (-1)) ;;
  clk_set (set_pindex 0) ;;
  clk_set (set_system_time 0) ;;
  let divisor := PIT_FREQ / CLOCK_FREQ in
  outb PIT_CONTROL_PORT (Z.lor PIT_LOAD PIT_SQUARE) ;;
  outb PIT_0_PORT (Z.land divisor 0xff) ;;
  outb PIT_0_PORT (Z.land (Z.shiftr divisor 8) 0xff) ;;
  install_isr VEC_TIMER HClock ;;
  ret tt.
End Clock.
