(* ===== verification/ClockSpec.v ===== *)
(** kernel/clock.c: waking the sleepers and ending time slices, on the abstract
    process queues. *)

From Stdlib Require Import Sorting.Sorted.
From S2P Require Import Prelude Memory State Lib LibMem Sio Cio Frames Kmem Queues QueuesInv QueuesSpec QueuesPages Stacks Procs ProcsSpec Clock.

Open Scope kernel_scope.

Section ClockSpec.
Context {L : Layout}.
Implicit Types (V : list (Z * list Z)).

(** [p] joins the ready queue of the priority it has in [s]. *)
Definition enqueue (s : kstate) V (p : Z) : list (Z * list Z) :=
  match pcb_at s p with
  | Some x =>
      match V !! Z.to_nat (p_priority x) with
      | Some (c, l) => <[Z.to_nat (p_priority x) := (c, l ++ [p])]> V
      | None => V
      end
  | None => V
  end.

(** The head of a queue leaves it. *)
Lemma dequeue_spec H n V s i c p l :
  proc_inv H n V s -> V !! i = Some (c, p :: l) ->
  exists s', que_remove (que_addr (Z.of_nat i)) true s = Ret (E_SUCCESS, Some p) s' /\
    proc_inv H (S n) (<[i := (c, l)]> V) s' /\ que_frame H s s' /\ ~ p ∈ queued (<[i := (c, l)]> V).
Proof.
  intros Hinv Hi.
  destruct (remove_hold _ _ _ _ _ _ _ _ (pi_queues _ _ _ _ Hinv) Hi) as (s' & E & Hq & Hf).
  pose proof (inv_nodup_at _ _ _ _ Hinv _ _ _ Hi) as [Hpl Hnd]%NoDup_cons.
  destruct (que_frame_others _ _ _ Hf) as (_ & _ & Hps & _).
  exists s'. split; [exact E|]. split; [|split; [exact Hf|]].
  - eapply (proc_inv_change H n (S n) V s s' i c (p :: l) l p); try done.
    + eapply same_pcbs_frame; eassumption.
    + intros q Hq' _. now right.
    + right. split; [left|done].
    + intros ->. pose proof (pi_sleep _ _ _ _ Hinv _ _ Hi) as Hs.
      apply StronglySorted_inv in Hs as [Hs _].
      eapply StronglySorted_Forall_ext; [|exact Hs]. intros q _. unfold wakeup_of, pcb_at.
      now rewrite Hps.
    + cbn. lia.
  - destruct (queued_insert V i c (p :: l) c l Hi) as (rest & P1 & P2). rewrite P2.
    pose proof (pi_nodup _ _ _ _ Hinv) as Hn. rewrite P1 in Hn. cbn in Hn.
    now apply NoDup_cons in Hn as [Hn _].
Qed.

(** The loop ends at an empty queue or at a sleeper whose time has not come. *)
Lemma wake_stop H n V s c l :
  proc_inv H n V s -> V !! 3%nat = Some (c, l) ->
  match l with [] => True | p :: _ => system_time (st_clk s) < wakeup_of s p end ->
  wake_body tt s = Ret (inr tt) s.
Proof.
  intros Hinv Hi Hhead. unfold wake_body, ps, gets. erewrite bind_Ret by reflexivity.
  rewrite (ho_sleeping _ (pi_handles _ _ _ _ Hinv)).
  rewrite (bind_Ret _ _ _ _ _ (peek_hold H n V s 3 c l (pi_queues _ _ _ _ Hinv) Hi)).
  destruct l as [|p l]; [reflexivity|]. cbn [fst snd]. change (E_SUCCESS =? E_EMPTY) with false.
  destruct (pi_members _ _ _ _ Hinv 3%nat c (p :: l) p Hi ltac:(left)) as (x & Hx & _).
  pose proof (pcb_at_word _ _ _ Hx). destruct (Z.eqb_spec p NULL); [unfold NULL in *; lia|].
  cbn [when]. rewrite bind_ret_l, (bind_Ret _ _ _ _ _ (pcb_get_at s p x p_wakeup Hx)).
  unfold wakeup_of in Hhead. rewrite Hx in Hhead. cbn in Hhead.
  unfold clk, gets. erewrite bind_Ret by reflexivity.
  destruct (Z.ltb_spec (system_time (st_clk s)) (p_wakeup x)); [reflexivity|lia].
Qed.

(** A sleeper whose time has come moves to its ready queue. *)
Lemma wake_one H n V s c p l x :
  proc_inv H n V s -> V !! 3%nat = Some (c, p :: l) -> pcb_at s p = Some x ->
  p_wakeup x <= system_time (st_clk s) ->
  exists s', wake_body tt s = Ret (inl tt) s' /\
    proc_inv H n (enqueue s (<[3%nat := (c, l)]> V) p) s' /\
    pcb_at s' p = Some (set_p_state STATE_READY x) /\
    (forall q, q <> p -> pcb_at s' q = pcb_at s q) /\ sched_frame H s s' /\
    current (st_ps s') = current (st_ps s).
Proof.
  intros Hinv Hi Hx Hw. destruct (dequeue_spec _ _ _ _ _ _ _ _ Hinv Hi) as (s1 & E1 & Hinv1 & Hf1 & Hp).
  destruct (que_frame_others _ _ _ Hf1) as (_ & _ & Hps & _).
  assert (pcb_at s1 p = Some x) as Hx1 by (unfold pcb_at; rewrite Hps; exact Hx).
  destruct (pi_members _ _ _ _ Hinv 3%nat c (p :: l) p Hi ltac:(left)) as (y & Hy & _ & Hv & _).
  rewrite Hx in Hy. injection Hy as <-. pose proof Hv as Hv'. unfold valid_prio in Hv'.
  destruct (inv_queue _ _ _ _ Hinv1 (Z.to_nat (p_priority x)) ltac:(lia)) as (lr & Hlr).
  assert (nth (Z.to_nat (p_priority x)) queue_keys 0 = NULL) as Hk
    by (eapply ready_key; [exact Hinv1| |exact Hlr]; lia). rewrite Hk in Hlr.
  destruct (schedule_spec _ _ _ _ _ _ _ Hinv1 Hx1 Hp Hv Hlr)
    as (s2 & n2 & E2 & [= <-] & Hinv2 & Hx2 & Hs2 & Hf2 & Hc2).
  exists s2. split; [|split; [|split; [exact Hx2|split; [|split]]]].
  - unfold wake_body, ps, gets. erewrite bind_Ret by reflexivity.
    rewrite (ho_sleeping _ (pi_handles _ _ _ _ Hinv)).
    rewrite (bind_Ret _ _ _ _ _ (peek_hold H n V s 3 c _ (pi_queues _ _ _ _ Hinv) Hi)).
    cbn [fst snd]. change (E_SUCCESS =? E_EMPTY) with false. cbv iota.
    pose proof (pcb_at_word _ _ _ Hx). destruct (Z.eqb_spec p NULL); [unfold NULL in *; lia|].
    cbn [when]. rewrite bind_ret_l, (bind_Ret _ _ _ _ _ (pcb_get_at s p x p_wakeup Hx)).
    unfold clk, gets. erewrite bind_Ret by reflexivity.
    destruct (Z.ltb_spec (system_time (st_clk s)) (p_wakeup x)); [lia|].
    change (que_addr 3) with (que_addr (Z.of_nat 3)). rewrite (bind_Ret _ _ _ _ _ E1).
    cbn [fst snd default from_option]. change (E_SUCCESS =? E_SUCCESS) with true. cbn [assert].
    rewrite bind_ret_l. now mstep E2.
  - unfold enqueue. rewrite Hx, Hlr. exact Hinv2.
  - intros q Hq. rewrite Hs2 by done. unfold pcb_at. now rewrite Hps.
  - eapply sched_frame_trans; [apply sched_frame_que, Hf1|exact Hf2].
  - now rewrite Hc2, Hps.
Qed.

Lemma enqueue_sleepers s V p x v w :
  pcb_at s p = Some x -> valid_prio x ->
  <[3%nat := w]> (enqueue s (<[3%nat := v]> V) p) = enqueue s (<[3%nat := w]> V) p.
Proof.
  intros Hx Hv. unfold enqueue. rewrite Hx. unfold valid_prio in Hv.
  set (k := Z.to_nat (p_priority x)). assert (k <> 3%nat) as Hk by lia.
  rewrite !list_lookup_insert_ne by done. destruct (V !! k) as [[c l]|].
  - rewrite (list_insert_insert_ne _ 3 k) by done. now rewrite list_insert_insert_eq.
  - apply list_insert_insert_eq.
Qed.

Lemma enqueue_sleepers_lookup s V p x v :
  pcb_at s p = Some x -> valid_prio x -> (3 < length V)%nat ->
  enqueue s (<[3%nat := v]> V) p !! 3%nat = Some v.
Proof.
  intros Hx Hv Hlen. unfold enqueue. rewrite Hx. unfold valid_prio in Hv.
  destruct (<[3%nat := v]> V !! Z.to_nat (p_priority x)) as [[c l]|].
  - rewrite list_lookup_insert_ne by lia. now apply list_lookup_insert_eq.
  - now apply list_lookup_insert_eq.
Qed.

Lemma enqueue_all_ext s s' ps V :
  (forall q, q ∈ ps -> pcb_at s' q = pcb_at s q) ->
  fold_left (enqueue s') ps V = fold_left (enqueue s) ps V.
Proof.
  revert V; induction ps as [|p ps IH]; intros V E; [done|]. cbn [fold_left].
  assert (enqueue s' V p = enqueue s V p) as -> by (unfold enqueue; now rewrite E by left).
  apply IH. intros q Hq. apply E. now right.
Qed.

(** All processes of a list made READY, the others untouched. *)
Definition made_ready (ps : list Z) (s s' : kstate) : Prop :=
  (forall p, p ∈ ps -> exists x, pcb_at s p = Some x /\
     pcb_at s' p = Some (set_p_state STATE_READY x)) /\
  (forall q, ~ q ∈ ps -> pcb_at s' q = pcb_at s q).

Lemma wake_run H n V s c due rest :
  proc_inv H n V s -> V !! 3%nat = Some (c, due ++ rest) ->
  Forall (fun p => wakeup_of s p <= system_time (st_clk s)) due ->
  match rest with [] => True | p :: _ => system_time (st_clk s) < wakeup_of s p end ->
  exists s', loopN (length due + 1) wake_body tt s = Ret (inr tt) s' /\
    proc_inv H n (fold_left (enqueue s) due (<[3%nat := (c, rest)]> V)) s' /\
    made_ready due s s' /\ sched_frame H s s' /\ current (st_ps s') = current (st_ps s).
Proof.
  revert n V s; induction due as [|p due IH]; intros n V s Hinv Hi Hdue Hrest.
  - exists s. cbn [length Nat.add fold_left]. rewrite list_insert_id by done.
    split; [eapply loopN_done, wake_stop; eassumption|]. split; [exact Hinv|].
    split; [|split; [apply sched_frame_refl|done]]. split; [|done].
    intros q Hq. now apply elem_of_nil in Hq.
  - apply Forall_cons in Hdue as [Hp Hdue].
    destruct (pi_members _ _ _ _ Hinv 3%nat c _ p Hi ltac:(left)) as (x & Hx & _ & Hv & _).
    unfold wakeup_of in Hp. rewrite Hx in Hp. cbn [from_option] in Hp.
    destruct (wake_one _ _ _ _ _ _ _ _ Hinv Hi Hx Hp) as (s1 & E1 & Hinv1 & Hx1 & Hs1 & Hf1 & Hc1).
    pose proof (inv_nodup_at _ _ _ _ Hinv _ _ _ Hi) as [Hpl _]%NoDup_cons.
    assert (system_time (st_clk s1) = system_time (st_clk s)) as Et
      by (now destruct Hf1 as (m & q & t & c' & -> & _)).
    assert (forall q, q ∈ due ++ rest -> pcb_at s1 q = pcb_at s q) as Hsame
      by (intros q Hq; apply Hs1; intros ->; done).
    assert (forall q, q ∈ due ++ rest -> wakeup_of s1 q = wakeup_of s q) as Hws
      by (intros q Hq; unfold wakeup_of; now rewrite Hsame).
    destruct (IH _ _ _ Hinv1) as (s2 & E2 & Hinv2 & [Hr2 Hu2] & Hf2 & Hc2).
    { apply (enqueue_sleepers_lookup _ _ _ _ _ Hx Hv). eapply lookup_lt_Some, Hi. }
    { rewrite Forall_forall in *. intros q Hq. rewrite Et, Hws; [now apply Hdue|].
      apply elem_of_app. now left. }
    { destruct rest as [|q rest]; [done|]. rewrite Et, Hws; [done|].
      apply elem_of_app. right. left. }
    exists s2. split; [|split; [|split; [|split]]].
    + cbn [length Nat.add]. now rewrite (loopN_step _ _ _ _ _ _ E1).
    + cbn [fold_left]. rewrite (enqueue_sleepers _ _ _ _ _ _ Hx Hv) in Hinv2.
      rewrite (enqueue_all_ext s s1) in Hinv2; [exact Hinv2|].
      intros q Hq. apply Hsame, elem_of_app. now left.
    + split.
      * intros q [->|Hq]%elem_of_cons.
        -- exists x. split; [exact Hx|]. rewrite Hu2; [exact Hx1|].
           intros Hd. apply Hpl, elem_of_app. now left.
        -- destruct (Hr2 q Hq) as (y & Hy & Hy2). exists y. split; [|exact Hy2].
           rewrite <- Hsame; [exact Hy|]. apply elem_of_app. now left.
      * intros q Hq. rewrite not_elem_of_cons in Hq. destruct Hq as [Hq1 Hq2].
        rewrite Hu2 by done. now apply Hs1.
    + eapply sched_frame_trans; eassumption.
    + now rewrite Hc2.
Qed.

(** In a list sorted by wake-up time those whose time has come are a prefix. *)
Lemma due_prefix (k : Z -> Z) t l :
  StronglySorted (fun p q => k p <= k q) l ->
  exists due rest, l = due ++ rest /\ due = filter (fun p => k p <= t) l /\
    rest = filter (fun p => t < k p) l /\ Forall (fun p => k p <= t) due /\
    match rest with [] => True | p :: _ => t < k p end.
Proof.
  induction 1 as [|p l Hs (due & rest & -> & Hd & Hr & Hdue & Hrest) Hp]; [now exists [], []|].
  destruct (Z.le_gt_cases (k p) t) as [Hle|Hgt].
  - exists (p :: due), rest. rewrite filter_cons_True, filter_cons_False by lia.
    rewrite <- Hd, <- Hr. repeat split; [|done]. now constructor.
  - exists [], (p :: due ++ rest). rewrite filter_cons_False, filter_cons_True by lia.
    assert (Forall (fun q => t < k q) (due ++ rest)) as Hall.
    { eapply Forall_impl; [exact Hp|]. intros q Hq. cbn in Hq. lia. }
    rewrite (filter_all (fun q => t < k q)) by exact Hall.
    rewrite filter_none; [|eapply Forall_impl; [exact Hall|intros q Hq; cbn in Hq; lia]].
    repeat split; [constructor|lia].
Qed.

Lemma wake_sleepers_spec H n V s c l :
  proc_inv H n V s -> V !! 3%nat = Some (c, l) ->
  let t := system_time (st_clk s) in
  let due := filter (fun p => wakeup_of s p <= t) l in
  let rest := filter (fun p => t < wakeup_of s p) l in
  exists s', wake_sleepers s = Ret tt s' /\
    proc_inv H n (fold_left (enqueue s) due (<[3%nat := (c, rest)]> V)) s' /\
    made_ready due s s' /\ sched_frame H s s' /\ current (st_ps s') = current (st_ps s).
Proof.
  intros Hinv Hi t due rest.
  destruct (due_prefix (wakeup_of s) t l (pi_sleep _ _ _ _ Hinv c l Hi))
    as (d & r & -> & Ed & Er & Hd & Hr).
  unfold due, rest. rewrite <- Ed, <- Er.
  destruct (wake_run _ _ _ _ _ _ _ Hinv Hi Hd Hr) as (s' & E & Hrest).
  exists s'. split; [|exact Hrest]. unfold wake_sleepers.
  apply (loop_intro _ (length d + 1)); [|exact E].
  pose proof (inv_bound _ _ _ _ Hinv _ _ _ Hi) as Hlen. rewrite length_app in Hlen. lia.
Qed.

(** A queue that is not empty gives [dispatch] a process. *)
Lemma next_process_exists H n V s i c p l :
  proc_inv H n V s -> (i < 3)%nat -> V !! i = Some (c, p :: l) ->
  exists j q r, next_process V = Some (j, q, r).
Proof.
  intros Hinv Hi HV. destruct (next_process V) as [[[j q] r]|] eqn:E; [eauto|].
  now rewrite (next_process_None _ _ _ _ Hinv E i Hi) in HV.
Qed.

(** [schedule] of the running process followed by [dispatch]. *)
Lemma yield_spec H n V s p x :
  proc_inv H n V s -> pcb_at s p = Some x -> ~ p ∈ queued V -> valid_prio x ->
  exists s' i q l, (schedule p ;; dispatch) s = Ret tt s' /\
    next_process (enqueue s V p) = Some (i, q, l) /\ current (st_ps s') = q /\
    running_inv H n (<[i := (NULL, l)]> (enqueue s V p)) s' /\ sched_frame H s s' /\
    (q <> p -> pcb_at s' p = Some (set_p_state STATE_READY x)) /\
    (forall r, r <> p -> r <> q -> pcb_at s' r = pcb_at s r) /\
    exists y, pcb_at s' q = Some y /\ p_quantum y = Q_STD.
Proof.
  intros Hinv Hx Hp Hv. pose proof Hv as Hv'. unfold valid_prio in Hv'.
  destruct (inv_queue _ _ _ _ Hinv (Z.to_nat (p_priority x)) ltac:(lia)) as (l & Hl).
  assert (nth (Z.to_nat (p_priority x)) queue_keys 0 = NULL) as Hk
    by (eapply ready_key; [exact Hinv| |exact Hl]; lia).
  rewrite Hk in Hl. destruct (schedule_spec _ _ _ _ _ _ _ Hinv Hx Hp Hv Hl)
    as (s1 & n1 & E1 & -> & Hinv1 & Hx1 & Hs1 & Hf1 & _).
  assert (enqueue s V p = <[Z.to_nat (p_priority x) := (NULL, l ++ [p])]> V) as Een
    by (unfold enqueue; now rewrite Hx, Hl).
  rewrite <- Een in Hinv1.
  assert (exists q r, enqueue s V p !! Z.to_nat (p_priority x) = Some (NULL, q :: r)) as (q0 & r0 & Hq0).
  { rewrite Een, list_lookup_insert_eq by (eapply lookup_lt_Some, Hl). destruct l; cbn; eauto. }
  destruct (next_process_exists _ _ _ _ (Z.to_nat (p_priority x)) _ _ _ Hinv1 ltac:(lia) Hq0) as (i & q & r & Hn).
  destruct (dispatch_running _ _ _ _ _ _ _ Hinv1 Hn)
    as (s2 & y & E2 & Hrun & Hy & Hy2 & Hs2 & Hf2 & Hc2).
  exists s2, i, q, r. split; [now mstep E1|]. split; [exact Hn|]. split; [exact Hc2|].
  split; [exact Hrun|]. split; [eapply sched_frame_trans; eassumption|]. split.
  - intros Hne. rewrite Hs2 by done. exact Hx1.
  - split; [|eexists; split; [exact Hy2|reflexivity]]. intros z Hz1 Hz2. rewrite Hs2 by done. now apply Hs1.
Qed.

Lemma end_slice_keep H n V s x :
  running_inv H n V s -> pcb_at s (current (st_ps s)) = Some x -> u8 (p_quantum x - 1) <> 0 ->
  let s' := with_pcb (current (st_ps s)) (set_p_quantum (u8 (p_quantum x - 1)) x) s in
  end_slice s = Ret tt s' /\ running_inv H n V s' /\ current (st_ps s') = current (st_ps s).
Proof.
  intros [Hinv (y & Hy & Hst & Hv & _) Hout] Hx Hq s'. rewrite Hx in Hy. injection Hy as <-.
  set (p := current (st_ps s)) in *. set (x' := set_p_quantum (u8 (p_quantum x - 1)) x) in *.
  assert (pcb_at s' p = Some x') as Hx' by (eapply pcb_at_with_eq, Hx).
  assert (current (st_ps s') = p) as Hc by (unfold s', with_pcb; destruct (pcb_slot p); done).
  pose proof (u8_range (p_quantum x - 1)) as Hr. split; [|split; [split|exact Hc]].
  - unfold end_slice, ps, gets. erewrite bind_Ret by reflexivity. fold p.
    rewrite (bind_Ret _ _ _ _ _ (pcb_get_at s p x p_quantum Hx)).
    rewrite (bind_Ret _ _ _ _ _ (pcb_set_at s p x _ Hx)). fold x' s'.
    rewrite (bind_Ret _ _ _ _ _ (pcb_get_at s' p x' p_quantum Hx')). cbn [p_quantum x' set_p_quantum].
    destruct (Z.ltb_spec (u8 (p_quantum x - 1)) 1); [lia|]. reflexivity.
  - now apply proc_inv_pcb.
  - rewrite Hc. exists x'. repeat split; try done; cbn; try apply Hv; lia.
  - now rewrite Hc.
Qed.

Lemma end_slice_yield H n V s x :
  running_inv H n V s -> pcb_at s (current (st_ps s)) = Some x -> p_quantum x = 1 ->
  exists s' i q l, end_slice s = Ret tt s' /\
    next_process (enqueue s V (current (st_ps s))) = Some (i, q, l) /\ current (st_ps s') = q /\
    running_inv H n (<[i := (NULL, l)]> (enqueue s V (current (st_ps s)))) s' /\ sched_frame H s s' /\
    (q <> current (st_ps s) -> pcb_at s' (current (st_ps s)) = Some (set_p_state STATE_READY (set_p_quantum 0 x))) /\
    (forall r, r <> current (st_ps s) -> r <> q -> pcb_at s' r = pcb_at s r) /\
    exists y, pcb_at s' q = Some y /\ p_quantum y = Q_STD.
Proof.
  intros [Hinv (y & Hy & Hst & Hv & _) Hout] Hx Hq. rewrite Hx in Hy. injection Hy as <-.
  set (p := current (st_ps s)) in *. set (x' := set_p_quantum 0 x).
  set (s1 := with_pcb p x' s).
  assert (pcb_at s1 p = Some x') as Hx' by (eapply pcb_at_with_eq, Hx).
  assert (proc_inv H n V s1) as Hinv1 by now apply proc_inv_pcb.
  destruct (yield_spec H n V s1 p x' Hinv1 Hx' Hout Hv)
    as (s2 & i & q & l & E & Hn & Hc & Hrun & Hf & Hp & Ho & Hy).
  assert (enqueue s1 V p = enqueue s V p) as Een by (unfold enqueue; now rewrite Hx, Hx').
  rewrite Een in Hn, Hrun. exists s2, i, q, l. split; [|split; [exact Hn|split; [exact Hc|split; [exact Hrun|]]]].
  - unfold end_slice, ps, gets. erewrite bind_Ret by reflexivity. fold p.
    rewrite (bind_Ret _ _ _ _ _ (pcb_get_at s p x p_quantum Hx)). rewrite Hq.
    change (u8 (1 - 1)) with 0. rewrite (bind_Ret _ _ _ _ _ (pcb_set_at s p x _ Hx)). fold x' s1.
    rewrite (bind_Ret _ _ _ _ _ (pcb_get_at s1 p x' p_quantum Hx')). exact E.
  - split; [eapply sched_frame_trans; [apply sched_frame_pcb|exact Hf]|]. split; [exact Hp|]. split; [|exact Hy].
    intros r Hr1 Hr2. rewrite Ho by done. now apply pcb_at_with_ne.
Qed.

(** The end of a slice, of the process [x] that runs, with the queues [V]: it loses one
    tick of its quantum, and 0 wraps around to 255; when the last tick is spent it goes to
    the end of its ready queue and the first process of the highest queue that is not
    empty, perhaps itself, gets the processor with a full quantum. *)
Definition slice_ended (H : Z -> Prop) (n : nat) V (s : kstate) (x : pcb_t) (s' : kstate) : Prop :=
  let p := current (st_ps s) in
  (p_quantum x <> 1 ->
   running_inv H n V s' /\ current (st_ps s') = p /\ pcb_at s' p = Some (set_p_quantum (u8 (p_quantum x - 1)) x)) /\
  (p_quantum x = 1 -> exists i q l y,
   next_process (enqueue s V p) = Some (i, q, l) /\ current (st_ps s') = q /\
   running_inv H n (<[i := (NULL, l)]> (enqueue s V p)) s' /\ pcb_at s' q = Some y /\ p_quantum y = Q_STD /\
   (q <> p -> pcb_at s' p = Some (set_p_state STATE_READY (set_p_quantum 0 x)))).

Lemma slice_ended_from H n V s0 s x s' :
  current (st_ps s) = current (st_ps s0) -> pcb_at s (current (st_ps s0)) = pcb_at s0 (current (st_ps s0)) ->
  slice_ended H n V s x s' -> slice_ended H n V s0 x s'.
Proof.
  unfold slice_ended. intros -> Ex. assert (enqueue s V (current (st_ps s0)) = enqueue s0 V (current (st_ps s0))) as ->
    by (unfold enqueue; now rewrite Ex). done.
Qed.

Lemma end_slice_ends H n V s x :
  running_inv H n V s -> pcb_at s (current (st_ps s)) = Some x ->
  exists s', end_slice s = Ret tt s' /\ slice_ended H n V s x s' /\ st_clk s' = st_clk s /\
    (forall r, r <> current (st_ps s) -> r <> current (st_ps s') -> pcb_at s' r = pcb_at s r).
Proof.
  intros Hrun Hx. pose proof Hrun as [_ (y & Hy & _ & _ & Hr) _]. rewrite Hx in Hy. injection Hy as <-.
  destruct (Z.eq_dec (p_quantum x) 1) as [Hq|Hq].
  - destruct (end_slice_yield _ _ _ _ _ Hrun Hx Hq) as (s' & i & q & l & E & Hn & Hc & Hrun' & Hf & Hp & Ho & y & Hy & Hqy).
    exists s'. split; [exact E|]. split; [split; [contradiction|]|].
    + intros _. exists i, q, l, y. exact (conj Hn (conj Hc (conj Hrun' (conj Hy (conj Hqy Hp))))).
    + rewrite Hc. split; [|exact Ho]. destruct Hf as (m & qs & t & c & -> & _). reflexivity.
  - assert (u8 (p_quantum x - 1) <> 0) as Hu.
    { unfold u8. intros E. pose proof (Z.div_mod (p_quantum x - 1) (2 ^ 8)). lia. }
    destruct (end_slice_keep _ _ _ _ _ Hrun Hx Hu) as (E & Hrun' & Hc).
    eexists. split; [exact E|]. split; [split; [|contradiction]|split].
    + intros _. split; [exact Hrun'|]. split; [exact Hc|]. eapply pcb_at_with_eq, Hx.
    + unfold with_pcb. now destruct (pcb_slot _).
    + intros r Hr1 _. now apply pcb_at_with_ne.
Qed.

(** * The whole handler *)

(** The reports of the handler: the pinwheel, the time and the statistics. *)
Definition clk_report : K unit :=
  spin_pinwheel ;;
  t <- clk system_time ;;
  cio_printf_at 1 0 (chars " time %08x") [AI t] ;;
  when (t mod SEC_TO_TICKS SYSTEM_STATUS =? 0) status_report.

(** They change the drivers, the devices and the pinwheel only. *)
Definition quiet (s s' : kstate) : Prop :=
  st_mem s' = st_mem s /\ st_km s' = st_km s /\ st_qs s' = st_qs s /\ st_stk s' = st_stk s /\
  st_ps s' = st_ps s /\ st_krn s' = st_krn s /\ system_time (st_clk s') = system_time (st_clk s).

#[export] Instance quiet_preorder : PreOrder quiet.
Proof.
  split; [now intros s|]. unfold quiet. intros s1 s2 s3 H1 H2.
  destruct H1 as (? & ? & ? & ? & ? & ? & ?), H2 as (? & ? & ? & ? & ? & ? & ?).
  repeat split; etransitivity; eassumption.
Qed.

Lemma quiet_io {A} (m : K A) : keeps io_only m -> keeps quiet m.
Proof. intros Hm s. destruct (Hm s) as (c & o & d & _ & ->). repeat split. Qed.

Lemma io_count_states : keeps io_only count_states.
Proof.
  unfold count_states. apply keeps_loop; [exact _|]. intros [[n st] u].
  unfold get_pcb. io_step; [|auto with io]. apply keeps_bind; [exact _| |intros x].
  - intros s. destruct (pcb_slot _); [|cbn; reflexivity]. apply keeps_aget. exact _.
  - io.
Qed.

Lemma io_que_length q : keeps io_only (que_length q).
Proof.
  unfold que_length, que_get, get_que. io_step; [io|]. io_step; [io|]. io_step; [io|].
  io_step; [io|]. io_step; [|io]. io_step; [|io].
  intros s. destruct (que_slot q); [|cbn; reflexivity]. apply keeps_aget. exact _.
Qed.

Lemma io_pcb_get {A} p (f : pcb_t -> A) : keeps io_only (pcb_get p f).
Proof.
  unfold pcb_get, get_pcb. io_step; [|io].
  intros s. destruct (pcb_slot p); [|cbn; reflexivity]. apply keeps_aget. exact _.
Qed.
Hint Resolve io_count_states io_que_length io_pcb_get : io.

Lemma io_status_report : keeps io_only status_report.
Proof. unfold status_report, ptable_dump_stats. io. Qed.

Lemma quiet_clk_set f : (forall r, system_time (f r) = system_time r) -> keeps quiet (clk_set f).
Proof. intros Hf s. cbn. repeat split. apply Hf. Qed.

Lemma quiet_clk_report : keeps quiet clk_report.
Proof.
  unfold clk_report, spin_pinwheel, cio_printf_at.
  repeat lazymatch goal with
  | |- keeps _ (bind _ _) => apply keeps_bind; [exact _| |intros ?]
  | |- keeps _ (when _ _) => apply keeps_when; [exact _|]
  | |- keeps _ (clk_set _) => apply quiet_clk_set; reflexivity
  | |- keeps _ status_report => apply quiet_io, io_status_report
  | |- keeps _ _ => apply quiet_io; solve [auto with io]
  end.
Qed.

Lemma clk_isr_split vector code s :
  clk_isr vector code s =
  (clk_report ;;
   clk_set (fun r => set_system_time (u32 (system_time r + 1)) r) ;;
   wake_sleepers ;; end_slice ;; outb PIC1_CMD PIC_EOI) s.
Proof.
  unfold clk_isr, clk_report. rewrite !bind_assoc. unfold bind.
  destruct (spin_pinwheel s) as [[] s1| | |]; try reflexivity.
  destruct (clk system_time s1) as [t s2| | |]; try reflexivity.
  destruct (cio_printf_at 1 0 _ _ s2) as [[] s3| | |]; reflexivity.
Qed.

(** ** What a tick does to the processes *)

Lemma enqueue_above s V p i c l :
  V !! i = Some (c, l) -> (3 <= i)%nat ->
  (forall x, pcb_at s p = Some x -> valid_prio x) -> enqueue s V p !! i = Some (c, l).
Proof.
  intros Hi H3 Hv. unfold enqueue. destruct (pcb_at s p) as [x|]; [|done].
  specialize (Hv x eq_refl). unfold valid_prio in Hv.
  destruct (V !! Z.to_nat (p_priority x)) as [[c' l']|]; [|done].
  rewrite list_lookup_insert_ne by lia. done.
Qed.

Lemma enqueue_all_above s ps V i c l :
  V !! i = Some (c, l) -> (3 <= i)%nat ->
  (forall p x, p ∈ ps -> pcb_at s p = Some x -> valid_prio x) ->
  fold_left (enqueue s) ps V !! i = Some (c, l).
Proof.
  revert V; induction ps as [|p ps IH]; intros V Hi H3 Hv; [done|]. cbn [fold_left].
  apply IH; [|done|intros q x Hq; apply Hv; now right].
  apply enqueue_above; [done|done|]. intros x. apply Hv. left.
Qed.

Lemma enqueue_queued s V p q :
  q ∈ queued (enqueue s V p) -> q = p \/ q ∈ queued V.
Proof.
  unfold enqueue. destruct (pcb_at s p) as [x|]; [|now right].
  destruct (V !! Z.to_nat (p_priority x)) as [[c l]|] eqn:E; [|now right].
  destruct (queued_insert V _ c l c (l ++ [p]) E) as (rest & P1 & P2). rewrite P1, P2.
  rewrite !elem_of_app, list_elem_of_singleton. tauto.
Qed.

Lemma enqueue_all_queued s ps V q :
  q ∈ queued (fold_left (enqueue s) ps V) -> q ∈ ps \/ q ∈ queued V.
Proof.
  revert V; induction ps as [|p ps IH]; intros V; [now right|]. cbn [fold_left].
  intros [Hq|Hq]%IH; [left; now right|]. apply enqueue_queued in Hq as [->|Hq]; [|now right].
  left. left.
Qed.

Lemma running_inv_set_time H n V s t :
  running_inv H n V s -> running_inv H n V (up_clk (set_system_time t) s).
Proof.
  intros [Hp Hr Ho]. split; [|exact Hr|exact Ho]. eapply proc_inv_same; [..|exact Hp]; done.
Qed.

Lemma running_inv_quiet H n V s s' : quiet s s' -> running_inv H n V s -> running_inv H n V s'.
Proof.
  intros (Em & _ & Eq & _ & Ep & _) [Hp (x & Hx & Hr) Ho]. rewrite <- Ep in Hx, Ho. split.
  - eapply proc_inv_same; eassumption.
  - exists x. split; [|exact Hr]. unfold pcb_at. rewrite Ep. unfold pcb_at in Hx. now rewrite Ep in *.
  - exact Ho.
Qed.

(** Waking preserves the invariant of the running process. *)
Lemma wake_running H n V s c l :
  running_inv H n V s -> V !! 3%nat = Some (c, l) ->
  let t := system_time (st_clk s) in
  let due := filter (fun p => wakeup_of s p <= t) l in
  let rest := filter (fun p => t < wakeup_of s p) l in
  exists s', wake_sleepers s = Ret tt s' /\
    running_inv H n (fold_left (enqueue s) due (<[3%nat := (c, rest)]> V)) s' /\
    made_ready due s s' /\ sched_frame H s s' /\ current (st_ps s') = current (st_ps s).
Proof.
  intros [Hinv (x & Hx & Hst & Hv) Hout] Hi t due rest.
  destruct (wake_sleepers_spec _ _ _ _ _ _ Hinv Hi) as (s' & E & Hinv' & Hmr & Hf & Hc).
  fold t in E, Hinv', Hmr. fold due in Hinv', Hmr. fold rest in Hinv'.
  assert (forall q, q ∈ due -> q ∈ l) as Hdue by (intros q Hq; now apply list_elem_of_filter in Hq).
  exists s'. split; [exact E|]. split; [|split; [exact Hmr|split; [exact Hf|exact Hc]]].
  split; [exact Hinv'| |].
  - exists x. split; [|now split]. rewrite Hc. destruct Hmr as [_ Hu]. rewrite Hu; [exact Hx|].
    intros Hd. apply Hout. eapply queued_elem; [exact Hi|now apply Hdue].
  - rewrite Hc. intros [Hq|Hq]%enqueue_all_queued.
    + apply Hout. eapply queued_elem; [exact Hi|now apply Hdue].
    + apply Hout. destruct (queued_insert V 3 c l c rest Hi) as (r & P1 & P2).
      rewrite P2, elem_of_app in Hq. rewrite P1, elem_of_app. destruct Hq as [Hq|Hq]; [left|now right].
      now apply list_elem_of_filter in Hq.
Qed.

(** What is sent to the interrupt controller changes nothing of it. *)
Lemma slice_ended_out H n V s x s' : slice_ended H n V s x s' ->
  slice_ended H n V s x (end_state (outb PIC1_CMD PIC_EOI s')).
Proof.
  assert (forall V', running_inv H n V' s' -> running_inv H n V' (end_state (outb PIC1_CMD PIC_EOI s'))) as Hr.
  { intros V' Hr. destruct (io_outb PIC1_CMD PIC_EOI s') as (cc & o & d & _ & Hd). rewrite Hd.
    eapply running_inv_quiet; [|exact Hr]. repeat split. }
  intros [Hk Hy]. split.
  - intros Hq. destruct (Hk Hq) as (H1 & H2). split; [now apply Hr|exact H2].
  - intros Hq. destruct (Hy Hq) as (i & q & l & y & H1 & H2 & H3 & H4). exists i, q, l, y.
    split; [exact H1|]. split; [exact H2|]. split; [now apply Hr|exact H4].
Qed.
End ClockSpec.
