(* ===== verification/ClockClaims.v ===== *)
(** The contract of the clock interrupt handler (kernel/clock.c). *)

From Stdlib Require Import Sorting.Sorted.
From S2P Require Import Prelude Memory State Lib LibMem Sio Cio Frames Kmem Queues QueuesInv QueuesSpec QueuesPages QueuesClaims Stacks Procs ProcsSpec ProcsClaims Clock ClockSpec.

Open Scope kernel_scope.

(** C12: the loop of [clk_isr] wakes exactly the sleepers whose time has come: they
    leave the sleep queue, in order of their wake-up times, for the ready queue
    of their priority and are READY; the later sleepers stay asleep, and no other
    process changes. *)
Theorem wake_sleepers_wakes {L : Layout} H n V s c l :
  proc_inv H n V s -> V !! 3%nat = Some (c, l) ->
  let t := system_time (st_clk s) in
  let due := filter (fun p => wakeup_of s p <= t) l in
  let later := filter (fun p => t < wakeup_of s p) l in
  exists s', wake_sleepers s = Ret tt s' /\
    proc_inv H n (fold_left (enqueue s) due (<[3%nat := (c, later)]> V)) s' /\
    l = due ++ later /\ made_ready due s s' /\ sched_frame H s s' /\
    current (st_ps s') = current (st_ps s).
Proof.
  intros Hinv Hi t due later.
  destruct (wake_sleepers_spec _ _ _ _ _ _ Hinv Hi) as (s' & E & Hinv' & Hrest).
  exists s'. split; [exact E|]. split; [exact Hinv'|]. split; [|exact Hrest].
  destruct (due_prefix (wakeup_of s) t l (pi_sleep _ _ _ _ Hinv c l Hi)) as (d & r & El & Ed & Er & _).
  unfold due, later. now rewrite <- Ed, <- Er.
Qed.

#[local] Existing Instance example_layout.

(** Two sleepers, to wake at 10 and at 50; the time is 30. *)
Definition sleep_table : list pcb_t :=
  [example_pcb 1 STATE_RUNNING 0 0; example_pcb 2 STATE_SLEEPING 1 10;
   example_pcb 3 STATE_SLEEPING 2 50] ++ replicate 22 pcb0.

Definition sleep_start : kstate := up_clk (set_system_time 30) (proc_example sleep_table (pcb_addr 0)).
Definition sleep_one : kstate := final (que_insert (que_addr (Z.of_nat 3)) (pcb_addr 2)) sleep_start.
Definition sleep_example : kstate := final (que_insert (que_addr (Z.of_nat 3)) (pcb_addr 1)) sleep_one.

Definition sleep_queues : list (Z * list Z) :=
  <[3%nat := (comp_wakeup_addr, [pcb_addr 1; pcb_addr 2])]> proc_queues.

Lemma sleep_start_inv : proc_inv example_region 512 proc_queues sleep_start.
Proof.
  unfold sleep_start. pose proof (proc_example_inv sleep_table (pcb_addr 0) eq_refl) as H.
  revert H. generalize (proc_example sleep_table (pcb_addr 0)) as s. intros s.
  now apply proc_inv_same.
Qed.

Lemma sleep_example_inv : exists n, proc_inv example_region n sleep_queues sleep_example.
Proof.
  assert (queued proc_queues = []) as Hnil by (vm_compute; reflexivity).
  destruct (enqueue_sleeper _ _ _ _ (pcb_addr 2) (example_pcb 3 STATE_SLEEPING 2 50) comp_wakeup_addr []
    sleep_start_inv) as (s1 & n1 & E1 & _ & Hinv1 & Hf1);
    [reflexivity|reflexivity|reflexivity|unfold valid_prio; cbn; lia|rewrite Hnil; apply not_elem_of_nil|].
  assert (st_ps s1 = st_ps sleep_start) as Hps
    by (destruct (que_frame_others _ _ _ Hf1) as (_ & _ & Hps & _); exact Hps).
  destruct (enqueue_sleeper _ _ _ _ (pcb_addr 1) (example_pcb 2 STATE_SLEEPING 1 10) comp_wakeup_addr
    [pcb_addr 2] Hinv1) as (s2 & n2 & E2 & _ & Hinv2 & _);
    [reflexivity|unfold pcb_at; rewrite Hps; reflexivity|reflexivity|unfold valid_prio; cbn; lia| |].
  { match goal with |- ~ _ ∈ queued ?q =>
      assert (queued q = [pcb_addr 2]) as -> by (vm_compute; reflexivity) end.
    intros E%list_elem_of_singleton. now apply pcb_addr_inj in E. }
  exists n2. unfold sleep_example, sleep_one. rewrite (final_Ret _ _ _ _ E1), (final_Ret _ _ _ _ E2).
  assert (insert_by (wakeup_of s1) (pcb_addr 1) [pcb_addr 2] = [pcb_addr 1; pcb_addr 2]) as Ei.
  { unfold insert_by, wakeup_of, pcb_at. rewrite Hps. reflexivity. }
  rewrite Ei in Hinv2. exact Hinv2.
Qed.

Lemma sleep_example_ps :
  st_ps sleep_example = st_ps sleep_start /\ st_clk sleep_example = st_clk sleep_start.
Proof. split; vm_compute; reflexivity. Qed.

Lemma wake_sleepers_wakes_witness :
  exists s', wake_sleepers sleep_example = Ret tt s' /\
    pcb_at s' (pcb_addr 1) = Some (example_pcb 2 STATE_READY 1 10) /\
    pcb_at s' (pcb_addr 2) = Some (example_pcb 3 STATE_SLEEPING 2 50).
Proof.
  destruct sleep_example_inv as (n & Hinv). destruct sleep_example_ps as [Hps Hclk].
  destruct (wake_sleepers_wakes _ _ _ _ comp_wakeup_addr [pcb_addr 1; pcb_addr 2] Hinv eq_refl)
    as (s' & E & _ & _ & [Hdue Hsame] & _).
  assert (filter (fun p => wakeup_of sleep_example p <= system_time (st_clk sleep_example))
    [pcb_addr 1; pcb_addr 2] = [pcb_addr 1]) as Ed.
  { unfold wakeup_of, pcb_at. rewrite Hps, Hclk. reflexivity. }
  rewrite Ed in Hdue, Hsame. exists s'. split; [exact E|]. split.
  - destruct (Hdue (pcb_addr 1) ltac:(left)) as (x & Hx & Hx'). rewrite Hx'. f_equal.
    unfold pcb_at in Hx. rewrite Hps in Hx. injection Hx as <-. reflexivity.
  - rewrite Hsame; [unfold pcb_at; rewrite Hps; reflexivity|].
    intros Eq%list_elem_of_singleton. now apply pcb_addr_inj in Eq.
Defined.

(** C7: a clock interrupt, when its reports come to their end.  It returns, and the time
    has advanced by one tick modulo 2^32.  Exactly the sleepers that are due at the new
    time are READY and in the ready queue of their priority, in the order of their wake-up
    times; the others still sleep.  Then the slice of the running process [x] has ended
    ([slice_ended]): it has lost one tick of its quantum (0 wraps around to 255), or, on the
    last tick, is at the end of its ready queue, behind those just woken, and the first
    process of the highest non-empty ready queue has the processor with a full quantum.
    No other process has changed, and all processes are accounted for. *)
Theorem clk_isr_ticks {L : Layout} H n V s s1 c l x vector code :
  running_inv H n V s -> V !! 3%nat = Some (c, l) -> clk_report s = Ret tt s1 ->
  pcb_at s (current (st_ps s)) = Some x ->
  let now := u32 (system_time (st_clk s) + 1) in
  let due := filter (fun p => wakeup_of s p <= now) l in
  let later := filter (fun p => now < wakeup_of s p) l in
  exists s', clk_isr vector code s = Ret tt s' /\ system_time (st_clk s') = now /\
    slice_ended H n (fold_left (enqueue s) due (<[3%nat := (c, later)]> V)) s x s' /\
    forall q, q <> current (st_ps s) -> q <> current (st_ps s') ->
      pcb_at s' q = if decide (q ∈ due) then option_map (set_p_state STATE_READY) (pcb_at s q) else pcb_at s q.
Proof.
  intros Hrun Hi E1 Hx now due later.
  pose proof (quiet_clk_report s) as Hq. rewrite E1 in Hq. cbn [end_state] in Hq.
  pose proof (running_inv_quiet _ _ _ _ _ Hq Hrun) as Hrun1.
  set (s2 := up_clk (fun r => set_system_time (u32 (system_time r + 1)) r) s1).
  assert (running_inv H n V s2) as Hrun2 by apply (running_inv_set_time H n V s1 (u32 (system_time (st_clk s1) + 1)) Hrun1).
  destruct Hq as (_ & _ & _ & _ & Hps & _ & Ht).
  assert (system_time (st_clk s2) = now) as Enow by (unfold s2, now; ksimpl; now rewrite Ht).
  assert (forall p, pcb_at s2 p = pcb_at s p) as Ep by (intros p; unfold pcb_at, s2; ksimpl; now rewrite Hps).
  assert (forall p, wakeup_of s2 p = wakeup_of s p) as Ew by (intros p; unfold wakeup_of; now rewrite Ep).
  destruct (wake_running _ _ _ _ _ _ Hrun2 Hi) as (s3 & E3 & Hrun3 & [Hdue Hrest] & Hf3 & Hc3).
  rewrite Enow in Hrun3, Hdue, Hrest.
  assert (filter (fun p => wakeup_of s2 p <= now) l = due) as Edue by (apply list_filter_iff; intros p; now rewrite Ew).
  assert (filter (fun p => now < wakeup_of s2 p) l = later) as Elater by (apply list_filter_iff; intros p; now rewrite Ew).
  rewrite Edue in Hrun3, Hdue, Hrest. rewrite Elater in Hrun3.
  rewrite (enqueue_all_ext s s2) in Hrun3 by (intros q _; apply Ep).
  assert (current (st_ps s2) = current (st_ps s)) as Ec2 by (unfold s2; ksimpl; now rewrite Hps).
  assert (pcb_at s3 (current (st_ps s)) = pcb_at s (current (st_ps s))) as Ex3.
  { rewrite Hrest; [apply Ep|]. intros [_ Hin]%list_elem_of_filter. apply (ri_out _ _ _ _ Hrun). eapply queued_elem; eassumption. }
  rewrite Ec2 in Hc3. assert (pcb_at s3 (current (st_ps s3)) = Some x) as Hx3 by (rewrite Hc3, Ex3; exact Hx).
  destruct (end_slice_ends _ _ _ _ _ Hrun3 Hx3) as (s4 & E4 & Hend & Hclk & Ho). rewrite Hc3 in Ho.
  exists (end_state (outb PIC1_CMD PIC_EOI s4)). split; [|split; [|split]].
  - rewrite clk_isr_split. mstep E1. unfold clk_set, modify. erewrite bind_Ret by reflexivity.
    fold s2. mstep E3. mstep E4. reflexivity.
  - transitivity (system_time (st_clk s4)); [reflexivity|]. rewrite Hclk. destruct Hf3 as (? & ? & ? & ? & -> & _). exact Enow.
  - apply slice_ended_out, (slice_ended_from _ _ _ s s3); [exact Hc3|exact Ex3|exact Hend].
  - intros q Hq1 Hq2. transitivity (pcb_at s4 q); [reflexivity|]. rewrite Ho by assumption.
    destruct (decide (q ∈ due)) as [Hin|Hin]; [|rewrite Hrest by exact Hin; apply Ep].
    destruct (Hdue q Hin) as (y & Hy & ->). now rewrite <- Ep, Hy.
Qed.

Lemma sleep_example_running : exists n, running_inv example_region n sleep_queues sleep_example.
Proof.
  destruct sleep_example_inv as (n & Hinv). destruct sleep_example_ps as [Hps _].
  exists n. split; [exact Hinv| |].
  - exists (example_pcb 1 STATE_RUNNING 0 0). unfold pcb_at. rewrite Hps.
    split; [reflexivity|]. split; [reflexivity|]. unfold valid_prio. cbn. lia.
  - rewrite Hps. assert (queued sleep_queues = [pcb_addr 1; pcb_addr 2]) as ->
      by (vm_compute; reflexivity).
    intros [E|[E|E%elem_of_nil]%elem_of_cons]%elem_of_cons; [now apply pcb_addr_inj in E..|done].
Qed.

(** The first sleeper is woken, the second one sleeps on; the process that runs has two
    ticks left. *)
Lemma clk_isr_ticks_witness :
  exists s', clk_isr 32 0 sleep_example = Ret tt s' /\ system_time (st_clk s') = 31 /\
    current (st_ps s') = pcb_addr 0 /\
    pcb_at s' (pcb_addr 0) = Some (set_p_quantum 2 (example_pcb 1 STATE_RUNNING 0 0)) /\
    pcb_at s' (pcb_addr 1) = Some (example_pcb 2 STATE_READY 1 10) /\
    pcb_at s' (pcb_addr 2) = Some (example_pcb 3 STATE_SLEEPING 2 50).
Proof.
  destruct sleep_example_running as (n & Hrun). destruct sleep_example_ps as [Hps Hclk].
  destruct (clk_isr_ticks _ _ _ _ (final clk_report sleep_example) comp_wakeup_addr
    [pcb_addr 1; pcb_addr 2] (example_pcb 1 STATE_RUNNING 0 0) 32 0 Hrun eq_refl) as (s' & E & Ht & [Hs _] & Ho).
  - apply final_unit. vm_compute. reflexivity.
  - unfold pcb_at. rewrite Hps. reflexivity.
  - destruct (Hs ltac:(discriminate)) as (_ & Hc & Hp). exists s'. split; [exact E|].
    assert (current (st_ps sleep_example) = pcb_addr 0) as Ec by now rewrite Hps.
    rewrite Ec in *. rewrite Hclk in Ht. split; [exact Ht|]. split; [exact Hc|]. split; [exact Hp|].
    rewrite Hc in Ho. unfold wakeup_of, pcb_at in Ho. rewrite Hps, Hclk in Ho.
    split; (etransitivity; [apply Ho; vm_compute; discriminate|vm_compute; reflexivity]).
Defined.
