(* ===== verification/Syscalls.v ===== *)
(** kernel/syscalls.c: the system calls and the second-level handler of the
    system call interrupt. *)

From S2P Require Import Prelude Memory State Lib Sio Cio Kmem Queues Stacks Procs.

Open Scope kernel_scope.

Definition VEC_SYSCALL : Z := 0x80.

(** The system call codes of syscalls.h. *)
Definition SYS_exit : Z := 0.
Definition SYS_wait : Z := 1.
Definition SYS_fork : Z := 2.
Definition SYS_exec : Z := 3.
Definition SYS_read : Z := 4.
Definition SYS_write : Z := 5.
Definition SYS_sleep : Z := 6.
Definition SYS_getpid : Z := 7.
Definition SYS_gettime : Z := 8.
Definition SYS_getprio : Z := 9.
Definition N_SYSCALLS : Z := 10.

(** The WARNING macro of debug.h. *)
Definition WARNING (func file : string) (line : Z) (m : list Z) : K unit :=
  cio_printf ([10] ++ chars "** %s (%s @ %d): ")%list
    [AS (chars func); AS (chars file); AI line] ;;
  cio_puts m ;;
  cio_putchar 10.

Section Syscalls.
Context {L : Layout}.

Definition status_return (parent child : Z) : K unit :=
  assert "status_return: parent" (negb (parent =? NULL)) ;;
  assert "status_return: child" (negb (child =? NULL)) ;;
  pid <- pcb_get child p_pid ;;
  set_RET parent pid ;;
  ptr <- ARG parent 1 ;;
  when (negb (ptr =? NULL))
    (st <- pcb_get child p_status ;; store32 ptr st).

(** The [do] loop of [sys_exit]: give the children to init; the result is the
    last of them that has exited already. *)
Definition reparent (pcb : Z) : K Z :=
  loop (fun for_init =>
    next <- pcb_find_child_of pcb ;;
    if next =? NULL then ret (inr for_init)
    else
      par <- pcb_get next p_parent ;;
      assert "sys_exit: next->parent" (par =? pcb) ;;
      ip <- ps init_pcb ;;
      pcb_set next (set_p_parent ip) ;;
      st <- pcb_get next p_state ;;
      ret (inl (if st =? STATE_ZOMBIE then next else for_init))) NULL.

Definition sys_exit (pcb : Z) : K unit :=
  assert "sys_exit: pcb" (negb (pcb =? NULL)) ;;
  parent <- pcb_get pcb p_parent ;;
  assert "sys_exit: parent" (negb (parent =? NULL)) ;;
  pst <- pcb_get parent p_state ;;
  assert "sys_exit: parent state" (negb (pst =? STATE_UNUSED)) ;;
  assert "sys_exit: parent is pcb" (negb (parent =? pcb)) ;;
  status <- ARG pcb 1 ;;
  pcb_set pcb (set_p_status (s32 status)) ;;
  for_init <- reparent pcb ;;
  ip <- ps init_pcb ;;
  (if negb (for_init =? NULL) then
     ist <- pcb_get ip p_state ;;
     when (ist =? STATE_WAITING)
       (z <- ps zombie ;;
        r <- que_remove_by z for_init ;;
        assert "sys_exit: que_remove_by" (r =? E_SUCCESS) ;;
        status_return ip for_init ;;
        schedule ip ;;
        pcb_cleanup for_init)
   else ret tt) ;;
  pst <- pcb_get parent p_state ;;
  (if pst =? STATE_WAITING then
     status_return parent pcb ;;
     schedule parent ;;
     pcb_cleanup pcb
   else pcb_zombify pcb) ;;
  dispatch.

Definition sys_wait (pcb : Z) : K unit :=
  assert "sys_wait: pcb" (negb (pcb =? NULL)) ;;
  kc <- loop (fun '(i, nkids) =>
    if i <? Z.of_nat N_PROCS then
      let tmp := pcb_addr i in
      t <- get_pcb tmp ;;
      if negb (tmp =? pcb) && (p_parent t =? pcb) && negb (p_state t =? STATE_UNUSED) then
        if p_state t =? STATE_ZOMBIE then ret (inr (nkids + 1, tmp))
        else ret (inl (i + 1, nkids + 1))
      else ret (inl (i + 1, nkids))
    else ret (inr (nkids, NULL))) (0, 0) ;;
  let '(nkids, child) := kc in
  if negb (child =? NULL) then
    status_return pcb child ;;
    pcb_cleanup child
  else if nkids <? 1 then set_RET pcb (u32 S_NO_CHILD)
  else
    pcb_set pcb (set_p_state STATE_WAITING) ;;
    dispatch.

(** [*p += offset] on a word. *)
Definition add_word (p offset : Z) : K unit :=
  v <- load32 p ;; store32 p (u32 (v + offset)).

(** The walk along the saved EBP values in the child's stack: the result is
    the last one visited. *)
Definition fix_ebp_chain (bp offset : Z) : K Z :=
  loop (fun '(bp, lastbp) =>
    if truth bp then
      add_word bp offset ;;
      nx <- load32 bp ;;
      ret (inl (nx, bp))
    else ret (inr lastbp)) (bp, NULL).

Definition sys_fork (pcb : Z) : K unit :=
  assert "sys_fork: pcb" (negb (pcb =? NULL)) ;;
  r <- pcb_alloc ;;
  match snd r with
  | None => set_RET pcb (u32 S_ERROR)
  | Some new =>
      r <- stk_alloc ;;
      match snd r with
      | None =>
          pcb_free new ;;
          set_RET pcb (u32 S_ERROR)
      | Some stk =>
          put_pcb new pcb0 ;;
          pcb_set new (set_p_state STATE_NEW) ;;
          pcb_set new (set_p_stack stk) ;;
          pcb_set new (set_p_parent pcb) ;;
          pid <- ps next_pid ;;
          ps_set (set_next_pid (s32 (pid + 1))) ;;
          pcb_set new (set_p_pid pid) ;;
          prio <- ARG pcb 1 ;;
          pcb_set new (set_p_priority (u8 prio)) ;;
          (if u8 prio =? PRIO_INHERIT then
             pp <- pcb_get pcb p_priority ;; pcb_set new (set_p_priority pp)
           else ret tt) ;;
          pstack <- pcb_get pcb p_stack ;;
          blkmov stk pstack SZ_STACK ;;
          pstack <- pcb_get pcb p_stack ;;
          let offset := s32 (stk - pstack) in
          pctx <- pcb_get pcb p_context ;;
          pcb_set new (set_p_context (u32 (pctx + offset))) ;;
          ebp <- REG new EBP ;;
          when (negb (ebp =? 0)) (set_REG new EBP (u32 (ebp + offset))) ;;
          esp <- REG new ESP ;;
          when (negb (esp =? 0)) (set_REG new ESP (u32 (esp + offset))) ;;
          bp <- REG new EBP ;;
          lastbp <- fix_ebp_chain bp offset ;;
          add_word (u32 (lastbp + 8)) offset ;;
          npid <- pcb_get new p_pid ;;
          set_RET pcb npid ;;
          set_RET new 0 ;;
          schedule new
      end
  end.

Definition sys_exec (pcb : Z) : K unit :=
  assert "sys_exec: pcb" (negb (pcb =? NULL)) ;;
  where_ <- ARG pcb 1 ;;
  args <- ARG pcb 2 ;;
  oldstack <- pcb_get pcb p_stack ;;
  r <- stk_alloc ;;
  match snd r with
  | None => set_RET pcb (u32 S_ERROR)
  | Some stk =>
      c <- stk_setup stk where_ args ;;
      pcb_set pcb (set_p_context c) ;;
      assert "sys_exec: context" (negb (c =? NULL)) ;;
      stk_free oldstack
  end.

Definition sys_read (pcb : Z) : K unit :=
  assert "sys_read: pcb" (negb (pcb =? NULL)) ;;
  chan <- ARG pcb 1 ;;
  len <- ARG pcb 3 ;;
  buf <- ARG pcb 2 ;;
  if len =? 0 then set_RET pcb 0
  else if chan =? CHAN_CIO then
    avail <- cio_input_queue ;;
    if avail <? 1 then set_RET pcb 0
    else
      n <- cio_gets buf len ;;
      set_RET pcb (u32 n)
  else if chan =? CHAN_SIO then
    n <- sio_read buf (s32 len) ;;
    if n <? 1 then
      pcb_set pcb (set_p_state STATE_BLOCKED) ;;
      q <- ps sioread ;;
      r <- que_insert q pcb ;;
      assert "sys_read: que_insert" (negb (r =? E_SUCCESS)) ;;
      dispatch
    else set_RET pcb (u32 n)
  else set_RET pcb (u32 S_BAD_CHAN).

Definition sys_write (pcb : Z) : K unit :=
  assert "sys_write: pcb" (negb (pcb =? NULL)) ;;
  chan <- ARG pcb 1 ;;
  length <- ARG pcb 3 ;;
  buf <- ARG pcb 2 ;;
  rval <- (if 0 <=? length then
      if chan =? CHAN_CIO then cio_write buf (s32 length) ;; ret length
      else if chan =? CHAN_SIO then
        sio_write (mem_source buf) (s32 length) ;; ret length
      else ret (u32 S_BAD_CHAN)
    else ret length) ;;
  set_RET pcb rval.

Definition sys_sleep (pcb : Z) : K unit :=
  assert "sys_sleep: pcb" (negb (pcb =? NULL)) ;;
  n <- ARG pcb 1 ;;
  if n =? 0 then
    schedule pcb ;;
    dispatch
  else
    pcb_set pcb (set_p_state STATE_SLEEPING) ;;
    t <- clk system_time ;;
    pcb_set pcb (set_p_wakeup (u32 (t + n))) ;;
    q <- ps sleeping ;;
    r <- que_insert q pcb ;;
    if negb (r =? E_SUCCESS) then
      WARNING "sys_sleep" "kernel/syscalls.c" 696 (chars "sleep pcb insert failed")
    else dispatch.

Definition sys_getpid (pcb : Z) : K unit :=
  assert "sys_getpid: pcb" (negb (pcb =? NULL)) ;;
  pid <- pcb_get pcb p_pid ;;
  set_RET pcb (u32 pid).

Definition sys_gettime (pcb : Z) : K unit :=
  assert "sys_gettime: pcb" (negb (pcb =? NULL)) ;;
  t <- clk system_time ;;
  set_RET pcb t.

Definition sys_getprio (pcb : Z) : K unit :=
  assert "sys_getprio: pcb" (negb (pcb =? NULL)) ;;
  pid <- ARG pcb 1 ;;
  let pid := s32 pid in
  mypid <- pcb_get pcb p_pid ;;
  if (pid =? 0) || (pid =? mypid) then
    prio <- pcb_get pcb p_priority ;;
    set_RET pcb prio
  else
    p <- pcb_find_pid pid ;;
    st <- pcb_get pcb p_state ;;
    if negb (pcb =? NULL) && negb (st =? STATE_UNUSED) then
      prio <- pcb_get p p_priority ;;
      set_RET pcb prio
    else set_RET pcb (u32 S_NOT_FOUND).

(** The jump table. *)
Definition syscalls (code : Z) : option (Z -> K unit) :=
  [sys_exit; sys_wait; sys_fork; sys_exec; sys_read; sys_write; sys_sleep; sys_getpid;
   sys_gettime; sys_getprio] !! Z.to_nat code.

Definition sys_isr (vector code : Z) : K unit :=
  cur <- ps current ;;
  assert "sys_isr: current" (negb (cur =? NULL)) ;;
  c <- pcb_get cur p_context ;;
  assert "sys_isr: context" (negb (c =? NULL)) ;;
  eax <- REG cur EAX ;;
  let code := s32 eax in
  code <- (if (code <? 0) || (N_SYSCALLS <=? code) then
      pid <- pcb_get cur p_pid ;;
      cio_printf (chars "sys_isr: pid %d bad syscall (%d)" ++ [10])%list
        [AI pid; AI code] ;;
      set_ARG cur 1 (u32 S_BAD_SYSCALL) ;;
      ret SYS_exit
    else ret code) ;;
  cur <- ps current ;;
  (match syscalls code with
   | Some f => f cur
   | None => undef "syscall table"
   end) ;;
  outb PIC1_CMD PIC_EOI.

Definition sys_init : K unit :=
  cio_puts (chars " Sys") ;;
  install_isr VEC_SYSCALL HSys ;;
  ret tt.
End Syscalls.
