(* ===== verification/SyscallsSpec.v ===== *)
(** kernel/syscalls.c: lemmas on the system calls that the claims about them
    share. *)

From Stdlib Require Import Sorting.Sorted.
From S2P Require Import Prelude Memory State Lib LibMem Sio Cio Frames Kmem Queues QueuesInv QueuesSpec QueuesPages Stacks Procs ProcsSpec Clock ClockSpec Syscalls.

Open Scope kernel_scope.

Section SyscallsSpec.
Context {L : Layout}.
Implicit Types (V : list (Z * list Z)).

(** The [n]-th argument of the process [x], on its stack above the context. *)
Definition arg_of (s : kstate) (x : pcb_t) (n : Z) : Z :=
  ld32 (st_mem s) (p_context x + SZ_CONTEXT + 4 * n).

Lemma ARG_at s p x n : pcb_at s p = Some x -> ARG p n s = Ret (arg_of s x n) s.
Proof. intros Hx. unfold ARG. now mstep (pcb_get_at s p x p_context Hx). Qed.

(** The state after [RET( p ) = v]. *)
Definition with_ret (x : pcb_t) (v : Z) (s : kstate) : kstate :=
  up_mem (fun m => st32 m (p_context x + reg_off EAX) v) s.

Lemma set_RET_at s p x v : pcb_at s p = Some x -> set_RET p v s = Ret tt (with_ret x v s).
Proof. intros Hx. unfold set_RET, set_REG. now mstep (pcb_get_at s p x p_context Hx). Qed.

(** Writing outside the nodes leaves the process system as it was. *)
Lemma queues_hold_write H n V s m :
  queues_hold H n V s -> agree H (st_mem s) m -> queues_hold H n V (up_mem (fun _ => m) s).
Proof.
  intros (F & Q & Hinv & Hn & HV) Hag. exists F, Q. split; [|done].
  eapply qs_inv_outside; [exact Hinv|done|exact Hag].
Qed.

Lemma proc_inv_write H n V s m :
  proc_inv H n V s -> agree H (st_mem s) m -> proc_inv H n V (up_mem (fun _ => m) s).
Proof.
  intros [H1 H2 [R1 R2 R3 R4 R5] H4 H5 H6 H7 H8] Hag. split; try done.
  now apply queues_hold_write.
Qed.

Lemma running_inv_write H n V s m :
  running_inv H n V s -> agree H (st_mem s) m -> running_inv H n V (up_mem (fun _ => m) s).
Proof. intros [Hp Hr Ho] Hag. split; [now apply proc_inv_write|exact Hr|exact Ho]. Qed.

(** The saved context of a process does not meet the nodes. *)
Definition context_apart (H : Z -> Prop) (x : pcb_t) : Prop :=
  forall i, 0 <= i < SZ_CONTEXT -> ~ H (p_context x + i).

Lemma proc_inv_ret H n V s x v :
  proc_inv H n V s -> context_apart H x -> proc_inv H n V (with_ret x v s).
Proof.
  intros Hinv Hc. apply (proc_inv_write H n V s); [exact Hinv|]. intros a Ha.
  apply ld8_st32_ne. destruct (Z_lt_le_dec a (p_context x + reg_off EAX)); [now left|].
  destruct (Z_lt_le_dec a (p_context x + reg_off EAX + 4)); [|now right].
  exfalso. apply (Hc (a - p_context x)).
  - cbn in *. unfold SZ_CONTEXT. lia.
  - now replace (p_context x + (a - p_context x)) with a by lia.
Qed.

(** ** Going to sleep *)

Definition sleeping_pcb (t n : Z) (x : pcb_t) : pcb_t :=
  set_p_wakeup (u32 (t + n)) (set_p_state STATE_SLEEPING x).

(** The state before the insertion into the sleep queue. *)
Definition sleep_mark (s : kstate) (p : Z) (x : pcb_t) (n : Z) : kstate :=
  with_pcb p (sleeping_pcb (system_time (st_clk s)) n x)
    (with_pcb p (set_p_state STATE_SLEEPING x) s).

Lemma sleep_mark_pcb s p x n :
  pcb_at s p = Some x ->
  pcb_at (sleep_mark s p x n) p = Some (sleeping_pcb (system_time (st_clk s)) n x) /\
  forall q, q <> p -> pcb_at (sleep_mark s p x n) q = pcb_at s q.
Proof.
  intros Hx. split.
  - eapply pcb_at_with_eq, pcb_at_with_eq, Hx.
  - intros q Hq. unfold sleep_mark. rewrite !pcb_at_with_ne; done.
Qed.

Lemma sys_sleep_unfold H n V s p x :
  proc_inv H n V s -> pcb_at s p = Some x -> arg_of s x 1 <> 0 ->
  sys_sleep p s =
  (r <- que_insert (que_addr (Z.of_nat 3)) p ;;
   if negb (r =? E_SUCCESS) then
     WARNING "sys_sleep" "kernel/syscalls.c" 696 (chars "sleep pcb insert failed")
   else dispatch) (sleep_mark s p x (arg_of s x 1)).
Proof.
  intros Hinv Hx Hn. pose proof (pcb_at_word _ _ _ Hx) as Hw.
  set (s1 := with_pcb p (set_p_state STATE_SLEEPING x) s).
  assert (pcb_at s1 p = Some (set_p_state STATE_SLEEPING x)) as Hx1 by (eapply pcb_at_with_eq, Hx).
  unfold sys_sleep, assert. destruct (Z.eqb_spec p NULL); [unfold NULL in *; lia|].
  cbn [negb]. rewrite bind_ret_l, (bind_Ret _ _ _ _ _ (ARG_at s p x 1 Hx)).
  destruct (Z.eqb_spec (arg_of s x 1) 0); [done|].
  rewrite (bind_Ret _ _ _ _ _ (pcb_set_at s p x _ Hx)). fold s1.
  unfold clk, gets. erewrite bind_Ret by reflexivity.
  rewrite (bind_Ret _ _ _ _ _ (pcb_set_at s1 p _ _ Hx1)).
  assert (st_clk s1 = st_clk s) as -> by (unfold s1; apply with_pcb_others).
  unfold ps, gets. erewrite bind_Ret by reflexivity. fold (sleep_mark s p x (arg_of s x 1)).
  assert (sleeping (st_ps (sleep_mark s p x (arg_of s x 1))) = que_addr 3) as Eq.
  { unfold sleep_mark, with_pcb. destruct (pcb_slot p); ksimpl; apply (pi_handles _ _ _ _ Hinv). }
  match goal with |- context [sleeping (st_ps ?z)] =>
    change z with (sleep_mark s p x (arg_of s x 1)) end.
  now rewrite Eq.
Qed.

Lemma insert_by_ext (k k' : Z -> Z) x l :
  (forall y, y ∈ x :: l -> k' y = k y) -> insert_by k' x l = insert_by k x l.
Proof.
  induction l as [|y l IH]; intros E; [done|]. cbn [insert_by].
  rewrite (E x), (E y) by (rewrite !elem_of_cons; tauto).
  rewrite IH; [done|]. intros z Hz. apply E. rewrite !elem_of_cons in *. tauto.
Qed.

(** The sleeper leaves the processor to the next process. *)
Lemma sys_sleep_insert H n V s p x c l :
  proc_inv H n V s -> pcb_at s p = Some x -> valid_prio x -> ~ p ∈ queued V ->
  V !! 3%nat = Some (c, l) -> arg_of s x 1 <> 0 ->
  let t := sleeping_pcb (system_time (st_clk s)) (arg_of s x 1) x in
  exists s1 n1, sys_sleep p s = dispatch s1 /\ n = S n1 /\
    proc_inv H n1 (<[3%nat := (c, insert_by (wakeup_of s1) p l)]> V) s1 /\
    pcb_at s1 p = Some t /\ (forall q, q <> p -> pcb_at s1 q = pcb_at s q) /\ sched_frame H s s1.
Proof.
  intros Hinv Hx Hv Hout Hi Harg t. set (s0 := sleep_mark s p x (arg_of s x 1)).
  destruct (sleep_mark_pcb s p x (arg_of s x 1) Hx) as [Hx0 Hs0]. fold s0 in Hx0, Hs0.
  assert (proc_inv H n V s0) as Hinv0 by (apply proc_inv_pcb; [apply proc_inv_pcb|]; assumption).
  destruct (enqueue_sleeper _ _ _ _ _ _ _ _ Hinv0 Hi Hx0 eq_refl Hv Hout)
    as (s1 & n1 & E & -> & Hinv1 & Hf1).
  destruct (que_frame_others _ _ _ Hf1) as (_ & _ & Hps & _).
  assert (forall q, pcb_at s1 q = pcb_at s0 q) as Hsame by (intros q; unfold pcb_at; now rewrite Hps).
  exists s1, n1. split; [|split; [done|split; [|split; [|split]]]].
  - rewrite (sys_sleep_unfold H _ V s p x Hinv Hx Harg). fold s0. now mstep E.
  - rewrite (insert_by_ext (wakeup_of s0) (wakeup_of s1)); [exact Hinv1|].
    intros y _. unfold wakeup_of. now rewrite Hsame.
  - now rewrite Hsame.
  - intros q Hq. rewrite Hsame. now apply Hs0.
  - eapply sched_frame_trans; [|apply sched_frame_que, Hf1].
    eapply sched_frame_trans; apply sched_frame_pcb.
Qed.

(** ** FIFO queues of processes: the zombies and those waiting for input *)

Lemma enqueue_fifo H n V s i p x l :
  proc_inv H n V s -> V !! i = Some (NULL, l) -> pcb_at s p = Some x -> fits i x ->
  ~ p ∈ queued V ->
  exists s' n', que_insert (que_addr (Z.of_nat i)) p s = Ret E_SUCCESS s' /\ n = S n' /\
    proc_inv H n' (<[i := (NULL, l ++ [p])]> V) s' /\ que_frame H s s'.
Proof.
  intros Hinv Hi Hx Hfit Hp. pose proof (inv_node _ _ _ _ Hinv p x Hx Hp) as Hn.
  destruct n as [|n]; [lia|]. pose proof (pcb_at_word _ _ _ Hx) as Hw.
  destruct (insert_fifo H n V s i l p (pi_queues _ _ _ _ Hinv) Hi ltac:(lia)) as (s' & E & Hq & Hf).
  destruct (que_frame_others _ _ _ Hf) as (_ & _ & Hps & _).
  assert (i <> 3%nat) as Hi3.
  { intros ->. pose proof (inv_key _ _ _ _ Hinv _ _ _ Hi) as Hk. injection Hk as Hk.
    pose proof layout_compare. unfold NULL in Hk. lia. }
  exists s', n. split; [exact E|]. split; [done|]. split; [|exact Hf].
  eapply (proc_inv_change H (S n) n V s s' i NULL l _ p); try done.
  - eapply same_pcbs_frame; eassumption.
  - intros q [Hq'|Hq']%elem_of_app Hne; [done|]. now apply list_elem_of_singleton in Hq'.
  - now left.
  - intros _. exists x. split; [unfold pcb_at; rewrite Hps; exact Hx|exact Hfit].
  - apply NoDup_app. split; [eapply inv_nodup_at; eassumption|]. split; [|apply NoDup_singleton].
    intros q Hq' ->%list_elem_of_singleton. apply Hp. eapply queued_elem; eassumption.
  - rewrite length_app. cbn. lia.
Qed.

(** ** The children of a process *)

Definition child_of (p a : Z) (y : pcb_t) : bool :=
  negb (a =? p) && (p_parent y =? p) && negb (p_state y =? STATE_UNUSED).

Definition childless (s : kstate) (p : Z) : Prop :=
  forall j y, ptable (st_ps s) !! j = Some y -> child_of p (pcb_addr (Z.of_nat j)) y = false.

Lemma find_child_none s p x :
  length (ptable (st_ps s)) = 25%nat -> pcb_at s p = Some x -> childless s p ->
  pcb_find_child_of p s = Ret NULL s.
Proof.
  intros Hlen Hx Hno. destruct (pcb_at_addr _ _ _ Hx) as (i & -> & Hi & _).
  unfold pcb_find_child_of, assert, N_PROCS.
  destruct (Z.leb_spec ptable_addr (pcb_addr i)); [|unfold pcb_addr in *; lia].
  destruct (Z.ltb_spec (pcb_addr i) (pcb_addr (Z.of_nat 25))); [|unfold pcb_addr in *; lia].
  cbn [andb]. rewrite bind_ret_l. now mstep (find_pcb_none _ s Hlen Hno).
Qed.

Lemma reparent_none s p x :
  length (ptable (st_ps s)) = 25%nat -> pcb_at s p = Some x -> childless s p ->
  reparent p s = Ret NULL s.
Proof.
  intros Hlen Hx Hno. unfold reparent. apply (loop_intro _ 1); [lia|]. apply loopN_done.
  mstep (find_child_none s p x Hlen Hx Hno). reflexivity.
Qed.

(** The scan of [sys_wait]: live children are counted, the first zombie ends it. *)
Definition wait_body (p : Z) : Z * Z -> K (Z * Z + Z * Z) := fun '(i, nkids) =>
  if i <? Z.of_nat N_PROCS then
    let tmp := pcb_addr i in
    t <- get_pcb tmp ;;
    if negb (tmp =? p) && (p_parent t =? p) && negb (p_state t =? STATE_UNUSED) then
      if p_state t =? STATE_ZOMBIE then ret (inr (nkids + 1, tmp))
      else ret (inl (i + 1, nkids + 1))
    else ret (inl (i + 1, nkids))
  else ret (inr (nkids, NULL)).

Definition zombie_child (p a : Z) (y : pcb_t) : bool := child_of p a y && (p_state y =? STATE_ZOMBIE).

Lemma wait_body_eq p s (j : nat) k y :
  ptable (st_ps s) !! j = Some y -> (j < 25)%nat ->
  exists k', k <= k' <= k + 1 /\ wait_body p (Z.of_nat j, k) s =
    Ret (if zombie_child p (pcb_addr (Z.of_nat j)) y then inr (k + 1, pcb_addr (Z.of_nat j))
         else inl (Z.of_nat j + 1, k')) s.
Proof.
  intros Hy Hj. unfold wait_body, N_PROCS, zombie_child, child_of.
  destruct (Z.ltb_spec (Z.of_nat j) (Z.of_nat 25)); [|lia].
  rewrite (bind_Ret _ _ _ _ _ (get_pcb_ok (Z.of_nat j) y s ltac:(lia) ltac:(rewrite Nat2Z.id; exact Hy))).
  destruct (negb _ && _ && negb _); cbn [andb]; [|exists k; split; [lia|reflexivity]].
  destruct (p_state y =? STATE_ZOMBIE); [exists k|exists (k + 1)]; split; (lia || reflexivity).
Qed.

Lemma wait_scan p s (j : nat) y i k :
  length (ptable (st_ps s)) = 25%nat ->
  first_pcb (zombie_child p) (ptable (st_ps s)) j y -> (i <= j)%nat -> 0 <= k ->
  exists k', 1 <= k' /\ loopN (j - i + 1) (wait_body p) (Z.of_nat i, k) s =
    Ret (inr (k', pcb_addr (Z.of_nat j))) s.
Proof.
  intros Hlen (Hy & Ht & Hb). remember (j - i)%nat as d eqn:Ed. revert i k Ed.
  pose proof (lookup_lt_Some _ _ _ Hy) as Hj. rewrite Hlen in Hj.
  induction d as [|d IH]; intros i k Ed Hi Hk.
  - assert (i = j) as -> by lia. destruct (wait_body_eq p s j k y Hy Hj) as (k' & _ & E).
    rewrite Ht in E. exists (k + 1). split; [lia|]. apply loopN_done, E.
  - destruct (lookup_lt_is_Some_2 (ptable (st_ps s)) i ltac:(lia)) as (z & Hz).
    destruct (wait_body_eq p s i k z Hz ltac:(lia)) as (k' & Hk' & E).
    rewrite (Hb i z ltac:(lia) Hz) in E.
    destruct (IH (S i) k' ltac:(lia) ltac:(lia) ltac:(lia)) as (k2 & Hk2 & E2).
    exists k2. split; [exact Hk2|]. cbn [Nat.add]. rewrite (loopN_step _ _ _ _ _ _ E).
    replace (Z.of_nat i + 1) with (Z.of_nat (S i)) by lia. exact E2.
Qed.

(** ** Exit *)

Lemma childless_pcb s p x y :
  pcb_at s p = Some x -> childless s p -> childless (with_pcb p y s) p.
Proof.
  intros Hx Hno j z Hz. destruct (pcb_at_addr _ _ _ Hx) as (i & -> & Hi & Hti).
  unfold with_pcb in Hz. rewrite pcb_slot_addr in Hz by done. ksimpl in Hz. unfold aset in Hz.
  destruct (decide (j = Z.to_nat i)) as [->|Hne].
  - unfold child_of. rewrite Z2Nat.id by lia. now rewrite Z.eqb_refl.
  - rewrite list_lookup_insert_ne in Hz by done. now apply Hno.
Qed.

(** The path of [sys_exit] without children and with a parent that does not wait. *)
Lemma sys_exit_run H n V s p x y s3 s4 :
  proc_inv H n V s -> pcb_at s p = Some x -> pcb_at s (p_parent x) = Some y ->
  p_parent x <> p -> p_state y <> STATE_UNUSED -> p_state y <> STATE_WAITING -> childless s p ->
  let x1 := set_p_status (s32 (arg_of s x 1)) x in
  let s2 := with_pcb p (set_p_state STATE_ZOMBIE x1) (with_pcb p x1 s) in
  que_insert (que_addr (Z.of_nat 4)) p s2 = Ret E_SUCCESS s3 -> dispatch s3 = Ret tt s4 ->
  sys_exit p s = Ret tt s4.
Proof.
  intros Hinv Hx Hy Hne Hu Hw Hno x1 s2 E3 E4. set (s1 := with_pcb p x1 s).
  assert (pcb_at s1 p = Some x1) as Hx1 by (eapply pcb_at_with_eq, Hx).
  assert (pcb_at s1 (p_parent x) = Some y) as Hy1 by (unfold s1; now rewrite pcb_at_with_ne).
  pose proof (pcb_at_word _ _ _ Hx) as Hpw. pose proof (pcb_at_word _ _ _ Hy) as Hyw.
  assert (length (ptable (st_ps s1)) = 25%nat) as Hlen.
  { unfold s1, with_pcb. destruct (pcb_slot p); [ksimpl; rewrite length_aset|]; apply Hinv. }
  unfold sys_exit, assert. destruct (Z.eqb_spec p NULL); [unfold NULL in *; lia|]. cbn [negb].
  rewrite bind_ret_l, (bind_Ret _ _ _ _ _ (pcb_get_at s p x p_parent Hx)).
  destruct (Z.eqb_spec (p_parent x) NULL); [unfold NULL in *; lia|]. cbn [negb].
  rewrite bind_ret_l, (bind_Ret _ _ _ _ _ (pcb_get_at s _ y p_state Hy)).
  destruct (Z.eqb_spec (p_state y) STATE_UNUSED); [done|]. cbn [negb]. rewrite bind_ret_l.
  destruct (Z.eqb_spec (p_parent x) p); [done|]. cbn [negb].
  rewrite bind_ret_l, (bind_Ret _ _ _ _ _ (ARG_at s p x 1 Hx)).
  rewrite (bind_Ret _ _ _ _ _ (pcb_set_at s p x _ Hx)). fold x1 s1.
  rewrite (bind_Ret _ _ _ _ _ (reparent_none s1 p x1 Hlen Hx1 (childless_pcb _ _ _ _ Hx Hno))).
  unfold ps at 1, gets. erewrite bind_Ret by reflexivity.
  change (NULL =? NULL) with true. cbn [negb]. rewrite bind_ret_l.
  rewrite (bind_Ret _ _ _ _ _ (pcb_get_at s1 _ y p_state Hy1)).
  destruct (Z.eqb_spec (p_state y) STATE_WAITING); [done|].
  assert (pcb_zombify p s1 = Ret tt s3) as Ez; [|now mstep Ez].
  unfold pcb_zombify. destruct (Z.eqb_spec p NULL); [unfold NULL in *; lia|].
  rewrite (bind_Ret _ _ _ _ _ (pcb_set_at s1 p x1 _ Hx1)).
  change (with_pcb p (set_p_state STATE_ZOMBIE x1) s1) with s2.
  unfold ps, gets. erewrite bind_Ret by reflexivity.
  assert (zombie (st_ps s2) = que_addr 4) as ->.
  { unfold s2, with_pcb. destruct (pcb_slot p); ksimpl; apply (pi_handles _ _ _ _ Hinv). }
  change (que_addr 4) with (que_addr (Z.of_nat 4)). mstep E3. reflexivity.
Qed.

(** ** Reaping a zombie *)

(** The word that links the freed stack into the list of free stacks meets
    neither the nodes nor the caller's result register. *)
Definition stack_apart (H : Z -> Prop) (x y : pcb_t) : Prop :=
  p_stack y <> NULL ->
  (forall i, 0 <= i < 4 -> ~ H (p_stack y + i)) /\
  (p_stack y + 4 <= p_context x + reg_off EAX \/ p_context x + reg_off EAX + 4 <= p_stack y).

Definition freed_pcb (y : pcb_t) : pcb_t :=
  set_p_state STATE_UNUSED (if p_stack y =? NULL then y else set_p_stack NULL y).

(** [pcb_cleanup] frees the stack, if any, and the table entry. *)
Lemma pcb_cleanup_spec H n V s c x y :
  queues_hold H n V s -> pcb_at s c = Some y -> stack_apart H x y ->
  exists s', pcb_cleanup c s = Ret tt s' /\ pcb_at s' c = Some (freed_pcb y) /\
    queues_hold H n V s' /\ (forall q, q <> c -> pcb_at s' q = pcb_at s q) /\
    (forall a, (p_stack y <> NULL -> a + 4 <= p_stack y \/ p_stack y + 4 <= a) -> ld32 (st_mem s') a = ld32 (st_mem s) a).
Proof.
  intros Hq Hy Hap. pose proof (pcb_at_word _ _ _ Hy) as Hw.
  unfold pcb_cleanup. destruct (Z.eqb_spec c NULL); [unfold NULL in *; lia|].
  rewrite (bind_Ret _ _ _ _ _ (pcb_get_at s c y p_stack Hy)). unfold freed_pcb.
  assert (forall s1 z, pcb_at s1 c = Some z ->
    pcb_free c s1 = Ret tt (with_pcb c (set_p_state STATE_UNUSED z) s1)) as Hfree.
  { intros s1 z Hz. unfold pcb_free, assert. destruct (Z.eqb_spec c NULL); [done|].
    cbn [negb]. rewrite bind_ret_l. apply (pcb_set_at s1 c z _ Hz). }
  destruct (Z.eqb_spec (p_stack y) NULL) as [E|E]; cbn [negb when].
  - rewrite bind_ret_l, (Hfree s y Hy). eexists. split; [reflexivity|].
    split; [eapply pcb_at_with_eq, Hy|]. split; [now apply queues_hold_pcb|].
    split; [intros q Hqc; now apply pcb_at_with_ne|].
    intros a _. now rewrite (proj1 (with_pcb_others c _ s)).
  - destruct (Hap E) as [Hap1 Hap2].
    set (m := st32 (st_mem s) (p_stack y) (free_stacks (st_stk s))).
    set (s1 := up_stk (set_free_stacks (p_stack y)) (up_mem (fun _ => m) s)).
    assert (stk_free (p_stack y) s = Ret tt s1) as Ef.
    { unfold stk_free, assert. destruct (Z.eqb_spec (p_stack y) NULL); [done|]. reflexivity. }
    assert (pcb_at s1 c = Some y) as Hy1 by exact Hy.
    assert (pcb_at (with_pcb c (set_p_stack NULL y) s1) c = Some (set_p_stack NULL y)) as Hy2
      by (eapply pcb_at_with_eq, Hy1).
    assert ((stk_free (p_stack y) ;; pcb_set c (set_p_stack NULL)) s =
      Ret tt (with_pcb c (set_p_stack NULL y) s1)) as Es
      by (mstep Ef; apply (pcb_set_at s1 c y _ Hy1)).
    mstep Es. rewrite (Hfree _ _ Hy2). eexists. split; [reflexivity|].
    split; [eapply pcb_at_with_eq, Hy2|]. split; [do 2 apply queues_hold_pcb|split].
    + apply (queues_hold_same H n V (up_mem (fun _ => m) s)); [done|done|].
      apply queues_hold_write; [exact Hq|]. intros a Ha. apply ld8_st32_ne.
      destruct (Z_lt_le_dec a (p_stack y)); [now left|].
      destruct (Z_lt_le_dec a (p_stack y + 4)); [|now right]. exfalso.
      apply (Hap1 (a - p_stack y)); [lia|]. now replace (p_stack y + (a - p_stack y)) with a by lia.
    + intros q Hqc. now rewrite !pcb_at_with_ne by done.
    + intros a Ha. specialize (Ha E). rewrite !(proj1 (with_pcb_others c _ _)). unfold s1. ksimpl. unfold m.
      apply ld32_st32_ne. lia.
Qed.

(** The memory that [status_return] leaves: the pid in the caller's register, the status
    where the caller's argument points to, if anywhere. *)
Definition status_left (x y : pcb_t) (s : kstate) : memory :=
  let m := st32 (st_mem s) (p_context x + reg_off EAX) (p_pid y) in
  if arg_of s x 1 =? NULL then m else st32 m (arg_of s x 1) (p_status y).

(** The status word meets neither the nodes, nor the caller's result register, nor the
    word that links the freed stack. *)
Definition status_apart (H : Z -> Prop) (s : kstate) (x y : pcb_t) : Prop :=
  let ptr := arg_of s x 1 in
  ptr <> NULL ->
  (forall i, 0 <= i < 4 -> ~ H (ptr + i)) /\
  (ptr + 4 <= p_context x + reg_off EAX \/ p_context x + reg_off EAX + 4 <= ptr) /\
  (p_stack y <> NULL -> ptr + 4 <= p_stack y \/ p_stack y + 4 <= ptr).

Lemma status_return_spec s p c x y :
  pcb_at s p = Some x -> pcb_at s c = Some y ->
  status_return p c s = Ret tt (up_mem (fun _ => status_left x y s) s).
Proof.
  intros Hx Hy. pose proof (pcb_at_word _ _ _ Hx). pose proof (pcb_at_word _ _ _ Hy).
  unfold status_return, assert. destruct (Z.eqb_spec p NULL); [unfold NULL in *; lia|].
  destruct (Z.eqb_spec c NULL); [unfold NULL in *; lia|]. cbn [negb]. rewrite !bind_ret_l.
  rewrite (bind_Ret _ _ _ _ _ (pcb_get_at s c y p_pid Hy)).
  rewrite (bind_Ret _ _ _ _ _ (set_RET_at s p x _ Hx)).
  assert (pcb_at (with_ret x (p_pid y) s) p = Some x) as Hx1 by exact Hx.
  assert (pcb_at (with_ret x (p_pid y) s) c = Some y) as Hy1 by exact Hy.
  rewrite (bind_Ret _ _ _ _ _ (ARG_at _ p x 1 Hx1)).
  assert (arg_of (with_ret x (p_pid y) s) x 1 = arg_of s x 1) as ->.
  { unfold arg_of, with_ret. ksimpl. apply ld32_st32_ne. unfold SZ_CONTEXT. cbn. lia. }
  unfold status_left. destruct (arg_of s x 1 =? NULL); cbn [negb when]; [reflexivity|].
  rewrite (bind_Ret _ _ _ _ _ (pcb_get_at _ c y p_status Hy1)). reflexivity.
Qed.

Lemma status_left_inv H n V s x y :
  proc_inv H n V s -> context_apart H x -> status_apart H s x y ->
  proc_inv H n V (up_mem (fun _ => status_left x y s) s).
Proof.
  intros Hinv Hc Hst. pose proof (proc_inv_ret H n V s x (p_pid y) Hinv Hc) as Hi.
  unfold status_left, status_apart in *. destruct (Z.eqb_spec (arg_of s x 1) NULL) as [|Hn]; [exact Hi|].
  destruct (Hst Hn) as (Hp & _).
  apply (proc_inv_write H n V _ _ Hi). intros a Ha. ksimpl. apply ld8_st32_ne.
  destruct (Z_lt_le_dec a (arg_of s x 1)); [now left|].
  destruct (Z_lt_le_dec a (arg_of s x 1 + 4)); [|now right].
  exfalso. apply (Hp (a - arg_of s x 1)); [lia|]. now replace (arg_of s x 1 + (a - arg_of s x 1)) with a by lia.
Qed.

Lemma status_left_words H s x y : status_apart H s x y ->
  ld32 (status_left x y s) (p_context x + reg_off EAX) = u32 (p_pid y) /\
  (arg_of s x 1 <> NULL -> ld32 (status_left x y s) (arg_of s x 1) = u32 (p_status y)).
Proof.
  unfold status_left, status_apart. intros Hst. destruct (Z.eqb_spec (arg_of s x 1) NULL) as [|Hn].
  - split; [apply ld32_st32_u32|contradiction].
  - destruct (Hst Hn) as (_ & Hc & _). split; [rewrite ld32_st32_ne by lia|intros _]; apply ld32_st32_u32.
Qed.
End SyscallsSpec.
