(* ===== verification/SyscallsClaims.v ===== *)
(** The system calls (kernel/syscalls.c): what they do for the process that makes
    them, and where the code departs from its intent. *)

From Stdlib Require Import Sorting.Sorted.
From S2P Require Import Prelude Memory State Lib LibMem Sio Cio Frames Kmem Queues QueuesInv QueuesSpec QueuesPages QueuesClaims Stacks Procs ProcsSpec ProcsClaims Clock ClockSpec ClockClaims Syscalls SyscallsSpec.

Open Scope kernel_scope.

#[local] Existing Instance example_layout.

(** C13: [sys_sleep] with a non-zero time puts the caller to sleep: it is SLEEPING
    until the current time plus the argument, modulo 2^32, takes its place in the
    sleep queue by that time, behind those that wake no later, and the processor
    goes to the highest ready process; with no ready process the system stops.  With 0
    the caller yields: it goes, READY, to the end of the ready queue of its priority, and
    the highest ready process, perhaps itself, gets the processor. *)
Theorem sys_sleep_sleeps {L : Layout} H n V s x c l :
  running_inv H n V s -> pcb_at s (current (st_ps s)) = Some x -> V !! 3%nat = Some (c, l) ->
  let p := current (st_ps s) in
  (arg_of s x 1 <> 0 ->
   match next_process V with
   | Some (i, q, r) =>
       exists s', sys_sleep p s = Ret tt s' /\
         running_inv H n (<[i := (NULL, r)]> (<[3%nat := (c, insert_by (wakeup_of s') p l)]> V)) s' /\
         pcb_at s' p = Some (sleeping_pcb (system_time (st_clk s)) (arg_of s x 1) x) /\
         current (st_ps s') = q /\ sched_frame H s s'
   | None => exists s', sys_sleep p s = Panic "dispatch: p" s'
   end) /\
  (arg_of s x 1 = 0 ->
   exists s' i q r, sys_sleep p s = Ret tt s' /\ next_process (enqueue s V p) = Some (i, q, r) /\
     running_inv H n (<[i := (NULL, r)]> (enqueue s V p)) s' /\ current (st_ps s') = q /\ sched_frame H s s' /\
     (q <> p -> pcb_at s' p = Some (set_p_state STATE_READY x)) /\
     forall z, z <> p -> z <> q -> pcb_at s' z = pcb_at s z).
Proof.
  intros [Hinv (y & Hy & _ & Hv & _) Hout] Hx Hi p. fold p in Hx, Hy, Hout.
  rewrite Hx in Hy. injection Hy as <-. split.
  2: { intros E0. destruct (yield_spec H n V s p x Hinv Hx Hout Hv) as (s' & i & q & r & E & Hn & Hc & Hrun & Hf & Hp & Ho & _).
       exists s', i, q, r. split; [|repeat (split; [done|]); done]. pose proof (pcb_at_word _ _ _ Hx) as Hpw.
       unfold sys_sleep, assert. destruct (Z.eqb_spec p NULL); [unfold NULL in *; lia|]. cbn [negb].
       rewrite bind_ret_l, (bind_Ret _ _ _ _ _ (ARG_at s p x 1 Hx)), E0. exact E. }
  intros Harg.
  destruct (sys_sleep_insert _ _ _ _ _ _ _ _ Hinv Hx Hv Hout Hi Harg)
    as (s1 & n1 & E & -> & Hinv1 & Hx1 & Hs1 & Hf1).
  set (V1 := <[3%nat := (c, insert_by (wakeup_of s1) p l)]> V) in *.
  assert (next_process V1 = next_process V) as En
    by (unfold next_process, V1; now rewrite take_insert_ge by lia).
  destruct (next_process V) as [[[i q] r]|].
  - destruct (dispatch_running _ _ _ _ _ _ _ Hinv1 En) as (s2 & y & E2 & Hrun & Hy & Hy2 & Hs2 & Hf2 & Hc).
    assert (q <> p) as Hqp.
    { intros ->. destruct (next_process_Some _ _ _ _ _ _ _ Hinv1 En) as (Hi3 & HV & _).
      unfold V1 in HV. rewrite list_lookup_insert_ne in HV by lia.
      apply Hout. eapply queued_elem; [exact HV|left]. }
    exists s2. split; [now rewrite E|]. split; [|split; [|split; [exact Hc|eapply sched_frame_trans; eassumption]]].
    + rewrite (insert_by_ext (wakeup_of s1)); [exact Hrun|]. intros z _. unfold wakeup_of.
      destruct (Z.eq_dec z q) as [->|Hz]; [now rewrite Hy, Hy2|now rewrite Hs2].
    + rewrite Hs2 by (intros E'; now apply Hqp). exact Hx1.
  - exists s1. rewrite E. now apply (dispatch_none H n1 V1).
Qed.

(** ** Examples: pid 1 runs, pid 2 is ready at STD and pid 3 at HIGH; the
    contexts are at address 0, with the words of [args] above it *)

Definition call_example (args : memory -> memory) : kstate :=
  up_mem (fun _ => args (st_mem ready_example)) ready_example.

Definition ready_queues : list (Z * list Z) :=
  <[0%nat := (NULL, [pcb_addr 2])]> (<[1%nat := (NULL, [pcb_addr 1])]> proc_queues).

Lemma ready_example_ps :
  st_ps ready_example = Procs [que_addr 0; que_addr 1; que_addr 2] (que_addr 3) (que_addr 4)
    (que_addr 5) (que_addr 6) (pcb_addr 0)
    ([example_pcb 1 STATE_RUNNING 0 0; example_pcb 2 STATE_READY 1 0; example_pcb 3 STATE_READY 0 0]
       ++ replicate 22 pcb0) 4 (pcb_addr 0).
Proof. vm_compute. reflexivity. Qed.

Lemma ready_example_running : exists n, running_inv example_region n ready_queues ready_example.
Proof.
  destruct ready_example_inv as (n & Hinv). exists n. pose proof ready_example_ps as Hps.
  revert Hinv Hps. generalize ready_example as s. intros s Hinv Hps.
  split; [exact Hinv| |].
  - exists (example_pcb 1 STATE_RUNNING 0 0). unfold pcb_at. rewrite Hps.
    split; [reflexivity|]. split; [reflexivity|]. unfold valid_prio. cbn. lia.
  - rewrite Hps.
    assert (queued ready_queues = [pcb_addr 2; pcb_addr 1]) as -> by (vm_compute; reflexivity).
    intros [E|[E|E%elem_of_nil]%elem_of_cons]%elem_of_cons; [now apply pcb_addr_inj in E..|done].
Qed.

Lemma call_example_running args :
  agree example_region (st_mem ready_example) (args (st_mem ready_example)) ->
  exists n, running_inv example_region n ready_queues (call_example args).
Proof.
  intros Hag. destruct ready_example_running as (n & Hrun). exists n. unfold call_example.
  revert Hag Hrun. generalize ready_example as s. intros s Hag Hrun. now apply running_inv_write.
Qed.

Lemma call_example_others args :
  st_ps (call_example args) = st_ps ready_example /\
  st_clk (call_example args) = st_clk ready_example /\
  st_sio (call_example args) = st_sio ready_example /\
  st_mem (call_example args) = args (st_mem ready_example).
Proof. unfold call_example. generalize ready_example as s. intros s. repeat split. Qed.

(** Process 1 sleeps for 20 ticks, or yields to process 3, which has the higher queue. *)
Lemma sys_sleep_sleeps_witness :
  (let s := call_example (fun m => st32 m 76 20) in
   exists s', sys_sleep (pcb_addr 0) s = Ret tt s' /\ current (st_ps s') = pcb_addr 2 /\
     pcb_at s' (pcb_addr 0) = Some (sleeping_pcb 0 20 (example_pcb 1 STATE_RUNNING 0 0))) /\
  (let s := call_example (fun m => st32 m 76 0) in
   exists s', sys_sleep (pcb_addr 0) s = Ret tt s' /\ current (st_ps s') = pcb_addr 2 /\
     pcb_at s' (pcb_addr 0) = Some (example_pcb 1 STATE_READY 0 0)).
Proof.
  assert (forall v, 0 <= v < 2 ^ 32 -> let s := call_example (fun m => st32 m 76 v) in
    arg_of s (example_pcb 1 STATE_RUNNING 0 0) 1 = v /\ st_ps s = st_ps ready_example /\
    exists n, running_inv example_region n ready_queues s) as Hs.
  { intros v Hv s. destruct (call_example_others (fun m => st32 m 76 v)) as (Hps & _ & _ & Hm). fold s in Hps, Hm.
    split; [unfold arg_of; rewrite Hm; now apply ld32_st32_eq|]. split; [exact Hps|].
    apply call_example_running, low_write. lia. }
  split.
  - destruct (Hs 20 ltac:(lia)) as (Harg & Hps & n & Hrun). set (s := call_example _) in *. cbv zeta.
    assert (system_time (st_clk s) = 0) as Ht by (vm_compute; reflexivity).
    assert (current (st_ps s) = pcb_addr 0) as Hc by (rewrite Hps, ready_example_ps; reflexivity).
    destruct (sys_sleep_sleeps _ _ _ _ (example_pcb 1 STATE_RUNNING 0 0) comp_wakeup_addr [] Hrun) as [Hw _].
    + unfold pcb_at. rewrite Hps, ready_example_ps. reflexivity.
    + reflexivity.
    + rewrite Harg, Ht, Hc in Hw. destruct (Hw ltac:(lia)) as (s' & E & _ & Hx & Hc' & _). exists s'. exact (conj E (conj Hc' Hx)).
  - destruct (Hs 0 ltac:(lia)) as (Harg & Hps & n & Hrun). set (s := call_example _) in *. cbv zeta.
    assert (current (st_ps s) = pcb_addr 0) as Hc by (rewrite Hps, ready_example_ps; reflexivity).
    destruct (sys_sleep_sleeps _ _ _ _ (example_pcb 1 STATE_RUNNING 0 0) comp_wakeup_addr [] Hrun) as [_ Hw].
    + unfold pcb_at. rewrite Hps, ready_example_ps. reflexivity.
    + reflexivity.
    + rewrite Harg, Hc in Hw. destruct (Hw eq_refl) as (s' & i & q & r & E & Hn & _ & Hq & _ & Hp & _).
      assert (enqueue s ready_queues (pcb_addr 0) = <[0%nat := (NULL, [pcb_addr 2; pcb_addr 0])]> ready_queues) as Een
        by (unfold enqueue, pcb_at; rewrite Hps, ready_example_ps; reflexivity).
      rewrite Een in Hn. injection Hn as <- <- <-. exists s'. split; [exact E|]. split; [exact Hq|].
      apply Hp. intros E'. now apply pcb_addr_inj in E'.
Defined.

(** C18: a process that exits without children, while its parent is another process and
    is not waiting for it, and another process is ready: it becomes a ZOMBIE with its exit
    status recorded, joins the queue of the zombies, and the processor goes to the highest
    ready process. *)
Theorem sys_exit_zombifies {L : Layout} H n V s x y l i q r :
  running_inv H n V s -> pcb_at s (current (st_ps s)) = Some x ->
  pcb_at s (p_parent x) = Some y -> p_parent x <> current (st_ps s) ->
  p_state y <> STATE_UNUSED -> p_state y <> STATE_WAITING ->
  childless s (current (st_ps s)) -> V !! 4%nat = Some (NULL, l) ->
  next_process V = Some (i, q, r) ->
  let p := current (st_ps s) in
  exists s', sys_exit p s = Ret tt s' /\
    running_inv H n (<[i := (NULL, r)]> (<[4%nat := (NULL, l ++ [p])]> V)) s' /\
    pcb_at s' p = Some (set_p_state STATE_ZOMBIE (set_p_status (s32 (arg_of s x 1)) x)) /\
    current (st_ps s') = q /\ sched_frame H s s'.
Proof.
  intros [Hinv (x0 & Hx0 & Hst & Hv & _) Hout] Hx Hy Hne Hu Hw Hno H4 Hnext p.
  fold p in Hx, Hx0, Hout, Hne, Hno. rewrite Hx in Hx0. injection Hx0 as <-.
  set (x1 := set_p_status (s32 (arg_of s x 1)) x). set (s1 := with_pcb p x1 s).
  set (x2 := set_p_state STATE_ZOMBIE x1). set (s2 := with_pcb p x2 s1).
  assert (pcb_at s1 p = Some x1) as Hx1 by (eapply pcb_at_with_eq, Hx).
  assert (pcb_at s2 p = Some x2) as Hx2 by (eapply pcb_at_with_eq, Hx1).
  assert (proc_inv H n V s2) as Hinv2 by (apply proc_inv_pcb; [apply proc_inv_pcb|]; assumption).
  assert (pcb_at s1 (p_parent x) = Some y) as Hy1 by (unfold s1; now rewrite pcb_at_with_ne).
  destruct (enqueue_fifo H n V s2 4 p x2 l Hinv2 H4 Hx2) as (s3 & n3 & E3 & -> & Hinv3 & Hf3).
  { split; [reflexivity|]. split; [exact Hv|lia]. }
  { exact Hout. }
  set (V3 := <[4%nat := (NULL, l ++ [p])]> V) in *.
  assert (next_process V3 = Some (i, q, r)) as Hn3
    by (unfold next_process, V3; rewrite take_insert_ge by lia; exact Hnext).
  destruct (dispatch_running _ _ _ _ _ _ _ Hinv3 Hn3) as (s4 & z & E4 & Hrun & _ & _ & Hs4 & Hf4 & Hc).
  destruct (que_frame_others _ _ _ Hf3) as (_ & _ & Hps3 & _).
  assert (q <> p) as Hqp.
  { intros ->. destruct (next_process_Some _ _ _ _ _ _ _ Hinv Hnext) as (Hi3 & HV & _).
    apply Hout. eapply queued_elem; [exact HV|left]. }
  exists s4. split; [|split; [exact Hrun|split; [|split; [exact Hc|]]]].
  - now apply (sys_exit_run H (S n3) V s p x y s3 s4 Hinv).
  - rewrite Hs4 by (intros E'; now apply Hqp). unfold pcb_at. rewrite Hps3. exact Hx2.
  - eapply sched_frame_trans; [|exact Hf4]. eapply sched_frame_trans; [|apply sched_frame_que, Hf3].
    eapply sched_frame_trans; apply sched_frame_pcb.
Qed.

(** Pid 2 runs, its parent init is blocked, pid 3 is ready. *)
Definition exit_table : list pcb_t :=
  [example_pcb 1 STATE_BLOCKED 0 0; example_pcb 2 STATE_RUNNING 1 0; example_pcb 3 STATE_NEW 0 0]
    ++ replicate 22 pcb0.
Definition exit_example : kstate := final (schedule (pcb_addr 2)) (proc_example exit_table (pcb_addr 1)).
Definition exit_queues : list (Z * list Z) := <[0%nat := (NULL, [pcb_addr 2])]> proc_queues.

Lemma exit_example_ps :
  st_ps exit_example = Procs [que_addr 0; que_addr 1; que_addr 2] (que_addr 3) (que_addr 4)
    (que_addr 5) (que_addr 6) (pcb_addr 1)
    ([example_pcb 1 STATE_BLOCKED 0 0; example_pcb 2 STATE_RUNNING 1 0; example_pcb 3 STATE_READY 0 0]
       ++ replicate 22 pcb0) 4 (pcb_addr 0).
Proof. vm_compute. reflexivity. Qed.

Lemma exit_example_inv : exists n, proc_inv example_region n exit_queues exit_example.
Proof.
  destruct (schedule_spec _ _ _ _ (pcb_addr 2) (example_pcb 3 STATE_NEW 0 0) []
    (proc_example_inv exit_table (pcb_addr 1) eq_refl)) as (s1 & n1 & E1 & _ & Hinv1 & _);
    [reflexivity| | |reflexivity|].
  { assert (queued proc_queues = []) as -> by (vm_compute; reflexivity). apply not_elem_of_nil. }
  { unfold valid_prio. cbn. lia. }
  exists n1. unfold exit_example. rewrite (final_Ret _ _ _ _ E1). exact Hinv1.
Qed.

Lemma exit_example_running : exists n, running_inv example_region n exit_queues exit_example.
Proof.
  destruct exit_example_inv as (n & Hinv). exists n. pose proof exit_example_ps as Hps.
  revert Hinv Hps. generalize exit_example as s. intros s Hinv Hps. split; [exact Hinv| |].
  - exists (example_pcb 2 STATE_RUNNING 1 0). unfold pcb_at. rewrite Hps.
    split; [reflexivity|]. split; [reflexivity|]. unfold valid_prio. cbn. lia.
  - rewrite Hps. assert (queued exit_queues = [pcb_addr 2]) as -> by (vm_compute; reflexivity).
    intros E%list_elem_of_singleton. now apply pcb_addr_inj in E.
Qed.

Lemma sys_exit_zombifies_witness :
  exists s', sys_exit (pcb_addr 1) exit_example = Ret tt s' /\ current (st_ps s') = pcb_addr 2.
Proof.
  destruct exit_example_running as (n & Hrun). pose proof exit_example_ps as Hps.
  assert (current (st_ps exit_example) = pcb_addr 1) as Hc by (rewrite Hps; reflexivity).
  pose proof (sys_exit_zombifies _ _ _ _ (example_pcb 2 STATE_RUNNING 1 0) (example_pcb 1 STATE_BLOCKED 0 0)
    [] 0%nat (pcb_addr 2) [] Hrun) as Hw. rewrite Hc in Hw.
  destruct Hw as (s' & E & _ & _ & Hq & _).
  - unfold pcb_at. rewrite Hps. reflexivity.
  - unfold pcb_at. rewrite Hps. reflexivity.
  - intros E. change (pcb_addr 0 = pcb_addr 1) in E. now apply pcb_addr_inj in E.
  - done.
  - done.
  - intros j y Hy. rewrite Hps in Hy. ksimpl in Hy.
    do 25 (destruct j as [|j]; [injection Hy as <-; reflexivity|]). discriminate Hy.
  - reflexivity.
  - reflexivity.
  - exists s'. exact (conj E Hq).
Defined.

(** A process that reads from the serial device when nothing has been received
    should block until input arrives; instead the system stops: the code inserts
    the process into the queue of the waiting readers and then asserts that the
    insertion failed. *)
Theorem sys_read_sio_panics {L : Layout} H n V s x l :
  running_inv H n V s -> pcb_at s (current (st_ps s)) = Some x -> V !! 6%nat = Some (NULL, l) ->
  arg_of s x 1 = CHAN_SIO -> arg_of s x 3 <> 0 -> incount (st_sio s) < 1 ->
  let p := current (st_ps s) in
  exists s' n', sys_read p s = Panic "sys_read: que_insert" s' /\
    proc_inv H n' (<[6%nat := (NULL, l ++ [p])]> V) s'.
Proof.
  intros [Hinv (x0 & Hx0 & _ & Hv & _) Hout] Hx H6 Hchan Hlen Hin p.
  fold p in Hx, Hx0, Hout. rewrite Hx in Hx0. injection Hx0 as <-.
  set (x1 := set_p_state STATE_BLOCKED x). set (s1 := with_pcb p x1 s).
  assert (pcb_at s1 p = Some x1) as Hx1 by (eapply pcb_at_with_eq, Hx).
  assert (proc_inv H n V s1) as Hinv1 by (apply proc_inv_pcb; assumption).
  destruct (enqueue_fifo H n V s1 6 p x1 l Hinv1 H6 Hx1) as (s2 & n2 & E2 & _ & Hinv2 & _);
    [split; [reflexivity|split; [exact Hv|lia]]|exact Hout|].
  exists s2, n2. split; [|exact Hinv2]. pose proof (pcb_at_word _ _ _ Hx) as Hpw.
  unfold sys_read, assert. destruct (Z.eqb_spec p NULL); [unfold NULL in *; lia|]. cbn [negb].
  rewrite bind_ret_l, !(bind_Ret _ _ _ _ _ (ARG_at s p x _ Hx)), Hchan.
  destruct (Z.eqb_spec (arg_of s x 3) 0); [done|]. change (CHAN_SIO =? CHAN_CIO) with false.
  change (CHAN_SIO =? CHAN_SIO) with true. cbv iota.
  assert (sio_read (arg_of s x 2) (s32 (arg_of s x 3)) s = Ret 0 s) as Er.
  { unfold sio_read, sio, gets. erewrite bind_Ret by reflexivity.
    destruct (Z.ltb_spec (incount (st_sio s)) 1); [reflexivity|lia]. }
  mstep Er. change (0 <? 1) with true. cbv iota.
  rewrite (bind_Ret _ _ _ _ _ (pcb_set_at s p x _ Hx)). fold x1 s1.
  unfold ps, gets. erewrite bind_Ret by reflexivity.
  assert (sioread (st_ps s1) = que_addr 6) as -> by (apply (pi_handles _ _ _ _ Hinv1)).
  change (que_addr 6) with (que_addr (Z.of_nat 6)). mstep E2. reflexivity.
Qed.

Lemma sys_read_sio_panics_witness :
  let s := call_example (fun m => st32 (st32 m 76 CHAN_SIO) 84 16) in
  exists s', sys_read (pcb_addr 0) s = Panic "sys_read: que_insert" s'.
Proof.
  intros s. destruct (call_example_running (fun m => st32 (st32 m 76 CHAN_SIO) 84 16)) as (n & Hrun).
  { etransitivity; apply low_write; lia. }
  destruct (call_example_others (fun m => st32 (st32 m 76 CHAN_SIO) 84 16)) as (Hps & _ & Hsio & Hm).
  fold s in Hrun, Hps, Hsio, Hm.
  assert (current (st_ps s) = pcb_addr 0) as Hc by (rewrite Hps, ready_example_ps; reflexivity).
  pose proof (sys_read_sio_panics _ _ _ _ (example_pcb 1 STATE_RUNNING 0 0) [] Hrun) as Hw.
  rewrite Hc in Hw. destruct Hw as (s' & n' & E & _).
  - unfold pcb_at. rewrite Hps, ready_example_ps. reflexivity.
  - reflexivity.
  - unfold arg_of. rewrite Hm. change (p_context _ + SZ_CONTEXT + 4 * 1) with 76.
    rewrite ld32_st32_ne by lia. apply ld32_st32_eq. unfold CHAN_SIO. lia.
  - unfold arg_of. rewrite Hm. change (p_context _ + SZ_CONTEXT + 4 * 3) with 84.
    rewrite ld32_st32_eq; lia.
  - rewrite Hsio. vm_compute. reflexivity.
  - exists s'. exact E.
Defined.

(** [sys_getprio] answers the caller's own priority for pid 0 and for the
    caller's pid, and another process' priority for its pid; but when no process
    has the pid it reads through a NULL pointer instead of answering
    S_NOT_FOUND, and for init (asked by another process) it stops the system. *)
Theorem sys_getprio_cases {L : Layout} s p x :
  pcb_at s p = Some x -> length (ptable (st_ps s)) = 25%nat -> p_state x <> STATE_UNUSED ->
  let pid := s32 (arg_of s x 1) in
  (pid = 0 \/ pid = p_pid x -> sys_getprio p s = Ret tt (with_ret x (p_priority x) s)) /\
  (pid <> 0 -> pid <> p_pid x -> pid < FIRST_USER_PID ->
     sys_getprio p s = Panic "pcb_find_pid: pid" s) /\
  (pid <> 0 -> pid <> p_pid x -> FIRST_USER_PID <= pid ->
     (exists q y, pcb_at s q = Some y /\ p_pid y = pid /\ p_state y <> STATE_UNUSED /\
        sys_getprio p s = Ret tt (with_ret x (p_priority y) s)) \/
     (Forall (fun y => p_pid y <> pid \/ p_state y = STATE_UNUSED) (ptable (st_ps s)) /\
        sys_getprio p s = Undef "dereference of a bad pcb pointer" s)).
Proof.
  intros Hx Hlen Hst pid. pose proof (pcb_at_word _ _ _ Hx) as Hpw.
  assert (sys_getprio p s =
    (if (pid =? 0) || (pid =? p_pid x) then set_RET p (p_priority x)
     else q <- pcb_find_pid pid ;; prio <- pcb_get q p_priority ;; set_RET p prio) s) as E.
  { unfold sys_getprio, assert. destruct (Z.eqb_spec p NULL); [unfold NULL in *; lia|].
    cbn [negb]. rewrite bind_ret_l, (bind_Ret _ _ _ _ _ (ARG_at s p x 1 Hx)).
    rewrite (bind_Ret _ _ _ _ _ (pcb_get_at s p x p_pid Hx)). fold pid.
    destruct ((pid =? 0) || (pid =? p_pid x)).
    - now rewrite (bind_Ret _ _ _ _ _ (pcb_get_at s p x p_priority Hx)).
    - unfold bind at 1 4. destruct (pcb_find_pid pid s) as [q s1| | |] eqn:Ef; try reflexivity.
      assert (s1 = s) as -> by (eapply find_pid_same; eassumption).
      rewrite (bind_Ret _ _ _ _ _ (pcb_get_at s p x p_state Hx)).
      destruct (Z.eqb_spec (p_state x) STATE_UNUSED); [done|]. reflexivity. }
  split; [|split].
  - intros Hp. rewrite E. replace ((pid =? 0) || (pid =? p_pid x)) with true.
    + now apply set_RET_at.
    + symmetry. apply orb_true_iff. rewrite !Z.eqb_eq. exact Hp.
  - intros H0 Hme Hlt. rewrite E. destruct (Z.eqb_spec pid 0), (Z.eqb_spec pid (p_pid x)); try done.
    cbn [orb]. unfold pcb_find_pid, assert. destruct (Z.leb_spec FIRST_USER_PID pid); [lia|]. reflexivity.
  - intros H0 Hme Hge. rewrite E. destruct (Z.eqb_spec pid 0), (Z.eqb_spec pid (p_pid x)); try done.
    cbn [orb]. destruct (find_pid_cases s pid Hlen Hge) as [(i & y & Hy & Hpid & Hu & _ & Ef)|[Hall Ef]].
    + left. assert (pcb_at s (pcb_addr (Z.of_nat i)) = Some y) as Hq.
      { pose proof (lookup_lt_Some _ _ _ Hy). unfold pcb_at. rewrite pcb_slot_addr by lia.
        now rewrite Nat2Z.id. }
      exists (pcb_addr (Z.of_nat i)), y. split; [exact Hq|]. split; [exact Hpid|]. split; [exact Hu|].
      mstep Ef. rewrite (bind_Ret _ _ _ _ _ (pcb_get_at s _ y p_priority Hq)). now apply set_RET_at.
    + right. split; [exact Hall|]. mstep Ef. unfold pcb_get, get_pcb, bind.
      assert (pcb_slot NULL = None) as ->; [|reflexivity].
      destruct (pcb_slot NULL) as [k|] eqn:Ek; [|done]. apply pcb_slot_Some in Ek as [Ek Hk].
      pose proof (pcb_addr_nonnull k). unfold NULL in Ek. lia.
Qed.

Lemma sys_getprio_cases_witness :
  let s := call_example (fun m => st32 m 76 9) in
  sys_getprio (pcb_addr 0) s = Undef "dereference of a bad pcb pointer" s.
Proof.
  intros s. destruct (call_example_others (fun m => st32 m 76 9)) as (Hps & _ & _ & Hm).
  fold s in Hps, Hm. rewrite ready_example_ps in Hps.
  assert (s32 (arg_of s (example_pcb 1 STATE_RUNNING 0 0) 1) = 9) as Harg.
  { unfold arg_of. rewrite Hm. change (p_context _ + SZ_CONTEXT + 4 * 1) with 76.
    rewrite ld32_st32_eq by lia. reflexivity. }
  destruct (sys_getprio_cases s (pcb_addr 0) (example_pcb 1 STATE_RUNNING 0 0)) as (_ & _ & Hc).
  - unfold pcb_at. rewrite Hps. reflexivity.
  - rewrite Hps. reflexivity.
  - done.
  - rewrite Harg in Hc. destruct (Hc ltac:(done) ltac:(done) ltac:(done)) as [(q & y & Hy & Hpid & _)|[_ E]];
      [|exact E].
    exfalso. destruct (pcb_at_addr _ _ _ Hy) as (i & -> & Hi & Ht). rewrite Hps in Ht. ksimpl in Ht.
    revert Ht. generalize (Z.to_nat i) as j. intros j Ht.
    do 25 (destruct j as [|j]; [injection Ht as <-; discriminate Hpid|]). discriminate Ht.
Defined.

(** C25: [sys_wait] reaps the first zombie among the caller's children: the caller
    gets its pid and, where its argument points to (unless that is NULL), its exit
    status; the child's entry in the process table becomes free.  But the child is not
    taken out of the queue of the zombies: the queue then holds the address of a free
    entry, which breaks the process invariant.  The words written (the result register,
    the status, the link of the freed stack) are apart from each other and from the
    nodes of the queues. *)
Theorem sys_wait_leaves_zombie {L : Layout} H n V s p x (j : nat) y l :
  proc_inv H n V s -> pcb_at s p = Some x -> context_apart H x ->
  first_pcb (zombie_child p) (ptable (st_ps s)) j y ->
  V !! 4%nat = Some (NULL, l) -> pcb_addr (Z.of_nat j) ∈ l ->
  stack_apart H x y -> status_apart H s x y ->
  exists s', sys_wait p s = Ret tt s' /\
    ld32 (st_mem s') (p_context x + reg_off EAX) = u32 (p_pid y) /\
    (arg_of s x 1 <> NULL -> ld32 (st_mem s') (arg_of s x 1) = u32 (p_status y)) /\
    pcb_at s' (pcb_addr (Z.of_nat j)) = Some (freed_pcb y) /\
    queues_hold H n V s' /\ forall n', ~ proc_inv H n' V s'.
Proof.
  intros Hinv Hx Hctx Hf H4 Hin Hap Hst. pose proof (pcb_at_word _ _ _ Hx) as Hpw.
  set (c := pcb_addr (Z.of_nat j)) in *. pose proof (pi_table _ _ _ _ Hinv) as Hlen.
  pose proof Hf as (Hy & _). pose proof (lookup_lt_Some _ _ _ Hy) as Hj. rewrite Hlen in Hj.
  assert (pcb_at s c = Some y) as Hyc.
  { unfold pcb_at, c. rewrite pcb_slot_addr by lia. now rewrite Nat2Z.id. }
  destruct (wait_scan p s j y 0 0 Hlen Hf ltac:(lia) ltac:(lia)) as (k & _ & Es).
  pose proof (status_left_inv H n V s x y Hinv Hctx Hst) as Hinv1.
  destruct (status_left_words H s x y Hst) as [Wr Ws].
  pose proof (status_return_spec s p c x y Hx Hyc) as Er. revert Hinv1 Wr Ws Er.
  generalize (status_left x y s) as m1. intros m1 Hinv1 Wr Ws Er. set (s1 := up_mem (fun _ => m1) s) in *.
  destruct (pcb_cleanup_spec H n V s1 c x y (pi_queues _ _ _ _ Hinv1) Hyc Hap)
    as (s2 & E2 & Hy2 & Hq2 & _ & Hm2).
  exists s2. split; [|split; [|split; [|split; [exact Hy2|split; [exact Hq2|]]]]].
  - unfold sys_wait, assert. destruct (Z.eqb_spec p NULL); [unfold NULL in *; lia|]. cbn [negb].
    rewrite bind_ret_l. change (loop _ _) with (loop (wait_body p) (Z.of_nat 0, 0)).
    erewrite bind_Ret; [|eapply loop_intro; [|exact Es]; lia].
    pose proof (pcb_addr_nonnull (Z.of_nat j)) as Hnn. fold c in Hnn |- *. cbv iota beta.
    destruct (Z.eqb_spec c NULL); [unfold NULL in *; lia|]. cbn [negb].
    rewrite (bind_Ret _ _ _ _ _ Er). exact E2.
  - rewrite Hm2; [exact Wr|]. intros Hn. destruct (Hap Hn) as [_ ?]. lia.
  - intros Hn. rewrite Hm2; [exact (Ws Hn)|]. exact (proj2 (proj2 (Hst Hn))).
  - intros n' Hinv'. destruct (pi_members _ _ _ _ Hinv' 4%nat NULL l c H4 Hin) as (z & Hz & Hfit & _).
    rewrite Hy2 in Hz. injection Hz as <-. unfold freed_pcb in Hfit. discriminate Hfit.
Qed.

(** Init runs and asks for the status at 0x800; its child, pid 2, is a zombie with the
    status 7. *)
Definition zombie_two : pcb_t := set_p_status 7 (example_pcb 2 STATE_ZOMBIE 1 0).
Definition wait_table : list pcb_t := [example_pcb 1 STATE_RUNNING 0 0; zombie_two] ++ replicate 23 pcb0.
Definition wait_before : kstate :=
  final (que_insert (que_addr (Z.of_nat 4)) (pcb_addr 1)) (proc_example wait_table (pcb_addr 0)).
Definition wait_example : kstate := up_mem (fun _ => st32 (st_mem wait_before) 76 0x800) wait_before.
Definition wait_queues : list (Z * list Z) := <[4%nat := (NULL, [pcb_addr 1])]> proc_queues.

Lemma wait_example_ps :
  st_ps wait_example = st_ps (proc_example wait_table (pcb_addr 0)) /\ ld32 (st_mem wait_example) 76 = 0x800.
Proof. split; vm_compute; reflexivity. Qed.

Lemma wait_example_inv : exists n, proc_inv example_region n wait_queues wait_example.
Proof.
  assert (queued proc_queues = []) as Hnil by (vm_compute; reflexivity).
  destruct (enqueue_fifo _ _ _ _ 4 (pcb_addr 1) zombie_two []
    (proc_example_inv wait_table (pcb_addr 0) eq_refl)) as (s1 & n1 & E1 & _ & Hinv1 & _);
    [reflexivity|reflexivity|unfold fits, valid_prio; cbn; repeat split; lia|rewrite Hnil; apply not_elem_of_nil|].
  exists n1. unfold wait_example, wait_before. rewrite (final_Ret _ _ _ _ E1).
  apply proc_inv_write; [exact Hinv1|]. apply low_write. lia.
Qed.

Lemma sys_wait_leaves_zombie_witness :
  exists s', sys_wait (pcb_addr 0) wait_example = Ret tt s' /\
    ld32 (st_mem s') (reg_off EAX) = 2 /\ ld32 (st_mem s') 0x800 = 7 /\ exists n, queues_hold example_region n wait_queues s'.
Proof.
  destruct wait_example_inv as (n & Hinv). destruct wait_example_ps as (Hps & Hm).
  assert (arg_of wait_example (example_pcb 1 STATE_RUNNING 0 0) 1 = 0x800) as Harg by exact Hm.
  destruct (sys_wait_leaves_zombie _ _ _ _ (pcb_addr 0) (example_pcb 1 STATE_RUNNING 0 0) 1%nat
    zombie_two [pcb_addr 1] Hinv) as (s' & E & Hr & Hs & _ & Hq & _).
  - unfold pcb_at. rewrite Hps. reflexivity.
  - intros i Hi Hreg%example_region_high. cbn in Hreg. unfold SZ_CONTEXT in Hi. lia.
  - split; [rewrite Hps; reflexivity|]. split; [reflexivity|]. intros j y Hj Hy.
    destruct j as [|j]; [|lia]. rewrite Hps in Hy. injection Hy as <-. reflexivity.
  - reflexivity.
  - left.
  - intros []. reflexivity.
  - unfold status_apart. rewrite Harg. intros _. split; [|split; [cbn; lia|intros []; reflexivity]].
    intros i Hi Hreg%example_region_high. lia.
  - rewrite Harg in Hs. exists s'. split; [exact E|]. split; [exact Hr|]. split; [exact (Hs ltac:(discriminate))|].
    exists n. exact Hq.
Defined.
