(* ===== verification/CreateSpec.v ===== *)
(** kernel/syscalls.c: creating and replacing a program: what fork and exec do to
    the stacks, the memory and the process system. *)

From S2P Require Import Prelude Memory State Lib LibMem Sio Cio Frames Kmem KmemInv KmemSpec Queues QueuesInv QueuesSpec QueuesPages Stacks StacksSpec Procs ProcsSpec Clock ClockSpec Syscalls SyscallsSpec.

Open Scope kernel_scope.

(** ** Stacks from the list of free ones *)

Definition stack_bytes : nat := Z.to_nat SZ_STACK.

Lemma stack_bytes_size : Z.of_nat stack_bytes = SZ_STACK.
Proof. apply Z2Nat.id. unfold SZ_STACK, STACK_PAGES, SZ_PAGE. lia. Qed.
#[global] Opaque stack_bytes.

Definition cleared (m : memory) (f : Z) : memory := st_bytes m f (replicate stack_bytes 0).

(** A region that can be a stack. *)
Definition stack_region (f : Z) : Prop := f <> NULL /\ 0 <= f /\ f + SZ_STACK < 2 ^ 32.
Definition in_stack (f a : Z) : Prop := f <= a < f + SZ_STACK.

Lemma cleared_out m f a : ~ in_stack f a -> ld8 (cleared m f) a = ld8 m a.
Proof.
  unfold in_stack, cleared. intros H. rewrite ld8_st_bytes_out; [done|]. rewrite length_replicate, stack_bytes_size. lia.
Qed.

Lemma apart_stack f a n : 0 <= n ->
  (forall i, 0 <= i <= n -> ~ in_stack f (a + i)) -> a + n < f \/ f + SZ_STACK <= a.
Proof.
  unfold in_stack. intros Hn H. destruct (Z_lt_le_dec a f).
  - left. destruct (Z_lt_le_dec (a + n) f); [done|]. destruct (H (f - a)); [lia|].
    unfold SZ_STACK, STACK_PAGES, SZ_PAGE. lia.
  - right. pose proof (H 0 ltac:(lia)). lia.
Qed.

(** The state with the first free stack taken from the list. *)
Definition recycled (s : kstate) : kstate :=
  let f := free_stacks (st_stk s) in
  up_mem (fun m => cleared m f) (up_stk (set_free_stacks (ld32 (st_mem s) f)) s).

Lemma stk_alloc_recycled s f :
  free_stacks (st_stk s) = f -> stack_region f -> stk_alloc s = Ret (E_SUCCESS, Some f) (recycled s).
Proof.
  intros Hf (Hn & H0 & H1). unfold stk_alloc. unfold stk at 1, gets.
  erewrite bind_Ret by reflexivity. rewrite Hf. destruct (Z.eqb_spec f NULL); [done|].
  rewrite bind_assoc, run_load32.
  erewrite bind_Ret by (erewrite bind_Ret by reflexivity; reflexivity).
  destruct (Z.eqb_spec f NULL); [done|]. cbn [negb]. rewrite <- stack_bytes_size in *.
  rewrite (bind_Ret _ _ _ _ _ (memclr_eq f stack_bytes _ H0 H1)). unfold recycled. now rewrite Hf.
Qed.

(** ** A stack from the page allocator *)

Lemma stack_pages_size : SZ_PAGE * STACK_PAGES = SZ_STACK.
Proof. reflexivity. Qed.

Lemma up_mem_const f s : up_mem f s = up_mem (fun _ => f (st_mem s)) s.
Proof. reflexivity. Qed.

Lemma stk_alloc_page s b s1 :
  free_stacks (st_stk s) = NULL -> km_page_alloc STACK_PAGES s = Ret b s1 -> b <> NULL -> 0 <= b -> b + SZ_STACK < 2 ^ 32 ->
  stk_alloc s = Ret (E_SUCCESS, Some b) (up_mem (fun _ => cleared (st_mem s1) b) s1).
Proof.
  intros Hf E1 Hn H0 H1. unfold stk_alloc. unfold stk at 1, gets. erewrite bind_Ret by reflexivity.
  rewrite Hf, Z.eqb_refl. mstep E1. destruct (Z.eqb_spec b NULL); [done|]. cbn [negb].
  rewrite <- stack_bytes_size in *. rewrite (bind_Ret _ _ _ _ _ (memclr_eq b stack_bytes s1 H0 H1)), up_mem_const. reflexivity.
Qed.

Lemma stk_alloc_fresh l b l' s :
  free_stacks (st_stk s) = NULL -> km_inv l s -> first_fit STACK_PAGES l = Some (b, l') ->
  exists s', stk_alloc s = Ret (E_SUCCESS, Some b) s' /\ km_inv l' s' /\ km_frame (in_blocks l) s s' /\
    KM_LOW_CUTOFF <= b /\ b + SZ_STACK <= KM_HIGH_CUTOFF /\
    (forall x, in_stack b x -> in_blocks l x /\ ~ in_blocks l' x) /\ (forall x, in_blocks l' x -> in_blocks l x).
Proof.
  intros Hf Hkm Hff. pose proof (inv_ok _ _ Hkm) as Hok.
  assert (1 <= STACK_PAGES) as H1 by (unfold STACK_PAGES; lia).
  pose proof (km_page_alloc_refines STACK_PAGES l s Hkm H1) as Hal. rewrite Hff in Hal. destruct Hal as (s1 & E1 & Hkm1 & Hfr).
  destruct (first_fit_bounds _ _ _ _ Hok H1 Hff) as [Hlo Hhi]. rewrite stack_pages_size in Hhi.
  destruct (first_fit_region _ _ _ _ _ Hok H1 Hff) as (R1 & R2 & _). rewrite stack_pages_size in R1, R2.
  assert (forall x, in_stack b x -> in_blocks l x /\ ~ in_blocks l' x) as Hst.
  { unfold in_stack. intros x Hx. split; [apply R1; now left|exact (R2 x Hx)]. }
  exists (up_mem (fun _ => cleared (st_mem s1) b) s1).
  split; [|split; [|split; [|split; [exact Hlo|split; [exact Hhi|split; [exact Hst|intros x Hx; apply R1; now right]]]]]].
  - unfold KM_LOW_CUTOFF, KM_HIGH_CUTOFF in *. apply stk_alloc_page; [exact Hf|exact E1|unfold NULL; lia|lia|lia].
  - apply (km_inv_write l' s1); [exact Hkm1|]. intros c Hc i Hi. apply cleared_out. intros Hin.
    apply (proj2 (Hst _ Hin)). eapply header_in_blocks; [exact (inv_ok _ _ Hkm1)|exact Hc|exact Hi].
  - eapply km_frame_trans; [exact Hfr|]. apply km_frame_mem_only. intros x Hx. apply cleared_out.
    intros Hin. apply Hx, Hst, Hin.
Qed.

(** ** Where a new stack comes from

    [stk_alloc] takes the first of the list of free stacks, or else pages from the
    allocator.  [f] is the stack, [s1] the state afterwards; [W] is the memory that the
    allocation may write: the stack itself, or the memory that was free. *)

Inductive stack_given (s : kstate) (f : Z) (s1 : kstate) : (Z -> Prop) -> Prop :=
| given_recycled :
    free_stacks (st_stk s) = f -> stack_region f -> s1 = recycled s -> stack_given s f s1 (in_stack f)
| given_pages l l' :
    free_stacks (st_stk s) = NULL -> km_inv l s -> first_fit STACK_PAGES l = Some (f, l') ->
    stk_alloc s = Ret (E_SUCCESS, Some f) s1 -> stack_given s f s1 (in_blocks l).

(** No free stack and no block of pages that is large enough. *)
Definition no_stack (s : kstate) : Prop :=
  free_stacks (st_stk s) = NULL /\ exists l, km_inv l s /\ Forall (fun b => snd b < STACK_PAGES) l.

Record stack_fresh (s : kstate) (f : Z) (s1 : kstate) (W : Z -> Prop) : Prop := StackFresh {
  sf_alloc : stk_alloc s = Ret (E_SUCCESS, Some f) s1;
  sf_region : stack_region f;
  sf_inside : forall a, in_stack f a -> W a;
  sf_mem : agree (fun a => ~ W a) (st_mem s) (st_mem s1);
  sf_qs : st_qs s1 = st_qs s;
  sf_ps : st_ps s1 = st_ps s;
  sf_krn : st_krn s1 = st_krn s
}.

Lemma stack_given_fresh s f s1 W : stack_given s f s1 W -> stack_fresh s f s1 W.
Proof.
  intros [Hf Hr ->|l l' Hf Hkm Hff E].
  - split; try done; [now apply stk_alloc_recycled|]. intros a Ha. unfold recycled. ksimpl. rewrite Hf.
    exact (cleared_out (st_mem s) f a Ha).
  - destruct (stk_alloc_fresh l f l' s Hf Hkm Hff) as (s2 & E2 & _ & Hfr & Hlo & Hhi & Hst & _).
    rewrite E in E2. injection E2 as <-. pose proof Hfr as (m & fp & np & Es & Hm).
    split; [exact E| |intros a Ha; apply Hst, Ha| |now rewrite Es..].
    + unfold stack_region, NULL, KM_LOW_CUTOFF, KM_HIGH_CUTOFF in *. lia.
    + now rewrite Es.
Qed.

(** With a well-formed allocator a stack is given or there is none. *)
Lemma stack_or_none l s : free_stacks (st_stk s) = NULL -> km_inv l s ->
  (exists f s1, stack_given s f s1 (in_blocks l)) \/ no_stack s.
Proof.
  intros Hf Hkm. destruct (first_fit STACK_PAGES l) as [[f l']|] eqn:E.
  - destruct (stk_alloc_fresh l f l' s Hf Hkm E) as (s1 & E1 & _). left. exists f, s1. eapply given_pages; eassumption.
  - right. split; [exact Hf|]. exists l. split; [exact Hkm|]. now apply first_fit_none.
Qed.

Lemma stk_alloc_none s : no_stack s -> stk_alloc s = Ret (E_FAILURE, None) s.
Proof.
  intros (Hf & l & Hkm & Hl). apply first_fit_none in Hl.
  pose proof (km_page_alloc_refines STACK_PAGES l s Hkm ltac:(unfold STACK_PAGES; lia)) as E. rewrite Hl in E.
  unfold stk_alloc. unfold stk at 1, gets. erewrite bind_Ret by reflexivity. rewrite Hf, Z.eqb_refl.
  now mstep E.
Qed.

(** ** exec *)

Section Exec.
Context {L : Layout}.

(** The process, its entry point and its arguments, and the new stack. *)
Record exec_ok (s : kstate) (p : Z) (x : pcb_t) (str : list Z) (f : Z) (s1 : kstate) (W : Z -> Prop) : Prop := ExecOk {
  eo_pcb : pcb_at s p = Some x;
  eo_new : stack_given s f s1 W;
  eo_string : cstring (st_mem s) (arg_of s x 2) str;
  eo_room : args_fit (length str);
  eo_word : arg_of s x 2 + Z.of_nat (length str) + 4 < 2 ^ 32;
  eo_apart : forall i, 0 <= i <= Z.of_nat (length str) -> ~ W (arg_of s x 2 + i);
  eo_locs : 0 <= user_locs (st_krn s) /\ user_locs (st_krn s) + 8 < 2 ^ 32;
  eo_locs_apart : forall i, 4 <= i < 8 -> ~ W (user_locs (st_krn s) + i);
  eo_old : p_stack x <> NULL
}.

(** The end of exec: the new context is installed, the old stack is freed. *)
Lemma exec_finish s1 p x ctx m' :
  pcb_at s1 p = Some x -> ctx <> NULL -> p_stack x <> NULL ->
  exists s', (pcb_set p (set_p_context ctx) ;;
      assert "sys_exec: context" (negb (ctx =? NULL)) ;;
      stk_free (p_stack x)) (up_mem (fun _ => m') s1) = Ret tt s' /\
    st_mem s' = st32 m' (p_stack x) (free_stacks (st_stk s1)) /\
    free_stacks (st_stk s') = p_stack x /\ pcb_at s' p = Some (set_p_context ctx x) /\
    (forall q, q <> p -> pcb_at s' q = pcb_at s1 q) /\
    st_qs s' = st_qs s1 /\ st_ps s' = st_ps (with_pcb p (set_p_context ctx x) s1).
Proof.
  intros Hx Hc Ho. set (s2 := up_mem (fun _ => m') s1).
  assert (pcb_at s2 p = Some x) as Hx2 by exact Hx.
  rewrite (bind_Ret _ _ _ _ _ (pcb_set_at s2 p x _ Hx2)).
  assert (st_mem (with_pcb p (set_p_context ctx x) s2) = m' /\
    free_stacks (st_stk (with_pcb p (set_p_context ctx x) s2)) = free_stacks (st_stk s1)) as [Em El].
  { unfold with_pcb. destruct (pcb_slot p); split; reflexivity. }
  pose proof (pcb_at_with_eq s2 p x (set_p_context ctx x) Hx2) as Hx3.
  assert (Hq : forall q, q <> p -> pcb_at (with_pcb p (set_p_context ctx x) s2) q = pcb_at s1 q).
  { intros q Hq. now rewrite pcb_at_with_ne by congruence. }
  assert (st_qs (with_pcb p (set_p_context ctx x) s2) = st_qs s1 /\
    st_ps (with_pcb p (set_p_context ctx x) s2) = st_ps (with_pcb p (set_p_context ctx x) s1)) as [Eq3 Ep3].
  { unfold with_pcb. destruct (pcb_slot p); split; reflexivity. }
  set (s3 := with_pcb p (set_p_context ctx x) s2) in *. clearbody s3.
  unfold stk_free, assert. destruct (Z.eqb_spec ctx NULL); [contradiction|].
  destruct (Z.eqb_spec (p_stack x) NULL); [contradiction|]. cbn [negb].
  rewrite !bind_ret_l. eexists. split; [reflexivity|].
  split; [cbn; now rewrite Em, El|]. split; [reflexivity|]. split; [exact Hx3|]. split; [exact Hq|].
  split; [exact Eq3|exact Ep3].
Qed.

Lemma sys_exec_spec s p x str f s1 W :
  exec_ok s p x str f s1 W ->
  exists ctx m' s', sys_exec p s = Ret tt s' /\
    stack_ready (st_mem s1) m' f (arg_of s x 1) (ld32 (st_mem s) (user_locs (st_krn s) + 4)) str ctx /\
    st_mem s' = st32 m' (p_stack x) (free_stacks (st_stk s1)) /\
    free_stacks (st_stk s') = p_stack x /\ pcb_at s' p = Some (set_p_context ctx x) /\
    (forall q, q <> p -> pcb_at s' q = pcb_at s q) /\
    st_qs s' = st_qs s /\ st_ps s' = st_ps (with_pcb p (set_p_context ctx x) s).
Proof.
  intros [Hx Hgiv Hc Hr Hw HapW [Hu0 Hu1] HuaW Ho].
  destruct (stack_given_fresh _ _ _ _ Hgiv) as [Ealloc Hf Hin Hmem Eqs Eps Ek].
  pose proof Hf as (Fn & F0 & F1). pose proof (pcb_at_word _ _ _ Hx) as Hp.
  pose proof (ld32_range (st_mem s) (p_context x + SZ_CONTEXT + 4 * 2)) as Ha. fold (arg_of s x 2) in Ha.
  pose proof (ld32_range (st_mem s) (p_context x + SZ_CONTEXT + 4 * 1)) as He. fold (arg_of s x 1) in He.
  set (args := arg_of s x 2) in *. set (entry := arg_of s x 1) in *.
  assert (forall i, 0 <= i <= Z.of_nat (length str) -> ~ in_stack f (args + i)) as Hap
    by (intros i Hi Hs; exact (HapW i Hi (Hin _ Hs))).
  assert (forall i, 4 <= i < 8 -> ~ in_stack f (user_locs (st_krn s) + i)) as Hua
    by (intros i Hi Hs; exact (HuaW i Hi (Hin _ Hs))).
  unfold sys_exec, assert. destruct (Z.eqb_spec p NULL); [unfold NULL in *; lia|]. cbn [negb].
  rewrite bind_ret_l, (bind_Ret _ _ _ _ _ (ARG_at s p x 1 Hx)), (bind_Ret _ _ _ _ _ (ARG_at s p x 2 Hx)).
  rewrite (bind_Ret _ _ _ _ _ (pcb_get_at s p x p_stack Hx)).
  rewrite (bind_Ret _ _ _ _ _ Ealloc). cbn [snd]. fold args entry.
  assert (forall q, pcb_at s1 q = pcb_at s q) as Ep by (intros q; unfold pcb_at; now rewrite Eps).
  assert (forall z, st_ps (with_pcb p z s1) = st_ps (with_pcb p z s)) as Ep1
    by (intros z; unfold with_pcb; destruct (pcb_slot p); cbn; now rewrite ?Eps).
  assert (cstring (st_mem s1) args str) as Hc1.
  { apply (cstring_agree (st_mem s)); [|exact Hc]. intros i Hi. now apply Hmem, HapW. }
  assert (ld32 (st_mem s1) (user_locs (st_krn s1) + 4) = ld32 (st_mem s) (user_locs (st_krn s) + 4)) as Eu.
  { rewrite Ek. apply ld32_agree. intros i Hi. apply Hmem. rewrite <- Z.add_assoc. apply HuaW. lia. }
  pose proof (apart_stack f args (Z.of_nat (length str)) ltac:(lia) Hap) as Hsep.
  assert (user_locs (st_krn s) + 4 + 3 < f \/ f + SZ_STACK <= user_locs (st_krn s) + 4) as Hus1.
  { apply apart_stack; [lia|]. intros i Hi. rewrite <- Z.add_assoc. apply Hua. lia. }
  pose proof (stk_setup_eq s1 f entry args str F0 F1 (proj1 Ha) ltac:(lia) Hr Hc1
    ltac:(rewrite Ek; lia) ltac:(rewrite Ek; lia) ltac:(rewrite Ek; lia)) as Es.
  pose proof (setup_ready (st_mem s1) f entry _ args str F0 F1 He
    (ld32_range (st_mem s) (user_locs (st_krn s) + 4)) Hr Hc1 Hsep) as Hready.
  rewrite Eu in Es. set (ctx := start_context f (length str)) in *.
  set (m' := setup_context (setup_frame (st_mem s1) _ _ _ _) ctx entry) in Hready.
  rewrite (up_mem_ext _ (fun _ => m')) in Es by reflexivity. clearbody m' ctx. rewrite (bind_Ret _ _ _ _ _ Es).
  assert (ctx <> NULL) as Hz.
  { pose proof (sr_inside _ _ _ _ _ _ _ Hready). unfold NULL in *. lia. }
  destruct (exec_finish s1 p x ctx m' (eq_trans (Ep p) Hx) Hz Ho) as (s' & E & E1 & E2 & E3 & E4 & E5 & E6).
  exists ctx, m', s'. split; [exact E|]. split; [exact Hready|]. split; [exact E1|].
  split; [exact E2|]. split; [exact E3|]. split; [intros q Hq; rewrite E4 by done; apply Ep|].
  split; [now rewrite E5|now rewrite E6].
Qed.

(** Without a stack the caller is told so, and nothing else happens. *)
Lemma sys_exec_none s p x : pcb_at s p = Some x -> no_stack s -> sys_exec p s = Ret tt (with_ret x (u32 S_ERROR) s).
Proof.
  intros Hx Hn. pose proof (pcb_at_word _ _ _ Hx) as Hp.
  unfold sys_exec, assert. destruct (Z.eqb_spec p NULL); [unfold NULL in *; lia|]. cbn [negb].
  rewrite bind_ret_l, (bind_Ret _ _ _ _ _ (ARG_at s p x 1 Hx)), (bind_Ret _ _ _ _ _ (ARG_at s p x 2 Hx)).
  rewrite (bind_Ret _ _ _ _ _ (pcb_get_at s p x p_stack Hx)).
  rewrite (bind_Ret _ _ _ _ _ (stk_alloc_none s Hn)). cbn [snd]. now apply set_RET_at.
Qed.
End Exec.
