(* ===== verification/ForkSpec.v ===== *)
(** kernel/syscalls.c: fork.  The stack and the context of the child, the walk along
    its chain of frames, and the process system. *)

From S2P Require Import Prelude Memory State Lib LibMem Sio Cio Frames Kmem Queues QueuesInv QueuesSpec QueuesPages Stacks StacksSpec Procs ProcsSpec Clock ClockSpec Syscalls SyscallsSpec CreateSpec.

Open Scope kernel_scope.

(** ** The walk along the saved frame pointers *)

(** [bump off a] adds [off] to the word at [a]. *)
Definition bump (off a : Z) (m : memory) : memory := st32 m a (u32 (ld32 m a + off)).

(** From [bp] to the end of the chain: [l] are the frames that are visited, in this
    order; each is relocated when it is visited. *)
Inductive ebp_walk (off : Z) : memory -> Z -> list Z -> Prop :=
| walk_end m : ebp_walk off m 0 []
| walk_frame m bp l :
    bp <> 0 -> ebp_walk off (bump off bp m) (ld32 (bump off bp m) bp) l -> ebp_walk off m bp (bp :: l).

Definition bump_all (off : Z) (l : list Z) (m : memory) : memory :=
  fold_left (fun m b => bump off b m) l m.

Lemma add_word_eq a off s : add_word a off s = Ret tt (up_mem (bump off a) s).
Proof. reflexivity. Qed.

Lemma last_cons_default {A} (l : list A) (a d : A) : List.last (a :: l) d = List.last l a.
Proof.
  revert a d. induction l as [|b l IH]; intros a d; [reflexivity|].
  change (List.last (a :: b :: l) d) with (List.last (b :: l) d). now rewrite !IH.
Qed.

Lemma fix_ebp_chain_walk off l bp s :
  ebp_walk off (st_mem s) bp l -> Z.of_nat (length l) < 2 ^ 40 ->
  fix_ebp_chain bp off s = Ret (List.last l NULL) (up_mem (bump_all off l) s).
Proof.
  intros Hw Hk. unfold fix_ebp_chain. apply (loop_intro _ (S (length l))); [lia|]. clear Hk.
  generalize NULL as last. remember (st_mem s) as m eqn:Em. revert s Em.
  induction Hw as [m|m bp l Hbp Hw IH]; intros s Em last.
  - erewrite loopN_done; [|reflexivity]. now destruct s.
  - cbn [length]. erewrite loopN_step.
    2: { unfold truth. destruct (Z.eqb_spec bp 0); [done|]. cbn [negb].
         rewrite (bind_Ret _ _ _ _ _ (add_word_eq bp off s)), run_load32. reflexivity. }
    subst m. change (st_mem (up_mem (bump off bp) s)) with (bump off bp (st_mem s)).
    rewrite (IH (up_mem (bump off bp) s) eq_refl), last_cons_default. reflexivity.
Qed.

(** *** The walk does not stop at the outermost frame *)

Definition frame_step (off : Z) : Z * Z -> K (Z * Z + Z) := fun '(bp, lastbp) =>
  if truth bp then
    add_word bp off ;;
    nx <- load32 bp ;;
    ret (inl (nx, bp))
  else ret (inr lastbp).

(** The copied chain: the frame pointers still point into the other stack, [off]
    below their copies; the outermost frame holds 0. *)
Inductive chain (off : Z) (m : memory) : Z -> list Z -> Prop :=
| chain_last bp : bp <> 0 -> ld32 m bp = 0 -> chain off m bp [bp]
| chain_next bp l :
    bp <> 0 -> (forall b, b ∈ l -> bp + 4 <= b \/ b + 4 <= bp) ->
    chain off m (u32 (ld32 m bp + off)) l -> chain off m bp (bp :: l).

Lemma chain_bump off m a l bp :
  (forall b, b ∈ l -> a + 4 <= b \/ b + 4 <= a) -> chain off m bp l -> chain off (bump off a m) bp l.
Proof.
  intros Ha Hc. induction Hc as [bp H1 H2|bp l H1 H2 Hc IH].
  - constructor; [done|]. unfold bump. rewrite ld32_st32_ne; [done|]. apply Ha. left.
  - constructor; [done|done|]. unfold bump at 2. rewrite ld32_st32_ne; [|apply Ha; left].
    apply IH. intros b Hb. apply Ha. now right.
Qed.

Lemma frame_step_eq off bp last s : bp <> 0 ->
  frame_step off (bp, last) s =
  Ret (inl (u32 (ld32 (st_mem s) bp + off), bp)) (up_mem (bump off bp) s).
Proof.
  intros Hbp. unfold frame_step, truth. destruct (Z.eqb_spec bp 0); [done|]. cbn [negb].
  rewrite (bind_Ret _ _ _ _ _ (add_word_eq bp off s)), run_load32. ksimpl.
  unfold bump. rewrite ld32_st32_u32. now rewrite u32_u32.
Qed.

Lemma chain_steps off l bp last s d :
  chain off (st_mem s) bp l ->
  loopN (length l) (frame_step off) (bp, last) s =
  Ret (inl (u32 off, List.last l d)) (up_mem (bump_all off l) s).
Proof.
  revert bp last s. induction l as [|b l IH]; intros bp last s Hc; [inversion Hc|].
  inversion Hc as [bp' H1 H2|bp' l' H1 H2 Hc']; subst.
  - cbn [length]. rewrite (loopN_step _ _ _ _ _ _ (frame_step_eq off b last s H1)), H2. reflexivity.
  - cbn [length]. rewrite (loopN_step _ _ _ _ _ _ (frame_step_eq off b last s H1)).
    rewrite (IH _ _ (up_mem (bump off b) s)); [|now apply chain_bump].
    destruct l as [|c l]; [inversion Hc'|reflexivity].
Qed.

(** A loop that returns also returns from where it is after some steps. *)
Lemma loop_resume {A B} (body : A -> K (A + B)) k a s a' s1 b s2 :
  loopN k body a s = Ret (inl a') s1 -> loop body a s = Ret b s2 -> loop body a' s1 = Ret b s2.
Proof.
  unfold loop. intros Hk (r & s3 & E & Er)%bind_inv_Ret. rewrite loopP_loopN in E.
  destruct r as [a2|b2]; [discriminate Er|]. injection Er as -> ->.
  enough (loopN (Pos.to_nat FUEL) body a' s1 = Ret (inr b) s2) as E'.
  { unfold bind. now rewrite loopP_loopN, E'. }
  assert (Hmore : forall i j a s, loopN i body a s = Ret (inr b) s2 -> loopN (i + j) body a s = Ret (inr b) s2).
  { intros i j a0 s0 E0. rewrite loopN_add. unfold bind. now rewrite E0. }
  destruct (le_lt_dec k (Pos.to_nat FUEL)) as [Hle|Hlt].
  - replace (Pos.to_nat FUEL) with (k + (Pos.to_nat FUEL - k))%nat in E by lia.
    rewrite loopN_add in E. unfold bind in E. rewrite Hk in E.
    apply (Hmore _ k) in E. rewrite <- E. f_equal. lia.
  - apply (Hmore _ (k - Pos.to_nat FUEL)%nat) in E.
    replace (Pos.to_nat FUEL + (k - Pos.to_nat FUEL))%nat with k in E by lia. congruence.
Qed.

Lemma chain_escapes off bp l s r s' :
  u32 off <> 0 -> chain off (st_mem s) bp l -> fix_ebp_chain bp off s = Ret r s' ->
  let s1 := up_mem (bump_all off l) s in
  loop (frame_step off) (u32 (ld32 (st_mem s1) (u32 off) + off), u32 off)
    (up_mem (bump off (u32 off)) s1) = Ret r s'.
Proof.
  intros Ho Hc E s1. pose proof (chain_steps off l bp NULL s 0 Hc) as Ek.
  apply (loop_resume _ 1 (u32 off, List.last l 0) s1).
  - apply (loopN_step _ 0), frame_step_eq, Ho.
  - exact (loop_resume _ _ _ _ _ _ _ _ Ek E).
Qed.

(** ** The child *)

(** The stack of the parent at [ps], copied to [f]. *)
Definition copied (m : memory) (f ps : Z) : memory := st_bytes m f (bytes_at m ps stack_bytes).

Definition reloc (off a : Z) (m : memory) : memory :=
  if ld32 m a =? 0 then m else st32 m a (u32 (ld32 m a + off)).

(** The memory in which the walk starts: the stack is copied, the frame pointer and
    the stack pointer of the child's context, at [c], are relocated. *)
Definition child_memory (m : memory) (f ps c off : Z) : memory :=
  reloc off (c + reg_off ESP) (reloc off (c + reg_off EBP) (copied m f ps)).

Definition child_prio (x : pcb_t) (prio : Z) : Z :=
  if u8 prio =? PRIO_INHERIT then p_priority x else u8 prio.

Definition child_pcb (p f pid prio c : Z) : pcb_t :=
  Pcb c f p 0 0 pid STATE_NEW prio 0 (p_filler pcb0).

(** The distance of the stacks, and where the child's context is. *)
Definition stack_offset (x : pcb_t) (f : Z) : Z := s32 (f - p_stack x).
Definition child_context_at (x : pcb_t) (f : Z) : Z := u32 (p_context x + stack_offset x f).

(** The memory in which the walk starts, and the child's frame pointer. *)
Definition walk_memory (s1 : kstate) (x : pcb_t) (f : Z) : memory :=
  child_memory (st_mem s1) f (p_stack x) (child_context_at x f) (stack_offset x f).
Definition walk_start (s1 : kstate) (x : pcb_t) (f : Z) : Z :=
  ld32 (walk_memory s1 x f) (child_context_at x f + reg_off EBP).

(** The memory when the child is scheduled: the frames [l] and the word behind the last
    of them are relocated, parent and child have their answers. *)
Definition fork_memory (s1 : kstate) (x : pcb_t) (f : Z) (l : list Z) (pid : Z) : memory :=
  let off := stack_offset x f in
  st32 (st32 (bump off (u32 (List.last l NULL + 8)) (bump_all off l (walk_memory s1 x f)))
    (p_context x + reg_off EAX) pid) (child_context_at x f + reg_off EAX) 0.

Section Fork.
Context {L : Layout}.

Definition word_apart (H : Z -> Prop) (a : Z) : Prop := forall i, 0 <= i < 4 -> ~ H (a + i).

Lemma agree_word (H : Z -> Prop) m a v : word_apart H a -> agree H m (st32 m a v).
Proof.
  intros Ha b Hb. apply ld8_st32_ne. destruct (Z_lt_le_dec b a); [now left|].
  destruct (Z_lt_le_dec b (a + 4)); [|now right]. exfalso. apply (Ha (b - a)); [lia|].
  now replace (a + (b - a)) with b by lia.
Qed.

Lemma bump_all_agree (H : Z -> Prop) off q m : (forall b, b ∈ q -> word_apart H b) -> agree H m (bump_all off q m).
Proof.
  revert m. induction q as [|b q IH]; intros m Hq; [reflexivity|]. cbn [bump_all fold_left].
  etransitivity; [apply (agree_word H m b), Hq; left|]. apply IH. intros b' Hb. apply Hq. now right.
Qed.

(** What the walk needs to be harmless: it ends, and it and the relocation behind the
    last frame spare [P]. *)
Record walk_spares (P : Z -> Prop) (s1 : kstate) (x : pcb_t) (f : Z) (l : list Z) : Prop := WalkSpares {
  ws_walk : ebp_walk (stack_offset x f) (walk_memory s1 x f) (walk_start s1 x f) l;
  ws_short : Z.of_nat (length l) < 2 ^ 40;
  ws_frames : forall b, b ∈ l -> word_apart P b;
  ws_fix : word_apart P (u32 (List.last l NULL + 8))
}.

(** What fork requires: a free entry that no queue holds, a new stack, and contexts that
    do not meet the nodes of the queues; the nodes, the caller's context and its
    argument are not in the memory that the allocation may write. *)
Record fork_ok (H : Z -> Prop) (n : nat) V (s : kstate) (p : Z) (x : pcb_t) (i : nat) (f : Z) (s1 : kstate)
    (W : Z -> Prop) : Prop := ForkOk {
  fo_inv : proc_inv H n V s;
  fo_pcb : pcb_at s p = Some x;
  fo_used : p_state x <> STATE_UNUSED;
  fo_free : exists y, first_pcb (fun _ y => p_state y =? STATE_UNUSED) (ptable (st_ps s)) i y;
  fo_out : ~ pcb_addr (Z.of_nat i) ∈ queued V;
  fo_given : stack_given s f s1 W;
  fo_parent : stack_region (p_stack x);
  fo_arg : word_apart W (p_context x + SZ_CONTEXT + 4 * 1);
  fo_context : context_apart H x;
  fo_child : forall j, 0 <= j < SZ_CONTEXT -> ~ H (child_context_at x f + j);
  fo_nodes : forall a, W a -> ~ H a
}.

(** ** Running fork up to the scheduling of the child *)

Section Run.
Context (H : Z -> Prop) (n : nat) (V : list (Z * list Z)) (s0 : kstate) (p : Z) (x : pcb_t) (new np : Z).

(** The state in the middle of fork: the child's entry and the memory. *)
Record at_fork (y : pcb_t) (m : memory) (s : kstate) : Prop := AtFork {
  af_child : pcb_at s new = Some y;
  af_mem : st_mem s = m;
  af_parent : pcb_at s p = Some x;
  af_others : forall q, q <> new -> pcb_at s q = pcb_at s0 q;
  af_inv : proc_inv H n V s;
  af_pid : next_pid (st_ps s) = np;
  af_current : current (st_ps s) = current (st_ps s0);
  af_frame : init_pcb (st_ps s) = init_pcb (st_ps s0) /\ queue_free (st_qs s) = queue_free (st_qs s0)
}.

Definition forks {A} (k : K A) (y : pcb_t) (m : memory) (Q : outcome kstate A -> Prop) : Prop :=
  forall s, at_fork y m s -> Q (k s).

Context (Hnew : new <> p) (Hout : ~ new ∈ queued V).

Lemma forks_get {A B} (g : pcb_t -> A) (k : A -> K B) y m Q :
  forks (k (g y)) y m Q -> forks (v <- pcb_get new g ;; k v) y m Q.
Proof. intros Hk s Hs. rewrite (bind_Ret _ _ _ _ _ (pcb_get_at s new y g (af_child _ _ _ Hs))). now apply Hk. Qed.

Lemma forks_get_parent {A B} (g : pcb_t -> A) (k : A -> K B) y m Q :
  forks (k (g x)) y m Q -> forks (v <- pcb_get p g ;; k v) y m Q.
Proof. intros Hk s Hs. rewrite (bind_Ret _ _ _ _ _ (pcb_get_at s p x g (af_parent _ _ _ Hs))). now apply Hk. Qed.

Lemma forks_set {B} (g : pcb_t -> pcb_t) (k : unit -> K B) y m Q :
  forks (k tt) (g y) m Q -> forks (bind (pcb_set new g) k) y m Q.
Proof.
  intros Hk s Hs. rewrite (bind_Ret _ _ _ _ _ (pcb_set_at s new y g (af_child _ _ _ Hs))).
  apply Hk. destruct Hs as [H1 H2 H3 H4 H5 H6 H7 H8].
  destruct (with_pcb_others new (g y) s) as (Em & Eq & _).
  split; [eapply pcb_at_with_eq, H1|congruence| | |now apply proc_inv_pcb| | |].
  - now rewrite pcb_at_with_ne.
  - intros q Hq. rewrite pcb_at_with_ne by congruence. now apply H4.
  - unfold with_pcb. now destruct (pcb_slot new).
  - unfold with_pcb. now destruct (pcb_slot new).
  - rewrite Eq. unfold with_pcb. now destruct (pcb_slot new).
Qed.

(** A step on the memory only, away from the nodes. *)
Lemma forks_mem {A B} (op : K A) a m' (k : A -> K B) y m Q :
  (forall s, st_mem s = m -> op s = Ret a (up_mem (fun _ => m') s)) -> agree H m m' ->
  forks (k a) y m' Q -> forks (bind op k) y m Q.
Proof.
  intros Hop Hm Hk s Hs. rewrite (bind_Ret _ _ _ _ _ (Hop s (af_mem _ _ _ Hs))). apply Hk.
  destruct Hs as [H1 H2 H3 H4 H5 H6 H7 H8]. split; try done. apply proc_inv_write; [done|]. now rewrite H2.
Qed.

Lemma forks_load {B} a (k : Z -> K B) y m Q :
  forks (k (ld32 m a)) y m Q -> forks (v <- load32 a ;; k v) y m Q.
Proof. intros Hk s Hs. rewrite run_load32, (af_mem _ _ _ Hs). now apply Hk. Qed.

Lemma forks_ret {A B} (a : A) (k : A -> K B) y m Q : forks (k a) y m Q -> forks (bind (ret a) k) y m Q.
Proof. intros Hk s Hs. rewrite bind_ret_l. now apply Hk. Qed.

Lemma forks_assoc {A B C} (op : K A) (f : A -> K B) (k : B -> K C) y m Q :
  forks (bind op (fun a => bind (f a) k)) y m Q -> forks (bind (bind op f) k) y m Q.
Proof. intros Hk s Hs. rewrite bind_assoc. now apply Hk. Qed.

(** The child's priority: given, or inherited. *)
Lemma forks_prio {B} prio (k : unit -> K B) y m Q :
  forks (k tt) (set_p_priority (child_prio x prio) y) m Q ->
  forks (pcb_set new (set_p_priority (u8 prio)) ;;
    bind (if u8 prio =? PRIO_INHERIT then pp <- pcb_get p p_priority ;; pcb_set new (set_p_priority pp)
          else ret tt) k) y m Q.
Proof.
  intros Hk. apply forks_set. unfold child_prio in Hk. destruct (u8 prio =? PRIO_INHERIT).
  - apply forks_assoc, forks_get_parent, forks_set, Hk.
  - apply forks_ret, Hk.
Qed.

(** The words of the contexts. *)
Lemma forks_ARG {B} i (k : Z -> K B) y m Q :
  forks (k (ld32 m (p_context x + SZ_CONTEXT + 4 * i))) y m Q -> forks (v <- ARG p i ;; k v) y m Q.
Proof. intros Hk. apply forks_assoc, forks_get_parent, forks_load, Hk. Qed.

Lemma forks_REG {B} r (k : Z -> K B) y m Q :
  forks (k (ld32 m (p_context y + reg_off r))) y m Q -> forks (v <- REG new r ;; k v) y m Q.
Proof. intros Hk. apply forks_assoc, forks_get, forks_load, Hk. Qed.

Lemma forks_store {B} a v (k : unit -> K B) y m Q :
  word_apart H a -> forks (k tt) y (st32 m a v) Q -> forks (bind (store32 a v) k) y m Q.
Proof. intros Ha. apply forks_mem; [|now apply agree_word]. now intros s <-. Qed.

Lemma forks_set_REG {B} r v (k : unit -> K B) y m Q :
  word_apart H (p_context y + reg_off r) -> forks (k tt) y (st32 m (p_context y + reg_off r) v) Q ->
  forks (bind (set_REG new r v) k) y m Q.
Proof. intros Ha Hk. apply forks_assoc, forks_get, forks_store; [exact Ha|exact Hk]. Qed.

Lemma forks_parent_RET {B} v (k : unit -> K B) y m Q :
  word_apart H (p_context x + reg_off EAX) -> forks (k tt) y (st32 m (p_context x + reg_off EAX) v) Q ->
  forks (bind (set_RET p v) k) y m Q.
Proof. intros Ha Hk. apply forks_assoc, forks_get_parent, forks_store; [exact Ha|exact Hk]. Qed.

(** A register of the child is relocated unless it is zero. *)
Lemma forks_reloc {B} r off (k : unit -> K B) y m Q :
  word_apart H (p_context y + reg_off r) -> forks (k tt) y (reloc off (p_context y + reg_off r) m) Q ->
  forks (v <- REG new r ;; bind (when (negb (v =? 0)) (set_REG new r (u32 (v + off)))) k) y m Q.
Proof.
  intros Ha Hk. apply forks_REG. unfold reloc in Hk. destruct (_ =? 0); cbn [negb when].
  - apply forks_ret, Hk.
  - now apply forks_set_REG.
Qed.
End Run.

Lemma forks_pid H n V s0 p x new np {B} (k : Z -> K B) y m Q :
  forks H n V s0 p x new (s32 (np + 1)) (k np) y m Q ->
  forks H n V s0 p x new np (pid <- ps next_pid ;; bind (ps_set (set_next_pid (s32 (pid + 1)))) (fun _ => k pid))
    y m Q.
Proof.
  intros Hk s [H1 H2 H3 H4 H5 H6 H7 H8]. unfold ps at 1, gets. erewrite bind_Ret by reflexivity. rewrite H6.
  rewrite (bind_Ret _ _ s tt (up_ps (set_next_pid (s32 (np + 1))) s) eq_refl). apply Hk.
  split; try done. destruct H5 as [I1 I2 [R1 R2 R3 R4 R5] I4 I5 I6 I7 I8].
  split; try done. now apply queues_hold_ps.
Qed.

(** ** The whole of fork after the allocation *)

Section Child.
Context (H : Z -> Prop) (n : nat) (V : list (Z * list Z)) (s : kstate) (p : Z) (x : pcb_t) (i : nat).
Context (f : Z) (s1 : kstate) (W : Z -> Prop).
Context (ok : fork_ok H n V s p x i f s1 W).
Notation new := (pcb_addr (Z.of_nat i)).
Notation off := (stack_offset x f).
Notation c' := (child_context_at x f).
Notation np := (next_pid (st_ps s)).
Notation m1 := (walk_memory s1 x f).

Definition child : pcb_t := child_pcb p f np (child_prio x (arg_of s x 1)) c'.

Lemma child_word r : word_apart H (c' + reg_off r).
Proof.
  intros j Hj. rewrite <- Z.add_assoc. apply (fo_child _ _ _ _ _ _ _ _ _ _ ok).
  unfold SZ_CONTEXT. destruct r; cbn [reg_off]; lia.
Qed.

Lemma parent_word r : word_apart H (p_context x + reg_off r).
Proof.
  intros j Hj. rewrite <- Z.add_assoc. apply (fo_context _ _ _ _ _ _ _ _ _ _ ok).
  unfold SZ_CONTEXT. destruct r; cbn [reg_off]; lia.
Qed.

Lemma given : stack_fresh s f s1 W.
Proof. apply stack_given_fresh, ok. Qed.

Lemma stack_nodes a : in_stack f a -> ~ H a.
Proof. intros Ha. apply (fo_nodes _ _ _ _ _ _ _ _ _ _ ok), (sf_inside _ _ _ _ given), Ha. Qed.

Lemma copied_agree : agree H (st_mem s1) (copied (st_mem s1) f (p_stack x)).
Proof.
  intros a Ha. unfold copied. apply ld8_st_bytes_out. rewrite length_bytes_at, stack_bytes_size.
  destruct (Z_lt_le_dec a f); [now left|]. destruct (Z_lt_le_dec a (f + SZ_STACK)); [|now right].
  exfalso. apply (stack_nodes a); [unfold in_stack; lia|exact Ha].
Qed.

Lemma given_arg : ld32 (st_mem s1) (p_context x + SZ_CONTEXT + 4 * 1) = arg_of s x 1.
Proof. apply ld32_agree. intros j Hj. apply (sf_mem _ _ _ _ given), (fo_arg _ _ _ _ _ _ _ _ _ _ ok), Hj. Qed.

Lemma copy_step s2 : st_mem s2 = st_mem s1 ->
  blkmov f (p_stack x) SZ_STACK s2 = Ret tt (up_mem (fun _ => copied (st_mem s1) f (p_stack x)) s2).
Proof.
  intros E. destruct (sf_region _ _ _ _ given) as (_ & F1 & F2).
  destruct (fo_parent _ _ _ _ _ _ _ _ _ _ ok) as (_ & P1 & P2). rewrite <- stack_bytes_size in *.
  rewrite (blkmov_eq stack_bytes) by assumption. apply (f_equal (Ret tt)), up_mem_ext.
  rewrite E. reflexivity.
Qed.

Lemma new_ne : new <> p.
Proof.
  intros <-. destruct (fo_free _ _ _ _ _ _ _ _ _ _ ok) as (y & Hy & Hu & _).
  pose proof (lookup_lt_Some _ _ _ Hy) as Hi. rewrite (pi_table _ _ _ _ (fo_inv _ _ _ _ _ _ _ _ _ _ ok)) in Hi.
  pose proof (fo_pcb _ _ _ _ _ _ _ _ _ _ ok) as Hx. unfold pcb_at in Hx. rewrite pcb_slot_addr, Nat2Z.id in Hx by lia.
  rewrite Hx in Hy. injection Hy as ->. apply Z.eqb_eq in Hu. now apply (fo_used _ _ _ _ _ _ _ _ _ _ ok).
Qed.

(** The walk ends, and it and the relocation of the argument pointer spare the nodes. *)
Context (l : list Z) (walk : walk_spares H s1 x f l).

(** Fork from the cleared entry on, up to scheduling the child. *)
Lemma child_runs {A} (final_step : K A) (Q : outcome kstate A -> Prop) :
  forks H n V s p x new (s32 (np + 1)) final_step child (fork_memory s1 x f l np) Q ->
  forks H n V s p x new np
    (pcb_set new (set_p_state STATE_NEW) ;;
     pcb_set new (set_p_stack f) ;;
     pcb_set new (set_p_parent p) ;;
     pid <- ps next_pid ;;
     ps_set (set_next_pid (s32 (pid + 1))) ;;
     pcb_set new (set_p_pid pid) ;;
     prio <- ARG p 1 ;;
     pcb_set new (set_p_priority (u8 prio)) ;;
     (if u8 prio =? PRIO_INHERIT then
        pp <- pcb_get p p_priority ;; pcb_set new (set_p_priority pp)
      else ret tt) ;;
     pstack <- pcb_get p p_stack ;;
     blkmov f pstack SZ_STACK ;;
     pstack <- pcb_get p p_stack ;;
     let offset := s32 (f - pstack) in
     pctx <- pcb_get p p_context ;;
     pcb_set new (set_p_context (u32 (pctx + offset))) ;;
     ebp <- REG new EBP ;;
     when (negb (ebp =? 0)) (set_REG new EBP (u32 (ebp + offset))) ;;
     esp <- REG new ESP ;;
     when (negb (esp =? 0)) (set_REG new ESP (u32 (esp + offset))) ;;
     bp <- REG new EBP ;;
     lastbp <- fix_ebp_chain bp offset ;;
     add_word (u32 (lastbp + 8)) offset ;;
     npid <- pcb_get new p_pid ;;
     set_RET p npid ;;
     set_RET new 0 ;;
     final_step) pcb0 (st_mem s1) Q.
Proof.
  intros Hfin. pose proof new_ne as Hne. pose proof (fo_out _ _ _ _ _ _ _ _ _ _ ok) as Hout.
  destruct walk as [Hw Hk Hfr Hfix].
  do 3 (apply forks_set; [exact Hne|exact Hout|]). apply forks_pid.
  apply forks_set; [exact Hne|exact Hout|]. apply forks_ARG. rewrite given_arg.
  apply forks_prio; [exact Hne|exact Hout|]. apply forks_get_parent.
  apply (forks_mem _ _ _ _ _ _ _ _ _ tt (copied (st_mem s1) f (p_stack x)));
    [exact copy_step|exact copied_agree|].
  do 2 apply forks_get_parent. cbv zeta. apply forks_set; [exact Hne|exact Hout|].
  apply forks_reloc; [apply (child_word EBP)|]. apply forks_reloc; [apply (child_word ESP)|].
  apply forks_REG. cbn [p_context set_p_context].
  fold (stack_offset x f). fold (child_context_at x f).
  fold (child_memory (st_mem s1) f (p_stack x) c' off). fold (walk_memory s1 x f). fold (walk_start s1 x f).
  apply (forks_mem _ _ _ _ _ _ _ _ _ (List.last l NULL) (bump_all off l m1)); [|now apply bump_all_agree|].
  { intros s2 E. rewrite <- (up_mem_ext (bump_all off l)) by (now rewrite E).
    apply fix_ebp_chain_walk; [|exact Hk]. rewrite E. exact Hw. }
  apply (forks_mem _ _ _ _ _ _ _ _ _ tt (bump off (u32 (List.last l NULL + 8)) (bump_all off l m1)));
    [|now apply agree_word|].
  { intros s2 <-. reflexivity. }
  apply forks_get, forks_parent_RET; [apply (parent_word EAX)|].
  apply forks_set_REG; [apply (child_word EAX)|]. exact Hfin.
Qed.

(** The entry is cleared in the state with the new stack. *)
Lemma at_start y : pcb_at s new = Some y ->
  put_pcb new pcb0 s1 = Ret tt (with_pcb new pcb0 s1) /\
  at_fork H n V s p x new np pcb0 (st_mem s1) (with_pcb new pcb0 s1).
Proof.
  intros Hy. pose proof new_ne as Hne. pose proof (fo_out _ _ _ _ _ _ _ _ _ _ ok) as Hout.
  destruct given as [_ _ _ Hm Eq Ep _]. destruct (with_pcb_others new pcb0 s1) as (Em & Eq' & _).
  assert (forall q, pcb_at s1 q = pcb_at s q) as Epcb by (intros q; unfold pcb_at; now rewrite Ep).
  assert (agree H (st_mem s) (st_mem s1)) as Hag.
  { intros a Ha. apply Hm. intros Hin. apply (fo_nodes _ _ _ _ _ _ _ _ _ _ ok a Hin Ha). }
  assert (proc_inv H n V s1) as Hinv.
  { apply (proc_inv_same H n V (up_mem (fun _ => st_mem s1) s) s1); [reflexivity|exact Eq|exact Ep|].
    apply proc_inv_write; [apply (fo_inv _ _ _ _ _ _ _ _ _ _ ok)|exact Hag]. }
  split.
  - unfold put_pcb, with_pcb. destruct (pcb_at_addr _ _ _ Hy) as (j & -> & Hj & _).
    rewrite pcb_slot_addr by done. reflexivity.
  - split.
    + apply (pcb_at_with_eq s1 new y). now rewrite Epcb.
    + exact Em.
    + rewrite pcb_at_with_ne, Epcb by exact Hne. exact (fo_pcb _ _ _ _ _ _ _ _ _ _ ok).
    + intros q Hq. rewrite pcb_at_with_ne by congruence. apply Epcb.
    + apply proc_inv_pcb; [exact Hinv|exact Hout].
    + unfold with_pcb. destruct (pcb_slot new); cbn; now rewrite Ep.
    + unfold with_pcb. destruct (pcb_slot new); cbn; now rewrite Ep.
    + unfold with_pcb. destruct (pcb_slot new); cbn; now rewrite Ep, Eq.
Qed.

(** Fork schedules the child. *)
Definition forked (s' : kstate) : Prop :=
  exists n' l', n = S n' /\ V !! Z.to_nat (p_priority child) = Some (NULL, l') /\
    proc_inv H n' (<[Z.to_nat (p_priority child) := (NULL, l' ++ [new])]> V) s' /\
    pcb_at s' new = Some (set_p_state STATE_READY child) /\
    (forall q, q <> new -> pcb_at s' q = pcb_at s q) /\
    next_pid (st_ps s') = s32 (np + 1) /\ current (st_ps s') = current (st_ps s) /\
    agree (fun a => ~ H a) (fork_memory s1 x f l np) (st_mem s') /\
    init_pcb (st_ps s') = init_pcb (st_ps s) /\ queue_free (st_qs s') = queue_free (st_qs s).

Lemma schedule_child : valid_prio child ->
  forks H n V s p x new (s32 (np + 1)) (schedule new) child (fork_memory s1 x f l np)
    (fun o => exists s', o = Ret tt s' /\ forked s').
Proof.
  intros Hp s2 [H1 H2 H3 H4 H5 H6 H7 H8]. pose proof (fo_out _ _ _ _ _ _ _ _ _ _ ok) as Hout.
  pose proof Hp as Hp'. unfold valid_prio in Hp'.
  destruct (inv_queue _ _ _ _ (fo_inv _ _ _ _ _ _ _ _ _ _ ok) (Z.to_nat (p_priority child)) ltac:(lia)) as (q & Hl).
  rewrite (ready_key _ _ _ _ (Z.to_nat (p_priority child)) _ _ (fo_inv _ _ _ _ _ _ _ _ _ _ ok) ltac:(lia) Hl) in Hl.
  destruct (schedule_spec H n V s2 new child q H5 H1 Hout Hp Hl)
    as (s' & n' & E & En & Hinv & Hc & Hq & Hf & Hcur).
  exists s'. split; [exact E|]. exists n', q. split; [exact En|]. split; [exact Hl|].
  split; [exact Hinv|]. split; [exact Hc|]. split; [intros r Hne; rewrite Hq by done; now apply H4|].
  destruct Hf as (m & r & t0 & c0 & -> & Hm & Hqf). rewrite H2 in Hm. destruct H8 as [H8 H9].
  split; [exact H6|]. split; [rewrite Hcur; exact H7|]. split; [exact Hm|]. split; [exact H8|].
  exact (eq_trans Hqf H9).
Qed.

(** A priority that is out of range stops the system. *)
Lemma schedule_child_bad : ~ valid_prio child ->
  forks H n V s p x new (s32 (np + 1)) (schedule new) child (fork_memory s1 x f l np)
    (fun o => exists s', o = Panic "schedule: priority" s').
Proof. intros Hp s2 Hs2. exists s2. exact (schedule_bad _ _ _ (af_child _ _ _ _ _ _ _ _ _ _ _ Hs2) Hp). Qed.

Lemma sys_fork_runs (Q : outcome kstate unit -> Prop) :
  forks H n V s p x new (s32 (np + 1)) (schedule new) child (fork_memory s1 x f l np) Q -> Q (sys_fork p s).
Proof.
  intros Hsch. destruct (fo_free _ _ _ _ _ _ _ _ _ _ ok) as (y & Hf).
  pose proof (pi_table _ _ _ _ (fo_inv _ _ _ _ _ _ _ _ _ _ ok)) as Hlen.
  pose proof (pcb_at_word _ _ _ (fo_pcb _ _ _ _ _ _ _ _ _ _ ok)) as Hpw.
  assert (pcb_at s new = Some y) as Hy.
  { destruct Hf as (Hy & _). pose proof (lookup_lt_Some _ _ _ Hy). unfold pcb_at.
    rewrite pcb_slot_addr, Nat2Z.id by lia. exact Hy. }
  destruct (at_start y Hy) as [Eput Hat].
  pose proof (child_runs (schedule new) Q Hsch _ Hat) as HQ.
  unfold sys_fork, assert.
  destruct (Z.eqb_spec p NULL); [unfold NULL in *; lia|]. cbn [negb]. rewrite bind_ret_l.
  unfold pcb_alloc at 1. rewrite bind_assoc, (bind_Ret _ _ _ _ _ (find_pcb_some _ s i y Hlen Hf)).
  rewrite bind_ret_l. cbn [snd].
  rewrite (bind_Ret _ _ _ _ _ (sf_alloc _ _ _ _ given)). cbn [snd].
  rewrite (bind_Ret _ _ _ _ _ Eput). exact HQ.
Qed.

Lemma sys_fork_spec : valid_prio child -> exists s', sys_fork p s = Ret tt s' /\ forked s'.
Proof. intros Hp. apply (sys_fork_runs (fun o => exists s', o = Ret tt s' /\ forked s')), schedule_child, Hp. Qed.

Lemma sys_fork_bad : ~ valid_prio child -> exists s', sys_fork p s = Panic "schedule: priority" s'.
Proof. intros Hp. apply (sys_fork_runs (fun o => exists s', o = Panic "schedule: priority" s')), schedule_child_bad, Hp. Qed.
End Child.

(** *** Without an entry or a stack *)

Lemma sys_fork_full s p x : pcb_at s p = Some x -> length (ptable (st_ps s)) = 25%nat ->
  (forall y, y ∈ ptable (st_ps s) -> p_state y <> STATE_UNUSED) ->
  sys_fork p s = Ret tt (with_ret x (u32 S_ERROR) s).
Proof.
  intros Hx Hlen Hfull. pose proof (pcb_at_word _ _ _ Hx) as Hp.
  assert (find_pcb (fun _ p => p_state p =? STATE_UNUSED) s = Ret None s) as E.
  { apply find_pcb_none; [exact Hlen|]. intros j y Hy. apply Z.eqb_neq, Hfull. eapply list_elem_of_lookup_2, Hy. }
  unfold sys_fork, assert. destruct (Z.eqb_spec p NULL); [unfold NULL in *; lia|]. cbn [negb]. rewrite bind_ret_l.
  unfold pcb_alloc. rewrite bind_assoc, (bind_Ret _ _ _ _ _ E), bind_ret_l. cbn [snd]. now apply set_RET_at.
Qed.

(** The entry that was found is free, and stays so. *)
Lemma sys_fork_none s p x i y : pcb_at s p = Some x -> length (ptable (st_ps s)) = 25%nat ->
  first_pcb (fun _ y => p_state y =? STATE_UNUSED) (ptable (st_ps s)) i y -> no_stack s ->
  sys_fork p s = set_RET p (u32 S_ERROR) (with_pcb (pcb_addr (Z.of_nat i)) (set_p_state STATE_UNUSED y) s).
Proof.
  intros Hx Hlen Hf Hn. pose proof (pcb_at_word _ _ _ Hx) as Hp. set (new := pcb_addr (Z.of_nat i)).
  assert (pcb_at s new = Some y) as Hy.
  { destruct Hf as (Hy & _). pose proof (lookup_lt_Some _ _ _ Hy). unfold pcb_at, new.
    rewrite pcb_slot_addr, Nat2Z.id by lia. exact Hy. }
  pose proof (pcb_at_word _ _ _ Hy) as Hnw.
  unfold sys_fork, assert. destruct (Z.eqb_spec p NULL); [unfold NULL in *; lia|]. cbn [negb]. rewrite bind_ret_l.
  unfold pcb_alloc. rewrite bind_assoc, (bind_Ret _ _ _ _ _ (find_pcb_some _ s i y Hlen Hf)), bind_ret_l. cbn [snd].
  rewrite (bind_Ret _ _ _ _ _ (stk_alloc_none s Hn)). cbn [snd]. fold new.
  unfold pcb_free, assert. destruct (Z.eqb_spec new NULL); [unfold NULL in *; lia|]. cbn [negb].
  rewrite bind_assoc, bind_ret_l. now rewrite (bind_Ret _ _ _ _ _ (pcb_set_at s new y (set_p_state STATE_UNUSED) Hy)).
Qed.
(** ** The child's stack and the registers of both processes *)

Definition in_contexts (x : pcb_t) (f a : Z) : Prop :=
  p_context x <= a < p_context x + SZ_CONTEXT \/ child_context_at x f <= a < child_context_at x f + SZ_CONTEXT.

(** The caller's context lies in the stack that its entry records; that stack is not free
    memory. *)
Record fork_inside (x : pcb_t) (W : Z -> Prop) : Prop := ForkInside {
  fi_context : p_stack x <= p_context x /\ p_context x + SZ_CONTEXT + 8 <= p_stack x + SZ_STACK;
  fi_apart : forall a, W a -> ~ in_stack (p_stack x) a
}.

(** A pointer of the caller, for the child. *)
Definition relocated (off v : Z) : Z := if v =? 0 then 0 else u32 (v + off).

(** The words of the new stack that are not copies. *)
Definition fork_words (x : pcb_t) (f : Z) (l : list Z) : list Z :=
  [child_context_at x f + reg_off EAX; child_context_at x f + reg_off EBP; child_context_at x f + reg_off ESP;
   u32 (List.last l NULL + 8)] ++ l.

Lemma walk_spares_weaken (P Q : Z -> Prop) s1 x f l :
  (forall a, Q a -> P a) -> walk_spares P s1 x f l -> walk_spares Q s1 x f l.
Proof.
  intros HPQ [W1 W2 W3 W4]. split; [exact W1|exact W2| |].
  - intros b Hb j Hj Hq. exact (W3 b Hb j Hj (HPQ _ Hq)).
  - intros j Hj Hq. exact (W4 j Hj (HPQ _ Hq)).
Qed.

Lemma outside_apart w a : outside w 4 a -> word_apart (eq a) w.
Proof. unfold outside. intros Ha j Hj E. lia. Qed.

Lemma apart_outside (P : Z -> Prop) w a : word_apart P w -> P a -> outside w 4 a.
Proof.
  intros Hw Ha. unfold outside. destruct (Z_lt_le_dec a w); [now left|]. destruct (Z_le_gt_dec (w + 4) a); [now right|].
  exfalso. apply (Hw (a - w)); [lia|]. now replace (w + (a - w)) with a by lia.
Qed.

Lemma bump_all_out off q m a : (forall w, w ∈ q -> outside w 4 a) -> ld8 (bump_all off q m) a = ld8 m a.
Proof.
  intros Hq. symmetry. pose proof (bump_all_agree (eq a) off q m) as Hag. symmetry. apply Hag; [|reflexivity].
  intros b Hb. apply outside_apart, Hq, Hb.
Qed.

Section ChildStack.
Context (H : Z -> Prop) (n : nat) (V : list (Z * list Z)) (s : kstate) (p : Z) (x : pcb_t) (i : nat).
Context (f : Z) (s1 : kstate) (W : Z -> Prop).
Context (ok : fork_ok H n V s p x i f s1 W) (inside : fork_inside x W).
Notation off := (stack_offset x f).
Notation c' := (child_context_at x f).
Notation np := (next_pid (st_ps s)).
Notation m1 := (walk_memory s1 x f).
Context (l : list Z) (walk : walk_spares (fun a => H a \/ in_contexts x f a) s1 x f l).

Lemma child_context : c' = f + (p_context x - p_stack x) /\ f <= c' /\ c' + SZ_CONTEXT + 8 <= f + SZ_STACK.
Proof.
  destruct (sf_region _ _ _ _ (given _ _ _ _ _ _ _ _ _ _ ok)) as (_ & F1 & F2).
  destruct (fo_parent _ _ _ _ _ _ _ _ _ _ ok) as (_ & P1 & P2). destruct inside as [[C1 C2] _].
  assert (c' = f + (p_context x - p_stack x)) as E.
  { unfold child_context_at, stack_offset. rewrite <- (u32_add_r (p_context x)), u32_s32, u32_add_r.
    rewrite u32_small; unfold SZ_CONTEXT in *; lia. }
  rewrite E. unfold SZ_CONTEXT in *. lia.
Qed.

Lemma given_byte a : in_stack (p_stack x) a -> ld8 (st_mem s1) a = ld8 (st_mem s) a.
Proof.
  intros Ha. apply (sf_mem _ _ _ _ (given _ _ _ _ _ _ _ _ _ _ ok)). intros Hw.
  exact (fi_apart _ _ inside a Hw Ha).
Qed.

Lemma copied_byte a : in_stack f a -> ld8 (copied (st_mem s1) f (p_stack x)) a = ld8 (st_mem s) (p_stack x + (a - f)).
Proof.
  unfold in_stack. intros Ha. replace a with (f + (a - f)) at 1 by lia. unfold copied.
  rewrite ld8_moved by (rewrite stack_bytes_size; lia). apply given_byte. unfold in_stack. lia.
Qed.

Lemma reloc_byte w m a : outside w 4 a -> ld8 (reloc off w m) a = ld8 m a.
Proof. intros Ha. unfold reloc. destruct (_ =? 0); [done|]. apply ld8_st32_ne. unfold outside in Ha. lia. Qed.

(** The copy before the walk, but for the frame pointer and the stack pointer. *)
Lemma walk_byte a : in_stack f a -> outside (c' + reg_off EBP) 4 a -> outside (c' + reg_off ESP) 4 a ->
  ld8 m1 a = ld8 (st_mem s) (p_stack x + (a - f)).
Proof. intros Ha H1 H2. unfold walk_memory, child_memory. rewrite !reloc_byte by assumption. now apply copied_byte. Qed.

Lemma walk_word a : f <= a -> a + 4 <= f + SZ_STACK ->
  (a + 4 <= c' + reg_off EBP \/ c' + reg_off EBP + 4 <= a) -> (a + 4 <= c' + reg_off ESP \/ c' + reg_off ESP + 4 <= a) ->
  ld32 m1 a = ld32 (st_mem s) (p_stack x + (a - f)).
Proof.
  intros H1 H2 H3 H4. unfold ld32. rewrite !walk_byte by (unfold in_stack, outside; lia).
  now replace (p_stack x + (a + 1 - f)) with (p_stack x + (a - f) + 1) by lia;
    replace (p_stack x + (a + 2 - f)) with (p_stack x + (a - f) + 2) by lia;
    replace (p_stack x + (a + 3 - f)) with (p_stack x + (a - f) + 3) by lia.
Qed.

Lemma copied_word a : f <= a -> a + 4 <= f + SZ_STACK ->
  ld32 (copied (st_mem s1) f (p_stack x)) a = ld32 (st_mem s) (p_stack x + (a - f)).
Proof.
  intros H1 H2. unfold ld32. rewrite !copied_byte by (unfold in_stack; lia).
  now replace (p_stack x + (a + 1 - f)) with (p_stack x + (a - f) + 1) by lia;
    replace (p_stack x + (a + 2 - f)) with (p_stack x + (a - f) + 2) by lia;
    replace (p_stack x + (a + 3 - f)) with (p_stack x + (a - f) + 3) by lia.
Qed.

Lemma reloc_same w m : ld32 (reloc off w m) w = relocated off (ld32 m w).
Proof.
  unfold reloc, relocated. destruct (Z.eqb_spec (ld32 m w) 0) as [E|E]; [exact E|].
  now rewrite ld32_st32_u32, u32_u32.
Qed.

Lemma reloc_other w m b : w + 4 <= b \/ b + 4 <= w -> ld32 (reloc off w m) b = ld32 m b.
Proof. intros Hb. unfold reloc. destruct (_ =? 0); [done|]. now apply ld32_st32_ne. Qed.

(** The registers before the walk. *)
Lemma walk_reg r : ld32 m1 (c' + reg_off r) =
  match r with
  | EBP | ESP => relocated off (ld32 (st_mem s) (p_context x + reg_off r))
  | _ => ld32 (st_mem s) (p_context x + reg_off r)
  end.
Proof.
  pose proof child_context as (E & E1 & E2). unfold SZ_CONTEXT in E2.
  assert (ld32 (copied (st_mem s1) f (p_stack x)) (c' + reg_off r) = ld32 (st_mem s) (p_context x + reg_off r)) as Ec.
  { rewrite copied_word by (destruct r; cbn [reg_off]; lia). f_equal. lia. }
  unfold walk_memory, child_memory. destruct r; cbn [reg_off] in *;
    try (rewrite !reloc_other by (cbn [reg_off]; lia); exact Ec).
  - rewrite reloc_other by lia. now rewrite reloc_same, Ec.
  - now rewrite reloc_same, reloc_other, Ec by lia.
Qed.

Lemma contexts_apart : p_context x + SZ_CONTEXT <= c' \/ c' + SZ_CONTEXT <= p_context x.
Proof.
  pose proof child_context as (E & E1 & E2). destruct inside as [[C1 C2] Hap].
  pose proof (sf_inside _ _ _ _ (given _ _ _ _ _ _ _ _ _ _ ok)) as Hin.
  destruct (Z_lt_le_dec c' (p_context x)).
  - destruct (Z_lt_le_dec (p_context x) (c' + SZ_CONTEXT)); [|now right]. exfalso.
    apply (Hap (p_context x)); [apply Hin|]; unfold in_stack; lia.
  - destruct (Z_lt_le_dec c' (p_context x + SZ_CONTEXT)); [|now left]. exfalso.
    apply (Hap c'); [apply Hin|]; unfold in_stack; lia.
Qed.

(** The walk leaves the contexts alone. *)
Lemma fork_context_byte a : in_contexts x f a ->
  ld8 (bump off (u32 (List.last l NULL + 8)) (bump_all off l m1)) a = ld8 m1 a.
Proof.
  intros Ha. destruct walk as [_ _ Hfr Hfix]. unfold bump at 1.
  rewrite ld8_st32_ne by (apply (apart_outside _ _ _ Hfix); now right).
  apply bump_all_out. intros w Hw. apply (apart_outside _ _ _ (Hfr w Hw)). now right.
Qed.

Lemma reg_in c r j : 0 <= j < 4 -> c <= c + reg_off r + j < c + SZ_CONTEXT.
Proof. unfold SZ_CONTEXT. destruct r; cbn [reg_off]; lia. Qed.

Lemma fork_reg r : r <> EAX -> ld32 (fork_memory s1 x f l np) (c' + reg_off r) = ld32 m1 (c' + reg_off r).
Proof.
  intros Hr. pose proof contexts_apart as Hap. unfold SZ_CONTEXT in Hap. unfold fork_memory. cbv zeta.
  rewrite !ld32_st32_ne by (destruct r; cbn [reg_off]; (lia || congruence)).
  apply ld32_agree. intros j Hj. apply fork_context_byte. right. now apply reg_in.
Qed.

(** *** In the state after fork *)

Context (s' : kstate) (Hag : agree (fun a => ~ H a) (fork_memory s1 x f l np) (st_mem s')).

Lemma forked_word a : word_apart H a -> ld32 (st_mem s') a = ld32 (fork_memory s1 x f l np) a.
Proof. intros Ha. apply ld32_agree. intros j Hj. apply Hag, Ha, Hj. Qed.

Lemma forked_answers : ld32 (st_mem s') (p_context x + reg_off EAX) = u32 np /\ ld32 (st_mem s') (c' + reg_off EAX) = 0.
Proof.
  pose proof contexts_apart as Hap. unfold SZ_CONTEXT in Hap.
  rewrite !forked_word by (first [apply (parent_word _ _ _ _ _ _ _ _ _ _ ok)|apply (child_word _ _ _ _ _ _ _ _ _ _ ok)]).
  unfold fork_memory. cbv zeta. split; [|now rewrite ld32_st32_u32].
  rewrite ld32_st32_ne by (cbn [reg_off]; lia). apply ld32_st32_u32.
Qed.

Lemma forked_reg r : r <> EAX -> ld32 (st_mem s') (c' + reg_off r) =
  match r with
  | EBP | ESP => relocated off (ld32 (st_mem s) (p_context x + reg_off r))
  | _ => ld32 (st_mem s) (p_context x + reg_off r)
  end.
Proof.
  intros Hr. rewrite forked_word by apply (child_word _ _ _ _ _ _ _ _ _ _ ok). rewrite fork_reg by done. apply walk_reg.
Qed.

Lemma not_parent_eax a : in_stack f a -> outside (p_context x + reg_off EAX) 4 a.
Proof.
  intros Ha. destruct inside as [[C1 C2] Hap].
  pose proof (sf_inside _ _ _ _ (given _ _ _ _ _ _ _ _ _ _ ok) a Ha) as Hw. specialize (Hap a Hw).
  unfold in_stack, outside, SZ_CONTEXT in *. cbn [reg_off]. lia.
Qed.

(** The bytes of the new stack that are copies. *)
Lemma forked_byte a : in_stack f a -> (forall w, w ∈ fork_words x f l -> outside w 4 a) ->
  ld8 (st_mem s') a = ld8 (st_mem s) (p_stack x + (a - f)).
Proof.
  intros Ha Hw. rewrite Hag by apply (stack_nodes _ _ _ _ _ _ _ _ _ _ ok a Ha).
  assert (forall w, w ∈ l -> outside w 4 a) as Hl by (intros w Hin; apply Hw; do 4 right; exact Hin).
  unfold fork_memory. cbv zeta. unfold bump at 1.
  rewrite !ld8_st32_ne by (first [apply not_parent_eax, Ha|apply Hw; unfold fork_words; set_solver]).
  rewrite bump_all_out by exact Hl. apply walk_byte; [exact Ha|apply Hw; unfold fork_words; set_solver..].
Qed.

(** The frames, each relocated once. *)
Lemma forked_frame l1 b l2 : l = l1 ++ b :: l2 -> f <= b -> b + 4 <= f + SZ_STACK ->
  (forall w, w ∈ u32 (List.last l NULL + 8) :: l1 ++ l2 -> w + 4 <= b \/ b + 4 <= w) ->
  ld32 (st_mem s') b = u32 (ld32 (st_mem s) (p_stack x + (b - f)) + off).
Proof.
  intros El Hb1 Hb2 Hw. destruct walk as [_ _ Hfr _].
  assert (word_apart (fun a => H a \/ in_contexts x f a) b) as Hb by (apply Hfr; rewrite El; set_solver).
  assert (forall r, b + 4 <= c' + reg_off r \/ c' + reg_off r + 4 <= b) as Hc.
  { intros r. destruct (Z_le_gt_dec (b + 4) (c' + reg_off r)); [now left|]. destruct (Z_le_gt_dec (c' + reg_off r + 4) b); [now right|].
    exfalso. set (a := Z.max b (c' + reg_off r)). apply (Hb (a - b)); [unfold a; lia|]. right. right.
    replace (b + (a - b)) with (c' + reg_off r + (a - (c' + reg_off r))) by lia. apply reg_in. unfold a. lia. }
  rewrite forked_word by (intros j Hj Hh; apply (Hb j Hj); now left). unfold fork_memory. cbv zeta.
  assert (p_context x + reg_off EAX + 4 <= b \/ b + 4 <= p_context x + reg_off EAX) as Hp.
  { pose proof (not_parent_eax b ltac:(unfold in_stack; lia)). pose proof (not_parent_eax (b + 3) ltac:(unfold in_stack; lia)).
    pose proof (not_parent_eax (b + 1) ltac:(unfold in_stack; lia)). pose proof (not_parent_eax (b + 2) ltac:(unfold in_stack; lia)).
    unfold outside in *. lia. }
  rewrite !ld32_st32_ne by (first [exact Hp|pose proof (Hc EAX); lia]).
  unfold bump at 1. rewrite ld32_st32_ne by (apply Hw; left).
  assert (forall q m, (forall w, w ∈ q -> w ∈ l1 ++ l2) -> ld32 (bump_all off q m) b = ld32 m b) as Hq.
  { intros q m Hq. apply ld32_agree. intros j Hj. apply bump_all_out. intros w Hin.
    assert (w + 4 <= b \/ b + 4 <= w) by (apply Hw; right; now apply Hq). unfold outside. lia. }
  rewrite El. unfold bump_all. rewrite fold_left_app. cbn [fold_left]. fold (bump_all off l1 m1).
  fold (bump_all off l2 (bump off b (bump_all off l1 m1))). rewrite Hq by (intros w Hin; apply elem_of_app; now right).
  unfold bump at 1. rewrite ld32_st32_u32, u32_u32, Hq by (intros w Hin; apply elem_of_app; now left).
  now rewrite (walk_word b Hb1 Hb2 (Hc EBP) (Hc ESP)).
Qed.

(** Nothing else is written. *)
Lemma forked_rest a : ~ H a -> ~ W a -> outside (p_context x + reg_off EAX) 4 a ->
  (forall w, w ∈ u32 (List.last l NULL + 8) :: l -> outside w 4 a) -> ld8 (st_mem s') a = ld8 (st_mem s) a.
Proof.
  intros Hh Hw Hp Hl. rewrite Hag by exact Hh. pose proof (given _ _ _ _ _ _ _ _ _ _ ok) as G.
  pose proof child_context as (_ & E1 & E2). unfold SZ_CONTEXT in E2.
  assert (~ in_stack f a) as Hf by (intros Ha; exact (Hw (sf_inside _ _ _ _ G a Ha))). unfold in_stack in Hf.
  assert (forall r, outside (c' + reg_off r) 4 a) as Hc by (intros r; unfold outside; destruct r; cbn [reg_off]; lia).
  unfold fork_memory. cbv zeta. unfold bump at 1.
  rewrite !ld8_st32_ne by (first [apply (Hc EAX)|exact Hp|apply Hl; left]).
  rewrite bump_all_out by (intros w Hin; apply Hl; now right).
  unfold walk_memory, child_memory. rewrite !reloc_byte by apply Hc. unfold copied.
  rewrite ld8_st_bytes_out by (rewrite length_bytes_at, stack_bytes_size; lia). now apply (sf_mem _ _ _ _ G).
Qed.
End ChildStack.
End Fork.
