(* ===== verification/CreateClaims.v ===== *)
(** The contract of fork and exec (kernel/syscalls.c). *)

From S2P Require Import Prelude Memory State Lib LibMem Sio Cio Frames Kmem Queues QueuesInv QueuesSpec QueuesPages QueuesClaims Stacks StacksSpec Procs ProcsSpec ProcsClaims Clock ClockSpec Syscalls SyscallsSpec CreateSpec ForkSpec.

Open Scope kernel_scope.

#[local] Existing Instance example_layout.

(** * exec *)

(** C21: [sys_exec], when a stack can be had, from the list of free ones or from the page
    allocator: it returns; the process will resume at its new entry point, on the new
    stack, with a copy of its argument string; the old stack is put at the front of the
    list of free stacks.  The field [p_stack] is not changed: the process keeps the stack
    that was freed on record, and the new one is recorded nowhere. *)
Theorem sys_exec_loads {L : Layout} s p x str f s1 W :
  exec_ok s p x str f s1 W ->
  exists ctx m' s', sys_exec p s = Ret tt s' /\
    stk_alloc s = Ret (E_SUCCESS, Some f) s1 /\ agree (fun a => ~ W a) (st_mem s) (st_mem s1) /\
    stack_ready (st_mem s1) m' f (arg_of s x 1)
      (ld32 (st_mem s) (user_locs (st_krn s) + 4 * ULOC_FAKE)) str ctx /\
    st_mem s' = st32 m' (p_stack x) (free_stacks (st_stk s1)) /\
    free_stacks (st_stk s') = p_stack x /\ pcb_at s' p = Some (set_p_context ctx x) /\
    (forall q, q <> p -> pcb_at s' q = pcb_at s q).
Proof.
  intros ok. destruct (sys_exec_spec s p x str f s1 W ok) as (ctx & m' & s' & E1 & E2 & E3 & E4 & E5 & E6 & _).
  destruct (stack_given_fresh _ _ _ _ (eo_new _ _ _ _ _ _ _ ok)) as [G1 _ _ G2 _ _ _].
  exists ctx, m', s'. exact (conj E1 (conj G1 (conj G2 (conj E2 (conj E3 (conj E4 (conj E5 E6))))))).
Qed.

(** Process 2 in entry 1, on the stack at 0x20000; it calls exec with the entry point
    0x140100 and the string at 0x2000; the stack at 0x30000 is free. *)
Definition caller_pcb : pcb_t :=
  set_p_context 0x20100 (set_p_stack 0x20000 (example_pcb 2 STATE_RUNNING 1 0)).

Definition exec_example : kstate :=
  up_ps (set_ptable ([pcb0; caller_pcb] ++ replicate 23 pcb0))
    (up_stk (set_free_stacks 0x30000) (up_krn (set_user_locs 0x3000)
      (boot_state (st32 (st32 (st32 (st_bytes ∅ 0x2000 (chars "progABC X 10" ++ [0]))
          0x3004 0x140020) 0x2014c 0x140100) 0x20150 0x2000) (fun _ _ => 0)))).

Lemma exec_example_ok : exec_ok exec_example (pcb_addr 1) caller_pcb (chars "progABC X 10") 0x30000
  (recycled exec_example) (in_stack 0x30000).
Proof.
  split.
  - reflexivity.
  - apply given_recycled; [reflexivity| |reflexivity]. split; [discriminate|]. split; [discriminate|reflexivity].
  - vm_compute. repeat split; congruence.
  - vm_compute. congruence.
  - vm_compute. reflexivity.
  - intros i Hi. change (arg_of exec_example caller_pcb 2) with 0x2000. unfold in_stack. cbn in *. lia.
  - split; [discriminate|reflexivity].
  - intros i Hi. unfold in_stack. cbn in *. lia.
  - discriminate.
Qed.

Lemma sys_exec_loads_witness : exists ctx s',
  sys_exec (pcb_addr 1) exec_example = Ret tt s' /\ free_stacks (st_stk s') = 0x20000 /\
  pcb_at s' (pcb_addr 1) = Some (set_p_context ctx caller_pcb).
Proof.
  destruct (sys_exec_loads exec_example (pcb_addr 1) caller_pcb _ _ _ _ exec_example_ok)
    as (ctx & m' & s' & E & _ & _ & _ & _ & Hf & Hp & _).
  exists ctx, s'. split; [exact E|]. split; [exact Hf|exact Hp].
Defined.

(** * fork *)

(** The new stack is the caller's but for the words that fork changes: the child's EAX,
    the relocated EBP and ESP, the frames [l] and the word behind the last of them. *)
Record stack_copied (H W : Z -> Prop) (s : kstate) (x : pcb_t) (f : Z) (l : list Z) (s' : kstate) : Prop := StackCopied {
  sc_bytes : forall a, in_stack f a -> (forall w, w ∈ fork_words x f l -> outside w 4 a) ->
    ld8 (st_mem s') a = ld8 (st_mem s) (p_stack x + (a - f));
  sc_regs : forall r, r <> EAX -> ld32 (st_mem s') (child_context_at x f + reg_off r) =
    match r with
    | EBP | ESP => relocated (stack_offset x f) (ld32 (st_mem s) (p_context x + reg_off r))
    | _ => ld32 (st_mem s) (p_context x + reg_off r)
    end;
  sc_frames : forall l1 b l2, l = l1 ++ b :: l2 -> f <= b -> b + 4 <= f + SZ_STACK ->
    (forall w, w ∈ u32 (List.last l NULL + 8) :: l1 ++ l2 -> w + 4 <= b \/ b + 4 <= w) ->
    ld32 (st_mem s') b = u32 (ld32 (st_mem s) (p_stack x + (b - f)) + stack_offset x f);
  sc_rest : forall a, ~ H a -> ~ W a -> outside (p_context x + reg_off EAX) 4 a ->
    (forall w, w ∈ u32 (List.last l NULL + 8) :: l -> outside w 4 a) -> ld8 (st_mem s') a = ld8 (st_mem s) a
}.

(** C16: [sys_fork], with a free table entry, a stack (from the list of free ones or from
    the page allocator), a valid priority, a caller whose context lies in the stack that
    its entry records, and when the walk along the frames [l] of the copied stack ends
    and spares the two contexts and the nodes of the queues: it creates a process, in
    the first free entry, whose parent is the caller, with the next pid and the priority
    given (or inherited); the caller gets the pid, the child 0; the child's context is in
    its own stack, at the place of the caller's, and equals the caller's up to the
    relocated EBP and ESP; the child's stack is a copy of the caller's in which the frames
    are relocated; no other memory is written; the child is the last of the ready queue
    of its priority; the process invariant is kept and every other process is as before. *)
Theorem sys_fork_creates {L : Layout} H n V s p x i f s1 W l :
  fork_ok H n V s p x i f s1 W -> fork_inside x W -> valid_prio (child s p x f) ->
  walk_spares (fun a => H a \/ in_contexts x f a) s1 x f l ->
  let new := pcb_addr (Z.of_nat i) in
  let y := child s p x f in
  exists s' n' q, sys_fork p s = Ret tt s' /\ n = S n' /\
    V !! Z.to_nat (p_priority y) = Some (NULL, q) /\
    proc_inv H n' (<[Z.to_nat (p_priority y) := (NULL, q ++ [new])]> V) s' /\
    pcb_at s' new = Some (set_p_state STATE_READY y) /\
    (forall r, r <> new -> pcb_at s' r = pcb_at s r) /\
    next_pid (st_ps s') = s32 (next_pid (st_ps s) + 1) /\ current (st_ps s') = current (st_ps s) /\
    p_context y - f = p_context x - p_stack x /\ in_stack f (p_context y) /\
    ld32 (st_mem s') (p_context x + reg_off EAX) = u32 (p_pid y) /\
    ld32 (st_mem s') (p_context y + reg_off EAX) = 0 /\
    stack_copied H W s x f l s'.
Proof.
  intros ok inside Hp walk new y.
  assert (walk_spares H s1 x f l) as walk' by (eapply walk_spares_weaken; [|exact walk]; intros a Ha; now left).
  destruct (sys_fork_spec H n V s p x i f s1 W ok l walk' Hp) as (s' & E & Hs').
  destruct Hs' as (n' & q & F1 & F2 & F3 & F4 & F5 & F6 & F7 & Hag & _).
  destruct (child_context H n V s p x i f s1 W ok inside) as (C0 & C1 & C2).
  destruct (forked_answers H n V s p x i f s1 W ok inside l s' Hag) as [R1 R2].
  exists s', n', q. repeat (split; [assumption|]).
  split; [unfold y; cbn; lia|]. split; [unfold in_stack, y, SZ_CONTEXT in *; cbn; lia|].
  split; [exact R1|]. split; [exact R2|]. split.
  - intros a. eapply forked_byte; eassumption.
  - intros r. eapply forked_reg; eassumption.
  - intros l1 b l2. eapply forked_frame; eassumption.
  - intros a. eapply forked_rest; eassumption.
Qed.

(** The same caller, with free nodes for the queues; its frame pointer leads to one frame,
    the outermost; the word at the distance of the stacks happens to end the walk. *)
Definition one_frame (m : memory) : memory := st32 (st32 m (0x20100 + reg_off EBP) 0x20180) 0x10000 0xffff0000.

Definition fork_example : kstate :=
  up_mem one_frame (up_stk (set_free_stacks 0x30000)
    (proc_example ([example_pcb 1 STATE_WAITING 0 0; caller_pcb] ++ replicate 23 pcb0) (pcb_addr 1))).

Lemma proc_inv_stacks {L : Layout} H n V g s : proc_inv H n V s -> proc_inv H n V (up_stk g s).
Proof. now apply proc_inv_same. Qed.

Lemma fork_example_parts : free_stacks (st_stk fork_example) = 0x30000 /\
  stack_offset caller_pcb 0x30000 = 0x10000 /\ child_context_at caller_pcb 0x30000 = 0x30100.
Proof. repeat split. Qed.

Lemma low_apart a : a + 4 <= 0x100000 -> word_apart example_region a.
Proof. intros Ha j Hj Hr%example_region_high. lia. Qed.

Lemma fork_example_ok : fork_ok example_region 512 proc_queues fork_example (pcb_addr 1) caller_pcb 2 0x30000
  (recycled fork_example) (in_stack 0x30000).
Proof.
  assert (forall a, in_stack 0x30000 a -> 0x30000 <= a < 0x32000) as Hst
    by (unfold in_stack, SZ_STACK, STACK_PAGES, SZ_PAGE; lia).
  split.
  - unfold fork_example. rewrite up_mem_const. apply proc_inv_write.
    + apply proc_inv_stacks. now apply proc_example_inv.
    + unfold one_frame. etransitivity; [apply (agree_word example_region _ (0x20100 + reg_off EBP)), low_apart; discriminate|].
      apply agree_word, low_apart. discriminate.
  - reflexivity.
  - discriminate.
  - exists pcb0. split; [reflexivity|]. split; [reflexivity|].
    intros [|[|j]] y Hj Hy; [injection Hy as <-; reflexivity..|lia].
  - vm_compute. apply not_elem_of_nil.
  - apply given_recycled; [reflexivity| |reflexivity]. split; [discriminate|]. split; [discriminate|reflexivity].
  - split; [discriminate|]. split; [discriminate|reflexivity].
  - intros j Hj Ha%Hst. change (p_context caller_pcb) with 0x20100 in Ha. unfold SZ_CONTEXT in Ha. lia.
  - intros j Hj Hr%example_region_high. change (p_context caller_pcb) with 0x20100 in Hr. unfold SZ_CONTEXT in Hj. lia.
  - intros j Hj Hr%example_region_high. rewrite (proj2 (proj2 fork_example_parts)) in Hr. unfold SZ_CONTEXT in Hj. lia.
  - intros a Ha%Hst Hr%example_region_high. lia.
Qed.

Lemma fork_example_inside : fork_inside caller_pcb (in_stack 0x30000).
Proof.
  split; [vm_compute; split; congruence|].
  unfold in_stack, SZ_STACK, STACK_PAGES, SZ_PAGE. intros a. cbn [caller_pcb p_stack set_p_context set_p_stack]. lia.
Qed.

(** The walk visits the frame and the word at the distance of the stacks. *)
Lemma fork_example_walk : walk_spares (fun a => example_region a \/ in_contexts caller_pcb 0x30000 a)
  (recycled fork_example) caller_pcb 0x30000 [0x30180; 0x10000].
Proof.
  destruct fork_example_parts as (_ & Eo & Ec).
  assert (forall a, a + 4 <= 0x100000 -> (a + 4 <= 0x20100 \/ 0x20100 + SZ_CONTEXT <= a) ->
    (a + 4 <= 0x30100 \/ 0x30100 + SZ_CONTEXT <= a) ->
    word_apart (fun a => example_region a \/ in_contexts caller_pcb 0x30000 a) a) as Hap.
  { intros a H1 H2 H3 j Hj [Hr|[Hr|Hr]]; [apply (low_apart a H1 j Hj Hr)| |rewrite Ec in Hr; lia].
    change (p_context caller_pcb) with 0x20100 in Hr. lia. }
  split.
  - rewrite Eo. assert (walk_start (recycled fork_example) caller_pcb 0x30000 = 0x30180) as -> by (vm_compute; reflexivity).
    set (m := walk_memory (recycled fork_example) caller_pcb 0x30000).
    assert (ld32 (bump 0x10000 0x30180 m) 0x30180 = 0x10000) as E1 by (vm_compute; reflexivity).
    assert (ld32 (bump 0x10000 0x10000 (bump 0x10000 0x30180 m)) 0x10000 = 0) as E2 by (vm_compute; reflexivity).
    clearbody m. constructor; [discriminate|]. rewrite E1. constructor; [discriminate|]. rewrite E2. constructor.
  - reflexivity.
  - intros b [->| ->%list_elem_of_singleton]%elem_of_cons; apply Hap; (left; discriminate) || (right; discriminate) || discriminate.
  - apply Hap; (left; discriminate) || (right; discriminate) || discriminate.
Qed.

Lemma sys_fork_creates_witness : exists s' n',
  sys_fork (pcb_addr 1) fork_example = Ret tt s' /\
  proc_inv example_region n' (<[0%nat := (NULL, [pcb_addr 2])]> proc_queues) s' /\
  pcb_at s' (pcb_addr 2) =
    Some (set_p_state STATE_READY (child_pcb (pcb_addr 1) 0x30000 4 0 0x30100)) /\
  ld32 (st_mem s') (0x20100 + reg_off EAX) = 4 /\ ld32 (st_mem s') (0x30100 + reg_off EAX) = 0 /\
  ld32 (st_mem s') (0x30100 + reg_off EBP) = 0x30180 /\ ld32 (st_mem s') 0x30180 = 0x10000.
Proof.
  assert (child fork_example (pcb_addr 1) caller_pcb 0x30000 = child_pcb (pcb_addr 1) 0x30000 4 0 0x30100) as Ec
    by (vm_compute; reflexivity).
  destruct (sys_fork_creates _ _ _ _ _ _ _ _ _ _ _ fork_example_ok fork_example_inside
    ltac:(rewrite Ec; unfold valid_prio; cbn; lia) fork_example_walk)
    as (s' & n' & q & E & _ & Hl & Hinv & Hc & _ & _ & _ & _ & _ & R1 & R2 & [_ C2 C3 _]).
  destruct fork_example_parts as (_ & Eo & Ecx).
  assert (ld32 (st_mem fork_example) (0x20100 + reg_off EBP) = 0x20180 /\ ld32 (st_mem fork_example) 0x20180 = 0) as [M1 M2]
    by (vm_compute; split; reflexivity).
  pose proof (C2 EBP ltac:(discriminate)) as R3. cbv beta iota in R3. rewrite Ecx, Eo in R3.
  change (p_context caller_pcb) with 0x20100 in R3. rewrite M1 in R3.
  pose proof (C3 [] 0x30180 [0x10000] eq_refl ltac:(discriminate) ltac:(discriminate)
    ltac:(intros w [->| ->%list_elem_of_singleton]%elem_of_cons; left; discriminate)) as R4.
  change (p_stack caller_pcb + (0x30180 - 0x30000)) with 0x20180 in R4. rewrite M2, Eo in R4.
  rewrite Ec in *. injection Hl as <-. exists s', n'.
  split; [exact E|]. split; [exact Hinv|]. split; [exact Hc|]. split; [exact R1|]. split; [exact R2|].
  split; [exact R3|exact R4].
Defined.

(** C22: The walk does not stop at the outermost frame.  On the copied chain of frames
    of any program, which ends with a frame whose saved EBP is 0, the offset is added
    to that 0 as well; so if the walk returns at all, it has gone on at the address
    [offset]: it has added the offset to the word there, outside the child's stack, and
    its result is that of the loop continued with that word. *)
Theorem fork_walk_escapes off bp l s r s' :
  u32 off <> 0 -> chain off (st_mem s) bp l -> fix_ebp_chain bp off s = Ret r s' ->
  let s1 := up_mem (bump_all off l) s in
  loop (frame_step off) (u32 (ld32 (st_mem s1) (u32 off) + off), u32 off)
    (up_mem (bump off (u32 off)) s1) = Ret r s'.
Proof. exact (chain_escapes off bp l s r s'). Qed.

(** Two frames in the stack at 0x30000, copied from 0x20000; the word at the offset
    happens to end the walk. *)
Definition walk_example : kstate :=
  boot_state (st32 (st32 (st32 ∅ 0x30100 0x20200) 0x30200 0) 0x10000 0xffff0000) (fun _ _ => 0).

Lemma fork_walk_escapes_witness :
  exists s', fix_ebp_chain 0x30100 0x10000 walk_example = Ret 0x10000 s' /\
    loop (frame_step 0x10000) (0, 0x10000)
      (up_mem (bump 0x10000 0x10000) (up_mem (bump_all 0x10000 [0x30100; 0x30200]) walk_example)) =
    Ret 0x10000 s'.
Proof.
  eexists. split; [vm_compute; reflexivity|].
  apply (fork_walk_escapes 0x10000 0x30100 [0x30100; 0x30200] walk_example).
  - discriminate.
  - constructor; [discriminate| |constructor; [discriminate|reflexivity]].
    intros b ->%list_elem_of_singleton. left. discriminate.
  - vm_compute. reflexivity.
Defined.
