(* ===== verification/Kernel.v ===== *)
(** kernel/support.c, lib/kextras.c, kernel/kernel.c and the interrupt path of
    kernel/isrs.S: the fault handlers, the interrupt tables, the panic report,
    the system initialisation, and what happens from an interrupt to the
    restoration of the user context. *)

From S2P Require Import Prelude Memory State Lib Sio Cio Kmem Queues Stacks Procs Drivers Clock Syscalls.

Open Scope kernel_scope.

(** * Constants (x86/arch.h, x86/pic.h, memory.h) *)

Definition PIC1_DATA : Z := 0x21.
Definition PIC2_CMD : Z := 0xa0.
Definition PIC2_DATA : Z := 0xa1.
Definition PIC_CW1_INIT : Z := 0x10.
Definition PIC_CW1_NEED4 : Z := 0x01.
Definition PIC1_CW2_VECBASE : Z := 0x20.
Definition PIC2_CW2_VECBASE : Z := 0x28.
Definition PIC1_CW3_SEC_IRQ2 : Z := 0x04.
Definition PIC2_CW3_SEC_ID : Z := 0x02.
Definition PIC_CW4_PM86 : Z := 0x01.
Definition PIC_MASK_NONE : Z := 0x00.
Definition IDT_ADDR : Z := 0x2500.
Definition IDT_PRESENT : Z := 0x8000.
Definition IDT_DPL_0 : Z := 0x0000.
Definition IDT_INT32_GATE : Z := 0x0e00.
Definition VEC_MYSTERY : Z := 0x27.
Definition VEC_INVALID_OPCODE : Z := 0x06.
Definition VEC_GENERAL_PROTECTION : Z := 0x0d.
Definition USER_BLOB_DATA : Z := 0x7ff4.
Definition DBLV : Z := 9999.
Definition TRACE : Z := 0x100.

(** Assignment through a [short] pointer. *)
Definition store16 (a v : Z) : K unit :=
  store8 a v ;; store8 (a + 1) (Z.shiftr v 8).

Section Kernel.
Context {L : Layout}.

(** * support.c *)

(** [panic]: interrupts off, a message, and an endless loop. *)
Definition panic {A} (reason : list Z) : K A :=
  modify (up_dev (fun d => set_eflags (Z.ldiff (eflags d) EFL_IF) d)) ;;
  cio_printf ([10] ++ chars "PANIC: %s" ++ [10] ++ chars "Halting...")%list
    [AS reason] ;;
  panics "panic".

Definition unexpected_handler (vector code : Z) : K unit :=
  cio_printf ([10] ++ chars "** UNEXPECTED vector 0x%02x, code=%d" ++ [10])%list
    [AI vector; AI code] ;;
  panic (chars "Unexpected interrupt").

(** The part the two fault handlers share. *)
Definition fault_report : K unit :=
  cur <- ps current ;;
  cs <- REG cur CS ;;
  eip <- REG cur EIP ;;
  cio_printf (chars "ADDRESS: CS %04x EIP %08x" ++ [10])%list [AI cs; AI eip] ;;
  cur <- ps current ;;
  pcb_dump (Some (chars "Current")) cur true ;;
  c <- pcb_get cur p_context ;;
  ctx_dump (Some (chars "current")) c.

Definition illop_fault (vector code : Z) : K unit :=
  cio_printf ([10] ++ chars "ILL OP FAULT vec %02x code %d" ++ [10])%list
    [AI vector; AI code] ;;
  fault_report ;;
  panic (chars "Illegal Opcode fault").

Definition gp_fault (vector code : Z) : K unit :=
  cio_printf ([10] ++ chars "GP FAULT vec %02x code %d")%list [AI vector; AI code] ;;
  (if negb (code =? 0) then
     cio_printf (chars " -> sel/idt number: %08x" ++ [10])%list [AI code]
   else cio_putchar 10) ;;
  fault_report ;;
  panic (chars "General Protection fault").

Definition default_handler (vector code : Z) : K unit :=
  cio_printf ([10] ++ chars "** DEFAULT vector 0x%02x, code=%d" ++ [10])%list
    [AI vector; AI code] ;;
  if (0x20 <=? vector) && (vector <? 0x30) then
    when (0x27 <? vector) (outb PIC2_CMD PIC_EOI) ;;
    outb PIC1_CMD PIC_EOI
  else panic (chars "Unexpected " ++ [34] ++ chars "expected" ++ [34]
              ++ chars " interrupt!")%list.

Definition mystery_handler (vector code : Z) : K unit :=
  cio_printf ([10] ++ chars "** MYSTERY vector 0x%02x, code=%d" ++ [10])%list
    [AI vector; AI code] ;;
  if (0x20 <=? vector) && (vector <? 0x30) then
    when (0x27 <? vector) (outb PIC2_CMD PIC_EOI) ;;
    outb PIC1_CMD PIC_EOI
  else outb PIC1_CMD PIC_EOI.

Definition init_pic : K unit :=
  outb PIC1_CMD (Z.lor PIC_CW1_INIT PIC_CW1_NEED4) ;;
  outb PIC2_CMD (Z.lor PIC_CW1_INIT PIC_CW1_NEED4) ;;
  outb PIC1_DATA PIC1_CW2_VECBASE ;;
  outb PIC2_DATA PIC2_CW2_VECBASE ;;
  outb PIC1_DATA PIC1_CW3_SEC_IRQ2 ;;
  outb PIC2_DATA PIC2_CW3_SEC_ID ;;
  outb PIC1_DATA PIC_CW4_PM86 ;;
  outb PIC2_DATA PIC_CW4_PM86 ;;
  outb PIC1_DATA PIC_MASK_NONE ;;
  outb PIC2_DATA PIC_MASK_NONE.

(** An [IDT_Gate]: four halfwords. *)
Definition set_idt_entry (entry h : Z) : K unit :=
  let g := IDT_ADDR + 8 * entry in
  store16 g (Z.land h 0xffff) ;;
  store16 (g + 2) 0x10 ;;
  store16 (g + 4) (Z.lor (Z.lor IDT_PRESENT IDT_DPL_0) IDT_INT32_GATE) ;;
  store16 (g + 6) (Z.land (Z.shiftr h 16) 0xffff).

Definition init_idt : K unit :=
  for_ 256 (fun i =>
    set_idt_entry i (isr_stub_addr i) ;;
    install_isr i HUnexpected ;;
    ret tt) ;;
  install_isr VEC_KBD HDefault ;;
  install_isr VEC_TIMER HDefault ;;
  install_isr VEC_MYSTERY HMystery ;;
  install_isr VEC_INVALID_OPCODE HIllop ;;
  install_isr VEC_GENERAL_PROTECTION HGp ;;
  ret tt.

Definition init_interrupts : K unit := init_idt ;; init_pic.

(** * kextras.c *)

Definition backtrace (ebp args : Z) : K unit :=
  cio_puts (chars "Trace:  ") ;;
  if ebp =? NULL then cio_puts (chars "NULL ebp, no trace possible" ++ [10])%list
  else
    cio_putchar 10 ;;
    loop (fun ebp =>
      if negb (ebp =? NULL) then
        r <- load32 (u32 (ebp + 4)) ;;
        cio_printf (chars " ebp %08x ret %08x args") [AI ebp; AI r] ;;
        loop (fun i =>
          if i <? args then
            a <- load32 (u32 (ebp + 4 * (2 + i))) ;;
            cio_printf (chars " [%u] %08x") [AI (i + 1); AI a] ;;
            ret (inl (i + 1))
          else ret (inr tt)) 0 ;;
        cio_putchar 10 ;;
        nx <- load32 ebp ;;
        ret (inl nx)
      else ret (inr tt)) ebp.

(** [kpanic] called with the frame pointer [ebp]; the report it makes before
    it halts.  (Elsewhere in the model a failed assertion stops at the call
    of [kpanic], in the state the report would describe.) *)
Definition kpanic_report (msg : option (list Z)) (ebp : Z) : K unit :=
  cio_puts ([10] ++ chars "***** KERNEL PANIC *****" ++ [10])%list ;;
  (match msg with
   | Some m => cio_printf (chars "%s" ++ [10])%list [AS m]
   | None => ret tt
   end) ;;
  cur <- ps current ;;
  pcb_dump (Some (chars "Current")) cur true ;;
  ptable_dump_stats false ;;
  rq <- ps ready ;;
  q <- aget "ready" rq PRIO_HIGH ;; que_dump (Some (chars "RH")) q ;;
  q <- aget "ready" rq PRIO_STD ;; que_dump (Some (chars "RS")) q ;;
  q <- aget "ready" rq PRIO_LOW ;; que_dump (Some (chars "RL")) q ;;
  q <- ps sleeping ;; que_dump (Some (chars "S")) q ;;
  q <- ps zombie ;; que_dump (Some (chars "Z")) q ;;
  q <- ps blocked ;; que_dump (Some (chars "B")) q ;;
  q <- ps sioread ;; que_dump (Some (chars "I")) q ;;
  cio_puts ([10; 10] ++ chars "Panic information:" ++ [10])%list ;;
  ptable_dump (Some (chars "Full process table")) true ;;
  ctx_dump_all (Some (chars "Full context dump")) ;;
  backtrace ebp 3 ;;
  modify (up_dev (fun d => set_eflags (Z.ldiff (eflags d) EFL_IF) d)) ;;
  cio_printf (chars "*** HALTING") [].

Definition kpanic {A} (msg : option (list Z)) (ebp : Z) : K A :=
  kpanic_report msg ebp ;;
  panics "kpanic".

(** * isrs.S *)

(** The second-level handler that a table entry designates.  The kernel gives
    the console no notification callback. *)
Definition run_handler (h : handler) (vector code : Z) : K unit :=
  match h with
  | HNone => undef "call of a NULL handler"
  | HUnexpected => unexpected_handler vector code
  | HDefault => default_handler vector code
  | HMystery => mystery_handler vector code
  | HIllop => illop_fault vector code
  | HGp => gp_fault vector code
  | HKeyboard =>
      keyboard_isr (fun _ _ => undef "call through a bad function pointer") vector code
  | HClock => clk_isr vector code
  | HSio => sio_isr vector code
  | HSys => sys_isr vector code
  end.

Definition context_regs : list reg :=
  [SS; GS; FS; ES; DS; EDI; ESI; EBP; ESP; EBX; EDX; ECX; EAX; VECTOR; CODE; EIP; CS;
   EFLAGS].

Definition context_fmt : list Z :=
  chars " ss=%08x  gs=%08x  fs=%08x  es=%08x  ds=%08x" ++ [10] ++
  chars "edi=%08x esi=%08x ebp=%08x esp=%08x ebx=%08x" ++ [10] ++
  chars "edx=%08x ecx=%08x eax=%08x vec=%08x cod=%08x" ++ [10] ++
  chars "eip=%08x  cs=%08x efl=%08x" ++ [10].

(** [cio_printf_at] finds its arguments on the stack: they are the words of
    the context itself. *)
Fixpoint context_args (c : Z) (rs : list reg) : K (list arg) :=
  match rs with
  | [] => ret []
  | r :: rs => v <- ctx c r ;; l <- context_args c rs ;; ret (AI v :: l)
  end.

(** The address of the context that is restored. *)
Definition isr_restore : K Z :=
  cur <- ps current ;;
  c <- pcb_get cur p_context ;;
  ctx_sanity_check c ;;
  args <- context_args c context_regs ;;
  cio_printf_at 0 1 context_fmt args ;;
  ret c.

(** [esp] points to the context that the entry stub has pushed on the stack of
    the interrupted process. *)
Definition isr_save (esp : Z) : K Z :=
  vector <- load32 (esp + reg_off VECTOR) ;;
  code <- load32 (esp + reg_off CODE) ;;
  cur <- ps current ;;
  pcb_set cur (set_p_context esp) ;;
  t <- krn isr_table ;;
  h <- aget "isr_table index" t vector ;;
  run_handler h (s32 vector) (s32 code) ;;
  isr_restore.

(** * kernel.c *)

Definition kreport (dtrace : bool) : K unit :=
  cio_puts ([10] ++ chars "-------------------------------" ++ [10])%list ;;
  cio_printf (chars "Config:  N_PROCS = %d") [AI (Z.of_nat N_PROCS)] ;;
  cio_printf (chars " N_PRIOS = %d") [AI (Z.of_nat N_PRIOS)] ;;
  cio_printf (chars " N_STATES = %d") [AI (Z.of_nat N_STATES)] ;;
  cio_printf (chars " CLOCK = %dHz" ++ [10])%list [AI CLOCK_FREQ] ;;
  cio_puts (chars "Options:  R-uint CX") ;;
  cio_printf (chars " DBLV = %d") [AI DBLV] ;;
  cio_printf (chars " TRACE = 0x%04x" ++ [10])%list [AI TRACE] ;;
  when dtrace (cio_puts (chars "Tracing: INIT")) ;;
  cio_putchar 10.

(** The creation of the first process, from the allocation of its PCB to its
    dispatching. *)
Definition create_init : K unit :=
  r <- pcb_alloc ;;
  (match snd r with Some p => ps_set (set_init_pcb p) | None => ret tt end) ;;
  assert "main: pcb_alloc" (fst r =? E_SUCCESS) ;;
  ip <- ps init_pcb ;;
  pcb_set ip (set_p_pid PID_INIT) ;;
  pcb_set ip (set_p_state STATE_NEW) ;;
  pcb_set ip (set_p_priority PRIO_HIGH) ;;
  r <- stk_alloc ;;
  assert "main: stk_alloc" (fst r =? E_SUCCESS) ;;
  let stk := default NULL (snd r) in
  pcb_set ip (set_p_stack stk) ;;
  ul <- krn user_locs ;;
  entry <- load32 (u32 (ul + 4 * ULOC_INIT)) ;;
  c <- stk_setup stk entry init_args_addr ;;
  pcb_set ip (set_p_context c) ;;
  assert "main: context" (negb (c =? NULL)) ;;
  pcb_set ip (set_p_parent ip) ;;
  schedule ip ;;
  dispatch.

Definition segment_report : K unit :=
  cio_printf (chars "Text: %08x to %08x" ++ [10])%list
    [AI (section_addr 0); AI (section_addr 1)] ;;
  cio_printf (chars "Rdat: %08x to %08x" ++ [10])%list
    [AI (section_addr 2); AI (section_addr 3)] ;;
  cio_printf (chars "Data: %08x to %08x" ++ [10])%list
    [AI (section_addr 4); AI (section_addr 5)] ;;
  cio_printf (chars "BSS:  %08x to %08x" ++ [10])%list
    [AI (section_addr 6); AI (section_addr 7)].

Definition main : K Z :=
  w <- load16 USER_BLOB_DATA ;; krn_set (set_user_offset w) ;;
  w <- load16 (USER_BLOB_DATA + 2) ;; krn_set (set_user_segment w) ;;
  w <- load16 (USER_BLOB_DATA + 4) ;; krn_set (set_user_sectors w) ;;
  init_interrupts ;;
  cio_init NULL ;;
  segment_report ;;
  seg <- krn user_segment ;;
  off <- krn user_offset ;;
  krn_set (set_user_locs (u32 (Z.shiftl seg 4 + off))) ;;
  sec <- krn user_sectors ;;
  ul <- krn user_locs ;;
  cio_printf (chars "User blob %u sectors @ %04x:%04x (%08x)" ++ [10])%list
    [AI sec; AI seg; AI off; AI ul] ;;
  cio_puts (chars "System initialization starting." ++ [10])%list ;;
  cio_puts (chars "-------------------------------" ++ [10])%list ;;
  cio_puts (chars "Modules:") ;;
  km_init ;;
  que_init ;;
  sio_init ;;
  pcb_init ;;
  stk_init ;;
  clk_init ;;
  sys_init ;;
  cio_opt_set CIO_OPT_DUP ;;
  cio_puts ([10] ++ chars "Module initialization complete." ++ [10])%list ;;
  kreport true ;;
  cio_puts (chars "-------------------------------" ++ [10])%list ;;
  cio_puts (chars "Creating initial user process...") ;;
  create_init ;;
  cio_puts (chars " done." ++ [10])%list ;;
  cio_clearscreen ;;
  cio_setscroll 0 7 99 99 ;;
  cio_clearscroll ;;
  cio_puts_at 0 0 (42 :: replicate 79 32) ;;
  cio_puts_at 0 6 (replicate 80 61) ;;
  sio_flush (Z.lor SIO_RX SIO_TX) ;;
  sio_enable SIO_RX ;;
  cio_puts (chars "System initialization complete." ++ [10])%list ;;
  cio_puts (chars "-------------------------------" ++ [10])%list ;;
  ret 0.
End Kernel.
