(* ===== verification/SysLogic.v ===== *)
(** Reasoning about whole handlers: code that cannot stop the system, the ways in
    which the system may stop, and what holds when a handler returns. *)

From S2P Require Import Prelude Memory State Lib Sio Cio Frames Kmem Queues Stacks Procs ProcsSpec Drivers Clock ClockSpec Syscalls Kernel.

Open Scope kernel_scope.

(** * The ways in which the system may stop *)

(** The messages of the assertions that can fail, and of the panics. *)
Definition known_stops : list string :=
  ["dispatch: p"; "sys_exit: parent is pcb"; "sys_read: que_insert"; "pcb_find_pid: pid";
   "schedule: priority"; "panic"; "sio isr: IIR"]%string.

(** The accesses that may be outside their object: the character buffers of the drivers
    and of formatted output; the priority of a process that does not exist, which is read
    through the NULL pointer; the padding of a table entry that is printed after a fault;
    the callback of the keyboard, if one were installed. *)
Definition known_undefs : list string :=
  ["outbuffer overrun"; "inbuffer overrun"; "input_buffer"; "string overrun";
   "format string overrun"; "format argument"; "tbuf overrun"; "dereference of a bad pcb pointer"; "process table access"; "filler";
   "call through a bad function pointer"]%string.

Definition listed (l : list string) (msg : string) : bool := existsb (String.eqb msg) l.

Lemma listed_elem l msg : listed l msg = true -> msg ∈ l.
Proof. intros (m & Hm & ->%String.eqb_eq)%existsb_exists. now apply list_elem_of_In. Qed.

(** * Code without a failing assertion *)

Definition calm {A} (m : K A) : Prop :=
  forall s, match m s with Panic _ _ => False | Undef why _ => why ∈ known_undefs | _ => True end.

Section Calm.
Lemma calm_ret {A} (a : A) : calm (ret a).
Proof. intros s. exact I. Qed.
Lemma calm_undef {A} why : listed known_undefs why = true -> calm (undef why : K A).
Proof. intros Hw s. now apply listed_elem. Qed.
Lemma calm_gets {A} (f : kstate -> A) : calm (gets f).
Proof. intros s. exact I. Qed.
Lemma calm_modify f : calm (modify f).
Proof. intros s. exact I. Qed.
Lemma calm_inb p : calm (inb p).
Proof. intros s. exact I. Qed.

Lemma calm_aget {A} why (l : list A) i : listed known_undefs why = true -> calm (aget why l i).
Proof. intros Hw%listed_elem s. unfold aget. destruct (0 <=? i); [destruct (l !! Z.to_nat i)|]; exact I || exact Hw. Qed.

Lemma calm_aget_in {A} why (l : list A) i : 0 <= i < Z.of_nat (length l) -> calm (aget why l i).
Proof.
  intros Hi s. unfold aget. destruct (Z.leb_spec 0 i); [|lia].
  destruct (l !! Z.to_nat i) eqn:E; [exact I|]. apply lookup_ge_None in E. lia.
Qed.

Lemma calm_bind {A B} (m : K A) (k : A -> K B) : calm m -> (forall a, calm (k a)) -> calm (bind m k).
Proof. intros Hm Hk s. specialize (Hm s). unfold bind. destruct (m s); [apply Hk|exact Hm..]. Qed.

Lemma calm_when b (m : K unit) : calm m -> calm (when b m).
Proof. destruct b; [auto|]. intros _. apply calm_ret. Qed.

Lemma calm_loop {A B} (body : A -> K (A + B)) a : (forall a, calm (body a)) -> calm (loop body a).
Proof.
  intros Hb. unfold loop. apply calm_bind; [|intros [a'|b]; [intros s; exact I|apply calm_ret]].
  intros s. rewrite loopP_loopN. revert a s.
  induction (Pos.to_nat FUEL) as [|n IH]; intros a s; [exact I|].
  apply calm_bind; [apply Hb|]. intros [a'|b]; [intros s'; apply IH|apply calm_ret].
Qed.

Lemma calm_for n (body : Z -> K unit) i : (forall i, calm (body i)) -> calm (for_from i n body).
Proof.
  intros Hb. revert i. induction n as [|n IH]; intros i; [apply calm_ret|].
  apply calm_bind; [apply Hb|]. intros _. apply IH.
Qed.
End Calm.

Create HintDb calm discriminated.
#[export] Hint Constants Opaque : calm.
#[export] Hint Resolve calm_ret calm_inb : calm.

Ltac calm_step :=
  lazymatch goal with
  | |- calm (bind _ _) => apply calm_bind; [|intros ?]
  | |- calm (when _ _) => apply calm_when
  | |- calm (loop _ _) => apply calm_loop; intros ?
  | |- calm (for_ _ _) => apply calm_for; intros ?
  | |- calm (match ?x with _ => _ end) => destruct x
  | |- calm (let _ := _ in _) => cbv zeta
  | |- calm (undef _) => apply calm_undef; reflexivity
  | |- calm (aget _ _ _) => apply calm_aget; reflexivity
  | |- calm (gets _) => apply calm_gets
  | |- calm (modify _) => apply calm_modify
  | |- calm (km _) => apply calm_gets
  | |- calm (qs _) => apply calm_gets
  | |- calm (ps _) => apply calm_gets
  | |- calm (stk _) => apply calm_gets
  | |- calm (clk _) => apply calm_gets
  | |- calm (sio _) => apply calm_gets
  | |- calm (cio _) => apply calm_gets
  | |- calm (krn _) => apply calm_gets
  | |- calm (load8 _) => apply calm_gets
  | |- calm (load32 _) => apply calm_gets
  | |- calm (ps_set _) => apply calm_modify
  | |- calm (clk_set _) => apply calm_modify
  | |- calm (sio_set _) => apply calm_modify
  | |- calm (cio_set _) => apply calm_modify
  | |- calm (store8 _ _) => apply calm_modify
  | |- calm (store32 _ _) => apply calm_modify
  | |- calm (outb _ _) => apply calm_modify
  | |- calm _ => solve [auto with calm]
  end.
Ltac calm := intros; repeat calm_step.

Lemma calm_sio_enable w : calm (sio_enable w).
Proof. unfold sio_enable. calm. Qed.
#[export] Hint Resolve calm_sio_enable : calm.
Lemma calm_sio_disable w : calm (sio_disable w).
Proof. unfold sio_disable. calm. Qed.
#[export] Hint Resolve calm_sio_disable : calm.
Lemma calm_mem_source b i : calm (mem_source b i).
Proof. unfold mem_source, load_char. calm. Qed.
#[export] Hint Resolve calm_mem_source : calm.
Lemma calm_lit_source l i : calm (lit_source l i).
Proof. unfold lit_source. calm. Qed.
#[export] Hint Resolve calm_lit_source : calm.

Lemma calm_sio_writec c : calm (sio_writec c).
Proof. unfold sio_writec, sio_writec_raw, put_outlast. calm. Qed.
#[export] Hint Resolve calm_sio_writec : calm.
Lemma calm_sio_write src n : (forall i, calm (src i)) -> calm (sio_write src n).
Proof. intros Hs. unfold sio_write, put_outlast. calm. Qed.
#[export] Hint Resolve calm_sio_write : calm.
Lemma calm_convert c ap : calm (convert c ap : K _).
Proof. unfold convert. calm. Qed.
#[export] Hint Resolve calm_convert : calm.

Lemma calm_sprint fmt args : calm (sprint fmt args : K _).
Proof. unfold sprint, sprint_step. calm. Qed.
#[export] Hint Resolve calm_sprint : calm.
Lemma calm_putchar_at x y c : calm (putchar_at x y c).
Proof. unfold putchar_at, vput. calm. Qed.
#[export] Hint Resolve calm_putchar_at : calm.
Lemma calm_setcursor : calm setcursor.
Proof. unfold setcursor. calm. Qed.
#[export] Hint Resolve calm_setcursor : calm.
Lemma calm_newline_dup : calm newline_dup.
Proof. unfold newline_dup. calm. Qed.
#[export] Hint Resolve calm_newline_dup : calm.

Lemma calm_cio_putchar_at x y c : calm (cio_putchar_at x y c).
Proof. unfold cio_putchar_at. calm. Qed.
#[export] Hint Resolve calm_cio_putchar_at : calm.
Lemma calm_blank_row a n : calm (blank_row a n).
Proof. unfold blank_row, vput. calm. Qed.
#[export] Hint Resolve calm_blank_row : calm.
Lemma calm_copy_row a b n : calm (copy_row a b n).
Proof. unfold copy_row, vput, vget. calm. Qed.
#[export] Hint Resolve calm_copy_row : calm.

Lemma calm_cio_scroll n : calm (cio_scroll n).
Proof. unfold cio_scroll, cio_clearscroll. calm. Qed.
#[export] Hint Resolve calm_cio_scroll : calm.

Lemma calm_cio_putchar c : calm (cio_putchar c).
Proof. unfold cio_putchar. calm. Qed.
#[export] Hint Resolve calm_cio_putchar : calm.

Lemma calm_cio_puts l : calm (cio_puts l).
Proof. induction l; cbn [cio_puts]; calm. Qed.
#[export] Hint Resolve calm_cio_puts : calm.
Lemma calm_cio_puts_at x y l : calm (cio_puts_at x y l).
Proof. revert x. induction l; intros x; cbn [cio_puts_at]; calm. Qed.
#[export] Hint Resolve calm_cio_puts_at : calm.
Lemma calm_mypadstr x y s l w a p : calm (mypadstr x y s l w a p).
Proof. unfold mypadstr, mypad. calm. Qed.
#[export] Hint Resolve calm_mypadstr : calm.

Lemma calm_do_printf x y f a : calm (do_printf x y f a).
Proof. unfold do_printf. calm. Qed.
#[export] Hint Resolve calm_do_printf : calm.
Lemma calm_cio_write b n : calm (cio_write b n).
Proof. unfold cio_write, load_char. calm. Qed.
#[export] Hint Resolve calm_cio_write : calm.

Lemma calm_cio_printf f a : calm (cio_printf f a).
Proof. unfold cio_printf. calm. Qed.
#[export] Hint Resolve calm_cio_printf : calm.
Lemma calm_cio_printf_at x y f a : calm (cio_printf_at x y f a).
Proof. unfold cio_printf_at. calm. Qed.
#[export] Hint Resolve calm_cio_printf_at : calm.

Lemma calm_put_char_or_code c : calm (put_char_or_code c).
Proof. unfold put_char_or_code. calm. Qed.
#[export] Hint Resolve calm_put_char_or_code : calm.
Lemma calm_put_msg m : calm (put_msg m).
Proof. unfold put_msg. calm. Qed.
#[export] Hint Resolve calm_put_msg : calm.
Lemma calm_WARNING f g l m : calm (WARNING f g l m).
Proof. unfold WARNING. calm. Qed.
#[export] Hint Resolve calm_WARNING : calm.
Lemma calm_input_scan_code c : calm (input_scan_code c).
Proof.
  unfold input_scan_code. cbv zeta. unfold IS_PRESS, BMASK8. change 0xff with (Z.ones 8). rewrite Z.land_ones by lia.
  set (k := c mod 2 ^ 8). assert (0 <= k < 256) as Hk by (apply Z.mod_pos_bound; lia). clearbody k.
  destruct (Z.eqb_spec (Z.land k 128) 0) as [E|E]; [|calm].
  assert (k < 128).
  { destruct (Z.lt_ge_cases k 128); [assumption|]. exfalso.
    assert (Z.testbit k 7 = true) as Hb.
    { apply Z.testbit_true; [lia|]. replace (k / 2 ^ 7) with 1; [reflexivity|]. apply (Z.div_unique k (2 ^ 7) 1 (k - 128)); lia. }
    assert (Z.testbit (Z.land k 128) 7 = true) as Hb2 by (rewrite Z.land_spec, Hb; reflexivity).
    rewrite E, Z.bits_0 in Hb2. discriminate. }
  assert (forall shift, Z.of_nat (length (scan_code shift)) = 128) as Hlen
    by (intros shift; unfold scan_code; destruct (shift =? 0); reflexivity).
  calm. apply calm_aget_in. rewrite Hlen. lia.
Qed.
#[export] Hint Resolve calm_input_scan_code : calm.

Lemma calm_cio_getchar : calm cio_getchar.
Proof. unfold cio_getchar. calm. Qed.
#[export] Hint Resolve calm_cio_getchar : calm.
Lemma calm_spin_pinwheel : calm spin_pinwheel.
Proof. unfold spin_pinwheel. calm. Qed.
#[export] Hint Resolve calm_spin_pinwheel : calm.

Section CalmProcs.
Context {L : Layout}.

Lemma calm_get_pcb p : calm (get_pcb p).
Proof. intros s. unfold get_pcb. destruct (pcb_slot p); [now apply calm_aget|now apply listed_elem]. Qed.
#[local] Hint Resolve calm_get_pcb : calm.
Lemma calm_pcb_get {A} p (f : pcb_t -> A) : calm (pcb_get p f).
Proof. unfold pcb_get. calm. Qed.
#[local] Hint Resolve calm_pcb_get : calm.
Lemma calm_ARG p n : calm (ARG p n).
Proof. unfold ARG. calm. Qed.
#[local] Hint Resolve calm_ARG : calm.
Lemma calm_REG p r : calm (REG p r).
Proof. unfold REG. calm. Qed.
#[local] Hint Resolve calm_REG : calm.
Lemma calm_pcb_dump m p a : calm (pcb_dump m p a).
Proof. unfold pcb_dump. calm. Qed.
#[local] Hint Resolve calm_pcb_dump : calm.
Lemma calm_ctx_dump m c : calm (ctx_dump m c).
Proof. unfold ctx_dump, ctx. calm. Qed.
#[local] Hint Resolve calm_ctx_dump : calm.
Lemma calm_ctx_sanity_check c : calm (ctx_sanity_check c).
Proof. unfold ctx_sanity_check, ctx. calm. Qed.
#[local] Hint Resolve calm_ctx_sanity_check : calm.
Lemma calm_context_args c rs : calm (context_args c rs).
Proof. induction rs; cbn [context_args]; unfold ctx; calm. Qed.
#[local] Hint Resolve calm_context_args : calm.
Lemma calm_isr_restore : calm isr_restore.
Proof. unfold isr_restore. calm. Qed.
#[local] Hint Resolve calm_isr_restore : calm.
Lemma calm_fault_report : calm fault_report.
Proof. unfold fault_report. calm. Qed.
#[local] Hint Resolve calm_fault_report : calm.
End CalmProcs.
#[export] Hint Resolve calm_get_pcb calm_pcb_get calm_ARG calm_REG calm_pcb_dump calm_ctx_dump calm_isr_restore calm_fault_report : calm.

(** * Reports: code that changes the drivers and the devices only *)

Lemma io_put_char_or_code c : keeps io_only (put_char_or_code c).
Proof. unfold put_char_or_code, cio_printf. io. Qed.
Lemma io_put_msg m : keeps io_only (put_msg m).
Proof. unfold put_msg. io. Qed.
Lemma io_cio_printf f a : keeps io_only (cio_printf f a).
Proof. unfold cio_printf. io. Qed.
Lemma io_cio_printf_at x y f a : keeps io_only (cio_printf_at x y f a).
Proof. unfold cio_printf_at. io. Qed.
Lemma io_input_scan_code c : keeps io_only (input_scan_code c).
Proof. unfold input_scan_code. io. Qed.
#[export] Hint Resolve io_put_char_or_code io_put_msg io_cio_printf io_cio_printf_at io_input_scan_code : io.
Lemma io_cio_getchar : keeps io_only cio_getchar.
Proof. unfold cio_getchar. io. Qed.
Lemma io_sio_disable w : keeps io_only (sio_disable w).
Proof. unfold sio_disable. io. Qed.
#[export] Hint Resolve io_cio_getchar io_sio_disable : io.

Section IoProcs.
Context {L : Layout}.

Lemma io_get_pcb p : keeps io_only (get_pcb p).
Proof. intros s. unfold get_pcb. destruct (pcb_slot p); [apply keeps_aget; exact _|reflexivity]. Qed.
#[local] Hint Resolve io_get_pcb io_pcb_get : io.
Lemma io_ARG p n : keeps io_only (ARG p n).
Proof. unfold ARG. io. Qed.
Lemma io_REG p r : keeps io_only (REG p r).
Proof. unfold REG. io. Qed.
Lemma io_pcb_dump m p a : keeps io_only (pcb_dump m p a).
Proof. unfold pcb_dump. io. apply keeps_for; [exact _|]. io. Qed.
#[local] Hint Resolve io_REG io_pcb_dump : io.
Lemma io_ctx_sanity_check c : keeps io_only (ctx_sanity_check c).
Proof. unfold ctx_sanity_check, ctx. io. Qed.
Lemma io_context_args c rs : keeps io_only (context_args c rs).
Proof. induction rs; cbn [context_args]; unfold ctx; io. Qed.
Lemma io_ctx_dump m c : keeps io_only (ctx_dump m c).
Proof. unfold ctx_dump, ctx. io. Qed.
End IoProcs.
#[export] Hint Resolve io_get_pcb io_pcb_get io_ARG io_REG io_pcb_dump io_ctx_sanity_check io_context_args io_ctx_dump : io.

(** * What holds when a handler returns

    [wp m Q s]: if [m] returns from [s], then [Q] holds of its result and its final
    state; if it stops the system or leaves an object, then in one of the ways listed.
    It says nothing about code that loops for ever. *)

Definition wp {A} (m : K A) (Q : A -> kstate -> Prop) (s : kstate) : Prop :=
  match m s with
  | Ret a s' => Q a s'
  | Panic msg _ => msg ∈ known_stops
  | Undef why _ => why ∈ known_undefs
  | Hang _ => True
  end.

Section Wp.
Implicit Types (s : kstate).

Lemma wp_Ret {A} (m : K A) Q s a s' : m s = Ret a s' -> Q a s' -> wp m Q s.
Proof. unfold wp. now intros ->. Qed.

Lemma wp_returns {A} (m : K A) Q s a s' : wp m Q s -> m s = Ret a s' -> Q a s'.
Proof. unfold wp. intros Hw E. now rewrite E in Hw. Qed.

Lemma wp_stops {A} (m : K A) Q s msg s' : wp m Q s -> m s = Panic msg s' -> msg ∈ known_stops.
Proof. unfold wp. intros Hw E. now rewrite E in Hw. Qed.

Lemma wp_mono {A} (m : K A) (Q Q' : A -> kstate -> Prop) s :
  wp m Q s -> (forall a s', Q a s' -> Q' a s') -> wp m Q' s.
Proof. unfold wp. destruct (m s); auto. Qed.

Lemma wp_bind {A B} (m : K A) (k : A -> K B) Q s :
  wp m (fun a s' => wp (k a) Q s') s -> wp (bind m k) Q s.
Proof. unfold wp, bind. destruct (m s); auto. Qed.

Lemma wp_seq {A B} (m : K A) (k : A -> K B) (R : A -> kstate -> Prop) Q s :
  wp m R s -> (forall a s', R a s' -> wp (k a) Q s') -> wp (bind m k) Q s.
Proof. intros Hm Hk. apply wp_bind. eapply wp_mono; [exact Hm|exact Hk]. Qed.

Lemma wp_step {A B} (m : K A) (k : A -> K B) Q s a s' :
  m s = Ret a s' -> wp (k a) Q s' -> wp (bind m k) Q s.
Proof. intros E Hk. apply wp_bind. eapply wp_Ret; [exact E|exact Hk]. Qed.

Lemma wp_eq {A} (m : K A) Q s o : m s = o -> match o with Ret a s' => Q a s' | Panic msg _ => msg ∈ known_stops | Undef why _ => why ∈ known_undefs | Hang _ => True end -> wp m Q s.
Proof. unfold wp. now intros ->. Qed.

Lemma wp_ext {A} (m m' : K A) Q s s' : m s = m' s' -> wp m' Q s' -> wp m Q s.
Proof. unfold wp. now intros ->. Qed.

Lemma wp_ret {A B} (a : A) (k : A -> K B) Q s : wp (k a) Q s -> wp (bind (ret a) k) Q s.
Proof. auto. Qed.

Lemma wp_gets {A B} (f : kstate -> A) (k : A -> K B) Q s : wp (k (f s)) Q s -> wp (bind (gets f) k) Q s.
Proof. auto. Qed.

Lemma wp_ps {A B} (f : procs_t -> A) (k : A -> K B) Q s : wp (k (f (st_ps s))) Q s -> wp (bind (ps f) k) Q s.
Proof. auto. Qed.

Lemma wp_load32 {B} a (k : Z -> K B) Q s : wp (k (ld32 (st_mem s) a)) Q s -> wp (bind (load32 a) k) Q s.
Proof. auto. Qed.

Lemma wp_assert {B} msg b (k : unit -> K B) Q s :
  b = true -> wp (k tt) Q s -> wp (bind (assert msg b) k) Q s.
Proof. now intros ->. Qed.

(** An assertion that may fail. *)
Lemma wp_check {B} msg b (k : unit -> K B) Q s :
  msg ∈ known_stops -> (b = true -> wp (k tt) Q s) -> wp (bind (assert msg b) k) Q s.
Proof. intros Hm Hk. destruct b; [now apply Hk|]. exact Hm. Qed.

Lemma wp_panics {A} msg (Q : A -> kstate -> Prop) s : msg ∈ known_stops -> wp (panics msg) Q s.
Proof. auto. Qed.

Lemma wp_undef {A} why (Q : A -> kstate -> Prop) s : why ∈ known_undefs -> wp (undef why) Q s.
Proof. auto. Qed.

(** Code that keeps a relation and cannot stop the system. *)
Lemma wp_keeps {A} (R : kstate -> kstate -> Prop) (m : K A) Q s :
  keeps R m -> calm m -> (forall a s', R s s' -> Q a s') -> wp m Q s.
Proof.
  intros Hm Hc HQ. specialize (Hm s). specialize (Hc s). unfold wp.
  destruct (m s); cbn [end_state] in Hm; [now apply HQ|contradiction|exact Hc|exact I].
Qed.

Lemma wp_loop {A B} (body : A -> K (A + B)) (Inv : A -> kstate -> Prop) (Q : B -> kstate -> Prop) a s :
  Inv a s ->
  (forall a s, Inv a s -> wp (body a) (fun r s' => match r with inl a' => Inv a' s' | inr b => Q b s' end) s) ->
  wp (loop body a) Q s.
Proof.
  intros HI Hb. unfold loop. eapply wp_seq.
  - instantiate (1 := fun r s' => match r with inl a' => Inv a' s' | inr b => Q b s' end).
    unfold wp. rewrite loopP_loopN. revert a s HI. generalize (Pos.to_nat FUEL) as n.
    induction n as [|n IH]; intros a s HI; [exact HI|].
    cbn [loopN]. change (wp (bind (body a) (fun r => match r with inl a' => loopN n body a' | inr b => ret (inr b) end))
      (fun r s' => match r with inl a' => Inv a' s' | inr b => Q b s' end) s).
    eapply wp_seq; [apply Hb, HI|]. intros [a'|b] s'; [apply IH|]. intros HQ. exact HQ.
  - intros [a'|b] s' HQ; [exact I|exact HQ].
Qed.

Context {L : Layout}.

Lemma wp_pcb_get {A B} p (f : pcb_t -> A) (k : A -> K B) Q s :
  (forall x, pcb_at s p = Some x -> wp (k (f x)) Q s) -> wp (bind (pcb_get p f) k) Q s.
Proof.
  intros Hk. destruct (pcb_at s p) as [x|] eqn:E.
  - eapply wp_step; [apply (pcb_get_at s p x f E)|]. now apply Hk.
  - apply wp_bind. unfold pcb_at in E. unfold pcb_get. apply wp_bind. unfold wp at 1, get_pcb.
    assert ("process table access"%string ∈ known_undefs) as Hw by now apply listed_elem.
    destruct (pcb_slot p) as [i|]; [|now apply listed_elem]. unfold aget. destruct (0 <=? i); [|exact Hw].
    now rewrite E.
Qed.

Lemma wp_pcb_get_at {A B} p (f : pcb_t -> A) (k : A -> K B) Q s x :
  pcb_at s p = Some x -> wp (k (f x)) Q s -> wp (bind (pcb_get p f) k) Q s.
Proof. intros E. apply wp_step. now apply pcb_get_at. Qed.

Lemma wp_pcb_set {B} p f (k : unit -> K B) Q s x :
  pcb_at s p = Some x -> wp (k tt) Q (with_pcb p (f x) s) -> wp (bind (pcb_set p f) k) Q s.
Proof. intros E. apply wp_step. now apply pcb_set_at. Qed.
End Wp.

Lemma known_stop msg : listed known_stops msg = true -> msg ∈ known_stops.
Proof. apply listed_elem. Qed.
