(* ===== verification/SysInv.v ===== *)
(** The invariant of the whole kernel: where each process is, which processes are in
    transit inside a handler, and the family tree. *)

From Stdlib Require Import Sorting.Sorted.
From S2P Require Import Prelude Memory State Lib LibMem Sio Cio Frames Kmem Queues QueuesInv QueuesSpec QueuesPages Stacks Procs ProcsSpec Drivers Clock ClockSpec Syscalls SyscallsSpec CreateSpec ForkSpec Kernel SysLogic.

Open Scope kernel_scope.

Definition used (x : pcb_t) : Prop := p_state x <> STATE_UNUSED.
(** A process that can be a parent. *)
Definition alive (x : pcb_t) : Prop := used x /\ p_state x <> STATE_ZOMBIE.

Section SysInv.
Context {L : Layout}.
Implicit Types (V : list (Z * list Z)) (T : list Z).

(** The saved context and the link word of the stack do not meet the nodes. *)
Record pcb_ok (H : Z -> Prop) (x : pcb_t) : Prop := PcbOk {
  po_prio : valid_prio x;
  po_quantum : 0 <= p_quantum x < 256;
  po_context : context_apart H x;
  po_stack : p_stack x <> NULL -> word_apart H (p_stack x)
}.

(** Every process has a living parent; the first process is its own. *)
Record family (s : kstate) : Prop := Family {
  fa_parent : forall p x, pcb_at s p = Some x -> used x ->
    exists y, pcb_at s (p_parent x) = Some y /\ alive y;
  fa_init : exists x, pcb_at s (init_pcb (st_ps s)) = Some x /\ alive x /\
    p_parent x = init_pcb (st_ps s)
}.

Definition settled V (p : Z) (x : pcb_t) : Prop :=
  p ∈ queued V \/ p_state x = STATE_UNUSED \/ p_state x = STATE_WAITING.

(** [T]: the processes that are in transit, outside the queues. *)
Record sys_at (H : Z -> Prop) T (n : nat) V (s : kstate) : Prop := SysAt {
  sa_proc : proc_inv H n V s;
  sa_idle : forall i c l, (5 <= i)%nat -> V !! i = Some (c, l) -> l = [];
  sa_flags : forall i, (i < 7)%nat -> queue_free (st_qs s) !! i = Some QUE_INUSE;
  sa_pcbs : forall p x, pcb_at s p = Some x -> used x -> pcb_ok H x;
  sa_out : forall p, p ∈ T -> ~ p ∈ queued V;
  sa_rest : forall p x, pcb_at s p = Some x -> p ∈ T \/ settled V p x;
  sa_family : family s
}.

Definition sys (H : Z -> Prop) T (s : kstate) : Prop := exists n V, sys_at H T n V s.

(** Outside the handlers only the current process is in transit: it is RUNNING. *)
Definition sys_run (H : Z -> Prop) (s : kstate) : Prop :=
  sys H [current (st_ps s)] s /\
  exists x, pcb_at s (current (st_ps s)) = Some x /\ p_state x = STATE_RUNNING.

(** ** Facts *)

Lemma sched_frame_fields H s s' :
  sched_frame H s s' ->
  init_pcb (st_ps s') = init_pcb (st_ps s) /\ queue_free (st_qs s') = queue_free (st_qs s) /\
  agree (fun a => ~ H a) (st_mem s) (st_mem s') /\ st_clk s' = st_clk s /\ st_krn s' = st_krn s /\
  st_stk s' = st_stk s.
Proof. intros (m & q & t & c & -> & Hm & Hq). repeat split; assumption. Qed.

(** Only the PCB at [p] differs. *)
Definition others (p : Z) (s s' : kstate) : Prop := forall q, q <> p -> pcb_at s' q = pcb_at s q.

Lemma others_with p y s : others p s (with_pcb p y s).
Proof. intros q Hq. now apply pcb_at_with_ne. Qed.

Lemma others_trans p s1 s2 s3 : others p s1 s2 -> others p s2 s3 -> others p s1 s3.
Proof. intros H1 H2 q Hq. now rewrite H2, H1. Qed.

Lemma with_pcb_init p y s : init_pcb (st_ps (with_pcb p y s)) = init_pcb (st_ps s).
Proof. unfold with_pcb. now destruct (pcb_slot p). Qed.

Lemma with_pcb_current p y s : current (st_ps (with_pcb p y s)) = current (st_ps s).
Proof. unfold with_pcb. now destruct (pcb_slot p). Qed.

(** ** The family *)

Lemma family_moved s s' p x y :
  family s -> pcb_at s p = Some x -> pcb_at s' p = Some y -> others p s s' ->
  init_pcb (st_ps s') = init_pcb (st_ps s) -> (alive x -> alive y) -> (used y -> used x) ->
  p_parent y = p_parent x -> family s'.
Proof.
  intros [F1 (i & Hi & Ai & Pi)] Hx Hy Ho Ei Hal Hus Hpar.
  assert (forall q z, pcb_at s q = Some z -> alive z -> exists z', pcb_at s' q = Some z' /\ alive z' /\
    p_parent z' = p_parent z) as Hkeep.
  { intros q z Hz Az. destruct (Z.eq_dec q p) as [->|Hne].
    - rewrite Hx in Hz. injection Hz as <-. exists y. auto.
    - exists z. rewrite Ho by done. auto. }
  split.
  - intros q z Hz Uz.
    assert (exists z0, pcb_at s q = Some z0 /\ used z0 /\ p_parent z = p_parent z0) as (z0 & Hz0 & U0 & ->).
    { destruct (Z.eq_dec q p) as [->|Hne].
      - rewrite Hy in Hz. injection Hz as <-. exists x. auto.
      - rewrite Ho in Hz by done. exists z. auto. }
    destruct (F1 q z0 Hz0 U0) as (w & Hw & Aw). destruct (Hkeep _ _ Hw Aw) as (w' & Hw' & Aw' & _). eauto.
  - destruct (Hkeep _ _ Hi Ai) as (i' & Hi' & Ai' & Pi'). exists i'. rewrite Ei, Pi'. auto.
Qed.

(** A process without children dies. *)
Definition no_child (s : kstate) (p : Z) : Prop :=
  forall q z, q <> p -> pcb_at s q = Some z -> used z -> p_parent z <> p.

Lemma family_dies s s' p x y :
  family s -> pcb_at s p = Some x -> pcb_at s' p = Some y -> others p s s' ->
  init_pcb (st_ps s') = init_pcb (st_ps s) -> p <> init_pcb (st_ps s) -> no_child s p ->
  (used y -> used x /\ p_parent y = p_parent x /\ p_parent x <> p) -> family s'.
Proof.
  intros [F1 (i & Hi & Ai & Pi)] Hx Hy Ho Ei Hni Hno Hus. split.
  - intros q z Hz Uz. destruct (Z.eq_dec q p) as [->|Hne].
    + rewrite Hy in Hz. injection Hz as <-. destruct (Hus Uz) as (Ux & -> & Hp).
      rewrite Ho by done. eauto.
    + rewrite Ho in Hz by done. rewrite Ho by eauto. eauto.
  - exists i. rewrite Ei, Ho by done. auto.
Qed.

Lemma family_adopt s p x :
  family s -> pcb_at s p = Some x -> family (with_pcb p (set_p_parent (init_pcb (st_ps s)) x) s).
Proof.
  intros [F1 (i & Hi & Ai & Pi)] Hx.
  pose proof (with_pcb_init p (set_p_parent (init_pcb (st_ps s)) x) s) as Ei.
  pose proof (pcb_at_with_eq s p x (set_p_parent (init_pcb (st_ps s)) x) Hx) as Hx'.
  pose proof (others_with p (set_p_parent (init_pcb (st_ps s)) x) s) as Ho.
  set (s' := with_pcb p _ s) in *. clearbody s'. set (ip := init_pcb (st_ps s)) in *. clearbody ip.
  assert (forall q z, pcb_at s q = Some z -> alive z -> exists z', pcb_at s' q = Some z' /\ alive z') as Hkeep.
  { intros q z Hz Az. destruct (Z.eq_dec q p) as [->|Hne].
    - rewrite Hx in Hz. injection Hz as <-. eexists. split; [exact Hx'|exact Az].
    - exists z. rewrite Ho by done. auto. }
  split.
  - intros q z Hz Uz. destruct (Z.eq_dec q p) as [->|Hne].
    + rewrite Hx' in Hz. injection Hz as <-. cbn [p_parent set_p_parent]. eapply Hkeep; eassumption.
    + rewrite Ho in Hz by done. destruct (F1 q z Hz Uz) as (w & Hw & Aw). eapply Hkeep; eassumption.
  - rewrite Ei. destruct (Z.eq_dec p ip) as [->|Hne].
    + rewrite Hx in Hi. injection Hi as ->. eexists. split; [exact Hx'|]. split; [exact Ai|reflexivity].
    + exists i. rewrite Ho by congruence. auto.
Qed.

(** ** Steps that move no process *)

(** The invariant speaks of the queues, the processes and the nodes in memory. *)
Lemma sys_ext H T s s' :
  sys H T s -> st_qs s' = st_qs s -> st_ps s' = st_ps s -> agree H (st_mem s) (st_mem s') -> sys H T s'.
Proof.
  intros (n & V & [S1 S2 S3 S4 S5 S6 [F1 F2]]) Eq Ep Hag.
  assert (forall q, pcb_at s' q = pcb_at s q) as Epcb by (intros q; unfold pcb_at; now rewrite Ep).
  exists n, V. split.
  - apply (proc_inv_same H n V (up_mem (fun _ => st_mem s') s) s'); [reflexivity|exact Eq|exact Ep|].
    now apply proc_inv_write.
  - exact S2.
  - now rewrite Eq.
  - intros p x. rewrite Epcb. apply S4.
  - exact S5.
  - intros p x. rewrite Epcb. apply S6.
  - split.
    + intros p x. rewrite Epcb. intros Hx Ux. destruct (F1 p x Hx Ux) as (y & Hy & Ay).
      exists y. rewrite Epcb. auto.
    + rewrite Ep. destruct F2 as (x & Hx & F2). exists x. rewrite Epcb. auto.
Qed.

Lemma sys_io H T s s' : io_only s s' -> sys H T s -> sys H T s'.
Proof.
  intros (Em & _ & Eq & _ & Ep & _)%io_only_fields Hs. apply (sys_ext H T s); [exact Hs|exact Eq|exact Ep|].
  now rewrite Em.
Qed.

Lemma sys_store H T s a v : word_apart H a -> sys H T s -> sys H T (up_mem (fun m => st32 m a v) s).
Proof. intros Ha Hs. apply (sys_ext H T s); try done. now apply agree_word. Qed.

Lemma sys_same_queue_free H T s s' :
  sys H T s -> queue_free (st_qs s') = queue_free (st_qs s) ->
  forall i, (i < 7)%nat -> queue_free (st_qs s') !! i = Some QUE_INUSE.
Proof. intros (n & V & [_ _ S3 _ _ _ _]) ->. exact S3. Qed.

(** A change of a process in transit. *)
Lemma sys_update H T s p x y :
  sys H T s -> p ∈ T -> pcb_at s p = Some x -> (used y -> pcb_ok H y) ->
  family (with_pcb p y s) -> sys H T (with_pcb p y s).
Proof.
  intros (n & V & [S1 S2 S3 S4 S5 S6 S7]) Hp Hx Hy Hf. exists n, V.
  pose proof (pcb_at_with_eq s p x y Hx) as Hx'.
  destruct (with_pcb_others p y s) as (_ & Eq & _). split; try done.
  - apply proc_inv_pcb; [exact S1|now apply S5].
  - now rewrite Eq.
  - intros q z Hz. destruct (Z.eq_dec q p) as [->|Hne].
    + rewrite Hx' in Hz. injection Hz as <-. exact Hy.
    + rewrite pcb_at_with_ne in Hz by congruence. exact (S4 q z Hz).
  - intros q z Hz. destruct (Z.eq_dec q p) as [->|Hne]; [now left|].
    rewrite pcb_at_with_ne in Hz by congruence. exact (S6 q z Hz).
Qed.

(** A process that needs no queue leaves the transit. *)
Lemma sys_settle H T s p x :
  sys H (p :: T) s -> pcb_at s p = Some x -> p_state x = STATE_UNUSED \/ p_state x = STATE_WAITING -> sys H T s.
Proof.
  intros (n & V & [S1 S2 S3 S4 S5 S6 S7]) Hx Hst. exists n, V. split; try done.
  - intros q Hq. apply S5. now right.
  - intros q z Hz. destruct (Z.eq_dec q p) as [->|Hne].
    + rewrite Hx in Hz. injection Hz as <-. right. now right.
    + destruct (S6 q z Hz) as [[->|Hq]%elem_of_cons|Hq]; [contradiction|now left|now right].
Qed.

(** What is queued has the state of a queue. *)
Lemma queued_state H n V s p x :
  proc_inv H n V s -> pcb_at s p = Some x -> p ∈ queued V ->
  exists i c l, V !! i = Some (c, l) /\ p ∈ l /\ (i < 8)%nat /\ fits i x.
Proof.
  intros Hinv Hx (i & c & l & Hi & Hp)%queued_elem_inv.
  destruct (pi_members _ _ _ _ Hinv i c l p Hi Hp) as (z & Hz & Hfit). rewrite Hx in Hz. injection Hz as <-.
  exists i, c, l. split; [exact Hi|]. split; [exact Hp|]. split; [|exact Hfit].
  pose proof (lookup_lt_Some _ _ _ Hi) as Hlt. pose proof (f_equal length (pi_keys _ _ _ _ Hinv)) as E.
  rewrite length_map in E. cbn in E. lia.
Qed.

Lemma fits_states i x : (i < 8)%nat -> fits i x ->
  p_state x <> STATE_WAITING /\ p_state x <> STATE_RUNNING /\ p_state x <> STATE_NEW /\
  (p_state x = STATE_ZOMBIE -> i = 4%nat) /\ (p_state x = STATE_SLEEPING -> i = 3%nat) /\
  (p_state x = STATE_READY -> i = Z.to_nat (p_priority x)).
Proof.
  intros Hi (Hs & Hv & Hp). unfold valid_prio in Hv.
  do 8 (destruct i as [|i]; [cbn in Hs; rewrite <- Hs; try specialize (Hp ltac:(lia));
    repeat split; (discriminate || (intros; lia) || (intros [=]))|]). lia.
Qed.

(** A waiting process may be put in transit. *)
Lemma sys_waiting H T s p x :
  sys H T s -> pcb_at s p = Some x -> p_state x = STATE_WAITING -> sys H (p :: T) s.
Proof.
  intros (n & V & [S1 S2 S3 S4 S5 S6 S7]) Hx Hst. exists n, V. split; try done.
  - intros q [->|Hq]%elem_of_cons; [|now apply S5]. intros Hq.
    destruct (queued_state _ _ _ _ _ _ S1 Hx Hq) as (i & c & l & _ & _ & Hi & Hfit).
    now destruct (fits_states i x Hi Hfit) as (Hw & _).
  - intros q z Hz. destruct (S6 q z Hz); [left; now right|now right].
Qed.

(** ** Steps that move one process *)

(** A process in transit joins queue [i]. *)
Lemma sys_insert H T n n' V s s' i c l l' p x y :
  sys_at H (p :: T) n V s -> ~ p ∈ T -> (i < 5)%nat -> V !! i = Some (c, l) -> l' ≡ₚ p :: l ->
  proc_inv H n' (<[i := (c, l')]> V) s' -> pcb_at s p = Some x -> pcb_at s' p = Some y ->
  others p s s' -> queue_free (st_qs s') = queue_free (st_qs s) -> pcb_ok H y -> family s' ->
  sys_at H T n' (<[i := (c, l')]> V) s'.
Proof.
  intros [S1 S2 S3 S4 S5 S6 S7] Hp Hi5 Hi Hl Hinv Hx Hy Ho Ef Hok Hfam.
  destruct (queued_insert V i c l c l' Hi) as (rest & P1 & P2).
  assert (queued (<[i := (c, l')]> V) ≡ₚ p :: queued V) as P by (rewrite P2, Hl, P1; reflexivity).
  split; try done.
  - intros j c1 l1 Hj Hj1. rewrite list_lookup_insert_ne in Hj1 by lia. eapply S2; eassumption.
  - now rewrite Ef.
  - intros q z Hz. destruct (Z.eq_dec q p) as [->|Hne].
    + rewrite Hy in Hz. now injection Hz as <-.
    + rewrite Ho in Hz by done. exact (S4 q z Hz).
  - intros q Hq. rewrite P, elem_of_cons. intros [->|Hq']; [contradiction|].
    apply (S5 q); [now right|exact Hq'].
  - intros q z Hz. unfold settled. rewrite P, elem_of_cons.
    destruct (Z.eq_dec q p) as [->|Hne]; [right; left; now left|]. rewrite Ho in Hz by done.
    destruct (S6 q z Hz) as [[->|Hq]%elem_of_cons|[Hq|Hq]]; [contradiction|now left|right; left; now right|].
    right. now right.
Qed.

(** A process leaves queue [i] and is in transit. *)
Lemma sys_remove H T n n' V s s' i c l l' p y :
  sys_at H T n V s -> V !! i = Some (c, l) -> l ≡ₚ p :: l' ->
  proc_inv H n' (<[i := (c, l')]> V) s' -> pcb_at s' p = Some y ->
  others p s s' -> queue_free (st_qs s') = queue_free (st_qs s) -> pcb_ok H y -> family s' ->
  sys_at H (p :: T) n' (<[i := (c, l')]> V) s'.
Proof.
  intros [S1 S2 S3 S4 S5 S6 S7] Hi Hl Hinv Hy Ho Ef Hok Hfam.
  destruct (queued_insert V i c l c l' Hi) as (rest & P1 & P2).
  assert (queued V ≡ₚ p :: queued (<[i := (c, l')]> V)) as P by (rewrite P1, Hl, P2; reflexivity).
  pose proof (pi_nodup _ _ _ _ S1) as Hnd. rewrite P in Hnd. apply NoDup_cons in Hnd as [Hnp _].
  split; try done.
  - intros j c1 l1 Hj Hj1. destruct (decide (i = j)) as [<-|Hij].
    + rewrite list_lookup_insert_eq in Hj1 by (eapply lookup_lt_Some, Hi). injection Hj1 as <- <-.
      pose proof (S2 i c l Hj Hi) as ->. now apply Permutation_nil_cons in Hl.
    + rewrite list_lookup_insert_ne in Hj1 by done. eapply S2; eassumption.
  - now rewrite Ef.
  - intros q z Hz. destruct (Z.eq_dec q p) as [->|Hne].
    + rewrite Hy in Hz. now injection Hz as <-.
    + rewrite Ho in Hz by done. exact (S4 q z Hz).
  - intros q [->|Hq]%elem_of_cons; [exact Hnp|]. intros Hq'. apply (S5 q Hq). rewrite P. now right.
  - intros q z Hz. destruct (Z.eq_dec q p) as [->|Hne]; [left; left|]. rewrite Ho in Hz by done.
    unfold settled. destruct (S6 q z Hz) as [Hq|[Hq|Hq]]; [left; now right| |right; now right].
    rewrite P, elem_of_cons in Hq. destruct Hq as [->|Hq]; [contradiction|]. right. now left.
Qed.

Lemma sys_schedule H T s p x :
  sys H (p :: T) s -> ~ p ∈ T -> pcb_at s p = Some x -> alive x ->
  exists s', schedule p s = Ret tt s' /\ sys H T s' /\ pcb_at s' p = Some (set_p_state STATE_READY x) /\
    others p s s' /\ sched_frame H s s' /\ current (st_ps s') = current (st_ps s).
Proof.
  intros (n & V & Hs) Hp Hx Ax. pose proof Hs as [S1 S2 S3 S4 S5 S6 S7].
  pose proof (S4 p x Hx (proj1 Ax)) as Hok. pose proof (po_prio _ _ Hok) as Hv. pose proof Hv as Hv'.
  unfold valid_prio in Hv'.
  destruct (inv_queue _ _ _ _ S1 (Z.to_nat (p_priority x)) ltac:(lia)) as (l & Hl).
  rewrite (ready_key _ _ _ _ (Z.to_nat (p_priority x)) _ _ S1 ltac:(lia) Hl) in Hl.
  destruct (schedule_spec _ _ _ _ _ _ _ S1 Hx (S5 p ltac:(left)) Hv Hl)
    as (s' & n' & E & -> & Hinv & Hy & Ho & Hf & Hc).
  destruct (sched_frame_fields _ _ _ Hf) as (Ei & Eq & _).
  exists s'. split; [exact E|]. split; [|exact (conj Hy (conj Ho (conj Hf Hc)))].
  exists n', (<[Z.to_nat (p_priority x) := (NULL, l ++ [p])]> V).
  eapply (sys_insert H T (S n') n' V s s' _ NULL l); try done; [lia| |..].
  - symmetry. apply Permutation_cons_append.
  - destruct Hok as [K1 K2 K3 K4]. now split.
  - eapply (family_moved s s' p x); try done. intros _. exact (proj1 Ax).
Qed.

(** The chosen process runs. *)
Definition given_cpu (H : Z -> Prop) (s : kstate) (p : Z) (x : pcb_t) (s' : kstate) : Prop :=
  current (st_ps s') = p /\ pcb_at s p = Some x /\ p_state x = STATE_READY /\
  pcb_at s' p = Some (set_p_quantum Q_STD (set_p_state STATE_RUNNING x)) /\ others p s s' /\ sched_frame H s s'.

Lemma dispatch_chosen H n V s i p l :
  sys_at H [] n V s -> next_process V = Some (i, p, l) ->
  exists s' x, dispatch s = Ret tt s' /\ sys_run H s' /\ given_cpu H s p x s'.
Proof.
  intros Hs Hn. pose proof Hs as [S1 S2 S3 S4 S5 S6 S7].
  destruct (dispatch_spec _ _ _ _ _ _ _ S1 Hn) as (s' & x & E & Hinv & Hx & Hy & Ho & Hf & Hc).
  destruct (next_process_Some _ _ _ _ _ _ _ S1 Hn) as (Hi & HV & _).
  destruct (sched_frame_fields _ _ _ Hf) as (Ei & Eq & _).
  destruct (pi_members _ _ _ _ S1 i NULL (p :: l) p HV ltac:(left)) as (z & Hz & Hst & _).
  rewrite Hx in Hz. injection Hz as <-.
  assert (p_state x = STATE_READY) as Hr
    by (do 3 (destruct i as [|i]; [now cbn in Hst|]); lia).
  assert (used x) as Ux by (unfold used; rewrite Hr; discriminate).
  exists s', x. split; [exact E|]. split; [|repeat (split; [done|]); done].
  unfold sys_run. rewrite Hc. split; [|eauto].
  exists (S n), (<[i := (NULL, l)]> V).
  eapply (sys_remove H [] n (S n) V s s' i NULL (p :: l)); try done.
  - destruct (S4 p x Hx Ux) as [K1 K2 K3 K4]. split; try done.
  - eapply (family_moved s s' p x); try done.
Qed.

(** [dispatch] changes only the entry of the process that it chooses, which was READY. *)
Definition dispatched (s s' : kstate) : Prop := forall p x, pcb_at s p = Some x ->
  pcb_at s' p = Some x \/
  (p_state x = STATE_READY /\ pcb_at s' p = Some (set_p_quantum Q_STD (set_p_state STATE_RUNNING x))).

Lemma wp_dispatched H s : sys H [] s -> wp dispatch (fun _ s' => sys_run H s' /\ dispatched s s') s.
Proof.
  intros (n & V & Hs). destruct (next_process V) as [[[i p] l]|] eqn:Hn.
  - destruct (dispatch_chosen _ _ _ _ _ _ _ Hs Hn) as (s' & x & E & Hr & (_ & Hx & Hst & Hy & Ho & _)).
    eapply wp_Ret; [exact E|]. split; [exact Hr|]. intros q z Hz. destruct (Z.eq_dec q p) as [->|Hne].
    + rewrite Hx in Hz. injection Hz as <-. right. now split.
    + left. now rewrite Ho.
  - eapply wp_eq; [exact (dispatch_none _ _ _ _ (sa_proc _ _ _ _ _ Hs) Hn)|]. now apply known_stop.
Qed.

Lemma wp_dispatch H s : sys H [] s -> wp dispatch (fun _ s' => sys_run H s') s.
Proof. intros Hs. eapply wp_mono; [exact (wp_dispatched H s Hs)|]. now intros a s' [? _]. Qed.

(** A process that is not READY stays as it is. *)
Lemma wp_dispatch_keeps H s p x : sys H [] s -> pcb_at s p = Some x -> p_state x <> STATE_READY ->
  wp dispatch (fun _ s' => sys_run H s' /\ pcb_at s' p = Some x) s.
Proof.
  intros Hs Hx Hst. eapply wp_mono; [exact (wp_dispatched H s Hs)|]. intros a s' [Hr Hd]. split; [exact Hr|].
  destruct (Hd p x Hx) as [E|[E _]]; [exact E|contradiction].
Qed.

(** With a process that is ready, [dispatch] finds one. *)
Lemma sys_dispatch H s p x :
  sys H [] s -> pcb_at s p = Some x -> p_state x = STATE_READY ->
  exists s' q y, dispatch s = Ret tt s' /\ sys_run H s' /\ given_cpu H s q y s'.
Proof.
  intros (n & V & Hs) Hx Hr. destruct (next_process V) as [[[i q] l]|] eqn:Hn.
  - destruct (dispatch_chosen _ _ _ _ _ _ _ Hs Hn) as (s' & y & E). exists s', q, y. exact E.
  - exfalso. pose proof Hs as [S1 _ _ _ _ S6 _].
    destruct (S6 p x Hx) as [Hq%elem_of_nil|[Hq|[Hq|Hq]]]; [done| |rewrite Hr in Hq; discriminate Hq..].
    destruct (queued_state _ _ _ _ _ _ S1 Hx Hq) as (i & c & l & Hi & Hin & Hi8 & Hfit).
    destruct (fits_states i x Hi8 Hfit) as (_ & _ & _ & _ & _ & Hrd). specialize (Hrd Hr).
    destruct Hfit as (_ & Hv & _). unfold valid_prio in Hv.
    rewrite (next_process_None _ _ _ _ S1 Hn i ltac:(lia)) in Hi. injection Hi as <- <-. now apply elem_of_nil in Hin.
Qed.

(** [sys_sleep]: a process marked SLEEPING joins the sleepers. *)
Lemma sys_enqueue_sleeper H T s p x :
  sys H (p :: T) s -> ~ p ∈ T -> pcb_at s p = Some x -> p_state x = STATE_SLEEPING ->
  exists s', que_insert (que_addr (Z.of_nat 3)) p s = Ret E_SUCCESS s' /\ sys H T s' /\
    (forall q, pcb_at s' q = pcb_at s q).
Proof.
  intros (n & V & Hs) Hp Hx Hst. pose proof Hs as [S1 S2 S3 S4 S5 S6 S7].
  assert (used x) as Ux by (unfold used; rewrite Hst; discriminate).
  pose proof (S4 p x Hx Ux) as Hok. destruct (inv_queue _ _ _ _ S1 3 ltac:(lia)) as (l & Hl).
  destruct (enqueue_sleeper _ _ _ _ _ _ _ _ S1 Hl Hx Hst (po_prio _ _ Hok) (S5 p ltac:(left)))
    as (s' & n' & E & -> & Hinv & Hf).
  destruct (que_frame_others _ _ _ Hf) as (_ & _ & Hps & _).
  destruct (sched_frame_fields _ _ _ (sched_frame_que _ _ _ Hf)) as (_ & Eq & _).
  assert (forall q, pcb_at s' q = pcb_at s q) as Hsame by (intros q; unfold pcb_at; now rewrite Hps).
  exists s'. split; [exact E|]. split; [|exact Hsame]. exists n', (<[3%nat := (nth 3 queue_keys 0, insert_by (wakeup_of s) p l)]> V).
  eapply (sys_insert H T (S n') n' V s s' 3 _ l); try done; [lia|apply insert_by_perm|now rewrite Hsame| |].
  - intros q _. apply Hsame.
  - eapply (family_moved s s' p x); try done; [now rewrite Hsame|intros q _; apply Hsame|now rewrite Hps].
Qed.

Lemma sys_enqueue_zombie H T s p x :
  sys H (p :: T) s -> ~ p ∈ T -> pcb_at s p = Some x -> p_state x = STATE_ZOMBIE ->
  exists s', que_insert (que_addr (Z.of_nat 4)) p s = Ret E_SUCCESS s' /\ sys H T s' /\
    (forall q, pcb_at s' q = pcb_at s q).
Proof.
  intros (n & V & Hs) Hp Hx Hst. pose proof Hs as [S1 S2 S3 S4 S5 S6 S7].
  assert (used x) as Ux by (unfold used; rewrite Hst; discriminate).
  pose proof (S4 p x Hx Ux) as Hok. destruct (inv_queue _ _ _ _ S1 4 ltac:(lia)) as (l & Hl).
  assert (fits 4 x) as Hfit by (split; [now rewrite Hst|split; [apply (po_prio _ _ Hok)|lia]]).
  destruct (enqueue_fifo _ _ _ _ _ _ _ _ S1 Hl Hx Hfit (S5 p ltac:(left)))
    as (s' & n' & E & -> & Hinv & Hf).
  destruct (que_frame_others _ _ _ Hf) as (_ & _ & Hps & _).
  destruct (sched_frame_fields _ _ _ (sched_frame_que _ _ _ Hf)) as (_ & Eq & _).
  assert (forall q, pcb_at s' q = pcb_at s q) as Hsame by (intros q; unfold pcb_at; now rewrite Hps).
  exists s'. split; [exact E|]. split; [|exact Hsame]. exists n', (<[4%nat := (NULL, l ++ [p])]> V).
  eapply (sys_insert H T (S n') n' V s s' 4 _ l); try done; [lia| |now rewrite Hsame| |].
  - symmetry. apply Permutation_cons_append.
  - intros q _. apply Hsame.
  - eapply (family_moved s s' p x); try done; [now rewrite Hsame|intros q _; apply Hsame|now rewrite Hps].
Qed.

(** ** Reaping *)

Lemma remove_first_perm x l : x ∈ l -> l ≡ₚ x :: remove_first x l.
Proof.
  induction l as [|y l IH]; [now intros ?%elem_of_nil|]. cbn [remove_first].
  destruct (Z.eqb_spec x y) as [->|Hne]; [reflexivity|].
  intros [->|Hx]%elem_of_cons; [contradiction|]. rewrite (IH Hx) at 1. apply Permutation_swap.
Qed.

Lemma remove_first_sub x l q : q ∈ remove_first x l -> q ∈ l.
Proof.
  induction l as [|y l IH]; [done|]. cbn [remove_first]. destruct (x =? y); [now right|].
  intros [->|Hq]%elem_of_cons; [left|right; now apply IH].
Qed.

(** A zombie is taken out of the queue of the zombies. *)
Lemma sys_unqueue_zombie H T s p x :
  sys H T s -> ~ p ∈ T -> pcb_at s p = Some x -> p_state x = STATE_ZOMBIE ->
  exists s', que_remove_by (que_addr (Z.of_nat 4)) p s = Ret E_SUCCESS s' /\ sys H (p :: T) s' /\
    que_frame H s s'.
Proof.
  intros (n & V & Hs) Hp Hx Hst. pose proof Hs as [S1 S2 S3 S4 S5 S6 S7].
  assert (used x) as Ux by (unfold used; rewrite Hst; discriminate).
  assert (exists c l, V !! 4%nat = Some (c, l) /\ p ∈ l) as (c & l & Hl & Hin).
  { destruct (S6 p x Hx) as [|[Hq|[Hq|Hq]]]; [contradiction| |rewrite Hst in Hq; discriminate Hq..].
    destruct (queued_state _ _ _ _ _ _ S1 Hx Hq) as (i & c & l & Hi & Hin & Hi8 & Hfit).
    destruct (fits_states i x Hi8 Hfit) as (_ & _ & _ & Hz & _). rewrite (Hz Hst) in Hi. eauto. }
  pose proof (pcb_at_word _ _ _ Hx) as Hw.
  destruct (remove_by_hold _ _ _ _ _ _ p _ (pi_queues _ _ _ _ S1) Hl ltac:(unfold NULL; lia) Hin)
    as (s' & E & Hq & Hf).
  destruct (que_frame_others _ _ _ Hf) as (_ & _ & Hps & _).
  destruct (sched_frame_fields _ _ _ (sched_frame_que _ _ _ Hf)) as (_ & Eq & _).
  assert (forall q, pcb_at s' q = pcb_at s q) as Hsame by (intros q; unfold pcb_at; now rewrite Hps).
  pose proof (remove_first_perm p l Hin) as P.
  pose proof (inv_nodup_at _ _ _ _ S1 _ _ _ Hl) as Hnd. rewrite P in Hnd. apply NoDup_cons in Hnd as [Hnp Hnd].
  exists s'. split; [exact E|]. split; [|exact Hf].
  exists (S n), (<[4%nat := (c, remove_first p l)]> V).
  eapply (sys_remove H T n (S n) V s s' 4 c l (remove_first p l) p x); try done; [|now rewrite Hsame|intros q _; apply Hsame|exact (S4 p x Hx Ux)|].
  - eapply (proc_inv_change H n (S n) V s s' 4 c l _ p); try done.
    + eapply same_pcbs_frame; eassumption.
    + intros q Hq' _. eapply remove_first_sub, Hq'.
    + right. split; [exact Hin|exact Hnp].
    + rewrite P at 1. cbn. lia.
  - eapply (family_moved s s' p x); try done; [now rewrite Hsame|intros q _; apply Hsame|now rewrite Hps].
Qed.

(** What [pcb_cleanup] leaves in memory. *)
Definition unlinked (x : pcb_t) (s : kstate) : memory :=
  if p_stack x =? NULL then st_mem s else st32 (st_mem s) (p_stack x) (free_stacks (st_stk s)).

(** A process without children, in transit, is freed. *)
Lemma sys_cleanup H T s p x :
  sys H (p :: T) s -> pcb_at s p = Some x -> used x -> p <> init_pcb (st_ps s) -> no_child s p ->
  exists s' y, pcb_cleanup p s = Ret tt s' /\ sys H T s' /\ others p s s' /\ st_mem s' = unlinked x s /\
    init_pcb (st_ps s') = init_pcb (st_ps s) /\ pcb_at s' p = Some y /\ p_state y = STATE_UNUSED.
Proof.
  intros Hs Hx Ux Hni Hno. pose proof (pcb_at_word _ _ _ Hx) as Hw.
  assert (p ∈ p :: T) as Hin by left.
  assert (pcb_ok H x) as Hok by (destruct Hs as (n & V & [_ _ _ S4 _ _ _]); exact (S4 p x Hx Ux)).
  assert (forall s1 z, sys H (p :: T) s1 -> pcb_at s1 p = Some z -> others p s s1 ->
    init_pcb (st_ps s1) = init_pcb (st_ps s) -> used z ->
    pcb_free p s1 = Ret tt (with_pcb p (set_p_state STATE_UNUSED z) s1) /\
    sys H T (with_pcb p (set_p_state STATE_UNUSED z) s1)) as Hfree.
  { intros s1 z Hs1 Hz Ho Ei Uz. set (z' := set_p_state STATE_UNUSED z). split.
    - unfold pcb_free, assert. destruct (Z.eqb_spec p NULL); [unfold NULL in *; lia|].
      cbn [negb]. rewrite bind_ret_l. exact (pcb_set_at s1 p z (set_p_state STATE_UNUSED) Hz).
    - apply (sys_settle H T _ p z'); [|eapply pcb_at_with_eq, Hz|now left].
      apply (sys_update H (p :: T) s1 p z z' Hs1 Hin Hz); [intros U; now destruct U|].
      assert (family s1) as Hf by (destruct Hs1 as (n & V & [_ _ _ _ _ _ S7]); exact S7).
      eapply (family_dies s1 _ p z z'); try done; [eapply pcb_at_with_eq, Hz|apply others_with|
        apply with_pcb_init|now rewrite Ei|intros q y Hq Hy; rewrite Ho in Hy by done; eauto]. }
  unfold pcb_cleanup. destruct (Z.eqb_spec p NULL); [unfold NULL in *; lia|].
  rewrite (bind_Ret _ _ _ _ _ (pcb_get_at s p x p_stack Hx)). unfold unlinked.
  destruct (Z.eqb_spec (p_stack x) NULL) as [E|E]; cbn [negb when].
  - rewrite bind_ret_l. destruct (Hfree s x Hs Hx ltac:(intros q _; done) eq_refl Ux) as [-> Hs'].
    eexists _, _. split; [reflexivity|]. split; [exact Hs'|]. split; [apply others_with|].
    split; [apply with_pcb_others|]. split; [apply with_pcb_init|]. split; [eapply pcb_at_with_eq, Hx|reflexivity].
  - set (m := st32 (st_mem s) (p_stack x) (free_stacks (st_stk s))).
    set (s1 := up_stk (set_free_stacks (p_stack x)) (up_mem (fun _ => m) s)).
    assert (stk_free (p_stack x) s = Ret tt s1) as Ef.
    { unfold stk_free, assert. destruct (Z.eqb_spec (p_stack x) NULL); [done|]. reflexivity. }
    assert (sys H (p :: T) s1) as Hs1.
    { apply (sys_ext H (p :: T) s s1 Hs); [reflexivity|reflexivity|]. apply agree_word, (po_stack _ _ Hok E). }
    assert (pcb_at s1 p = Some x) as Hx1 by exact Hx. set (x2 := set_p_stack NULL x).
    assert (sys H (p :: T) (with_pcb p x2 s1)) as Hs2.
    { apply (sys_update H (p :: T) s1 p x x2 Hs1 Hin Hx1).
      - intros _. destruct Hok as [K1 K2 K3 K4]. split; try done. 
      - assert (family s1) as Hf by (destruct Hs1 as (n' & V & [_ _ _ _ _ _ S7]); exact S7).
        eapply (family_moved s1 _ p x x2); try done; [eapply pcb_at_with_eq, Hx1|apply others_with|apply with_pcb_init]. }
    pose proof (pcb_at_with_eq s1 p x x2 Hx1) as Hx2.
    destruct (Hfree _ x2 Hs2 Hx2 (others_with p x2 s1) (with_pcb_init p x2 s1) Ux) as [E2 Hs'].
    assert ((stk_free (p_stack x) ;; pcb_set p (set_p_stack NULL)) s = Ret tt (with_pcb p x2 s1)) as Es
      by (mstep Ef; exact (pcb_set_at s1 p x (set_p_stack NULL) Hx1)).
    mstep Es. rewrite E2. eexists _, _. split; [reflexivity|]. split; [exact Hs'|].
    split; [exact (others_trans p s _ _ (others_with p x2 s1) (others_with p _ _))|].
    split; [rewrite !(proj1 (with_pcb_others p _ _)); reflexivity|].
    rewrite !with_pcb_init. split; [reflexivity|]. split; [eapply pcb_at_with_eq, Hx2|reflexivity].
Qed.

(** ** Adoption *)

Lemma proc_inv_relabel H n V s p x y :
  proc_inv H n V s -> pcb_at s p = Some x -> p_state y = p_state x -> p_priority y = p_priority x ->
  p_wakeup y = p_wakeup x -> proc_inv H n V (with_pcb p y s).
Proof.
  intros [H1 H2 [R1 R2 R3 R4 R5] H4 H5 H6 H7 H8] Hx E1 E2 E3.
  pose proof (pcb_at_with_eq s p x y Hx) as Hy. split; try done.
  - now apply queues_hold_pcb.
  - split; unfold with_pcb; destruct (pcb_slot p); done.
  - unfold with_pcb. destruct (pcb_slot p); [|done]. ksimpl. now rewrite length_aset.
  - intros i c l q Hi Hq. destruct (H5 i c l q Hi Hq) as (z & Hz & F1 & F2 & F3).
    destruct (Z.eq_dec q p) as [->|Hne].
    + rewrite Hx in Hz. injection Hz as <-. exists y. split; [exact Hy|]. unfold fits, valid_prio. now rewrite E1, E2.
    + exists z. rewrite pcb_at_with_ne by congruence. split; [exact Hz|]. now split.
  - intros c l Hl. eapply StronglySorted_Forall_ext; [|exact (H7 c l Hl)]. intros q _. unfold wakeup_of.
    destruct (Z.eq_dec q p) as [->|Hne]; [rewrite Hy, Hx; exact E3|now rewrite pcb_at_with_ne by congruence].
Qed.

Lemma sys_adopt H T s p x :
  sys H T s -> pcb_at s p = Some x -> sys H T (with_pcb p (set_p_parent (init_pcb (st_ps s)) x) s).
Proof.
  intros (n & V & [S1 S2 S3 S4 S5 S6 S7]) Hx. exists n, V. set (y := set_p_parent (init_pcb (st_ps s)) x).
  pose proof (pcb_at_with_eq s p x y Hx) as Hx'. destruct (with_pcb_others p y s) as (_ & Eq & _). split; try done.
  - now apply (proc_inv_relabel H n V s p x y).
  - now rewrite Eq.
  - intros q z Hz. destruct (Z.eq_dec q p) as [->|Hne].
    + rewrite Hx' in Hz. injection Hz as <-. intros Ux. destruct (S4 p x Hx Ux) as [K1 K2 K3 K4]. now split.
    + rewrite pcb_at_with_ne in Hz by congruence. exact (S4 q z Hz).
  - intros q z Hz. destruct (Z.eq_dec q p) as [->|Hne].
    + rewrite Hx' in Hz. injection Hz as <-. exact (S6 p x Hx).
    + rewrite pcb_at_with_ne in Hz by congruence. exact (S6 q z Hz).
  - now apply family_adopt.
Qed.
End SysInv.
