(* ===== verification/SysCalls.v ===== *)
(** The handlers on the invariant of the kernel: each system call and each interrupt
    handler that returns re-establishes it. *)

From S2P Require Import Prelude Memory State Lib LibMem Sio Cio Frames Kmem Queues QueuesInv QueuesSpec QueuesPages Stacks StacksSpec Procs ProcsSpec Drivers Clock ClockSpec Syscalls SyscallsSpec CreateSpec ForkSpec Kernel SysLogic SysInv.

Open Scope kernel_scope.

Section SysCalls.
Context {L : Layout} (H : Z -> Prop).
Implicit Types (V : list (Z * list Z)) (T : list Z) (s : kstate).

(** ** The current process *)

Lemma sys_run_cur s :
  sys_run H s -> exists x, pcb_at s (current (st_ps s)) = Some x /\ p_state x = STATE_RUNNING /\
    alive x /\ pcb_ok H x /\ sys H [current (st_ps s)] s.
Proof.
  intros [Hs (x & Hx & Hr)]. exists x. assert (alive x) as Ax by (split; unfold used; rewrite Hr; discriminate).
  repeat split; try done; try apply Ax; destruct Hs as (n & V & [_ _ _ S4 _ _ _]); apply (S4 _ x Hx), Ax.
Qed.

Lemma sys_run_ext s s' :
  sys_run H s -> st_qs s' = st_qs s -> st_ps s' = st_ps s -> agree H (st_mem s) (st_mem s') -> sys_run H s'.
Proof.
  intros [Hs (x & Hx & Hr)] Eq Ep Hag. unfold sys_run. rewrite Ep. split; [now apply (sys_ext H _ s)|].
  exists x. unfold pcb_at in *. now rewrite Ep.
Qed.

Lemma sys_run_io s s' : io_only s s' -> sys_run H s -> sys_run H s'.
Proof.
  intros (Em & _ & Eq & _ & Ep & _)%io_only_fields Hs. apply (sys_run_ext s); [exact Hs|exact Eq|exact Ep|].
  now rewrite Em.
Qed.

(** ** Steps of the system calls *)

Lemma wp_nonnull {B} msg p x (k : unit -> K B) Q s :
  pcb_at s p = Some x -> wp (k tt) Q s -> wp (bind (assert msg (negb (p =? NULL))) k) Q s.
Proof.
  intros Hw%pcb_at_word. apply wp_assert. destruct (Z.eqb_spec p NULL); [unfold NULL in *; lia|done].
Qed.

Lemma wp_ARG {B} p x i (k : Z -> K B) Q s :
  pcb_at s p = Some x -> wp (k (arg_of s x i)) Q s -> wp (bind (ARG p i) k) Q s.
Proof. intros Hx. apply wp_step. now apply ARG_at. Qed.

Lemma wp_io {A B} (m : K A) (k : A -> K B) Q s :
  keeps io_only m -> calm m -> (forall a s', io_only s s' -> wp (k a) Q s') -> wp (bind m k) Q s.
Proof. intros Hm Hc Hk. apply wp_bind. now apply (wp_keeps io_only). Qed.

(** Reports keep the invariant. *)
Lemma wp_report {A} (m : K A) s :
  keeps io_only m -> calm m -> sys_run H s -> wp m (fun _ s' => sys_run H s') s.
Proof. intros Hm Hc Hs. apply (wp_keeps io_only); [exact Hm|exact Hc|]. intros a s' Hio. now apply (sys_run_io s). Qed.

Lemma context_word x r : context_apart H x -> word_apart H (p_context x + reg_off r).
Proof.
  intros Hc j Hj. rewrite <- Z.add_assoc. apply Hc. unfold SZ_CONTEXT. destruct r; cbn [reg_off]; lia.
Qed.

Lemma sys_ret T x v s : pcb_ok H x -> sys H T s -> sys H T (with_ret x v s).
Proof. intros Hok. apply sys_store, context_word, Hok. Qed.

(** The answer to a system call. *)
Lemma wp_answer v s : sys_run H s -> wp (set_RET (current (st_ps s)) v) (fun _ s' => sys_run H s') s.
Proof.
  intros Hs. destruct (sys_run_cur s Hs) as (x & Hx & Hr & _ & Hok & Hsys).
  eapply wp_Ret; [apply set_RET_at, Hx|]. apply (sys_run_ext s); [exact Hs|done..|].
  apply agree_word, context_word, Hok.
Qed.

(** A field of a process in transit that neither kills nor moves it. *)
Lemma sys_change T s p x y :
  sys H T s -> p ∈ T -> pcb_at s p = Some x -> alive x -> alive y -> pcb_ok H y ->
  p_parent y = p_parent x -> sys H T (with_pcb p y s).
Proof.
  intros Hs Hp Hx Ax Ay Hok E. apply (sys_update H T s p x y Hs Hp Hx); [auto|].
  assert (family s) as Hf by (destruct Hs as (n & V & [_ _ _ _ _ _ S7]); exact S7).
  eapply (family_moved s _ p x y); try done; [eapply pcb_at_with_eq, Hx|apply others_with|apply with_pcb_init|].
  intros _. apply Ax.
Qed.

Lemma wp_yield p x s :
  sys H [p] s -> pcb_at s p = Some x -> alive x ->
  wp (schedule p ;; dispatch) (fun _ s' => sys_run H s') s.
Proof.
  intros Hs Hx Ax. destruct (sys_schedule H [] s p x Hs ltac:(apply not_elem_of_nil) Hx Ax)
    as (s' & E & Hs' & _). eapply wp_step; [exact E|]. now apply wp_dispatch.
Qed.

(** A nodeless process leaves queue [i]. *)
Lemma sys_dequeue T n V s i c p l :
  sys_at H T n V s -> V !! i = Some (c, p :: l) ->
  exists s' x, que_remove (que_addr (Z.of_nat i)) true s = Ret (E_SUCCESS, Some p) s' /\
    sys H (p :: T) s' /\ pcb_at s p = Some x /\ fits i x /\ ~ p ∈ T /\ que_frame H s s'.
Proof.
  intros Hs Hi. pose proof Hs as [S1 S2 S3 S4 S5 S6 S7].
  destruct (dequeue_spec _ _ _ _ _ _ _ _ S1 Hi) as (s' & E & Hinv & Hf & _).
  destruct (pi_members _ _ _ _ S1 i c (p :: l) p Hi ltac:(left)) as (x & Hx & Hfit).
  destruct (que_frame_others _ _ _ Hf) as (_ & _ & Hps & _).
  destruct (sched_frame_fields _ _ _ (sched_frame_que _ _ _ Hf)) as (_ & Eq & _).
  assert (forall q, pcb_at s' q = pcb_at s q) as Hsame by (intros q; unfold pcb_at; now rewrite Hps).
  assert (~ p ∈ T) as HpT.
  { intros Hp. apply (S5 p Hp). eapply queued_elem; [exact Hi|left]. }
  exists s', x. split; [exact E|]. split; [|split; [exact Hx|split; [exact Hfit|split; [exact HpT|exact Hf]]]].
  exists (S n), (<[i := (c, l)]> V).
  assert (used x) as Ux.
  { destruct Hfit as (Hst & _). unfold used. rewrite <- Hst. pose proof (lookup_lt_Some _ _ _ Hi) as Hlt.
    pose proof (S2 i c (p :: l)) as Hidle. destruct (decide (5 <= i)%nat) as [H5|H5]; [discriminate (Hidle H5 Hi)|].
    do 5 (destruct i as [|i]; [discriminate|]). lia. }
  eapply (sys_remove H T n (S n) V s s' i c (p :: l) l p x); try done;
    [now rewrite Hsame|intros q _; apply Hsame|exact (S4 p x Hx Ux)|].
  eapply (family_moved s s' p x); try done; [now rewrite Hsame|intros q _; apply Hsame|now rewrite Hps].
Qed.

(** * The simple calls *)

Lemma wp_sys_getpid s : sys_run H s -> wp (sys_getpid (current (st_ps s))) (fun _ s' => sys_run H s') s.
Proof.
  intros Hs. destruct (sys_run_cur s Hs) as (x & Hx & _). unfold sys_getpid.
  apply (wp_nonnull _ _ x); [exact Hx|]. apply (wp_pcb_get_at _ _ _ _ _ x Hx). now apply wp_answer.
Qed.

Lemma wp_sys_gettime s : sys_run H s -> wp (sys_gettime (current (st_ps s))) (fun _ s' => sys_run H s') s.
Proof.
  intros Hs. destruct (sys_run_cur s Hs) as (x & Hx & _). unfold sys_gettime.
  apply (wp_nonnull _ _ x); [exact Hx|]. unfold clk. apply wp_gets. now apply wp_answer.
Qed.

Lemma wp_find_pid {B} pid (k : Z -> K B) Q T s :
  sys H T s -> (forall q, wp (k q) Q s) -> wp (bind (pcb_find_pid pid) k) Q s.
Proof.
  intros (n & V & [S1 _ _ _ _ _ _]) Hk. pose proof (pi_table _ _ _ _ S1) as Hlen.
  destruct (Z.le_gt_cases FIRST_USER_PID pid) as [Hge|Hlt].
  - destruct (find_pid_cases s pid Hlen Hge) as [(i & y & _ & _ & _ & _ & E)|[_ E]];
      (eapply wp_step; [exact E|apply Hk]).
  - apply wp_bind. unfold pcb_find_pid. apply wp_check; [now apply known_stop|].
    intros Hb. apply Z.leb_le in Hb. lia.
Qed.

Lemma wp_sys_getprio s : sys_run H s -> wp (sys_getprio (current (st_ps s))) (fun _ s' => sys_run H s') s.
Proof.
  intros Hs. destruct (sys_run_cur s Hs) as (x & Hx & _ & _ & _ & Hsys). unfold sys_getprio.
  apply (wp_nonnull _ _ x); [exact Hx|]. apply (wp_ARG _ x); [exact Hx|]. cbv zeta.
  apply (wp_pcb_get_at _ _ _ _ _ x Hx). destruct (_ || _).
  - apply (wp_pcb_get_at _ _ _ _ _ x Hx). now apply wp_answer.
  - apply (wp_find_pid _ _ _ _ _ Hsys). intros q. apply (wp_pcb_get_at _ _ _ _ _ x Hx).
    destruct (_ && _); [|now apply wp_answer]. apply wp_pcb_get. intros y _. now apply wp_answer.
Qed.

Lemma wp_sys_write s : sys_run H s -> wp (sys_write (current (st_ps s))) (fun _ s' => sys_run H s') s.
Proof.
  intros Hs. destruct (sys_run_cur s Hs) as (x & Hx & _ & _ & _ & Hsys). unfold sys_write.
  apply (wp_nonnull _ _ x); [exact Hx|]. do 3 (apply (wp_ARG _ x); [exact Hx|]).
  apply wp_io; [io|calm|]. intros v s' Hio.
  destruct (io_only_fields _ _ Hio) as (_ & _ & _ & _ & Ep & _). rewrite <- Ep.
  apply wp_answer. now apply (sys_run_io s).
Qed.

(** After a sleep: the caller sleeps until its time, or it has yielded the processor. *)
Definition slept s (x : pcb_t) (s' : kstate) : Prop :=
  exists y, pcb_at s' (current (st_ps s)) = Some y /\
    ((arg_of s x 1 = 0 /\ (p_state y = STATE_READY \/ p_state y = STATE_RUNNING)) \/
     (arg_of s x 1 <> 0 /\ p_state y = STATE_SLEEPING /\
      p_wakeup y = u32 (system_time (st_clk s) + arg_of s x 1))).

Lemma wp_sleeps s x : sys_run H s -> pcb_at s (current (st_ps s)) = Some x ->
  wp (sys_sleep (current (st_ps s))) (fun _ s' => sys_run H s' /\ slept s x s') s.
Proof.
  intros Hs Hx. destruct (sys_run_cur s Hs) as (x' & Hx' & _ & Ax & Hok & Hsys). rewrite Hx in Hx'. injection Hx' as <-.
  unfold sys_sleep, slept. set (p := current (st_ps s)) in *.
  apply (wp_nonnull _ _ x); [exact Hx|]. apply (wp_ARG _ x); [exact Hx|].
  destruct (Z.eqb_spec (arg_of s x 1) 0) as [E0|E0].
  { destruct (sys_schedule H [] s p x Hsys ltac:(apply not_elem_of_nil) Hx Ax) as (s1 & E & Hs1 & Hx1 & _).
    eapply wp_step; [exact E|]. eapply wp_mono; [exact (wp_dispatched H s1 Hs1)|].
    intros _ s' [Hr Hd]. split; [exact Hr|]. destruct (Hd p _ Hx1) as [Hy|[_ Hy]]; eexists; (split; [exact Hy|left]); auto. }
  apply (wp_pcb_set _ _ _ _ _ x Hx). set (x1 := set_p_state STATE_SLEEPING x).
  pose proof (pcb_at_with_eq s p x x1 Hx) as Hx1.
  unfold clk. apply wp_gets. apply (wp_pcb_set _ _ _ _ _ x1 Hx1).
  replace (system_time (st_clk (with_pcb p x1 s))) with (system_time (st_clk s))
    by (unfold with_pcb; now destruct (pcb_slot p)).
  set (x2 := set_p_wakeup _ x1).
  assert (alive x1) as Ax1 by (split; unfold used; discriminate).
  assert (pcb_ok H x1) as Hok1 by (destruct Hok; now split).
  assert (sys H [p] (with_pcb p x1 s)) as Hs1 by (apply (sys_change [p] s p x x1); [exact Hsys|left|done..]).
  assert (alive x2) as Ax2 by (split; unfold used; discriminate).
  assert (pcb_ok H x2) as Hok2 by (destruct Hok; now split).
  assert (sys H [p] (with_pcb p x2 (with_pcb p x1 s))) as Hs2
    by (apply (sys_change [p] _ p x1 x2); [exact Hs1|left|done..]).
  pose proof (pcb_at_with_eq _ p x1 x2 Hx1) as Hx2. set (s2 := with_pcb p x2 _) in *. clearbody s2.
  apply wp_ps. pose proof Hs2 as (n & V & [S1 _ _ _ _ _ _]).
  rewrite (ho_sleeping _ (pi_handles _ _ _ _ S1)). change (que_addr 3) with (que_addr (Z.of_nat 3)).
  destruct (sys_enqueue_sleeper H [] s2 p x2 Hs2 ltac:(apply not_elem_of_nil) Hx2 eq_refl) as (s3 & E & Hs3 & Hps3).
  assert (pcb_at s3 p = Some x2) as Hx3 by (now rewrite Hps3).
  eapply wp_step; [exact E|]. eapply wp_mono; [exact (wp_dispatch_keeps H s3 p x2 Hs3 Hx3 ltac:(discriminate))|].
  intros _ s' [Hr Hy]. split; [exact Hr|]. exists x2. split; [exact Hy|]. right. repeat split; done.
Qed.

Lemma wp_sys_sleep s : sys_run H s -> wp (sys_sleep (current (st_ps s))) (fun _ s' => sys_run H s') s.
Proof.
  intros Hs. destruct (sys_run_cur s Hs) as (x & Hx & _). eapply wp_mono; [exact (wp_sleeps s x Hs Hx)|].
  now intros a s' [? _].
Qed.
End SysCalls.
