(* ===== verification/SysExit.v ===== *)
(** kernel/syscalls.c: exit and wait on the invariant of the kernel. *)

From S2P Require Import Prelude Memory State Lib LibMem Sio Cio Frames Kmem Queues QueuesInv QueuesSpec QueuesPages Stacks StacksSpec Procs ProcsSpec Drivers Clock ClockSpec Syscalls SyscallsSpec CreateSpec ForkSpec Kernel SysLogic SysInv SysCalls.

Open Scope kernel_scope.

(** Two words that do not overlap. *)
Definition word_clear (a b : Z) : Prop := a + 4 <= b \/ b + 4 <= a.

Section SysExit.
Context {L : Layout} (H : Z -> Prop).
Implicit Types (V : list (Z * list Z)) (T : list Z) (s : kstate).

(** Where the argument of a waiting process is, and where it points. *)
Definition arg_word (y : pcb_t) : Z := p_context y + SZ_CONTEXT + 4 * 1.

Definition status_ok s (y : pcb_t) : Prop :=
  word_apart H (arg_word y) /\ (arg_of s y 1 = NULL \/ word_apart H (arg_of s y 1)).

(** The processes that wait: their status pointers do not lead into the nodes, and
    their arguments are not overwritten by what the exit of another process writes. *)
Definition waits_ok s : Prop :=
  forall q y, pcb_at s q = Some y -> p_state y = STATE_WAITING -> status_ok s y /\
    forall r z, r <> q -> pcb_at s r = Some z -> used z ->
      word_clear (arg_word y) (p_context z + reg_off EAX) /\
      (p_stack z <> NULL -> word_clear (arg_word y) (p_stack z)) /\
      (p_state z = STATE_WAITING -> arg_of s z 1 <> NULL -> word_clear (arg_word y) (arg_of s z 1)).

Lemma sys_family T s : sys H T s -> family s.
Proof. intros (n & V & [_ _ _ _ _ _ S7]). exact S7. Qed.

Lemma sys_pcb T s p x : sys H T s -> pcb_at s p = Some x -> used x -> pcb_ok H x.
Proof. intros (n & V & [_ _ _ S4 _ _ _]). apply S4. Qed.

(** A zombie is nobody's parent. *)
Lemma zombie_no_child s p x : family s -> pcb_at s p = Some x -> p_state x = STATE_ZOMBIE -> no_child s p.
Proof.
  intros [F1 _] Hx Hst q z _ Hz Uz E. destruct (F1 q z Hz Uz) as (y & Hy & _ & Hne).
  rewrite E, Hx in Hy. injection Hy as <-. contradiction.
Qed.

Lemma family_init_ne s p x : family s -> pcb_at s p = Some x -> ~ alive x -> p <> init_pcb (st_ps s).
Proof. intros [_ (i & Hi & Ai & _)] Hx Hn ->. rewrite Hx in Hi. injection Hi as ->. contradiction. Qed.

(** ** Returning a status *)

Lemma status_return_keeps T s q y c z :
  sys H T s -> pcb_at s q = Some y -> used y -> pcb_at s c = Some z -> status_ok s y ->
  exists s', status_return q c s = Ret tt s' /\ sys H T s' /\ st_ps s' = st_ps s /\ st_stk s' = st_stk s /\
    forall a, word_clear a (p_context y + reg_off EAX) ->
      (arg_of s y 1 <> NULL -> word_clear a (arg_of s y 1)) -> ld32 (st_mem s') a = ld32 (st_mem s) a.
Proof.
  intros Hs Hy Uy Hz [Hw Hp]. pose proof (sys_pcb _ _ _ _ Hs Hy Uy) as Hok.
  pose proof (pcb_at_word _ _ _ Hy). pose proof (pcb_at_word _ _ _ Hz).
  set (s1 := with_ret y (p_pid z) s).
  assert (sys H T s1) as Hs1 by now apply sys_ret.
  assert (pcb_at s1 q = Some y) as Hy1 by exact Hy. assert (pcb_at s1 c = Some z) as Hz1 by exact Hz.
  assert (arg_of s1 y 1 = arg_of s y 1) as Ea.
  { unfold arg_of, s1, with_ret. ksimpl. apply ld32_st32_ne. unfold SZ_CONTEXT. cbn. lia. }
  assert (forall a, word_clear a (p_context y + reg_off EAX) -> ld32 (st_mem s1) a = ld32 (st_mem s) a) as Hm1.
  { intros a Ha. unfold s1, with_ret. ksimpl. apply ld32_st32_ne. unfold word_clear in Ha. lia. }
  assert (status_return q c s = (when (negb (arg_of s y 1 =? NULL))
    (st <- pcb_get c p_status ;; store32 (arg_of s y 1) st)) s1) as E.
  { unfold status_return, assert. destruct (Z.eqb_spec q NULL); [unfold NULL in *; lia|].
    destruct (Z.eqb_spec c NULL); [unfold NULL in *; lia|]. cbn [negb]. rewrite !bind_ret_l.
    rewrite (bind_Ret _ _ _ _ _ (pcb_get_at s c z p_pid Hz)).
    rewrite (bind_Ret _ _ _ _ _ (set_RET_at s q y _ Hy)). fold s1.
    rewrite (bind_Ret _ _ _ _ _ (ARG_at s1 q y 1 Hy1)). now rewrite Ea. }
  rewrite E. destruct (Z.eqb_spec (arg_of s y 1) NULL) as [Hn|Hn]; cbn [negb when].
  - exists s1. split; [reflexivity|]. split; [exact Hs1|]. split; [reflexivity|]. split; [reflexivity|].
    intros a Ha _. now apply Hm1.
  - rewrite (bind_Ret _ _ _ _ _ (pcb_get_at s1 c z p_status Hz1)).
    eexists. split; [reflexivity|].
    split; [apply sys_store; [destruct Hp; [contradiction|assumption]|exact Hs1]|].
    split; [reflexivity|]. split; [reflexivity|]. intros a Ha Hb. rewrite <- (Hm1 a Ha). ksimpl.
    apply ld32_st32_ne. specialize (Hb Hn). unfold word_clear in Hb. lia.
Qed.

(** ** The children *)

Lemma childless_no_child s p : childless s p -> no_child s p.
Proof.
  intros Hno q z Hne Hz Uz E. destruct (pcb_at_addr _ _ _ Hz) as (i & -> & Hi & Ht).
  specialize (Hno _ _ Ht). unfold child_of in Hno. rewrite Z2Nat.id in Hno by lia.
  destruct (Z.eqb_spec (pcb_addr i) p); [contradiction|]. destruct (Z.eqb_spec (p_parent z) p); [|contradiction].
  destruct (Z.eqb_spec (p_state z) STATE_UNUSED); [contradiction|]. discriminate Hno.
Qed.

Lemma find_child_cases s p x :
  length (ptable (st_ps s)) = 25%nat -> pcb_at s p = Some x ->
  (pcb_find_child_of p s = Ret NULL s /\ no_child s p) \/
  (exists q z, pcb_find_child_of p s = Ret q s /\ pcb_at s q = Some z /\ q <> p /\ p_parent z = p /\ used z).
Proof.
  intros Hlen Hx. destruct (pcb_at_addr _ _ _ Hx) as (i & Ei & Hi & _).
  assert (forall k, (assert "pcb_find_child_of: parent"
    ((ptable_addr <=? p) && (p <? pcb_addr (Z.of_nat N_PROCS))) ;; k : K Z) s = k s) as Ha.
  { intros k. unfold assert, N_PROCS. rewrite Ei.
    destruct (Z.leb_spec ptable_addr (pcb_addr i)); [|unfold pcb_addr in *; lia].
    destruct (Z.ltb_spec (pcb_addr i) (pcb_addr (Z.of_nat 25))); [reflexivity|unfold pcb_addr in *; lia]. }
  unfold pcb_find_child_of. rewrite Ha.
  set (test := fun a y => negb (a =? p) && (p_parent y =? p) && negb (p_state y =? STATE_UNUSED)).
  destruct (first_pcb_dec test (ptable (st_ps s))) as [(j & z & Hf)|Hn].
  - right. exists (pcb_addr (Z.of_nat j)), z. pose proof Hf as (Hz & Ht & _).
    pose proof (lookup_lt_Some _ _ _ Hz) as Hj. rewrite Hlen in Hj.
    split; [now mstep (find_pcb_some test s j z Hlen Hf)|].
    unfold test in Ht. apply andb_true_iff in Ht as [Ht T3%negb_true_iff%Z.eqb_neq].
    apply andb_true_iff in Ht as [T1%negb_true_iff%Z.eqb_neq T2%Z.eqb_eq].
    split; [|done]. unfold pcb_at. rewrite pcb_slot_addr by lia. now rewrite Nat2Z.id.
  - left. split; [now mstep (find_pcb_none test s Hlen Hn)|]. apply childless_no_child. exact Hn.
Qed.

(** What the adoption leaves alone. *)
Definition same_but_parent s s' : Prop :=
  st_mem s' = st_mem s /\ st_stk s' = st_stk s /\ init_pcb (st_ps s') = init_pcb (st_ps s) /\
  forall q z, pcb_at s' q = Some z ->
    exists z0, pcb_at s q = Some z0 /\ p_context z = p_context z0 /\ p_stack z = p_stack z0 /\ p_state z = p_state z0.

Lemma waits_same s s' : same_but_parent s s' -> waits_ok s -> waits_ok s'.
Proof.
  intros (Em & _ & _ & Hp) Hw q y Hy Hst. destruct (Hp q y Hy) as (y0 & Hy0 & E1 & E2 & E3).
  rewrite E3 in Hst. destruct (Hw q y0 Hy0 Hst) as [W1 W2].
  unfold status_ok, arg_word, arg_of in *. rewrite E1, Em. split; [exact W1|].
  intros r z Hne Hz Uz. destruct (Hp r z Hz) as (z0 & Hz0 & G1 & G2 & G3).
  unfold used in *. rewrite G1, G2, G3 in *. exact (W2 r z0 Hne Hz0 Uz).
Qed.

(** The loop of [sys_exit]. *)
Lemma wp_reparent p x s :
  sys H [p] s -> pcb_at s p = Some x -> p <> init_pcb (st_ps s) ->
  wp (reparent p) (fun f s' => sys H [p] s' /\ pcb_at s' p = Some x /\ same_but_parent s s' /\ no_child s' p /\
    (f = NULL \/ exists z, pcb_at s' f = Some z /\ p_state z = STATE_ZOMBIE /\ f <> p)) s.
Proof.
  intros Hs Hx Hni. unfold reparent.
  apply (wp_loop _ (fun f s' => sys H [p] s' /\ pcb_at s' p = Some x /\ same_but_parent s s' /\
    (f = NULL \/ exists z, pcb_at s' f = Some z /\ p_state z = STATE_ZOMBIE /\ f <> p))).
  { split; [exact Hs|]. split; [exact Hx|]. split; [|now left]. split; [reflexivity|]. split; [reflexivity|].
    split; [reflexivity|]. intros q z Hz. exists z. auto. }
  clear Hs Hx. intros f s1 (Hs & Hx & Hsame & Hf).
  pose proof Hs as (n & V & [S1 _ _ _ _ _ _]).
  destruct (find_child_cases s1 p x (pi_table _ _ _ _ S1) Hx) as [[E Hno]|(q & z & E & Hz & Hqp & Hpar & Uz)].
  - eapply wp_step; [exact E|]. change (NULL =? NULL) with true. cbv iota.
    apply (wp_Ret _ _ _ (inr f) s1 eq_refl). split; [exact Hs|]. split; [exact Hx|]. split; [exact Hsame|].
    split; [exact Hno|exact Hf].
  - eapply wp_step; [exact E|]. pose proof (pcb_at_word _ _ _ Hz) as Hw.
    destruct (Z.eqb_spec q NULL); [unfold NULL in *; lia|].
    apply (wp_pcb_get_at _ _ _ _ _ z Hz). apply wp_assert; [now rewrite Hpar, Z.eqb_refl|].
    apply wp_ps. apply (wp_pcb_set _ _ _ _ _ z Hz).
    pose proof (sys_adopt H [p] s1 q z Hs Hz) as Hs2.
    set (z' := set_p_parent (init_pcb (st_ps s1)) z) in *. change (set_p_parent _ z) with z'.
    pose proof (pcb_at_with_eq s1 q z z' Hz) as Hz'.
    apply (wp_pcb_get_at _ _ _ _ _ z' Hz'). apply (wp_Ret _ _ _ (inl _) _ eq_refl).
    split; [exact Hs2|]. split; [rewrite pcb_at_with_ne by congruence; exact Hx|]. split.
    + destruct Hsame as (Em & Ek & Ei & Hp). destruct (with_pcb_others q z' s1) as (Em' & _).
      split; [now rewrite Em'|]. split; [unfold with_pcb; destruct (pcb_slot q); exact Ek|].
      split; [now rewrite with_pcb_init|]. intros r w Hr. destruct (Z.eq_dec r q) as [->|Hne].
      * rewrite Hz' in Hr. injection Hr as <-. exact (Hp q z Hz).
      * rewrite pcb_at_with_ne in Hr by congruence. exact (Hp r w Hr).
    + destruct (Z.eqb_spec (p_state z') STATE_ZOMBIE) as [Ez|_].
      * right. exists z'. auto.
      * destruct Hf as [->|(w & Hw' & Hst & Hfp)]; [now left|right].
        destruct (Z.eq_dec f q) as [->|Hne].
        -- exists z'. rewrite Hw' in Hz. injection Hz as ->. auto.
        -- exists w. rewrite pcb_at_with_ne by congruence. auto.
Qed.

(** ** Exit *)

Lemma ld32_apart m m' a : word_apart H a -> agree (fun b => ~ H b) m m' -> ld32 m' a = ld32 m a.
Proof. intros Ha Hag. apply ld32_agree. intros i Hi. apply Hag, Ha, Hi. Qed.

Lemma status_frame s s' y : status_ok s y -> agree (fun b => ~ H b) (st_mem s) (st_mem s') -> status_ok s' y.
Proof.
  intros [H1 H2] Hag. split; [exact H1|]. unfold arg_of in *. now rewrite (ld32_apart (st_mem s)).
Qed.

(** What init does with the last zombie among the adopted children. *)
Definition init_reaps (ip f : Z) : K unit :=
  z <- ps zombie ;;
  r <- que_remove_by z f ;;
  assert "sys_exit: que_remove_by" (r =? E_SUCCESS) ;;
  status_return ip f ;;
  schedule ip ;;
  pcb_cleanup f.

(** Every process that waits can be answered. *)
Definition answerable s : Prop := forall q y, pcb_at s q = Some y -> p_state y = STATE_WAITING -> status_ok s y.

Lemma init_reaps_spec s p x f z i :
  sys H [p] s -> pcb_at s p = Some x -> no_child s p -> waits_ok s -> p <> init_pcb (st_ps s) ->
  pcb_at s f = Some z -> p_state z = STATE_ZOMBIE -> f <> p ->
  pcb_at s (init_pcb (st_ps s)) = Some i -> p_state i = STATE_WAITING ->
  exists s', init_reaps (init_pcb (st_ps s)) f s = Ret tt s' /\ sys H [p] s' /\ pcb_at s' p = Some x /\ no_child s' p /\ answerable s' /\
    init_pcb (st_ps s') = init_pcb (st_ps s).
Proof.
  intros Hs Hx Hno Hw Hpi Hz Hzst Hfp Hi Hist. set (ip := init_pcb (st_ps s)) in *.
  assert (f <> ip) as Hfi by (intros ->; rewrite Hi in Hz; injection Hz as ->; rewrite Hist in Hzst; discriminate).
  assert (used i) as Ui by (unfold used; rewrite Hist; discriminate).
  assert (used z) as Uz by (unfold used; rewrite Hzst; discriminate).
  assert (alive i) as Ai by (split; [exact Ui|rewrite Hist; discriminate]).
  destruct (sys_unqueue_zombie H [p] s f z Hs ltac:(now intros ?%list_elem_of_singleton) Hz Hzst)
    as (s1 & E1 & Hs1 & Hf1).
  destruct (que_frame_others _ _ _ Hf1) as (_ & Hk1 & Hps1 & _).
  destruct (sched_frame_fields _ _ _ (sched_frame_que _ _ _ Hf1)) as (_ & _ & Hm1 & _ & _ & _).
  assert (forall q, pcb_at s1 q = pcb_at s q) as P1 by (intros q; unfold pcb_at; now rewrite Hps1).
  destruct (Hw ip i Hi Hist) as [Wi _].
  destruct (status_return_keeps (f :: [p]) s1 ip i f z Hs1 ltac:(now rewrite P1) Ui ltac:(now rewrite P1)
    (status_frame _ _ _ Wi Hm1)) as (s2 & E2 & Hs2 & Hps2 & Hk2 & Hm2).
  assert (forall q, pcb_at s2 q = pcb_at s q) as P2 by (intros q; rewrite <- P1; unfold pcb_at; now rewrite Hps2).
  assert (sys H (ip :: f :: [p]) s2) as Hs2' by (apply (sys_waiting H _ _ ip i); [exact Hs2|now rewrite P2|exact Hist]).
  destruct (sys_schedule H (f :: [p]) s2 ip i Hs2') as (s3 & E3 & Hs3 & Hi3 & Ho3 & Hf3 & _);
    [intros [E|E%list_elem_of_singleton]%elem_of_cons; congruence|now rewrite P2|exact Ai|].
  destruct (sched_frame_fields _ _ _ Hf3) as (Ei3 & _ & Hm3 & _ & _ & Hk3).
  assert (pcb_at s3 f = Some z) as Hz3 by (rewrite Ho3, P2 by done; exact Hz).
  assert (init_pcb (st_ps s3) = ip) as Eip by (rewrite Ei3, Hps2, Hps1; reflexivity).
  destruct (sys_cleanup H [p] s3 f z Hs3 Hz3 Uz ltac:(now rewrite Eip)
    (zombie_no_child _ _ _ (sys_family _ _ Hs3) Hz3 Hzst)) as (s4 & zf & E4 & Hs4 & Ho4 & Hm4 & Ei4 & Hf4 & Hf4u).
  assert (forall q, q <> ip -> q <> f -> pcb_at s4 q = pcb_at s q) as P4
    by (intros q Hq1 Hq2; now rewrite Ho4, Ho3, P2).
  exists s4. split.
  { unfold init_reaps. unfold ps at 1, gets. erewrite bind_Ret by reflexivity.
    pose proof Hs as (n & V & [S1 _ _ _ _ _ _]). rewrite (ho_zombie _ (pi_handles _ _ _ _ S1)).
    change (que_addr 4) with (que_addr (Z.of_nat 4)). mstep E1. change (E_SUCCESS =? E_SUCCESS) with true.
    unfold assert. rewrite bind_ret_l. fold ip. mstep E2. mstep E3. exact E4. }
  split; [exact Hs4|]. split; [rewrite P4 by congruence; exact Hx|]. split.
  { intros q w Hne Hq Uq. destruct (Z.eq_dec q f) as [->|Hqf].
    - rewrite Hf4 in Hq. injection Hq as <-. contradiction.
    - destruct (Z.eq_dec q ip) as [->|Hqi].
      + rewrite Ho4, Hi3 in Hq by congruence. injection Hq as <-. exact (Hno ip i Hne Hi Ui).
      + rewrite P4 in Hq by done. exact (Hno q w Hne Hq Uq). }
  split; [|now rewrite Ei4].
  intros q y Hq Hst.
  assert (q <> f) as Hqf by (intros ->; rewrite Hf4 in Hq; injection Hq as <-; rewrite Hf4u in Hst; discriminate).
  assert (q <> ip) as Hqi by (intros ->; rewrite Ho4, Hi3 in Hq by congruence; injection Hq as <-; discriminate Hst).
  rewrite P4 in Hq by done. destruct (Hw q y Hq Hst) as [[W1 W2] W3]. split; [exact W1|].
  assert (arg_of s4 y 1 = arg_of s y 1) as ->; [|exact W2]. unfold arg_of. fold (arg_word y).
  destruct (W3 ip i ltac:(congruence) Hi Ui) as (C1 & _ & C2). destruct (W3 f z ltac:(congruence) Hz Uz) as (_ & C3 & _).
  transitivity (ld32 (st_mem s3) (arg_word y)).
  { rewrite Hm4. unfold unlinked. destruct (Z.eqb_spec (p_stack z) NULL) as [|Hn]; [reflexivity|].
    apply ld32_st32_ne. specialize (C3 Hn). unfold word_clear in C3. lia. }
  rewrite (ld32_apart (st_mem s2)) by assumption. rewrite Hm2.
  - now apply ld32_apart.
  - exact C1.
  - intros Hn. assert (arg_of s1 i 1 = arg_of s i 1) as Ea by (unfold arg_of; apply ld32_apart; [apply Wi|exact Hm1]).
    rewrite Ea in *. now apply C2.
Qed.

(** The second half: the parent, if it waits, gets the status; otherwise the process
    becomes a zombie. *)
Definition exit_finish (parent pcb : Z) : K unit :=
  pst <- pcb_get parent p_state ;;
  (if pst =? STATE_WAITING then
     status_return parent pcb ;;
     schedule parent ;;
     pcb_cleanup pcb
   else pcb_zombify pcb) ;;
  dispatch.

Lemma waits_answerable s : waits_ok s -> answerable s.
Proof. intros Hw q y Hy Hst. exact (proj1 (Hw q y Hy Hst)). Qed.

(** The process has ended: it is a zombie or its entry is free. *)
Definition gone (p : Z) (s : kstate) : Prop :=
  exists y, pcb_at s p = Some y /\ (p_state y = STATE_ZOMBIE \/ p_state y = STATE_UNUSED).

Lemma wp_gone p y s : sys H [] s -> pcb_at s p = Some y -> p_state y = STATE_ZOMBIE \/ p_state y = STATE_UNUSED ->
  wp dispatch (fun _ s' => sys_run H s' /\ gone p s') s.
Proof.
  intros Hs Hy Hst. eapply wp_mono.
  - apply (wp_dispatch_keeps H s p y Hs Hy). now destruct Hst as [->| ->].
  - intros _ s' [Hr Hy']. split; [exact Hr|]. now exists y.
Qed.

Lemma wp_exit_finish s p x :
  sys H [p] s -> pcb_at s p = Some x -> alive x -> no_child s p -> answerable s ->
  p <> init_pcb (st_ps s) -> p_parent x <> p ->
  wp (exit_finish (p_parent x) p) (fun _ s' => sys_run H s' /\ gone p s') s.
Proof.
  intros Hs Hx Ax Hno Hans Hpi Hpar. unfold exit_finish.
  destruct (fa_parent _ (sys_family _ _ Hs) p x Hx (proj1 Ax)) as (y & Hy & Ay).
  apply (wp_pcb_get_at _ _ _ _ _ y Hy). destruct (Z.eqb_spec (p_state y) STATE_WAITING) as [Hst|Hst].
  - destruct (status_return_keeps [p] s _ y p x Hs Hy (proj1 Ay) Hx (Hans _ _ Hy Hst))
      as (s2 & E2 & Hs2 & Hps2 & _ & _).
    assert (forall q, pcb_at s2 q = pcb_at s q) as P2 by (intros q; unfold pcb_at; now rewrite Hps2).
    assert (sys H (p_parent x :: [p]) s2) as Hs2' by (apply (sys_waiting H _ _ _ y); [exact Hs2|now rewrite P2|exact Hst]).
    destruct (sys_schedule H [p] s2 _ y Hs2') as (s3 & E3 & Hs3 & Hy3 & Ho3 & Hf3 & _);
      [now intros ?%list_elem_of_singleton|now rewrite P2|exact Ay|].
    assert (pcb_at s3 p = Some x) as Hx3 by (rewrite Ho3, P2 by congruence; exact Hx).
    destruct (sched_frame_fields _ _ _ Hf3) as (Ei3 & _).
    destruct (sys_cleanup H [] s3 p x Hs3 Hx3 (proj1 Ax)) as (s4 & x4 & E4 & Hs4 & _ & _ & _ & Hx4 & Hst4).
    + now rewrite Ei3, Hps2.
    + intros q w Hne Hq Uq. destruct (Z.eq_dec q (p_parent x)) as [->|Hqp].
      * rewrite Hy3 in Hq. injection Hq as <-. exact (Hno _ y Hne Hy (proj1 Ay)).
      * rewrite Ho3, P2 in Hq by done. exact (Hno q w Hne Hq Uq).
    + apply wp_bind. eapply wp_Ret; [mstep E2; mstep E3; exact E4|].
      apply (wp_gone p x4); [exact Hs4|exact Hx4|now right].
  - set (x1 := set_p_state STATE_ZOMBIE x). pose proof (pcb_at_with_eq s p x x1 Hx) as Hx1.
    assert (sys H [p] (with_pcb p x1 s)) as Hs1.
    { apply (sys_update H [p] s p x x1 Hs ltac:(left) Hx).
      - intros _. destruct (sys_pcb _ _ _ _ Hs Hx (proj1 Ax)). now split.
      - eapply (family_dies s _ p x x1); [eapply sys_family, Hs|done..|apply others_with|apply with_pcb_init|done|done|].
        intros _. split; [apply Ax|]. split; [reflexivity|exact Hpar]. }
    destruct (sys_enqueue_zombie H [] _ p x1 Hs1 ltac:(apply not_elem_of_nil) Hx1 eq_refl) as (s2 & E2 & Hs2 & Hps2).
    apply wp_bind. pose proof (pcb_at_word _ _ _ Hx) as Hpw. unfold pcb_zombify.
    destruct (Z.eqb_spec p NULL); [unfold NULL in *; lia|]. apply (wp_pcb_set _ _ _ _ _ x Hx). fold x1.
    apply wp_ps. pose proof Hs1 as (n1 & V1 & [S1 _ _ _ _ _ _]). rewrite (ho_zombie _ (pi_handles _ _ _ _ S1)).
    change (que_addr 4) with (que_addr (Z.of_nat 4)). eapply wp_step; [exact E2|].
    change (assert "pcb_zombify: que_insert" (E_SUCCESS =? E_SUCCESS)) with (ret tt : K unit).
    apply (wp_Ret _ _ _ tt s2 eq_refl). apply (wp_gone p x1); [exact Hs2|now rewrite Hps2|now left].
Qed.

Lemma wp_exits s :
  sys_run H s -> waits_ok s ->
  wp (sys_exit (current (st_ps s))) (fun _ s' => sys_run H s' /\ gone (current (st_ps s)) s') s.
Proof.
  intros Hs Hw. destruct (sys_run_cur H s Hs) as (x & Hx & Hr & Ax & Hok & Hsys). unfold sys_exit.
  set (p := current (st_ps s)) in *.
  destruct (fa_parent _ (sys_family _ _ Hsys) p x Hx (proj1 Ax)) as (y & Hy & Ay).
  apply (wp_nonnull _ _ x _ _ _ Hx). apply (wp_pcb_get_at _ _ _ _ _ x Hx). apply (wp_nonnull _ _ y _ _ _ Hy).
  apply (wp_pcb_get_at _ _ _ _ _ y Hy).
  apply wp_assert; [destruct (Z.eqb_spec (p_state y) STATE_UNUSED); [now destruct Ay|done]|].
  apply wp_check; [now apply known_stop|]. intros Hne%negb_true_iff%Z.eqb_neq.
  apply (wp_ARG _ x); [exact Hx|]. apply (wp_pcb_set _ _ _ _ _ x Hx). set (x1 := set_p_status _ x).
  pose proof (pcb_at_with_eq s p x x1 Hx) as Hx1.
  assert (pcb_ok H x1) as Hok1 by (destruct Hok; now split).
  assert (sys H [p] (with_pcb p x1 s)) as Hs1 by (apply (sys_change H [p] s p x x1); [exact Hsys|left|done..]).
  assert (waits_ok (with_pcb p x1 s)) as Hw1.
  { apply (waits_same s); [|exact Hw]. destruct (with_pcb_others p x1 s) as (Em & _).
    split; [exact Em|]. split; [unfold with_pcb; now destruct (pcb_slot p)|]. split; [apply with_pcb_init|].
    intros q z Hz. destruct (Z.eq_dec q p) as [->|Hqp].
    - rewrite Hx1 in Hz. injection Hz as <-. exists x. auto.
    - rewrite pcb_at_with_ne in Hz by congruence. exists z. auto. }
  set (s1 := with_pcb p x1 s) in *. clearbody s1.
  assert (p <> init_pcb (st_ps s1)) as Hpi.
  { intros Ep. destruct (fa_init _ (sys_family _ _ Hs1)) as (i & Hi & _ & Pi). rewrite <- Ep, Hx1 in Hi.
    injection Hi as <-. rewrite <- Ep in Pi. contradiction. }
  eapply wp_seq; [apply (wp_reparent p x1 s1 Hs1 Hx1 Hpi)|].
  intros f s2 (Hs2 & Hx2 & Hsame & Hno & Hf). pose proof (waits_same _ _ Hsame Hw1) as Hw2.
  assert (p <> init_pcb (st_ps s2)) as Hpi2 by (destruct Hsame as (_ & _ & -> & _); exact Hpi).
  apply wp_ps. eapply (wp_seq _ _ (fun _ s3 => sys H [p] s3 /\ pcb_at s3 p = Some x1 /\ no_child s3 p /\ answerable s3 /\
    p <> init_pcb (st_ps s3))).
  - assert (sys H [p] s2 /\ pcb_at s2 p = Some x1 /\ no_child s2 p /\ answerable s2 /\ p <> init_pcb (st_ps s2)) as Hstay
      by (split; [exact Hs2|split; [exact Hx2|split; [exact Hno|split; [now apply waits_answerable|exact Hpi2]]]]).
    destruct (Z.eqb_spec f NULL) as [_|Hfn]; cbn [negb]; [exact Hstay|].
    destruct Hf as [?|(z & Hz & Hzst & Hfp)]; [contradiction|].
    destruct (fa_init _ (sys_family _ _ Hs2)) as (i & Hi & _ & _). apply (wp_pcb_get_at _ _ _ _ _ i Hi).
    destruct (Z.eqb_spec (p_state i) STATE_WAITING) as [Hist|_]; cbn [when]; [|exact Hstay].
    destruct (init_reaps_spec s2 p x1 f z i Hs2 Hx2 Hno Hw2 Hpi2 Hz Hzst Hfp Hi Hist)
      as (s3 & E & G1 & G2 & G3 & G4 & G5).
    apply (wp_Ret _ _ _ tt s3); [exact E|]. split; [exact G1|]. split; [exact G2|]. split; [exact G3|].
    split; [exact G4|]. now rewrite G5.
  - intros _ s3 (G1 & G2 & G3 & G4 & G5). change (p_parent x) with (p_parent x1).
    apply (wp_exit_finish s3 p x1 G1 G2 Ax G3 G4 G5 Hne).
Qed.

Lemma wp_sys_exit s :
  sys_run H s -> waits_ok s -> wp (sys_exit (current (st_ps s))) (fun _ s' => sys_run H s') s.
Proof. intros Hs Hw. eapply wp_mono; [exact (wp_exits s Hs Hw)|]. now intros a s' [? _]. Qed.

(** ** Wait *)

(** No zombie child is left for the caller to find. *)
Definition no_zombie_child s p : Prop :=
  forall q z, q <> p -> pcb_at s q = Some z -> p_state z = STATE_ZOMBIE -> p_parent z <> p.

(** The caller of wait is told that it has no child, or it waits. *)
Definition waits_or_told s (x : pcb_t) (s' : kstate) : Prop :=
  ld32 (st_mem s') (p_context x + reg_off EAX) = u32 S_NO_CHILD \/
  exists y, pcb_at s' (current (st_ps s)) = Some y /\ p_state y = STATE_WAITING.

Lemma wp_waits s x :
  sys_run H s -> pcb_at s (current (st_ps s)) = Some x -> no_zombie_child s (current (st_ps s)) ->
  wp (sys_wait (current (st_ps s))) (fun _ s' => sys_run H s' /\ waits_or_told s x s') s.
Proof.
  intros Hs Hx Hno. destruct (sys_run_cur H s Hs) as (x' & Hx' & Hr & Ax & Hok & Hsys).
  rewrite Hx in Hx'. injection Hx' as <-. unfold sys_wait, waits_or_told.
  set (p := current (st_ps s)) in *. apply (wp_nonnull _ _ x _ _ _ Hx).
  eapply (wp_seq _ _ (fun kc s' => s' = s /\ snd kc = NULL)).
  - change (wp (loop (wait_body p) (0, 0)) (fun kc s' => s' = s /\ snd kc = NULL) s).
    apply (wp_loop _ (fun c s' => s' = s /\ 0 <= fst c)); [split; [done|cbn; lia]|].
    intros [i k] s' [-> Hi]. cbn [fst] in Hi. unfold wait_body.
    destruct (Z.ltb_spec i (Z.of_nat N_PROCS)) as [Hlt|Hge]; [|now split].
    destruct (pcb_at s (pcb_addr i)) as [z|] eqn:Hz.
    + eapply wp_step; [apply (get_pcb_at s _ z Hz)|].
      assert (negb (pcb_addr i =? p) && (p_parent z =? p) && negb (p_state z =? STATE_UNUSED) = true ->
        p_state z <> STATE_ZOMBIE) as Hnz.
      { intros Hb Hst. apply andb_true_iff in Hb as [[B1%negb_true_iff%Z.eqb_neq B2%Z.eqb_eq]%andb_true_iff _].
        exact (Hno _ z B1 Hz Hst B2). }
      destruct (negb _ && _ && _).
      * specialize (Hnz eq_refl). destruct (Z.eqb_spec (p_state z) STATE_ZOMBIE); [contradiction|].
        split; [done|]. cbn. lia.
      * split; [done|]. cbn. lia.
    + exfalso. unfold pcb_at in Hz. unfold N_PROCS in Hlt. rewrite pcb_slot_addr in Hz by lia.
      pose proof Hsys as (n & V & [S1 _ _ _ _ _ _]). apply lookup_ge_None in Hz.
      rewrite (pi_table _ _ _ _ S1) in Hz. lia.
  - intros [k c] s' [-> Hc]. cbn [snd] in Hc. subst c. change (negb (NULL =? NULL)) with false. cbv iota.
    destruct (k <? 1).
    { pose proof (wp_answer H (u32 S_NO_CHILD) s Hs) as Hw. fold p in Hw. revert Hw. unfold wp.
      rewrite (set_RET_at s p x _ Hx). intros Hr'. split; [exact Hr'|]. left. unfold with_ret. ksimpl.
      now rewrite ld32_st32_u32, u32_u32. }
    apply (wp_pcb_set _ _ _ _ _ x Hx). set (x1 := set_p_state STATE_WAITING x).
    assert (alive x1) as Ax1 by (split; unfold used; discriminate).
    assert (pcb_ok H x1) as Hok1 by (destruct Hok; now split).
    pose proof (pcb_at_with_eq s p x x1 Hx) as Hx1. eapply wp_mono.
    + apply (wp_dispatch_keeps H _ p x1); [|exact Hx1|discriminate]. apply (sys_settle H [] _ p x1); [|exact Hx1|now right].
      apply (sys_change H [p] s p x x1); [exact Hsys|left|done..].
    + intros _ s' [Hr' Hy]. split; [exact Hr'|]. right. now exists x1.
Qed.

Lemma wp_sys_wait s :
  sys_run H s -> no_zombie_child s (current (st_ps s)) ->
  wp (sys_wait (current (st_ps s))) (fun _ s' => sys_run H s') s.
Proof.
  intros Hs Hno. destruct (sys_run_cur H s Hs) as (x & Hx & _). eapply wp_mono; [exact (wp_waits s x Hs Hx Hno)|].
  now intros a s' [? _].
Qed.
End SysExit.
