(* ===== verification/SysExec.v ===== *)
(** kernel/syscalls.c: read, exec and fork on the invariant of the kernel. *)

From S2P Require Import Prelude Memory State Lib LibMem Sio Cio Frames Kmem Queues QueuesInv QueuesSpec QueuesPages Stacks StacksSpec Procs ProcsSpec Drivers Clock ClockSpec Syscalls SyscallsSpec CreateSpec ForkSpec CreateClaims Kernel SysLogic SysInv SysCalls SysExit.

Open Scope kernel_scope.

Section SysExec.
Context {L : Layout} (H : Z -> Prop).
Implicit Types (V : list (Z * list Z)) (T : list Z) (s : kstate).

(** ** Read *)

(** The buffer of a read does not meet the nodes. *)
Definition buffer_ok (buf len : Z) : Prop := forall i, 0 <= i < len -> ~ H (u32 (buf + i)).

(** The process that runs stays the same. *)
Definition still (p : Z) s : Prop := sys_run H s /\ current (st_ps s) = p.

Lemma still_io p s s' : io_only s s' -> still p s -> still p s'.
Proof.
  intros Hio [Hs Hc]. split; [now apply (sys_run_io H s)|].
  destruct (io_only_fields _ _ Hio) as (_ & _ & _ & _ & Ep & _). now rewrite Ep.
Qed.

Lemma still_store8 p a v s : ~ H a -> still p s -> still p (up_mem (fun m => st8 m a v) s).
Proof.
  intros Ha [Hs Hc]. split; [|exact Hc]. apply (sys_run_ext H s); [exact Hs|done..|].
  intros b Hb. apply ld8_st8_ne. congruence.
Qed.

Lemma wp_still {A B} p (m : K A) (k : A -> K B) Q s :
  keeps io_only m -> calm m -> still p s -> (forall a s', still p s' -> wp (k a) Q s') -> wp (bind m k) Q s.
Proof. intros Hm Hc Hs Hk. apply wp_io; [exact Hm|exact Hc|]. intros a s' Hio. eapply Hk, still_io; eassumption. Qed.

Lemma wp_still_ret p v s : still p s -> wp (set_RET p v) (fun _ s' => sys_run H s') s.
Proof. intros [Hs <-]. now apply wp_answer. Qed.

(** The input line: at most [size] bytes from the start of the buffer. *)
Lemma wp_cio_gets p buf size s :
  buffer_ok (u32 buf) size -> 0 < size -> still p s -> wp (cio_gets (u32 buf) size) (fun _ s' => still p s') s.
Proof.
  intros Hb Hsz Hs. unfold cio_gets.
  eapply (wp_seq _ _ (fun r s' => still p s' /\ ~ H (fst r))).
  - apply (wp_loop _ (fun '(b, z, c) s' => still p s' /\ 0 < z <= size /\ b = u32 (u32 buf + (size - z)))).
    { split; [exact Hs|]. split; [lia|]. rewrite u32_add_l. f_equal. lia. }
    intros [[b z] c] s1 (Hs1 & Hz & ->).
    assert (~ H (u32 (u32 buf + (size - z)))) as Hn by (apply Hb; lia).
    destruct (Z.ltb_spec 1 z); [|now split].
    apply (wp_still p); [apply io_cio_getchar|apply calm_cio_getchar|exact Hs1|]. intros ch s2 Hs2.
    destruct (ch =? EOT); [now split|].
    eapply wp_step; [reflexivity|]. pose proof (still_store8 p _ ch s2 Hn Hs2) as Hs3.
    assert (u32 (u32 (u32 buf + (size - z)) + 1) = u32 (u32 buf + (size - (z - 1)))) as En
      by (rewrite u32_add_l; f_equal; lia).
    destruct (ch =? 10).
    + apply (wp_Ret _ _ _ _ _ eq_refl). split; [exact Hs3|]. cbn [fst]. rewrite En. apply Hb. lia.
    + apply (wp_Ret _ _ _ _ _ eq_refl). split; [exact Hs3|]. split; [lia|exact En].
  - intros [b c] s1 [Hs1 Hn]. eapply wp_step; [reflexivity|]. apply (wp_Ret _ _ _ _ _ eq_refl).
    now apply still_store8.
Qed.

Lemma s32_le x : 0 <= x < 2 ^ 32 -> s32 x <= x.
Proof. intros Hx. unfold s32. cbv zeta. rewrite u32_small by lia. destruct (x <? 2 ^ 31); lia. Qed.

Lemma wp_sio_read p buf len s :
  0 <= len < 2 ^ 32 -> buffer_ok (u32 buf) len -> still p s -> wp (sio_read (u32 buf) (s32 len)) (fun _ s' => still p s') s.
Proof.
  intros Hlen Hb Hs. unfold sio_read. apply (wp_still p); [io|calm|exact Hs|]. intros n s1 Hs1.
  destruct (n <? 1); [exact Hs1|].
  eapply (wp_seq _ _ (fun _ s' => still p s')).
  - apply (wp_loop _ (fun '(b, c) s' => still p s' /\ 0 <= c /\ b = u32 (u32 buf + c))).
    { split; [exact Hs1|]. split; [lia|]. now rewrite Z.add_0_r, u32_u32. }
    intros [b c] s2 (Hs2 & Hc & ->). apply (wp_still p); [io|calm|exact Hs2|]. intros k s3 Hs3.
    destruct (0 <? k); cbn [andb]; [|exact Hs3]. destruct (Z.ltb_spec c (s32 len)) as [Hlt|]; [|exact Hs3].
    do 3 (apply (wp_still p); [io|calm|eassumption|]; intros ? ? ?).
    pose proof (s32_le len Hlen) as Hle. eapply wp_step; [reflexivity|].
    apply (still_store8 p (u32 (u32 buf + c)) a1) in H2; [|apply Hb; lia].
    do 3 (apply (wp_still p); [io|calm|eassumption|]; intros ? ? ?).
    apply (wp_Ret _ _ _ _ _ eq_refl). split; [assumption|]. split; [lia|].
    rewrite u32_add_l. f_equal. lia.
  - intros c s2 Hs2. apply (wp_still p); [io|calm|exact Hs2|]. intros n' s3 Hs3.
    apply (wp_still p); [io|calm|exact Hs3|]. intros ? s4 Hs4. exact Hs4.
Qed.

Lemma arg_range s x i : 0 <= arg_of s x i < 2 ^ 32.
Proof. apply ld32_range. Qed.

Lemma wp_sys_read s x :
  sys_run H s -> pcb_at s (current (st_ps s)) = Some x -> buffer_ok (arg_of s x 2) (arg_of s x 3) ->
  wp (sys_read (current (st_ps s))) (fun _ s' => sys_run H s') s.
Proof.
  intros Hs Hx Hb. destruct (sys_run_cur H s Hs) as (x' & Hx' & _ & Ax & Hok & Hsys).
  rewrite Hx in Hx'. injection Hx' as <-. unfold sys_read. set (p := current (st_ps s)) in *.
  assert (still p s) as Hst by now split.
  pose proof (arg_range s x 2) as H2. pose proof (arg_range s x 3) as H3.
  apply (wp_nonnull _ _ x _ _ _ Hx). do 3 (apply (wp_ARG _ x); [exact Hx|]).
  set (buf := arg_of s x 2) in *. set (len := arg_of s x 3) in *. rewrite <- (u32_small buf H2) in *.
  destruct (Z.eqb_spec len 0); [now apply (wp_still_ret p)|].
  destruct (_ =? CHAN_CIO).
  - apply (wp_still p); [unfold cio_input_queue; io|unfold cio_input_queue; calm|exact Hst|]. intros n1 s1 Hs1.
    destruct (n1 <? 1); [now apply (wp_still_ret p)|].
    eapply wp_seq; [apply (wp_cio_gets p); [exact Hb|lia|exact Hs1]|]. intros c s2 Hs2.
    now apply (wp_still_ret p).
  - destruct (_ =? CHAN_SIO); [|now apply (wp_still_ret p)].
    eapply wp_seq; [apply (wp_sio_read p); [exact H3|exact Hb|exact Hst]|]. intros c s2 Hs2.
    destruct (c <? 1); [|now apply (wp_still_ret p)].
    destruct Hs2 as [Hs2 Hc2]. destruct (sys_run_cur H s2 Hs2) as (x2 & Hx2 & _ & Ax2 & Hok2 & Hsys2).
    rewrite Hc2 in *. apply (wp_pcb_set _ _ _ _ _ x2 Hx2). set (x3 := set_p_state STATE_BLOCKED x2).
    assert (alive x3) as Ax3 by (split; unfold used; discriminate).
    assert (pcb_ok H x3) as Hok3 by (destruct Hok2; now split).
    assert (sys H [p] (with_pcb p x3 s2)) as (m & V & [S1 S2 S3 S4 S5 S6 S7])
      by (apply (sys_change H [p] s2 p x2 x3); [exact Hsys2|left|done..]).
    pose proof (pcb_at_with_eq s2 p x2 x3 Hx2) as Hx3. set (s3 := with_pcb p x3 s2) in *.
    destruct (inv_queue _ _ _ _ S1 6 ltac:(lia)) as (l & Hl).
    assert (fits 6 x3) as Hfit by (split; [reflexivity|split; [apply (po_prio _ _ Hok3)|lia]]).
    destruct (enqueue_fifo _ _ _ _ _ _ _ _ S1 Hl Hx3 Hfit (S5 p ltac:(left))) as (s4 & m' & E & _).
    apply wp_ps. rewrite (ho_sioread _ (pi_handles _ _ _ _ S1)). change (que_addr 6) with (que_addr (Z.of_nat 6)).
    eapply wp_step; [exact E|]. apply wp_check; [now apply known_stop|]. discriminate.
Qed.

(** ** Exec *)

(** The memory that the allocation may write does not meet the nodes. *)
Definition nodes_apart (W : Z -> Prop) : Prop := forall a, W a -> ~ H a.

Lemma wp_sys_exec s x str f s1 W :
  sys_run H s -> exec_ok s (current (st_ps s)) x str f s1 W -> nodes_apart W ->
  wp (sys_exec (current (st_ps s))) (fun _ s' => sys_run H s') s.
Proof.
  intros Hs ok Hap. destruct (sys_run_cur H s Hs) as (x' & Hx & Hr & Ax & Hok & Hsys).
  rewrite (eo_pcb _ _ _ _ _ _ _ ok) in Hx. injection Hx as <-. pose proof (eo_pcb _ _ _ _ _ _ _ ok) as Hx.
  set (p := current (st_ps s)) in *.
  destruct (sys_exec_spec s p x str f s1 W ok) as (ctx & m' & s' & E & Hrdy & Em & _ & Hx' & Ho & Eq & Ep).
  destruct (stack_given_fresh _ _ _ _ (eo_new _ _ _ _ _ _ _ ok)) as [_ _ Hin Hmem _ _ _].
  eapply wp_Ret; [exact E|]. set (y := set_p_context ctx x) in *.
  destruct Hrdy as [[I1 I2] _ _ _ _ _ Hout].
  assert (agree H (st_mem s) (st_mem s')) as Hag.
  { rewrite Em. etransitivity; [|apply agree_word, (po_stack _ _ Hok), (eo_old _ _ _ _ _ _ _ ok)].
    intros a Ha. assert (~ W a) as Hw by (intros Hin'; exact (Hap a Hin' Ha)).
    rewrite Hout; [now apply Hmem|]. assert (~ in_stack f a) as Hf by auto. unfold in_stack in Hf.
    destruct (Z_lt_le_dec a ctx); [now left|right]. lia. }
  assert (pcb_ok H y) as Hok1.
  { destruct Hok as [K1 K2 K3 K4]. split; [exact K1|exact K2| |exact K4].
    intros j Hj. apply Hap, Hin. unfold in_stack. cbn [y p_context set_p_context]. lia. }
  assert (sys H [p] (with_pcb p y s)) as Hs1 by (apply (sys_change H [p] s p x y); [exact Hsys|left|done..]).
  destruct (with_pcb_others p y s) as (Em1 & Eq1 & _).
  assert (current (st_ps s') = p) as Hc by (rewrite Ep, with_pcb_current; reflexivity).
  unfold sys_run. rewrite Hc. split; [|exists y; split; [exact Hx'|exact Hr]].
  apply (sys_ext H [p] _ s' Hs1); [now rewrite Eq1|exact Ep|now rewrite Em1].
Qed.

Lemma wp_sys_exec_none s :
  sys_run H s -> no_stack s -> wp (sys_exec (current (st_ps s))) (fun _ s' => sys_run H s') s.
Proof.
  intros Hs Hn. destruct (sys_run_cur H s Hs) as (x & Hx & _).
  eapply wp_ext; [|exact (wp_answer H (u32 S_ERROR) s Hs)]. rewrite (set_RET_at s _ x _ Hx). now apply sys_exec_none.
Qed.

(** ** Fork *)

(** A child can be made: a free entry and a stack; the memory that the allocation may
    write is apart from the nodes and from the caller's argument, the child's context is
    apart from the nodes; the walk along the frames [l] ends and spares the nodes. *)
Record fork_call_ok s (x : pcb_t) (i : nat) (f : Z) (s1 : kstate) (W : Z -> Prop) (l : list Z) : Prop := ForkCallOk {
  fc_free : exists y, first_pcb (fun _ y => p_state y =? STATE_UNUSED) (ptable (st_ps s)) i y;
  fc_given : stack_given s f s1 W;
  fc_parent : stack_region (p_stack x);
  fc_arg : word_apart W (p_context x + SZ_CONTEXT + 4 * 1);
  fc_child : forall j, 0 <= j < SZ_CONTEXT -> ~ H (child_context_at x f + j);
  fc_nodes : nodes_apart W;
  fc_walk : walk_spares H s1 x f l
}.

(** A free entry is in no queue. *)
Lemma unused_out T n V s p x : sys_at H T n V s -> pcb_at s p = Some x -> p_state x = STATE_UNUSED -> ~ p ∈ queued V.
Proof.
  intros [S1 S2 S3 S4 S5 S6 S7] Hx Hst Hq.
  destruct (queued_state _ _ _ _ _ _ S1 Hx Hq) as (i & c & l & Hi & Hin & Hlt & (Hf & _)).
  rewrite Hst in Hf. destruct (decide (5 <= i)%nat) as [H5|H5].
  - rewrite (S2 i c l H5 Hi) in Hin. now apply elem_of_nil in Hin.
  - do 5 (destruct i as [|i]; [discriminate Hf|]). lia.
Qed.

(** The entry that the search finds. *)
Lemma free_entry T n V s i y : sys_at H T n V s ->
  first_pcb (fun _ y => p_state y =? STATE_UNUSED) (ptable (st_ps s)) i y ->
  pcb_at s (pcb_addr (Z.of_nat i)) = Some y /\ p_state y = STATE_UNUSED /\ ~ pcb_addr (Z.of_nat i) ∈ queued V.
Proof.
  intros Hsys (Hy & Hu%Z.eqb_eq & _). pose proof Hsys as [S1 _ _ _ _ _ _].
  assert (pcb_at s (pcb_addr (Z.of_nat i)) = Some y) as Hny.
  { pose proof (lookup_lt_Some _ _ _ Hy) as Hlt. rewrite (pi_table _ _ _ _ S1) in Hlt.
    unfold pcb_at. rewrite pcb_slot_addr, Nat2Z.id by lia. exact Hy. }
  split; [exact Hny|]. split; [exact Hu|exact (unused_out _ _ _ _ _ _ Hsys Hny Hu)].
Qed.

(** The conditions of [ForkSpec.sys_fork_spec]. *)
Lemma sys_fork_ok T n V s x i f s1 W l :
  sys_at H T n V s -> pcb_at s (current (st_ps s)) = Some x -> alive x -> pcb_ok H x -> fork_call_ok s x i f s1 W l ->
  fork_ok H n V s (current (st_ps s)) x i f s1 W.
Proof.
  intros Hsys Hx Ax Hok [(y & Hf) G2 G3 G4 G5 G6 _]. pose proof Hsys as [S1 _ _ _ _ _ _].
  destruct (free_entry _ _ _ _ _ _ Hsys Hf) as (_ & _ & Hout).
  split; try done; [apply Ax|now exists y|apply (po_context _ _ Hok)].
Qed.

Lemma sys_run_fork_ok s x i f s1 W l :
  sys_run H s -> pcb_at s (current (st_ps s)) = Some x -> fork_call_ok s x i f s1 W l ->
  exists n V, sys_at H [current (st_ps s)] n V s /\ fork_ok H n V s (current (st_ps s)) x i f s1 W.
Proof.
  intros Hs Hx ok. destruct (sys_run_cur H s Hs) as (x' & Hx' & _ & Ax & Hok & (n & V & Hsys)).
  rewrite Hx in Hx'. injection Hx' as <-. exists n, V. split; [exact Hsys|].
  now apply (sys_fork_ok _ _ _ _ _ _ _ _ _ l Hsys).
Qed.

(** What fork makes of the invariant. *)
Lemma sys_forked n V s x i f s1 W l s' :
  sys_at H [current (st_ps s)] n V s -> pcb_at s (current (st_ps s)) = Some x -> alive x ->
  fork_ok H n V s (current (st_ps s)) x i f s1 W -> valid_prio (child s (current (st_ps s)) x f) ->
  forked H n V s (current (st_ps s)) x i f s1 l s' -> sys H [current (st_ps s)] s'.
Proof.
  intros Hsys Hx Ax ok Hp (n' & q & -> & Hl & Hinv & Hc & Ho & _ & Hcur & _ & Ei & Eq).
  pose proof Hsys as [S1 S2 S3 S4 S5 S6 S7]. set (p := current (st_ps s)) in *. set (new := pcb_addr (Z.of_nat i)) in *.
  destruct (fo_free _ _ _ _ _ _ _ _ _ _ ok) as (y & Hf).
  destruct (free_entry _ _ _ _ _ _ Hsys Hf) as (Hny & Hu & Hout). fold new in Hny, Hout.
  assert (new <> p) as Hne by (intros ->; rewrite Hx in Hny; injection Hny as ->; now apply (proj1 Ax)).
  set (z := set_p_state STATE_READY _) in Hc. pose proof (given _ _ _ _ _ _ _ _ _ _ ok) as G.
  assert (pcb_ok H z) as Hzok.
  { split; [exact Hp|cbn; lia|exact (fo_child _ _ _ _ _ _ _ _ _ _ ok)|].
    intros _ j Hj. apply (stack_nodes _ _ _ _ _ _ _ _ _ _ ok). unfold in_stack, SZ_STACK, STACK_PAGES, SZ_PAGE.
    cbn [z p_stack set_p_state child child_pcb]. lia. }
  exists n', (<[Z.to_nat (p_priority (child s p x f)) := (NULL, q ++ [new])]> V).
  pose proof Hp as Hp'. unfold valid_prio in Hp'.
  eapply (sys_insert H [p] (S n') n' V s s' _ NULL q (q ++ [new]) new y z); try done.
  - split; try done.
    + intros r [->|Hq]%elem_of_cons; [exact Hout|now apply S5].
    + intros r w Hw'. destruct (S6 r w Hw'); [left; now right|now right].
  - now intros ?%list_elem_of_singleton.
  - lia.
  - symmetry. apply Permutation_cons_append.
  - split.
    + intros r w Hq Uw. assert (forall r v, pcb_at s r = Some v -> alive v -> pcb_at s' r = Some v) as Hkeep.
      { intros r' v Hv Av. rewrite Ho; [exact Hv|]. intros ->. rewrite Hny in Hv. injection Hv as ->.
        now apply (proj1 Av). }
      destruct (Z.eq_dec r new) as [->|Hqn].
      * rewrite Hc in Hq. injection Hq as <-. exists x. split; [now apply Hkeep|exact Ax].
      * rewrite Ho in Hq by done. destruct (fa_parent _ S7 r w Hq Uw) as (v & Hv & Av). exists v. auto.
    + destruct (fa_init _ S7) as (v & Hv & Av & Pv). exists v. rewrite Ei, Ho; [auto|].
      intros E'. rewrite E', Hny in Hv. injection Hv as ->. now apply (proj1 Av).
Qed.

Lemma wp_sys_fork s x i f s1 W l :
  sys_run H s -> pcb_at s (current (st_ps s)) = Some x -> fork_call_ok s x i f s1 W l ->
  wp (sys_fork (current (st_ps s))) (fun _ s' => sys_run H s') s.
Proof.
  intros Hs Hx ok. destruct (sys_run_cur H s Hs) as (x' & Hx' & Hr & Ax & _).
  rewrite Hx in Hx'. injection Hx' as <-.
  destruct (sys_run_fork_ok s x i f s1 W l Hs Hx ok) as (n & V & Hsys & ok').
  assert (valid_prio (child s (current (st_ps s)) x f) \/ ~ valid_prio (child s (current (st_ps s)) x f)) as [Hp|Hp]
    by (unfold valid_prio; lia).
  - destruct (sys_fork_spec H n V s _ x i f s1 W ok' l (fc_walk _ _ _ _ _ _ _ ok) Hp) as (s' & E & Hs').
    eapply wp_Ret; [exact E|]. pose proof Hs' as (n' & q & _ & _ & _ & _ & Ho & _ & Hcur & _).
    unfold sys_run. rewrite Hcur. split; [now apply (sys_forked n V s x i f s1 W l)|].
    exists x. split; [|exact Hr]. rewrite Ho; [exact Hx|].
    intros E'. symmetry in E'. revert E'. eapply new_ne. exact ok'.
  - destruct (sys_fork_bad H n V s _ x i f s1 W ok' l (fc_walk _ _ _ _ _ _ _ ok) Hp) as (s' & E).
    eapply wp_eq; [exact E|]. now apply known_stop.
Qed.

(** Without a free entry, or without a stack, the caller is told so. *)
Lemma wp_sys_fork_full s :
  sys_run H s -> Forall used (ptable (st_ps s)) ->
  wp (sys_fork (current (st_ps s))) (fun _ s' => sys_run H s') s.
Proof.
  intros Hs Hfull. destruct (sys_run_cur H s Hs) as (x & Hx & _ & _ & _ & (n & V & [S1 _ _ _ _ _ _])).
  eapply wp_ext; [|exact (wp_answer H (u32 S_ERROR) s Hs)]. rewrite (set_RET_at s _ x _ Hx).
  apply sys_fork_full; [exact Hx|apply (pi_table _ _ _ _ S1)|]. intros y Hy. exact (proj1 (Forall_forall _ _) Hfull y Hy).
Qed.

(** The free entry is freed: nothing changes. *)
Lemma freed_same s p y : pcb_at s p = Some y -> p_state y = STATE_UNUSED -> with_pcb p (set_p_state STATE_UNUSED y) s = s.
Proof.
  intros Hy Hu. assert (set_p_state STATE_UNUSED y = y) as -> by (destruct y; cbn in *; now subst).
  destruct (pcb_at_addr _ _ _ Hy) as (j & -> & Hj & Ht). unfold with_pcb. rewrite pcb_slot_addr by done.
  assert (set_ptable (aset (ptable (st_ps s)) j y) (st_ps s) = st_ps s) as E
    by (unfold aset; rewrite list_insert_id by exact Ht; now destruct (st_ps s)).
  unfold up_ps. rewrite E. now destruct s.
Qed.

Lemma wp_sys_fork_none s i y :
  sys_run H s -> first_pcb (fun _ y => p_state y =? STATE_UNUSED) (ptable (st_ps s)) i y -> no_stack s ->
  wp (sys_fork (current (st_ps s))) (fun _ s' => sys_run H s') s.
Proof.
  intros Hs Hf Hn. destruct (sys_run_cur H s Hs) as (x & Hx & _ & _ & _ & (n & V & Hsys)).
  destruct (free_entry _ _ _ _ _ _ Hsys Hf) as (Hny & Hu & _).
  eapply wp_ext; [|exact (wp_answer H (u32 S_ERROR) s Hs)].
  rewrite (sys_fork_none s _ x i y Hx (pi_table _ _ _ _ (sa_proc _ _ _ _ _ Hsys)) Hf Hn). now rewrite (freed_same s _ y Hny Hu).
Qed.
End SysExec.
