(* ===== verification/SysStep.v ===== *)
(** The interrupt handlers on the invariant of the kernel, and the path of an
    interrupt from the saved context to the restored one. *)

From S2P Require Import Prelude Memory State Lib LibMem Sio Cio Frames Kmem Queues QueuesInv QueuesSpec QueuesPages Stacks StacksSpec Procs ProcsSpec Drivers Clock ClockSpec Syscalls SyscallsSpec CreateSpec ForkSpec CreateClaims Kernel SysLogic SysInv SysCalls SysExit SysExec.

Open Scope kernel_scope.

Section SysStep.
Context {L : Layout} (H : Z -> Prop).
Implicit Types (V : list (Z * list Z)) (T : list Z) (s : kstate).

Lemma wp_run {A B} (m : K A) (k : A -> K B) Q s :
  keeps io_only m -> calm m -> sys_run H s -> (forall a s', sys_run H s' -> wp (k a) Q s') -> wp (bind m k) Q s.
Proof. intros Hm Hc Hs Hk. apply wp_io; [exact Hm|exact Hc|]. intros a s' Hio. eapply Hk, sys_run_io; eassumption. Qed.

(** ** The clock *)

Lemma sys_run_quiet s s' : quiet s s' -> sys_run H s -> sys_run H s'.
Proof.
  intros (Em & _ & Eq & _ & Ep & _) Hs. apply (sys_run_ext H s); [exact Hs|exact Eq|exact Ep|]. now rewrite Em.
Qed.

Lemma quiet_spin_pinwheel : keeps quiet spin_pinwheel.
Proof.
  unfold spin_pinwheel.
  repeat lazymatch goal with
  | |- keeps _ (bind _ _) => apply keeps_bind; [exact _| |intros ?]
  | |- keeps _ (when _ _) => apply keeps_when; [exact _|]
  | |- keeps _ (clk_set _) => apply quiet_clk_set; reflexivity
  | |- keeps _ _ => apply quiet_io; solve [auto with io]
  end.
Qed.

Lemma wp_que_length {B} i (k : Z -> K B) Q s :
  sys_run H s -> (i < 7)%nat -> (forall n, wp (k n) Q s) -> wp (bind (que_length (que_addr (Z.of_nat i))) k) Q s.
Proof.
  intros [(n & V & [S1 S2 S3 _ _ _ _]) _] Hi Hk. destruct (inv_queue _ _ _ _ S1 i ltac:(lia)) as (l & Hl).
  eapply wp_step; [exact (length_hold _ _ _ _ _ _ _ (pi_queues _ _ _ _ S1) Hl (S3 i Hi))|apply Hk].
Qed.

Lemma sys_run_handles s : sys_run H s -> handles_ok s.
Proof. intros [(n & V & [S1 _ _ _ _ _ _]) _]. apply (pi_handles _ _ _ _ S1). Qed.

(** The counts of the states of the table. *)
Lemma wp_count_states s : sys_run H s -> wp count_states (fun r s' => sys_run H s' /\ length (fst r) = N_STATES) s.
Proof.
  intros Hs. unfold count_states.
  apply (wp_loop _ (fun '(n, nst, _) s' => sys_run H s' /\ length nst = N_STATES /\ 0 <= n)).
  { split; [exact Hs|]. now rewrite length_replicate. }
  clear s Hs. intros [[n nst] unk] s (Hs & Hlen & Hn). destruct (Z.ltb_spec n (Z.of_nat N_PROCS)) as [Hlt|]; [|now split].
  pose proof Hs as [(k & V & [S1 _ _ _ _ _ _]) _]. pose proof (pi_table _ _ _ _ S1) as Ht.
  destruct (lookup_lt_is_Some_2 (ptable (st_ps s)) (Z.to_nat n)) as (y & Hy); [unfold N_PROCS in Hlt; lia|].
  apply (wp_step _ _ _ s y s).
  { unfold get_pcb. rewrite pcb_slot_addr by (unfold N_PROCS in Hlt; lia). unfold aget.
    destruct (Z.leb_spec 0 n); [|lia]. now rewrite Hy. }
  cbv zeta. destruct (Z.ltb_spec (p_state y) 0); [split; [exact Hs|split; [exact Hlen|lia]]|].
  destruct (Z.leb_spec (Z.of_nat N_STATES) (p_state y)); cbn [orb]; [split; [exact Hs|split; [exact Hlen|lia]]|].
  destruct (lookup_lt_is_Some_2 nst (Z.to_nat (p_state y))) as (c & Ec); [lia|].
  apply (wp_step _ _ _ s c s); [unfold aget; destruct (Z.leb_spec 0 (p_state y)); [now rewrite Ec|lia]|].
  split; [exact Hs|]. rewrite length_aset. split; [exact Hlen|lia].
Qed.

Lemma wp_status_report s : sys_run H s -> wp status_report (fun _ s' => sys_run H s') s.
Proof.
  intros Hs. unfold status_report, ptable_dump_stats. apply wp_bind.
  apply (wp_seq _ _ _ _ _ (wp_count_states s Hs)). clear s Hs. intros [nst nunk] s [Hs Hlen]. cbn [fst] in Hlen.
  apply (wp_Ret _ _ _ (nunk, nst) s eq_refl).
  do 2 (apply wp_run; [io|calm|eassumption|]; clear s Hs; intros ? s Hs).
  destruct (sys_run_handles s Hs) as [R1 R2 R3 R4 R5]. apply wp_ps. rewrite R1.
  eapply wp_step; [reflexivity|]. apply (wp_que_length 0); [exact Hs|lia|intros n0].
  eapply wp_step; [reflexivity|]. apply (wp_que_length 1); [exact Hs|lia|intros n1].
  eapply wp_step; [reflexivity|]. apply (wp_que_length 2); [exact Hs|lia|intros n2].
  apply wp_ps. rewrite R2. apply (wp_que_length 3); [exact Hs|lia|intros n3].
  apply wp_ps. rewrite R3. apply (wp_que_length 4); [exact Hs|lia|intros n4].
  apply wp_ps. rewrite R4. apply (wp_que_length 5); [exact Hs|lia|intros n5].
  apply wp_ps. rewrite R5. apply (wp_que_length 6); [exact Hs|lia|intros n6].
  destruct (lookup_lt_is_Some_2 nst (Z.to_nat STATE_WAITING)) as (w & Ew); [rewrite Hlen; vm_compute; lia|].
  apply (wp_step _ _ _ s w s); [unfold aget; now rewrite Ew|].
  apply wp_run; [io|calm|exact Hs|]. clear s Hs R1 R2 R3 R4 R5. intros tbuf s Hs.
  destruct (_ <=? _); [apply wp_undef; now apply listed_elem|]. apply wp_report; [io|calm|exact Hs].
Qed.

(** One round of the waking loop: a sleeper becomes READY. *)
Lemma wp_wake_sleepers s : sys_run H s -> wp wake_sleepers (fun _ s' => sys_run H s') s.
Proof.
  intros Hs. unfold wake_sleepers. apply (wp_loop _ (fun _ s' => sys_run H s')); [exact Hs|].
  clear s Hs. intros [] s Hs. destruct (sys_run_cur H s Hs) as (x & Hx & Hr & Ax & Hok & (n & V & Hsys)).
  pose proof Hsys as [S1 _ _ _ S5 _ _].
  destruct (inv_queue _ _ _ _ S1 3 ltac:(lia)) as (l & Hl). unfold wake_body.
  apply wp_ps. rewrite (ho_sleeping _ (pi_handles _ _ _ _ S1)). change (que_addr 3) with (que_addr (Z.of_nat 3)).
  eapply wp_step; [exact (peek_hold _ _ _ _ _ _ _ (pi_queues _ _ _ _ S1) Hl)|].
  destruct l as [|p l]; [exact Hs|]. cbn [fst snd]. change (E_SUCCESS =? E_EMPTY) with false. cbv iota.
  destruct (sys_dequeue H _ _ _ _ _ _ _ _ Hsys Hl) as (s1 & y & E1 & Hs1 & Hy & Hfit & HpT & Hf1).
  pose proof (pcb_at_word _ _ _ Hy) as Hpw. destruct (Z.eqb_spec p NULL); [unfold NULL in *; lia|].
  cbn [when]. apply wp_ret. apply (wp_pcb_get_at _ _ _ _ _ y Hy). unfold clk. apply wp_gets.
  destruct (_ <? _); [exact Hs|]. eapply wp_step; [exact E1|]. cbn [fst snd default from_option].
  apply wp_assert; [reflexivity|].
  destruct (que_frame_others _ _ _ Hf1) as (_ & _ & Hps1 & _).
  assert (forall q, pcb_at s1 q = pcb_at s q) as P1 by (intros q; unfold pcb_at; now rewrite Hps1).
  assert (alive y) as Ay by (destruct Hfit as (Hst & _); split; unfold used; rewrite <- Hst; discriminate).
  destruct (sys_schedule H _ s1 p y Hs1 HpT ltac:(now rewrite P1) Ay) as (s2 & E2 & Hs2 & _ & Ho2 & _ & Hc2).
  eapply wp_step; [exact E2|]. apply (wp_Ret _ _ _ (inl tt) s2 eq_refl).
  unfold sys_run. rewrite Hc2, Hps1. split; [exact Hs2|]. exists x. split; [|exact Hr].
  rewrite Ho2, P1; [exact Hx|]. intros E. apply HpT. rewrite E. left.
Qed.

Lemma wp_end_slice s : sys_run H s -> wp end_slice (fun _ s' => sys_run H s') s.
Proof.
  intros Hs. destruct (sys_run_cur H s Hs) as (x & Hx & Hr & Ax & Hok & Hsys). unfold end_slice.
  apply wp_ps. set (p := current (st_ps s)) in *. apply (wp_pcb_get_at _ _ _ _ _ x Hx).
  apply (wp_pcb_set _ _ _ _ _ x Hx). set (x1 := set_p_quantum _ x).
  pose proof (pcb_at_with_eq s p x x1 Hx) as Hx1. apply (wp_pcb_get_at _ _ _ _ _ x1 Hx1).
  assert (pcb_ok H x1) as Hok1 by (destruct Hok as [K1 K2 K3 K4]; split; [done|apply u8_range|done..]).
  assert (sys H [p] (with_pcb p x1 s)) as Hs1 by (apply (sys_change H [p] s p x x1); [exact Hsys|left|done..]).
  destruct (_ <? 1); cbn [when]; [now apply (wp_yield H p x1)|].
  apply (wp_Ret _ _ _ tt _ eq_refl). unfold sys_run. rewrite with_pcb_current. fold p. eauto.
Qed.

Lemma wp_clk_isr vector code s : sys_run H s -> wp (clk_isr vector code) (fun _ s' => sys_run H s') s.
Proof.
  intros Hs. unfold clk_isr. apply wp_bind, (wp_keeps quiet); [apply quiet_spin_pinwheel|apply calm_spin_pinwheel|].
  intros [] s1 Hq. apply (sys_run_quiet _ _ Hq) in Hs. clear s Hq. unfold clk. apply wp_gets.
  generalize (system_time (st_clk s1)) as t. intros t.
  apply wp_run; [io|calm|exact Hs|]. clear s1 Hs. intros [] s Hs.
  apply (wp_seq _ _ (fun _ s' => sys_run H s')).
  { destruct (_ =? 0); cbn [when]; [now apply wp_status_report|exact Hs]. }
  clear s Hs. intros [] s Hs. eapply wp_step; [reflexivity|].
  apply (wp_seq _ _ (fun _ s' => sys_run H s')).
  { apply wp_wake_sleepers. apply (sys_run_ext H s); [exact Hs|done..]. }
  clear s Hs. intros [] s Hs. apply (wp_seq _ _ (fun _ s' => sys_run H s')); [now apply wp_end_slice|].
  clear s Hs. intros [] s Hs. apply wp_report; [io|intros ?; exact I|exact Hs].
Qed.

(** ** The devices and the faults *)

Lemma wp_sio_rx ch s : sys_run H s -> wp (sio_rx ch) (fun _ s' => sys_run H s') s.
Proof.
  intros Hs. pose proof Hs as [(n & V & [S1 S2 S3 _ _ _ _]) _]. unfold sio_rx.
  apply wp_ps. rewrite (ho_sioread _ (pi_handles _ _ _ _ S1)). change (que_addr 6) with (que_addr (Z.of_nat 6)).
  destruct (inv_queue _ _ _ _ S1 6 ltac:(lia)) as (l & Hl). rewrite (S2 6%nat _ _ ltac:(lia) Hl) in Hl.
  eapply wp_step; [exact (length_hold _ _ _ _ _ _ _ (pi_queues _ _ _ _ S1) Hl (S3 6%nat ltac:(lia)))|].
  cbn [length]. change (Z.of_nat 0 <? 1) with true. cbn [negb].
  apply wp_report; [unfold put_inlast; io|unfold put_inlast; calm|exact Hs].
Qed.

Lemma wp_sio_event s : sys_run H s -> wp sio_event (fun _ s' => sys_run H s') s.
Proof.
  intros Hs. unfold sio_event. apply wp_run; [io|calm|exact Hs|]. clear s Hs. intros v s Hs. cbv zeta.
  destruct (_ =? UA4_IIR_LINE_STATUS); [apply wp_report; [io|calm|exact Hs]|].
  destruct (_ =? UA4_IIR_RX).
  { apply wp_run; [io|calm|exact Hs|]. clear s Hs. intros ch s Hs.
    eapply wp_seq; [apply (wp_sio_rx _ s Hs)|]. clear s Hs. intros [] s Hs. exact Hs. }
  destruct (_ =? UA5_IIR_RX_FIFO); [apply wp_report; [io|calm|exact Hs]|].
  destruct (_ =? UA4_IIR_TX); [apply wp_report; [unfold sio_tx; io|unfold sio_tx; calm|exact Hs]|].
  destruct (_ =? UA4_IIR_NO_INT); [apply wp_report; [io|calm|exact Hs]|].
  destruct (_ =? UA4_IIR_MODEM_STATUS); [apply wp_report; [io|calm|exact Hs]|].
  apply wp_panics. now apply known_stop.
Qed.

Lemma wp_sio_isr vector code s : sys_run H s -> wp (sio_isr vector code) (fun _ s' => sys_run H s') s.
Proof.
  intros Hs. unfold sio_isr. apply (wp_loop _ (fun _ s' => sys_run H s')); [exact Hs|].
  clear s Hs. intros [] s Hs. eapply wp_seq; [apply (wp_sio_event s Hs)|].
  clear s Hs. intros [] s Hs; exact Hs.
Qed.

Lemma wp_panic {A} reason (Q : A -> kstate -> Prop) s : wp (panic reason) Q s.
Proof.
  unfold panic. eapply wp_step; [reflexivity|]. apply wp_io; [io|calm|]. intros _ s' _.
  apply wp_panics. now apply known_stop.
Qed.

Lemma wp_default_handler vector code s : sys_run H s -> wp (default_handler vector code) (fun _ s' => sys_run H s') s.
Proof.
  intros Hs. unfold default_handler. apply wp_run; [io|calm|exact Hs|]. clear s Hs. intros [] s Hs.
  destruct (_ && _); [|apply wp_panic]. apply wp_report; [io|calm|exact Hs].
Qed.

Lemma wp_mystery_handler vector code s : sys_run H s -> wp (mystery_handler vector code) (fun _ s' => sys_run H s') s.
Proof. intros Hs. unfold mystery_handler. apply wp_report; [io|calm|exact Hs]. Qed.

Lemma wp_keyboard_isr vector code s :
  sys_run H s -> wp (run_handler HKeyboard vector code) (fun _ s' => sys_run H s') s.
Proof. intros Hs. cbn [run_handler]. unfold keyboard_isr. apply wp_report; [io|calm|exact Hs]. Qed.

Lemma io_fault_report : keeps io_only fault_report.
Proof. unfold fault_report. io. Qed.

(** The faults and the unexpected interrupts stop the system. *)
Lemma wp_fault h vector code (Q : unit -> kstate -> Prop) s :
  h = HIllop \/ h = HGp \/ h = HUnexpected -> wp (run_handler h vector code) Q s.
Proof.
  intros [->|[->| ->]]; cbn [run_handler].
  - unfold illop_fault. apply wp_io; [io|calm|]. intros _ s1 _.
    apply wp_io; [apply io_fault_report|calm|]. intros _ s2 _. apply wp_panic.
  - unfold gp_fault. apply wp_io; [io|calm|]. intros _ s1 _. apply wp_io; [io|calm|]. intros _ s2 _.
    apply wp_io; [apply io_fault_report|calm|]. intros _ s3 _. apply wp_panic.
  - unfold unexpected_handler. apply wp_io; [io|calm|]. intros _ s1 _. apply wp_panic.
Qed.

(** ** The system call interrupt *)

(** What the handler of a system call relies on, by its code: user pointers that do
    not lead into the nodes of the queues; for wait, that no zombie child is left (the
    handler would leave it in the queue of the zombies); for fork and exec, that the
    list of free stacks or, when it is empty, the list of the page allocator is well
    formed, and that what they write is apart from the nodes.  A stack may come from
    either, or there may be none; nothing is required of the priority. *)
Inductive call_ok s (x : pcb_t) : Z -> Prop :=
| ok_exit : waits_ok H s -> call_ok s x SYS_exit
| ok_wait : no_zombie_child s (current (st_ps s)) -> call_ok s x SYS_wait
| ok_fork i f s1 W l : fork_call_ok H s x i f s1 W l -> call_ok s x SYS_fork
| ok_fork_full : Forall used (ptable (st_ps s)) -> call_ok s x SYS_fork
| ok_fork_none i y : first_pcb (fun _ y => p_state y =? STATE_UNUSED) (ptable (st_ps s)) i y -> no_stack s -> call_ok s x SYS_fork
| ok_exec str f s1 W : exec_ok s (current (st_ps s)) x str f s1 W -> nodes_apart H W -> call_ok s x SYS_exec
| ok_exec_none : no_stack s -> call_ok s x SYS_exec
| ok_read : buffer_ok H (arg_of s x 2) (arg_of s x 3) -> call_ok s x SYS_read
| ok_write : call_ok s x SYS_write
| ok_sleep : call_ok s x SYS_sleep
| ok_getpid : call_ok s x SYS_getpid
| ok_gettime : call_ok s x SYS_gettime
| ok_getprio : call_ok s x SYS_getprio
| ok_bad code : code < 0 \/ N_SYSCALLS <= code -> word_apart H (arg_word x) ->
    waits_ok H (up_mem (fun m => st32 m (arg_word x) (u32 S_BAD_SYSCALL)) s) -> call_ok s x code.

Lemma waits_io s s' : st_mem s' = st_mem s -> st_stk s' = st_stk s -> st_ps s' = st_ps s -> waits_ok H s -> waits_ok H s'.
Proof.
  intros Em Ek Ep. apply waits_same. split; [exact Em|]. split; [exact Ek|]. split; [now rewrite Ep|].
  intros q z Hz. exists z. split; [|done]. unfold pcb_at in *. now rewrite Ep in Hz.
Qed.

(** The call itself. *)
Lemma wp_syscall s x code f :
  sys_run H s -> pcb_at s (current (st_ps s)) = Some x -> call_ok s x code -> 0 <= code < N_SYSCALLS ->
  syscalls code = Some f -> wp (f (current (st_ps s))) (fun _ s' => sys_run H s') s.
Proof.
  intros Hs Hx Hok.
  destruct Hok as [Hw|Hno|i f0 s1 W l Hfork|Hfull|i y Hy Hno|str f0 s1 W Hexec Hap|Hno|Hbuf| | | | | |code Hbad _ _];
    intros Hr Hf; try (injection Hf as <-).
  - now apply wp_sys_exit.
  - now apply wp_sys_wait.
  - now apply (wp_sys_fork H s x i f0 s1 W l).
  - now apply wp_sys_fork_full.
  - now apply (wp_sys_fork_none H s i y).
  - now apply (wp_sys_exec H s x str f0 s1 W).
  - now apply wp_sys_exec_none.
  - now apply (wp_sys_read H s x).
  - now apply wp_sys_write.
  - now apply wp_sys_sleep.
  - now apply wp_sys_getpid.
  - now apply wp_sys_gettime.
  - now apply wp_sys_getprio.
  - lia.
Qed.

Lemma wp_eoi s : sys_run H s -> wp (outb PIC1_CMD PIC_EOI) (fun _ s' => sys_run H s') s.
Proof. intros Hs. apply wp_report; [io|intros ?; exact I|exact Hs]. Qed.

Lemma wp_sys_isr vector ecode s x :
  sys_run H s -> pcb_at s (current (st_ps s)) = Some x -> p_context x <> NULL ->
  call_ok s x (s32 (ld32 (st_mem s) (p_context x + reg_off EAX))) ->
  wp (sys_isr vector ecode) (fun _ s' => sys_run H s') s.
Proof.
  intros Hs Hx Hctx Hok. unfold sys_isr. apply wp_ps. apply (wp_nonnull _ _ x _ _ _ Hx).
  apply (wp_pcb_get_at _ _ _ _ _ x Hx). apply wp_assert; [now destruct (Z.eqb_spec (p_context x) NULL)|].
  apply (wp_step _ _ _ s (ld32 (st_mem s) (p_context x + reg_off EAX)) s).
  { unfold REG. now mstep (pcb_get_at s _ x p_context Hx). }
  cbv zeta. set (code := s32 _) in *.
  destruct (Z.ltb_spec code 0) as [Hneg|Hge]; [|destruct (Z.leb_spec N_SYSCALLS code) as [Hbig|Hlt]]; cbn [orb].
  3: { apply wp_ret, wp_ps.
       destruct (syscalls code) as [f|] eqn:Hf.
       2: { apply lookup_ge_None in Hf. unfold N_SYSCALLS in Hlt. cbn [length] in Hf. lia. }
       eapply wp_seq; [apply (wp_syscall s x code f Hs Hx Hok ltac:(lia) Hf)|].
       intros [] s' Hs'. now apply wp_eoi. }
  all: assert (word_apart H (arg_word x) /\
    waits_ok H (up_mem (fun m => st32 m (arg_word x) (u32 S_BAD_SYSCALL)) s)) as [Hw Hwait]
    by (inversion Hok; unfold N_SYSCALLS, SYS_exit, SYS_wait, SYS_fork, SYS_exec, SYS_read, SYS_write, SYS_sleep, SYS_getpid, SYS_gettime, SYS_getprio in *; (lia || now split)).
  all: apply wp_bind; apply (wp_pcb_get_at _ _ _ _ _ x Hx); apply wp_io; [io|calm|]; intros [] s1 Hio.
  all: destruct (io_only_fields _ _ Hio) as (Em & _ & Eq & Ek & Ep & _).
  all: assert (pcb_at s1 (current (st_ps s)) = Some x) as Hx1 by (unfold pcb_at in *; now rewrite Ep).
  all: apply (wp_step _ _ _ s1 tt (up_mem (fun m => st32 m (arg_word x) (u32 S_BAD_SYSCALL)) s1));
    [unfold set_ARG; now mstep (pcb_get_at s1 _ x p_context Hx1)|].
  all: apply (wp_Ret _ _ _ SYS_exit _ eq_refl); apply wp_ps; cbn [syscalls Z.to_nat SYS_exit lookup list_lookup].
  all: set (s2 := up_mem _ s1).
  all: assert (sys_run H s2) as Hs2 by
    (apply (sys_run_ext H s1); [eapply sys_run_io; eassumption|done..|now apply agree_word]).
  all: assert (waits_ok H s2) as Hw2 by
    (eapply waits_io; [| | |exact Hwait]; unfold s2; ksimpl; congruence).
  all: eapply wp_seq; [apply (wp_sys_exit H s2 Hs2 Hw2)|]; intros [] s3 Hs3; now apply wp_eoi.
Qed.

(** * The kernel as a transition system *)

(** The stub has pushed a context at [esp], apart from the nodes. *)
Definition frame_ok (esp : Z) : Prop := esp <> NULL /\ forall i, 0 <= i < SZ_CONTEXT -> ~ H (esp + i).

(** The state in which the handler starts: the context is saved. *)
Definition saved (esp : Z) (x : pcb_t) s : kstate := with_pcb (current (st_ps s)) (set_p_context esp x) s.

(** A handler is installed for the vector. *)
Definition handler_ok (esp : Z) s : Prop := exists h,
  isr_table (st_krn s) !! Z.to_nat (ld32 (st_mem s) (esp + reg_off VECTOR)) = Some h /\ h <> HNone.

Definition interrupt_ok (esp : Z) (x : pcb_t) s : Prop :=
  pcb_at s (current (st_ps s)) = Some x /\ frame_ok esp /\ handler_ok esp s /\
  (isr_table (st_krn s) !! Z.to_nat (ld32 (st_mem s) (esp + reg_off VECTOR)) = Some HSys ->
   call_ok (saved esp x s) (set_p_context esp x) (s32 (ld32 (st_mem s) (esp + reg_off EAX)))).

Lemma saved_run esp x s : sys_run H s -> interrupt_ok esp x s -> sys_run H (saved esp x s).
Proof.
  intros Hs (Hx & [_ Hfr] & _ & _). destruct (sys_run_cur H s Hs) as (x' & Hx' & Hr & Ax & Hok & Hsys).
  rewrite Hx in Hx'. injection Hx' as <-. unfold saved, sys_run. rewrite with_pcb_current.
  split; [|exists (set_p_context esp x); split; [eapply pcb_at_with_eq, Hx|exact Hr]].
  apply (sys_change H _ s _ x); [exact Hsys|left|exact Hx|exact Ax|exact Ax| |reflexivity].
  destruct Hok as [K1 K2 K3 K4]. split; [exact K1|exact K2|exact Hfr|exact K4].
Qed.

Lemma wp_isr_save esp x s :
  sys_run H s -> interrupt_ok esp x s -> wp (isr_save esp) (fun _ s' => sys_run H s') s.
Proof.
  intros Hs Hi. pose proof (saved_run esp x s Hs Hi) as Hs1. destruct Hi as (Hx & [Hn Hfr] & (h & Eh & Hh) & Hcall).
  unfold isr_save. do 2 apply wp_load32. apply wp_ps. apply (wp_pcb_set _ _ _ _ _ x Hx).
  fold (saved esp x s). unfold krn. apply wp_gets.
  pose proof (pcb_at_with_eq s _ x (set_p_context esp x) Hx) as Hx1. fold (saved esp x s) in Hx1.
  assert (st_mem (saved esp x s) = st_mem s /\ st_krn (saved esp x s) = st_krn s /\
    current (st_ps (saved esp x s)) = current (st_ps s)) as (Em & Ek & Ec).
  { unfold saved, with_pcb. destruct (pcb_slot _); repeat split. }
  set (s1 := saved esp x s) in *. clearbody s1. rewrite Ek.
  set (vec := ld32 (st_mem s) (esp + reg_off VECTOR)) in *.
  assert (0 <= vec) as Hvec by apply ld32_range.
  apply (wp_step _ _ _ s1 h s1).
  { unfold aget. destruct (Z.leb_spec 0 vec); [now rewrite Eh|lia]. } generalize (s32 vec) as v. intros v. generalize (s32 (ld32 (st_mem s) (esp + reg_off CODE))) as cd. intros cd.
  eapply (wp_seq _ _ (fun _ s' => sys_run H s')).
  - destruct h.
    + now destruct Hh.
    + now apply wp_fault; auto.
    + now apply wp_default_handler.
    + now apply wp_mystery_handler.
    + now apply wp_fault; auto.
    + now apply wp_fault; auto.
    + now apply wp_keyboard_isr.
    + now apply wp_clk_isr.
    + now apply wp_sio_isr.
    + rewrite <- Ec in Hx1. apply (wp_sys_isr v cd s1 _ Hs1 Hx1); [exact Hn|].
      cbn [p_context set_p_context]. rewrite Em. now apply Hcall.
  - intros [] s2 Hs2. apply wp_report; [unfold isr_restore; io|calm|exact Hs2].
Qed.

(** A step: user code changes memory outside the nodes; or an interrupt is handled and
    the context of the current process is restored. *)
Inductive kstep : kstate -> kstate -> Prop :=
| step_user s m : agree H (st_mem s) m -> kstep s (up_mem (fun _ => m) s)
| step_interrupt s esp x c s' : interrupt_ok esp x s -> isr_save esp s = Ret c s' -> kstep s s'.

Lemma kstep_run s s' : kstep s s' -> sys_run H s -> sys_run H s'.
Proof.
  intros [s0 m Hm|s0 esp x c s1 Hi E] Hs.
  - apply (sys_run_ext H s0); [exact Hs|done..|exact Hm].
  - exact (wp_returns _ _ _ _ _ (wp_isr_save esp x s0 Hs Hi) E).
Qed.

Lemma ksteps_run s s' : rtc kstep s s' -> sys_run H s -> sys_run H s'.
Proof. induction 1 as [|s1 s2 s3 Hstep _ IH]; [auto|]. intros Hs. eapply IH, kstep_run; eassumption. Qed.
End SysStep.
