(* ===== verification/SysClaims.v ===== *)
(** The contract of the whole kernel: the invariant along every run, where the
    processes are, and how the system can stop. *)

From S2P Require Import Prelude Memory State Lib LibMem Sio Cio Frames Kmem Queues QueuesInv QueuesSpec QueuesPages QueuesClaims Stacks StacksSpec Procs ProcsSpec ProcsClaims Drivers Clock ClockSpec ClockClaims Syscalls SyscallsSpec SyscallsClaims CreateSpec ForkSpec CreateClaims Kernel SysLogic SysInv SysCalls SysExit SysExec SysStep.

Open Scope kernel_scope.

#[local] Existing Instance example_layout.

(** C1: the invariant of the kernel holds along every run of [kstep]: when it holds in a
    state, it holds after any sequence of user steps and of interrupts (each system call,
    clock tick, device interrupt) whose handler returns.  A user step changes memory
    outside the nodes of the queues; an interrupt meets [interrupt_ok]: a handler is
    installed for its vector, the context is pushed apart from the nodes, and a system
    call meets [call_ok], its conditions on the memory that the kernel reads or writes for
    it.  Stacks for fork and exec come from the list of free stacks or from the page
    allocator, or there are none; the priority of a child is arbitrary.  The conditions
    hold after the start of the system: [BootRun.kernel_invariant_witness]. *)
Theorem kernel_invariant {L : Layout} H s s' : sys_run H s -> rtc (kstep H) s s' -> sys_run H s'.
Proof. intros Hs Hr. exact (ksteps_run H s s' Hr Hs). Qed.

(** ** An example: process 1 runs and sleeps; process 3 has the higher priority *)

Definition sleep_call (m : memory) : memory :=
  st32 (st32 (st32 m (0x1000 + reg_off VECTOR) VEC_SYSCALL) (0x1000 + reg_off EAX) SYS_sleep) (0x1000 + SZ_CONTEXT + 4) 20.


Definition sleep_start : kstate :=
  up_krn (set_isr_table (replicate 128 HUnexpected ++ [HSys])) (call_example sleep_call).


Definition three_procs : list pcb_t :=
  [example_pcb 1 STATE_RUNNING 0 0; example_pcb 2 STATE_READY 1 0; example_pcb 3 STATE_READY 0 0].

Lemma sleep_start_parts :
  st_ps sleep_start = Procs [que_addr 0; que_addr 1; que_addr 2] (que_addr 3) (que_addr 4)
    (que_addr 5) (que_addr 6) (pcb_addr 0) (three_procs ++ replicate 22 pcb0) 4 (pcb_addr 0) /\
  queue_free (st_qs sleep_start) = replicate 8 QUE_INUSE.
Proof. split; vm_compute; reflexivity. Qed.



Definition sleep_end : kstate := final (isr_save 0x1000) sleep_start.

Lemma sleep_step : kstep example_region sleep_start sleep_end.
Proof.
  destruct sleep_start_parts as [Eps _].
  eapply (step_interrupt _ _ 0x1000 (example_pcb 1 STATE_RUNNING 0 0)).
  - split; [|split; [|split]].
    + unfold pcb_at. rewrite Eps. reflexivity.
    + split; [discriminate|]. intros i Hi Hr%example_region_high. unfold SZ_CONTEXT in Hi. lia.
    + exists HSys. split; [vm_compute; reflexivity|discriminate].
    + intros _. assert (s32 (ld32 (st_mem sleep_start) (0x1000 + reg_off EAX)) = SYS_sleep) as ->
        by (vm_compute; reflexivity). constructor.
  - instantiate (1 := match isr_save 0x1000 sleep_start with Ret c _ => c | _ => 0 end).
    unfold sleep_end, final. assert (returns (isr_save 0x1000 sleep_start) = true) as Hr by (vm_compute; reflexivity).
    destruct (isr_save 0x1000 sleep_start); (reflexivity || discriminate Hr).
Qed.

(** ** Where every process is *)

(** [V]: the contents of the queues of processes. *)
Definition placed {L : Layout} (V : list (Z * list Z)) (s : kstate) (p : Z) (x : pcb_t) : Prop :=
  (p = current (st_ps s) /\ p_state x = STATE_RUNNING /\ ~ p ∈ queued V) \/
  (p_state x = STATE_READY /\ exists l, V !! Z.to_nat (p_priority x) = Some (NULL, l) /\ p ∈ l) \/
  (p_state x = STATE_SLEEPING /\ exists l, V !! 3%nat = Some (comp_wakeup_addr, l) /\ p ∈ l) \/
  (p_state x = STATE_ZOMBIE /\ exists l, V !! 4%nat = Some (NULL, l) /\ p ∈ l) \/
  (p_state x = STATE_WAITING /\ ~ p ∈ queued V).

Lemma sys_run_placed {L : Layout} H n V s p x :
  sys_at H [current (st_ps s)] n V s -> (exists c, pcb_at s (current (st_ps s)) = Some c /\ p_state c = STATE_RUNNING) ->
  pcb_at s p = Some x -> used x -> placed V s p x.
Proof.
  intros Hs (c & Hc & Hr) Hx Ux. pose proof Hs as [S1 S2 S3 S4 S5 S6 S7].
  destruct (S6 p x Hx) as [->%list_elem_of_singleton|[Hq|[?|Hw]]].
  - left. rewrite Hx in Hc. injection Hc as ->. split; [done|]. split; [exact Hr|apply S5; left].
  - destruct (queued_state _ _ _ _ _ _ S1 Hx Hq) as (i & k & l & Hi & Hin & Hlt & Hfit).
    pose proof (inv_key _ _ _ _ S1 _ _ _ Hi) as Hk. pose proof (S2 i k l) as Hidle.
    destruct (decide (5 <= i)%nat) as [H5|H5].
    { rewrite (Hidle H5 Hi) in Hin. now apply elem_of_nil in Hin. }
    destruct Hfit as (Hst & _ & Hp). clear Hidle Hlt. right.
    destruct i as [|[|[|[|[|i]]]]]; [..|lia]; injection Hk as <-; cbn in Hst; symmetry in Hst.
    1-3: left; split; [exact Hst|]; rewrite Hp by lia; eauto.
    + right. left. eauto.
    + right. right. left. eauto.
  - contradiction.
  - do 4 right. split; [exact Hw|]. intros Hq.
    destruct (queued_state _ _ _ _ _ _ S1 Hx Hq) as (i & k & l & _ & _ & Hlt & Hfit).
    now destruct (fits_states i x Hlt Hfit) as (Hnw & _).
Qed.

(** C2: no process is ever lost.  In every state that the kernel reaches by [kstep] (under
    the conditions stated at C1), each process of the table is the running one, or it is
    READY and in the ready queue of its priority, SLEEPING and among the sleepers, a
    ZOMBIE and among the zombies, or it waits for a child; no process is BLOCKED, none is
    in two queues or twice in one; and its parent is alive. *)
Theorem processes_accounted {L : Layout} H s0 s :
  sys_run H s0 -> rtc (kstep H) s0 s ->
  exists n V, queues_hold H n V s /\ NoDup (queued V) /\
    forall p x, pcb_at s p = Some x -> p_state x <> STATE_UNUSED ->
      placed V s p x /\ exists y, pcb_at s (p_parent x) = Some y /\ alive y.
Proof.
  intros Hs Hr. destruct (ksteps_run H s0 s Hr Hs) as [(n & V & Hat) Hcur]. exists n, V.
  pose proof Hat as [S1 _ _ _ _ _ S7]. split; [exact (pi_queues _ _ _ _ S1)|]. split; [exact (pi_nodup _ _ _ _ S1)|].
  intros p x Hx Ux. split; [eapply sys_run_placed; eassumption|exact (fa_parent _ S7 p x Hx Ux)].
Qed.

(** ** How the system stops *)









