(* ===== verification/BootFrames.v ===== *)
(** The initialisation of the modules and the creation of the first process leave the
    drivers alone; the tables of the processes leave the memory alone. *)

From S2P Require Import Prelude Memory State Lib LibMem Sio Cio Frames Kmem Queues Stacks Procs Clock Syscalls Kernel.

Open Scope kernel_scope.

(** * Code that leaves the drivers alone *)

(** The console, the serial line, the interrupt table, the ports and the clock. *)
Definition plain (s s' : kstate) : Prop :=
  st_cio s' = st_cio s /\ st_sio s' = st_sio s /\ st_krn s' = st_krn s /\ st_dev s' = st_dev s /\ st_clk s' = st_clk s.

#[export] Instance plain_preorder : PreOrder plain.
Proof. split; [now intros s|]. intros s1 s2 s3 (?&?&?&?&?) (?&?&?&?&?). repeat split; congruence. Qed.

Lemma plain_mem f : keeps plain (modify (up_mem f)).
Proof. intros s. repeat split. Qed.
Lemma plain_km f : keeps plain (km_set f).
Proof. intros s. repeat split. Qed.
Lemma plain_qs f : keeps plain (qs_set f).
Proof. intros s. repeat split. Qed.
Lemma plain_stk f : keeps plain (stk_set f).
Proof. intros s. repeat split. Qed.
Lemma plain_ps f : keeps plain (ps_set f).
Proof. intros s. repeat split. Qed.

Create HintDb plain.
#[export] Hint Resolve keeps_ret keeps_undef keeps_panics keeps_gets keeps_aget keeps_assert keeps_km keeps_qs keeps_stk
  keeps_ps keeps_clk keeps_sio keeps_cio keeps_krn keeps_load8 keeps_load16 keeps_load32 keeps_load64
  plain_mem plain_km plain_qs plain_stk plain_ps : plain.
#[export] Hint Extern 1 (PreOrder _) => apply plain_preorder : plain.

Lemma plain_Ret {A} (m : K A) s a s' : keeps plain m -> m s = Ret a s' -> plain s s'.
Proof. intros H E. specialize (H s). now rewrite E in H. Qed.

Ltac plain_step :=
  lazymatch goal with
  | |- keeps _ (bind _ _) => apply keeps_bind; [exact _| |intros ?]
  | |- keeps _ (when _ _) => apply keeps_when; [exact _|]
  | |- keeps _ (loop _ _) => apply keeps_loop; [exact _|intros ?]
  | |- keeps _ (let _ := _ in _) => cbv zeta
  | |- keeps _ (match ?x with _ => _ end) => destruct x
  | |- keeps _ _ => solve [auto with plain]
  end.
Ltac plainly := intros; repeat plain_step.

Lemma plain_store8 a v : keeps plain (store8 a v).
Proof. apply plain_mem. Qed.
Lemma plain_store32 a v : keeps plain (store32 a v).
Proof. apply plain_mem. Qed.
#[export] Hint Resolve plain_store8 plain_store32 : plain.

Section Modules.
Context {L : Layout}.

Lemma plain_get_pcb p : keeps plain (get_pcb p).
Proof. unfold get_pcb. intros s. destruct (pcb_slot p); [apply keeps_aget; exact _|reflexivity]. Qed.
Hint Resolve plain_get_pcb : plain.

Lemma plain_pcb_get {A} p (f : pcb_t -> A) : keeps plain (pcb_get p f).
Proof. unfold pcb_get. plainly. Qed.

Lemma plain_pcb_set p f : keeps plain (pcb_set p f).
Proof. unfold pcb_set. plainly. unfold put_pcb. intros s. destruct (pcb_slot p); [apply plain_ps|reflexivity]. Qed.
Hint Resolve plain_pcb_get plain_pcb_set : plain.

Lemma plain_memclr a n : keeps plain (memclr a n).
Proof. unfold memclr. plainly. Qed.

Lemma plain_memmove d r n : keeps plain (memmove d r n).
Proof. unfold memmove, copy_down, copy_up. plainly. Qed.

Lemma plain_strlen a : keeps plain (strlen a).
Proof. unfold strlen, load_char. plainly. Qed.
Hint Resolve plain_memclr plain_memmove plain_strlen : plain.

(** ** Pages, queues and stacks *)

Lemma plain_page_alloc n : keeps plain (km_page_alloc n).
Proof. unfold km_page_alloc, assign_link, blk_pages, blk_next, set_pages, set_next. plainly. Qed.
Hint Resolve plain_page_alloc : plain.

Lemma plain_qnode_alloc : keeps plain qnode_alloc.
Proof.
  unfold qnode_alloc, qnode_add_page, qnode_free, set_qn_next, qn_next. plainly.
  apply keeps_for; [exact _|]. plainly.
Qed.

Lemma plain_get_que q : keeps plain (get_que q).
Proof. unfold get_que. intros s. destruct (que_slot q); [apply keeps_aget; exact _|reflexivity]. Qed.

Lemma plain_que_set q f : keeps plain (que_set q f).
Proof.
  unfold que_set. intros s. destruct (que_slot q) as [i|]; [|reflexivity].
  apply (keeps_bind plain (aget "queue access" (queues (st_qs s)) i)
    (fun x => qs_set (fun r => set_queues (aset (queues r) i (f x)) r))); [apply keeps_aget; exact _|intros x; apply plain_qs].
Qed.

Lemma plain_call_compare f a b : keeps plain (call_compare f a b).
Proof. unfold call_compare, kernel_comparators, comp_wakeup. plainly. Qed.

Hint Resolve plain_qnode_alloc plain_get_que plain_que_set plain_call_compare : plain.

Lemma plain_que_insert q d : keeps plain (que_insert q d).
Proof. unfold que_insert, set_qn_data, set_qn_next, qn_data, qn_next. plainly. Qed.

Lemma plain_que_remove q b : keeps plain (que_remove q b).
Proof. unfold que_remove, qnode_free, set_qn_next, qn_data, qn_next. plainly. Qed.

Lemma plain_stk_alloc : keeps plain stk_alloc.
Proof. unfold stk_alloc. plainly. Qed.

Lemma plain_stk_setup s e a : keeps plain (stk_setup s e a).
Proof. unfold stk_setup. plainly. Qed.

Hint Resolve plain_que_insert plain_que_remove plain_stk_alloc plain_stk_setup : plain.

Lemma plain_schedule p : keeps plain (schedule p).
Proof. unfold schedule. plainly. Qed.

Lemma plain_dispatch : keeps plain dispatch.
Proof. unfold dispatch. plainly. Qed.

Lemma plain_pcb_alloc : keeps plain pcb_alloc.
Proof. unfold pcb_alloc, find_pcb. plainly. Qed.

Hint Resolve plain_schedule plain_dispatch plain_pcb_alloc : plain.

(** The first process is created without a word. *)
Lemma plain_create_init : keeps plain create_init.
Proof. unfold create_init. plainly. Qed.

(** ** The tables of the processes *)

(** The handles of the queues and the variables of the process module. *)
Definition tables_only (s s' : kstate) : Prop := exists q p, s' = up_qs (fun _ => q) (up_ps (fun _ => p) s).

#[export] Instance tables_only_preorder : PreOrder tables_only.
Proof.
  split.
  - intros s. exists (st_qs s), (st_ps s). now destruct s.
  - intros s1 s2 s3 (q & p & ->) (q' & p' & ->). now exists q', p'.
Qed.

Hint Extern 1 (PreOrder _) => apply tables_only_preorder : plain.

Lemma tables_qs f : keeps tables_only (qs_set f).
Proof. intros s. exists (f (st_qs s)), (st_ps s). now destruct s. Qed.
Lemma tables_ps f : keeps tables_only (ps_set f).
Proof. intros s. exists (st_qs s), (f (st_ps s)). now destruct s. Qed.
Hint Resolve tables_qs tables_ps : plain.

Lemma tables_que_set q f : keeps tables_only (que_set q f).
Proof.
  unfold que_set. intros s. destruct (que_slot q) as [i|]; [|reflexivity].
  apply (keeps_bind tables_only (aget "queue access" (queues (st_qs s)) i)
    (fun x => qs_set (fun r => set_queues (aset (queues r) i (f x)) r))); [apply keeps_aget; exact _|intros x; apply tables_qs].
Qed.
Hint Resolve tables_que_set : plain.

Lemma tables_que_alloc c : keeps tables_only (que_alloc c).
Proof. unfold que_alloc. plainly. Qed.
Hint Resolve tables_que_alloc : plain.

(** [pcb_init], once it has printed its name. *)
Lemma tables_pcb_init s s1 s' : cio_puts (chars " PCB") s = Ret tt s1 -> pcb_init s = Ret tt s' -> tables_only s1 s'.
Proof.
  intros E0 E. unfold pcb_init in E. rewrite (bind_Ret _ _ _ _ _ E0) in E. revert E.
  match goal with |- ?m s1 = _ -> _ => assert (keeps tables_only m) as Hk by (unfold ready_alloc, queue_alloc; plainly) end.
  intros E. specialize (Hk s1). now rewrite E in Hk.
Qed.
End Modules.
