(* ===== verification/BootDevices.v ===== *)
(** The initialisation of the drivers and the messages it prints: they return, and the
    memory, the allocators, the queues and the processes are as before. *)

From S2P Require Import Prelude Memory State Lib Sio Cio Frames CioSpec CioFormat CioTypes Kmem Queues Stacks Procs Drivers Clock Syscalls Kernel.

Open Scope kernel_scope.

(** Memory, allocators, queues, processes, the location of the user programs, and what
    arrives on the lines. *)
Definition drv_only (s s' : kstate) : Prop :=
  st_mem s' = st_mem s /\ st_km s' = st_km s /\ st_qs s' = st_qs s /\ st_stk s' = st_stk s /\ st_ps s' = st_ps s /\
  set_isr_table [] (st_krn s') = set_isr_table [] (st_krn s) /\ dev_in (st_dev s') = dev_in (st_dev s).

#[export] Instance drv_only_preorder : PreOrder drv_only.
Proof. split; [now intros s|]. intros s1 s2 s3 (?&?&?&?&?&?&?) (?&?&?&?&?&?&?). repeat split; congruence. Qed.

(** A typed console without duplication, and a table of 256 handlers. *)
Record off_wt (s : kstate) : Prop := OffWt {
  of_con : con_wt 0 s;
  of_dup : dup_to_sio (st_cio s) = 0;
  of_isr : length (isr_table (st_krn s)) = 256%nat
}.

Definition same_drv (s s' : kstate) : Prop := off_wt s' /\ drv_only s s' /\ st_sio s' = st_sio s.

Lemma same_drv_refl s : off_wt s -> same_drv s s.
Proof. intros H. split; [exact H|]. split; reflexivity. Qed.

Lemma same_drv_trans s1 s2 s3 : same_drv s1 s2 -> same_drv s2 s3 -> same_drv s1 s3.
Proof. intros (_ & H1 & E1) (H & H2 & E2). split; [exact H|]. split; [etransitivity; eassumption|congruence]. Qed.

(** [m] returns and keeps all that. *)
Definition quiet {A} (m : K A) : Prop := forall s, off_wt s -> ends m (fun _ => same_drv s) s.

Lemma quiet_ret {A} (a : A) : quiet (ret a).
Proof. intros s H. now apply ends_ret, same_drv_refl. Qed.

Lemma quiet_bind {A B} (m : K A) (k : A -> K B) : quiet m -> (forall a, quiet (k a)) -> quiet (bind m k).
Proof.
  intros Hm Hk s H. eapply ends_bind; [exact (Hm s H)|]. intros a s1 H1.
  eapply ends_mono; [exact (Hk a s1 (proj1 H1))|]. intros b s2. now apply same_drv_trans.
Qed.

Lemma quiet_gets {A} (f : kstate -> A) : quiet (gets f).
Proof. intros s H. exists (f s), s. split; [reflexivity|now apply same_drv_refl]. Qed.

Lemma quiet_dev f : (forall d, dev_in (f d) = dev_in d) -> quiet (modify (up_dev f)).
Proof.
  intros Hf s [[G C K O] Hd Hi]. apply ends_last. split; [|split; [repeat split; exact (Hf _)|reflexivity]]. split; [now split|exact Hd|exact Hi].
Qed.

Lemma quiet_clk f : quiet (clk_set f).
Proof. intros s [[G C K O] Hd Hi]. apply ends_last. split; [|split; [repeat split|reflexivity]]. split; [now split|exact Hd|exact Hi]. Qed.

Lemma quiet_screen s c : off_wt s -> cursor_ok (st_cio s) (sc_x c) (sc_y c) -> same_drv s (on s c).
Proof.
  intros [Hw Hd Hi] Hc. split; [|split; [repeat split|reflexivity]]. split; [now apply con_wt_screen|exact Hd|exact Hi].
Qed.

Lemma quiet_puts l : quiet (cio_puts l).
Proof.
  intros s Hs. pose proof Hs as [[G C K O] Hd Hi]. assert (window_ok (st_cio s)) as W by now split.
  apply (ends_draws _ _ _ _ (draws_puts s W l (screen_of s) C)). intros _ c Hc. now apply quiet_screen.
Qed.

Lemma quiet_setcursor : quiet setcursor.
Proof.
  intros s Hs. apply (ends_draws _ _ _ _ (draws_setcursor s (screen_of s))). intros _ c (E1 & E2 & _).
  apply quiet_screen; [exact Hs|]. rewrite E1, E2. apply Hs.
Qed.

Lemma quiet_clearscreen : quiet cio_clearscreen.
Proof.
  intros s Hs. pose proof Hs as [Hw Hd Hi]. eapply ends_mono; [exact (clearscreen_cells s (cw_geometry _ _ Hw))|].
  intros [] s' (v & ->). split; [|split; [repeat split|reflexivity]]. split; [now apply ends_vram|exact Hd|exact Hi].
Qed.

Lemma quiet_printf fmt ap text : formats fmt ap text -> no_nul text -> Z.of_nat (length fmt) < 2 ^ 40 ->
  quiet (cio_printf fmt ap).
Proof.
  intros Hf Hn Hl s Hs. destruct (quiet_puts text s Hs) as (a & s' & E & H). exists a, s'.
  split; [now rewrite (cio_printf_puts _ _ text)|exact H].
Qed.

Lemma quiet_fits fmt ap : fits (S (length fmt)) fmt ap = true -> Z.of_nat (length fmt) < 2 ^ 40 -> quiet (cio_printf fmt ap).
Proof. intros Hf Hl. destruct (fits_formats fmt ap Hf) as (text & H1 & H2). exact (quiet_printf fmt ap text H1 H2 Hl). Qed.

Lemma install_eq v h s : 0 <= v < 256 -> length (isr_table (st_krn s)) = 256%nat ->
  exists old, install_isr v h s = Ret old (up_krn (set_isr_table (aset (isr_table (st_krn s)) v h)) s).
Proof.
  intros Hv Hl. unfold install_isr. destruct (lookup_lt_is_Some_2 (isr_table (st_krn s)) (Z.to_nat v)) as [old E]; [lia|].
  exists old. unfold krn. rewrite run_gets. now rewrite (bind_Ret _ _ _ _ _ (aget_ok _ _ _ _ s (proj1 Hv) E)).
Qed.

Lemma quiet_install v h : 0 <= v < 256 -> quiet (install_isr v h).
Proof.
  intros Hv s [[G C K O] Hd Hi]. destruct (install_eq v h s Hv Hi) as (old & E). exists old. eexists. split; [exact E|].
  split; [|split; [repeat split|reflexivity]]. split; [now split|exact Hd|]. cbn. now rewrite length_aset.
Qed.

Create HintDb quiet discriminated.
#[export] Hint Constants Opaque : quiet.
Lemma quiet_cio f : f = set_notify 0 \/ f = set_cio_ready 1 -> quiet (cio_set f).
Proof.
  intros Hf s [[[G1 G2 G3 G4] C [K1 K2 K3 K4 K5] [O1 O2 O3 O4]] Hd Hi]. apply ends_last.
  destruct Hf as [-> | ->]; (split; [|split; [repeat split|reflexivity]];
    split; [split; [split; assumption|exact C|split; assumption|split; assumption]|exact Hd|exact Hi]).
Qed.

#[export] Hint Resolve quiet_ret quiet_puts quiet_setcursor quiet_clearscreen quiet_clk : quiet.

Ltac quiet_step :=
  lazymatch goal with
  | |- quiet (bind _ _) => apply quiet_bind; [|intros ?]
  | |- quiet (let _ := _ in _) => cbv zeta
  | |- quiet (gets _) => apply quiet_gets
  | |- quiet (krn _) => apply quiet_gets
  | |- quiet (cio_set _) => apply quiet_cio; auto
  | |- quiet (outb _ _) => apply quiet_dev; reflexivity
  | |- quiet (install_isr _ _) => apply quiet_install; unfold VEC_TIMER, VEC_SYSCALL, VEC_COM1, VEC_KBD; lia
  | |- quiet (cio_printf _ _) => apply quiet_fits; vm_compute; reflexivity
  | |- quiet _ => solve [auto with quiet]
  end.
Ltac quietly := repeat quiet_step.

Section Drivers.
Context {L : Layout}.

Lemma quiet_clk_init : quiet clk_init.
Proof. unfold clk_init. quietly. Qed.

Lemma quiet_sys_init : quiet sys_init.
Proof. unfold sys_init. quietly. Qed.

Lemma quiet_segment_report : quiet segment_report.
Proof. unfold segment_report. quietly. Qed.

(** ** The console *)

(** What the console needs before it is initialised. *)
Record cio_raw (s : kstate) : Prop := CioRaw {
  cr_keys : keys_wt (st_cio s);
  cr_out : Z.of_nat (length (outbuffer (st_sio s))) = BUF_SIZE /\ 0 <= outlast (st_sio s);
  cr_dup : dup_to_sio (st_cio s) = 0;
  cr_isr : length (isr_table (st_krn s)) = 256%nat
}.

Lemma ends_quiet {A} (m : K A) s s0 : quiet m -> off_wt s -> drv_only s0 s -> st_sio s = st_sio s0 ->
  ends m (fun _ s' => off_wt s' /\ drv_only s0 s' /\ st_sio s' = st_sio s0) s.
Proof.
  intros Hm Hs Hd He. eapply ends_mono; [exact (Hm s Hs)|]. intros a s' (H1 & H2 & H3).
  split; [exact H1|]. split; [etransitivity; eassumption|congruence].
Qed.

Lemma cio_init_ends s : cio_raw s ->
  ends (cio_init NULL) (fun _ s' => off_wt s' /\ drv_only s s' /\ st_sio s' = st_sio s) s.
Proof.
  intros [[K1 K2 K3 K4 K5] [O1 O2] Hd Hi]. unfold cio_init. do 10 apply ends_modify.
  match goal with |- ends _ _ ?t => set (s1 := t) end.
  assert (off_wt s1) as Hs1.
  { assert (min_x (st_cio s1) = 0 /\ min_y (st_cio s1) = 0 /\ max_x (st_cio s1) = 79 /\ max_y (st_cio s1) = 24 /\
      scroll_min_x (st_cio s1) = 0 /\ scroll_min_y (st_cio s1) = 0 /\ scroll_max_x (st_cio s1) = 79 /\
      scroll_max_y (st_cio s1) = 24 /\ x_of s1 = 0 /\ y_of s1 = 0) as Hr by (repeat split).
    split; [|exact Hd|exact Hi].
    split; [split; lia|unfold cursor_ok; lia|split; assumption|split; [exact O1|exact O2|now left|now left]]. }
  assert (drv_only s s1 /\ st_sio s1 = st_sio s) as [D1 E1] by (split; [repeat split|reflexivity]). clearbody s1.
  apply ends_quiet; [|exact Hs1|exact D1|exact E1]. quietly.
Qed.

(** ** The serial line *)

(** As [quiet], for code that changes the variables of the serial line; [P] holds of
    them throughout. *)
Definition serial (P : sio_t -> Prop) {A} (m : K A) : Prop :=
  forall s, off_wt s -> P (st_sio s) -> ends m (fun _ s' => off_wt s' /\ drv_only s s' /\ P (st_sio s')) s.

Lemma serial_bind P {A B} (m : K A) (k : A -> K B) : serial P m -> (forall a, serial P (k a)) -> serial P (bind m k).
Proof.
  intros Hm Hk s H HP. eapply ends_bind; [exact (Hm s H HP)|]. intros a s1 (H1 & D1 & P1).
  eapply ends_mono; [exact (Hk a s1 H1 P1)|]. intros b s2 (H2 & D2 & P2).
  split; [exact H2|]. split; [etransitivity; eassumption|exact P2].
Qed.

Lemma serial_quiet P {A} (m : K A) : quiet m -> serial P m.
Proof.
  intros Hm s H HP. eapply ends_mono; [exact (Hm s H)|]. intros a s' (H1 & D1 & E1).
  split; [exact H1|]. split; [exact D1|now rewrite E1].
Qed.

(** Assignments to its variables. *)
Lemma serial_set (P Q : sio_t -> Prop) f s :
  (forall o, P o -> length (outbuffer (f o)) = length (outbuffer o) /\ (0 <= outlast o -> 0 <= outlast (f o)) /\ Q (f o)) ->
  off_wt s -> P (st_sio s) -> ends (sio_set f) (fun _ s' => off_wt s' /\ drv_only s s' /\ Q (st_sio s')) s.
Proof.
  intros Hf [[G C K [O1 O2 O3 O4]] Hd Hi] HP. destruct (Hf _ HP) as (F1 & F2 & F3). apply ends_last.
  split; [|split; [repeat split|exact F3]].
  split; [split; [exact G|exact C|exact K|split; [cbn; now rewrite F1|exact (F2 O2)|exact O3|now left]]|exact Hd|exact Hi].
Qed.

Definition any (o : sio_t) : Prop := True.
Definition empty_out (o : sio_t) : Prop := outlast o = 0.

Ltac serially :=
  repeat lazymatch goal with
  | |- serial _ (bind _ _) => apply serial_bind; [|intros ?]
  | |- serial ?P (sio_set _) => intros ? ?; apply (serial_set P P); [|assumption]; intros o HP;
      unfold any, empty_out in *; cbn; rewrite ?length_map; repeat split; auto; lia
  | |- serial _ _ => apply serial_quiet; quietly; fail
  end.

Lemma ends_serial P {A B} (m : K A) (k : A -> K B) R s0 s :
  serial P m -> off_wt s -> drv_only s0 s -> P (st_sio s) ->
  (forall a s', off_wt s' -> drv_only s0 s' -> P (st_sio s') -> ends (k a) R s') -> ends (bind m k) R s.
Proof.
  intros Hm Hs Hd HP Hk. eapply ends_bind; [exact (Hm s Hs HP)|]. intros a s1 (H1 & D1 & P1).
  apply Hk; [exact H1|etransitivity; eassumption|exact P1].
Qed.

(** The output buffer is emptied; then only other variables, ports and handlers change. *)
Lemma sio_init_ends s : off_wt s ->
  ends sio_init (fun _ s' => off_wt s' /\ drv_only s s' /\ empty_out (st_sio s')) s.
Proof.
  intros Hs. unfold sio_init.
  apply (ends_serial any _ _ _ s s); [serially|exact Hs|reflexivity|exact I|]. intros _ s1 H1 D1 _.
  do 4 (eapply (ends_serial any); [serially|eassumption|eassumption|exact I|]; clear dependent s1; intros _ s1 H1 D1 _).
  eapply ends_bind; [apply (serial_set any empty_out); [|exact H1|exact I]|].
  { intros o _. unfold empty_out. cbn. repeat split; lia. }
  intros [] s2 (H2 & D2 & P2). assert (drv_only s s2) as D by (etransitivity; eassumption). clear dependent s1.
  eapply ends_mono; [eapply (serial_bind empty_out); [|intros _|exact H2|exact P2]; [serially|]|].
  { serially. }
  intros _ s' (H' & D' & P'). split; [exact H'|]. split; [etransitivity; eassumption|exact P'].
Qed.
End Drivers.
