(* ===== verification/BootStart.v ===== *)
(** kernel/support.c: the interrupt tables; and the part of kernel/kernel.c's [main] that
    runs before the modules are initialised. *)

From S2P Require Import Prelude Memory State Lib LibMem Sio Cio Frames CioSpec CioFormat CioTypes Kmem Queues Stacks Procs Drivers Clock Syscalls Kernel BootDevices.

Open Scope kernel_scope.

(** * The gates of the interrupt descriptor table *)

Definition st16 (m : memory) (a v : Z) : memory := st8 (st8 m a v) (a + 1) (Z.shiftr v 8).

Lemma store16_eq a v s : store16 a v s = Ret tt (up_mem (fun m => st16 m a v) s).
Proof. reflexivity. Qed.

Lemma ld16_st16 m a v : 0 <= v < 2 ^ 16 -> ld16 (st16 m a v) a = v.
Proof.
  intros Hv. unfold ld16, st16. rewrite (ld8_st8_ne _ (a + 1) a), !ld8_st8_eq by lia.
  rewrite Z.shiftr_div_pow2 by lia. unfold u8. cbn. Z.div_mod_to_equations. lia.
Qed.

Lemma ld8_st16_ne m a v b : b < a \/ a + 2 <= b -> ld8 (st16 m a v) b = ld8 m b.
Proof. intros H. unfold st16. rewrite !ld8_st8_ne by lia. reflexivity. Qed.

Lemma ld16_st16_ne m a v b : b + 2 <= a \/ a + 2 <= b -> ld16 (st16 m a v) b = ld16 m b.
Proof. intros H. unfold ld16. rewrite !ld8_st16_ne by lia. reflexivity. Qed.

Lemma agree_st16 a v m : agree (outside a 2) m (st16 m a v).
Proof. intros b Hb. now apply ld8_st16_ne. Qed.

Definition gate_addr (i : Z) : Z := IDT_ADDR + 8 * i.

(** Gate [i] leads to the handler at [h], in the kernel's code segment, through a present
    32-bit interrupt gate of privilege level 0. *)
Record gate_at (m : memory) (i h : Z) : Prop := GateAt {
  ga_offset : ld16 m (gate_addr i) + 2 ^ 16 * ld16 m (gate_addr i + 6) = h mod 2 ^ 32;
  ga_selector : ld16 m (gate_addr i + 2) = 0x10;
  ga_flags : ld16 m (gate_addr i + 4) = 0x8e00
}.

Definition put_gate (i h : Z) (m : memory) : memory :=
  st16 (st16 (st16 (st16 m (gate_addr i) (Z.land h 0xffff)) (gate_addr i + 2) 0x10) (gate_addr i + 4) 0x8e00)
    (gate_addr i + 6) (Z.land (Z.shiftr h 16) 0xffff).

Lemma set_idt_entry_eq i h s : set_idt_entry i h s = Ret tt (up_mem (put_gate i h) s).
Proof. reflexivity. Qed.

Lemma put_gate_at m i h : gate_at (put_gate i h m) i h.
Proof.
  unfold put_gate. assert (forall x, Z.land x 0xffff = x mod 2 ^ 16) as Hl
    by (intros x; change 0xffff with (Z.ones 16); apply Z.land_ones; lia).
  rewrite !Hl, Z.shiftr_div_pow2 by lia.
  split; rewrite ?ld16_st16_ne by lia; rewrite ?ld16_st16 by (try apply Z.mod_pos_bound; lia); [|reflexivity..].
  change (2 ^ 32) with (2 ^ 16 * 2 ^ 16). now rewrite Z.rem_mul_r by lia.
Qed.

Definition gate_bytes (i : Z) : Z -> Prop := outside (gate_addr i) 8.

Lemma put_gate_agree m i h : agree (gate_bytes i) m (put_gate i h m).
Proof. intros a Ha. unfold gate_bytes, outside, put_gate in *. now rewrite !ld8_st16_ne by lia. Qed.

Lemma gate_at_agree m m' i h : (forall k, 0 <= k < 8 -> ld8 m' (gate_addr i + k) = ld8 m (gate_addr i + k)) ->
  gate_at m i h -> gate_at m' i h.
Proof.
  intros Hm [H1 H2 H3]. assert (forall k, 0 <= k < 7 -> ld16 m' (gate_addr i + k) = ld16 m (gate_addr i + k)) as Hw
    by (intros k Hk; unfold ld16; rewrite <- Z.add_assoc, !Hm by lia; reflexivity).
  split; rewrite ?Hw by lia; [|done..]. rewrite <- (Z.add_0_r (gate_addr i)) at 1. now rewrite Hw, Z.add_0_r by lia.
Qed.

Lemma put_gate_others m i j h v : i <> j -> gate_at m i h -> gate_at (put_gate j v m) i h.
Proof.
  intros Hij. apply gate_at_agree. intros k Hk. apply put_gate_agree. unfold gate_bytes, outside, gate_addr. lia.
Qed.

(** * The initialisation of the interrupts *)

(** The table of the second-level handlers. *)
Definition first_handlers : list handler :=
  aset (aset (aset (aset (aset (replicate 256 HUnexpected) VEC_KBD HDefault) VEC_TIMER HDefault) VEC_MYSTERY HMystery)
    VEC_INVALID_OPCODE HIllop) VEC_GENERAL_PROTECTION HGp.

Lemma first_handlers_at v : 0 <= v < 256 -> first_handlers !! Z.to_nat v =
  Some (if (v =? VEC_KBD) || (v =? VEC_TIMER) then HDefault else if v =? VEC_MYSTERY then HMystery
        else if v =? VEC_INVALID_OPCODE then HIllop else if v =? VEC_GENERAL_PROTECTION then HGp else HUnexpected).
Proof.
  set (f := fun v => if (v =? VEC_KBD) || (v =? VEC_TIMER) then HDefault else if v =? VEC_MYSTERY then HMystery
    else if v =? VEC_INVALID_OPCODE then HIllop else if v =? VEC_GENERAL_PROTECTION then HGp else HUnexpected).
  assert (first_handlers = map f (seqZ 0 256)) as -> by (vm_compute; reflexivity).
  intros Hv. apply list_lookup_fmap_Some. exists v. split; [reflexivity|]. apply lookup_seqZ. lia.
Qed.

Definition in_idt (a : Z) : Prop := IDT_ADDR <= a < IDT_ADDR + 8 * 256.

(** Nothing has changed but the descriptor table, the handlers and the ports written. *)
Definition tables_set (m : memory) (t : list handler) (o : list (Z * Z)) (s s' : kstate) : Prop :=
  agree (fun a => ~ in_idt a) (st_mem s) m /\
  s' = up_mem (fun _ => m) (up_krn (set_isr_table t) (up_dev (set_dev_out o) s)).

(** A counting loop: an invariant. *)
Lemma ends_for n (body : Z -> K unit) i (I : Z -> kstate -> Prop) s :
  (forall j s, i <= j < i + Z.of_nat n -> I j s -> ends (body j) (fun _ => I (j + 1)) s) -> I i s ->
  ends (for_from i n body) (fun _ => I (i + Z.of_nat n)) s.
Proof.
  revert i s; induction n as [|n IH]; intros i s Hb Hi; cbn [for_from].
  - apply ends_ret. now rewrite Z.add_0_r.
  - eapply ends_bind; [apply Hb; [lia|exact Hi]|]. intros [] s1 H1.
    replace (i + Z.of_nat (S n)) with (i + 1 + Z.of_nat n) by lia. apply IH; [|exact H1].
    intros j s2 Hj. apply Hb. lia.
Qed.

Section Start.
Context {L : Layout}.

(** The first [i] gates and handlers. *)
Definition installed (s0 : kstate) (t0 : list handler) (i : Z) (s : kstate) : Prop :=
  exists m, tables_set m (replicate (Z.to_nat i) HUnexpected ++ drop (Z.to_nat i) t0) (dev_out (st_dev s0)) s0 s /\
    forall j, 0 <= j < i -> gate_at m j (isr_stub_addr j).

Lemma install_step s0 t0 i s : length t0 = 256%nat -> 0 <= i < 256 -> installed s0 t0 i s ->
  ends (set_idt_entry i (isr_stub_addr i) ;; install_isr i HUnexpected ;; ret tt) (fun _ => installed s0 t0 (i + 1)) s.
Proof.
  intros Ht Hi (m & (Hag & ->) & Hg). eapply ends_step; [apply set_idt_entry_eq|].
  match goal with |- ends _ _ ?s => destruct (install_eq i HUnexpected s Hi) as (old & E) end.
  { cbn. rewrite length_app, length_replicate, length_drop. lia. }
  eapply ends_step; [exact E|]. apply ends_ret. exists (put_gate i (isr_stub_addr i) m). split; [split|].
  - etransitivity; [exact Hag|]. eapply agree_weaken; [|apply put_gate_agree].
    unfold in_idt, gate_bytes, outside, gate_addr. lia.
  - cbn. unfold set_isr_table, aset. cbn. do 2 f_equal. f_equal.
    rewrite insert_app_r_alt, length_replicate, Nat.sub_diag by (rewrite length_replicate; lia).
    destruct (lookup_lt_is_Some_2 t0 (Z.to_nat i)) as [x Hx]; [lia|]. rewrite (drop_S _ _ _ Hx). cbn.
    replace (Z.to_nat (i + 1)) with (S (Z.to_nat i)) by lia. now rewrite replicate_S_end, <- app_assoc.
  - intros j Hj. destruct (Z.eq_dec j i) as [->|Hne]; [apply put_gate_at|apply put_gate_others; [exact Hne|apply Hg; lia]].
Qed.

Lemma tables_install {B} m t o s0 v h (k : K B) R s :
  tables_set m t o s0 s -> 0 <= v < 256 -> length t = 256%nat ->
  (forall s', tables_set m (aset t v h) o s0 s' -> ends k R s') -> ends (install_isr v h ;; k) R s.
Proof.
  intros (Hag & ->) Hv Ht Hk. match goal with |- ends _ _ ?s => destruct (install_eq v h s Hv Ht) as (old & E) end.
  eapply ends_step; [exact E|]. apply Hk. split; [exact Hag|reflexivity].
Qed.

Definition all_gates (m : memory) : Prop := forall i, 0 <= i < 256 -> gate_at m i (isr_stub_addr i).

Lemma init_idt_ends s : length (isr_table (st_krn s)) = 256%nat ->
  ends init_idt (fun _ s' => exists m, tables_set m first_handlers (dev_out (st_dev s)) s s' /\ all_gates m) s.
Proof.
  intros Ht. unfold init_idt.
  eapply ends_bind; [apply (ends_for 256 _ 0 (installed s (isr_table (st_krn s))))|].
  - intros j s1 Hj H1. apply install_step; [exact Ht|lia|exact H1].
  - exists (st_mem s). split; [split; [reflexivity|now destruct s as [? ? ? ? ? ? ? ? [] []]]|lia].
  - intros [] s1 (m & H1 & Hg). change (0 + Z.of_nat 256) with 256 in *.
    rewrite drop_ge, app_nil_r in H1 by (rewrite Ht; cbn; lia). change (Z.to_nat 256) with 256%nat in H1.
    unfold first_handlers.
    do 5 (eapply tables_install; [exact H1|unfold VEC_KBD, VEC_TIMER, VEC_MYSTERY, VEC_INVALID_OPCODE, VEC_GENERAL_PROTECTION; lia
      |now rewrite ?length_aset|clear s1 H1; intros s1 H1]).
    apply ends_ret. eauto.
Qed.

(** What [init_pic] writes, the last first. *)
Definition pic_setup : list (Z * Z) :=
  [(PIC2_DATA, 0); (PIC1_DATA, 0); (PIC2_DATA, 1); (PIC1_DATA, 1); (PIC2_DATA, 2); (PIC1_DATA, 4);
   (PIC2_DATA, 0x28); (PIC1_DATA, 0x20); (PIC2_CMD, 0x11); (PIC1_CMD, 0x11)].

Lemma init_interrupts_ends s : length (isr_table (st_krn s)) = 256%nat ->
  ends init_interrupts (fun _ s' => exists m,
    tables_set m first_handlers (pic_setup ++ dev_out (st_dev s)) s s' /\ all_gates m) s.
Proof.
  intros Ht. unfold init_interrupts. eapply ends_bind; [exact (init_idt_ends s Ht)|].
  intros [] s1 (m & (Hag & ->) & Hg). exists tt. eexists. split; [reflexivity|].
  exists m. split; [|exact Hg]. split; [exact Hag|reflexivity].
Qed.
End Start.
