(* ===== verification/BootSpec.v ===== *)
(** kernel/kernel.c, support.c: what the initialisation does to the kernel, from the
    interrupt tables to the creation of the first process. *)

From S2P Require Import Prelude Memory State Lib LibMem Sio Cio Frames CioSpec CioFormat CioTypes Kmem KmemInv KmemSpec KmemInit Queues QueuesInv QueuesSpec QueuesPages Stacks StacksSpec Procs ProcsSpec Drivers Clock ClockSpec Syscalls SyscallsSpec CreateSpec ForkSpec Kernel SysLogic SysInv.

Open Scope kernel_scope.

(** ** The first process *)

Section First.
Context {L : Layout} (H : Z -> Prop) (n : nat).

Notation empty_queues := (map (fun k : Z => (k, [] : list Z)) queue_keys).

(** Only the process [p] is in use; no process is in a queue. *)
Record only (p : Z) (x : pcb_t) (s : kstate) : Prop := Only {
  on_proc : proc_inv H n empty_queues s;
  on_flags : queue_free (st_qs s) = flags_used 7;
  on_pcb : pcb_at s p = Some x;
  on_others : forall q y, q <> p -> pcb_at s q = Some y -> p_state y = STATE_UNUSED
}.

Lemma none_queued p : ~ p ∈ queued empty_queues.
Proof. change (queued empty_queues) with (@nil Z). apply not_elem_of_nil. Qed.

(** Memory, allocators, drivers and the other variables of the process module. *)
Definition beside (s s' : kstate) : Prop :=
  st_mem s' = st_mem s /\ st_km s' = st_km s /\ st_qs s' = st_qs s /\ st_stk s' = st_stk s /\ st_krn s' = st_krn s /\
  init_pcb (st_ps s') = init_pcb (st_ps s).

Lemma only_set p x f s : only p x s ->
  exists s', pcb_set p f s = Ret tt s' /\ only p (f x) s' /\ beside s s'.
Proof.
  intros [O1 O2 O3 O4]. exists (with_pcb p (f x) s). split; [exact (pcb_set_at s p x f O3)|]. split.
  - split; [apply proc_inv_pcb; [exact O1|apply none_queued]| |eapply pcb_at_with_eq, O3|].
    + unfold with_pcb. destruct (pcb_slot p); exact O2.
    + intros q y Hq Hy. rewrite pcb_at_with_ne in Hy by congruence. exact (O4 q y Hq Hy).
  - unfold beside, with_pcb. destruct (pcb_slot p); repeat split.
Qed.

(** Changes outside the process module and the nodes of the queues. *)
Lemma proc_inv_ext V s s' : proc_inv H n V s -> st_qs s' = st_qs s -> st_ps s' = st_ps s ->
  agree H (st_mem s) (st_mem s') -> proc_inv H n V s'.
Proof.
  intros Hi Eq Ep Hm.
  apply (proc_inv_same H n V (up_mem (fun _ => st_mem s') s) s'); [reflexivity|exact Eq|exact Ep|].
  now apply proc_inv_write.
Qed.

Lemma only_ext p x s s' : only p x s -> st_qs s' = st_qs s -> st_ps s' = st_ps s ->
  agree H (st_mem s) (st_mem s') -> only p x s'.
Proof.
  intros [O1 O2 O3 O4] Eq Ep Hm.
  assert (forall q, pcb_at s' q = pcb_at s q) as Hp by (intros q; unfold pcb_at; now rewrite Ep).
  split; [exact (proc_inv_ext _ _ _ O1 Eq Ep Hm)|now rewrite Eq|now rewrite Hp|intros q y; rewrite Hp; apply O4].
Qed.

Lemma only_init p x s v : only p x s -> only p x (up_ps (set_init_pcb v) s).
Proof.
  intros [[H1 H2 [R1 R2 R3 R4 R5] H4 H5 H6 H7 H8] O2 O3 O4]. split; [|exact O2|exact O3|exact O4].
  split; [now apply queues_hold_ps|exact H2|now split|exact H4|exact H5|exact H6|exact H7|exact H8].
Qed.

(** The process table of [pcb_init]: the first entry is taken. *)
Lemma only_fresh s : proc_inv H n empty_queues s -> queue_free (st_qs s) = flags_used 7 -> st_ps s = fresh_procs ->
  pcb_alloc s = Ret (E_SUCCESS, Some (pcb_addr 0)) s /\ only (pcb_addr 0) pcb0 s.
Proof.
  intros Hinv Hf Hp.
  assert (forall q y, pcb_at s q = Some y -> y = pcb0) as Hall.
  { intros q y Hy. destruct (pcb_at_addr _ _ _ Hy) as (i & _ & _ & Ht). rewrite Hp in Ht.
    now apply lookup_replicate in Ht as [-> _]. }
  assert (pcb_at s (pcb_addr 0) = Some pcb0) as H0.
  { unfold pcb_at. rewrite pcb_slot_addr by lia. now rewrite Hp. }
  split.
  - unfold pcb_alloc. set (test := fun (_ : Z) p => p_state p =? STATE_UNUSED).
    assert (length (ptable (st_ps s)) = 25%nat) as Hlen by now rewrite Hp.
    assert (first_pcb test (ptable (st_ps s)) 0 pcb0) as Hfp
      by (rewrite Hp; split; [reflexivity|split; [reflexivity|intros j y Hj; lia]]).
    now mstep (find_pcb_some test s 0 pcb0 Hlen Hfp).
  - split; [exact Hinv|exact Hf|exact H0|]. intros q y _ Hy. now rewrite (Hall q y Hy).
Qed.

(** The single process, alive and its own parent, is a process system in which it is
    in transit. *)
Lemma only_sys p x s : only p x s -> pcb_ok H x -> alive x -> p_parent x = p -> init_pcb (st_ps s) = p -> sys H [p] s.
Proof.
  intros [O1 O2 O3 O4] Hok Ha Hpar Hi. exists n, empty_queues. split.
  - exact O1.
  - intros i c l _ Hl. apply list_lookup_fmap_Some in Hl as (k & Hk & _). now injection Hk.
  - intros i Hlt. rewrite O2. do 7 (destruct i as [|i]; [reflexivity|]). lia.
  - intros q y Hy Uy. destruct (Z.eq_dec q p) as [->|Hne].
    + rewrite O3 in Hy. now injection Hy as <-.
    + now destruct Uy; apply (O4 q y).
  - intros q _. apply none_queued.
  - intros q y Hy. destruct (Z.eq_dec q p) as [->|Hne]; [left; left|]. right. right. left. exact (O4 q y Hne Hy).
  - split.
    + intros q y Hy Uy. destruct (Z.eq_dec q p) as [->|Hne].
      * rewrite O3 in Hy. injection Hy as <-. rewrite Hpar. eauto.
      * now destruct Uy; apply (O4 q y).
    + rewrite Hi. eauto.
Qed.

(** ** What the creation of the first process needs, and what it gives *)

Record init_ready (l : list block) (str : list Z) (s : kstate) : Prop := InitReady {
  ir_pages : km_inv l s /\ has_pages STACK_PAGES l;
  ir_nodes : forall x, H x -> ~ in_blocks l x;
  ir_procs : proc_inv H n empty_queues s /\ queue_free (st_qs s) = flags_used 7 /\ st_ps s = fresh_procs;
  ir_stacks : free_stacks (st_stk s) = NULL;
  ir_args : cstring (st_mem s) init_args_addr str /\ args_fit (length str);
  ir_args_low : 0 <= init_args_addr /\ init_args_addr + Z.of_nat (length str) + 4 <= KM_LOW_CUTOFF;
  ir_locs : 0 <= user_locs (st_krn s) /\ user_locs (st_krn s) + 8 <= KM_LOW_CUTOFF
}.

Lemma init_ready_io l str s s' : io_only s s' -> init_ready l str s -> init_ready l str s'.
Proof.
  intros Hio [[[K1 K2 K3 K4] Hp] Hn (H1 & H2 & H3) Hf [Hc Hfit] Ha Hu].
  destruct (io_only_fields _ _ Hio) as (Em & Ek & Eq & Et & Ep & _ & Er). split.
  - split; [split; rewrite ?Em, ?Ek; assumption|exact Hp].
  - exact Hn.
  - split; [now apply (proc_inv_io H n _ s)|]. now rewrite Eq, Ep.
  - now rewrite Et.
  - now rewrite Em.
  - exact Ha.
  - now rewrite Er.
Qed.

(** The PCB of the first process. *)
Definition first_pcb_of (b ctx : Z) : pcb_t :=
  set_p_parent (pcb_addr 0) (set_p_context ctx (set_p_stack b (set_p_priority PRIO_HIGH
    (set_p_state STATE_NEW (set_p_pid PID_INIT pcb0))))).

(** The first process runs, on a stack from which it starts at [entry]. *)
Record first_runs (entry fake : Z) (str : list Z) (s : kstate) : Prop := FirstRuns {
  fr_run : sys_run H s;
  fr_current : current (st_ps s) = pcb_addr 0 /\ init_pcb (st_ps s) = pcb_addr 0;
  fr_start : exists b ctx m m', pcb_at s (pcb_addr 0) =
      Some (set_p_quantum Q_STD (set_p_state STATE_RUNNING (first_pcb_of b ctx))) /\
    stack_ready m m' b entry fake str ctx /\ agree (in_stack b) m' (st_mem s)
}.

(** The PCB is filled in, up to the stack. *)
Lemma create_pcb s : proc_inv H n empty_queues s -> queue_free (st_qs s) = flags_used 7 -> st_ps s = fresh_procs ->
  exists s', only (pcb_addr 0) (set_p_priority PRIO_HIGH (set_p_state STATE_NEW (set_p_pid PID_INIT pcb0))) s' /\
    beside (up_ps (set_init_pcb (pcb_addr 0)) s) s' /\
    create_init s = (r <- stk_alloc ;;
      assert "main: stk_alloc" (fst r =? E_SUCCESS) ;;
      let stk := default NULL (snd r) in
      pcb_set (pcb_addr 0) (set_p_stack stk) ;;
      ul <- krn user_locs ;;
      entry <- load32 (u32 (ul + 4 * ULOC_INIT)) ;;
      c <- stk_setup stk entry init_args_addr ;;
      pcb_set (pcb_addr 0) (set_p_context c) ;;
      assert "main: context" (negb (c =? NULL)) ;;
      pcb_set (pcb_addr 0) (set_p_parent (pcb_addr 0)) ;;
      schedule (pcb_addr 0) ;;
      dispatch) s'.
Proof.
  intros Hinv Hf Hp. destruct (only_fresh s Hinv Hf Hp) as [Ea H0].
  pose proof (only_init _ _ _ (pcb_addr 0) H0) as H1. set (s1 := up_ps (set_init_pcb (pcb_addr 0)) s) in *.
  assert (init_pcb (st_ps s1) = pcb_addr 0) as Ei by reflexivity.
  destruct (only_set _ _ (set_p_pid PID_INIT) _ H1) as (s2 & E2 & H2 & B2).
  destruct (only_set _ _ (set_p_state STATE_NEW) _ H2) as (s3 & E3 & H3 & B3).
  destruct (only_set _ _ (set_p_priority PRIO_HIGH) _ H3) as (s4 & E4 & H4 & B4).
  exists s4. split; [exact H4|]. split.
  - clear -B2 B3 B4. unfold beside in *. intuition congruence.
  - unfold create_init. mstep Ea. cbn [snd fst]. erewrite bind_Ret; [|reflexivity]. fold s1.
    change (E_SUCCESS =? E_SUCCESS) with true. unfold assert at 1. rewrite bind_ret_l.
    unfold ps at 1. rewrite run_gets, Ei. mstep E2. mstep E3. mstep E4. reflexivity.
Qed.

(** The stack of the process: its memory, and where it lies. *)
Lemma create_stack l str p x s :
  km_inv l s -> has_pages STACK_PAGES l -> (forall y, H y -> ~ in_blocks l y) -> only p x s ->
  free_stacks (st_stk s) = NULL -> cstring (st_mem s) init_args_addr str -> args_fit (length str) ->
  0 <= init_args_addr -> init_args_addr + Z.of_nat (length str) + 4 <= KM_LOW_CUTOFF ->
  0 <= user_locs (st_krn s) -> user_locs (st_krn s) + 8 <= KM_LOW_CUTOFF ->
  exists b s1 m', let entry := ld32 (st_mem s) (user_locs (st_krn s)) in
    let ctx := start_context b (length str) in
    stk_alloc s = Ret (E_SUCCESS, Some b) s1 /\ only p x s1 /\ user_locs (st_krn s1) = user_locs (st_krn s) /\
    init_pcb (st_ps s1) = init_pcb (st_ps s) /\ KM_LOW_CUTOFF <= b /\ b + SZ_STACK <= KM_HIGH_CUTOFF /\
    (forall y, in_stack b y -> ~ H y) /\ ld32 (st_mem s1) (user_locs (st_krn s)) = entry /\
    stack_ready (st_mem s1) m' b entry (ld32 (st_mem s) (user_locs (st_krn s) + 4)) str ctx /\
    (forall s2, st_mem s2 = st_mem s1 -> user_locs (st_krn s2) = user_locs (st_krn s) ->
       stk_setup b entry init_args_addr s2 = Ret ctx (up_mem (fun _ => m') s2)).
Proof.
  intros Hkm Hpg Hn Ho Hf Hc Hfit A0 A1 U0 U1.
  assert (1 <= STACK_PAGES <= STACK_PAGES) as Hsp by (unfold STACK_PAGES; lia).
  destruct (has_pages_fit STACK_PAGES STACK_PAGES l Hsp Hpg) as (b & l' & Hff & _).
  destruct (stk_alloc_fresh l b l' s Hf Hkm Hff) as (s1 & E1 & _ & Hfr & Hlo & Hhi & Hst & _).
  pose proof Hfr as (m & fp & np & Es1 & Hag).
  assert (forall y, y < KM_LOW_CUTOFF -> ld8 (st_mem s1) y = ld8 (st_mem s) y) as Hlow.
  { intros y Hy. eapply km_frame_mem; [exact Hfr|]. intros Hin.
    apply (in_blocks_range _ _ _ (inv_ok _ _ Hkm)) in Hin. lia. }
  assert (forall a, a + 4 <= KM_LOW_CUTOFF -> ld32 (st_mem s1) a = ld32 (st_mem s) a) as Hw
    by (intros a Ha; apply ld32_agree; intros i Hi; apply Hlow; lia).
  assert (st_krn s1 = st_krn s /\ st_ps s1 = st_ps s /\ st_qs s1 = st_qs s) as (Ek & Ep & Eq) by (rewrite Es1; done).
  pose proof (ld32_range (st_mem s) (user_locs (st_krn s))) as He.
  pose proof (ld32_range (st_mem s) (user_locs (st_krn s) + 4)) as Hfk.
  assert (cstring (st_mem s1) init_args_addr str) as Hc1
    by (apply (cstring_agree (st_mem s)); [intros i Hi; apply Hlow; lia|exact Hc]).
  unfold KM_HIGH_CUTOFF in Hhi. assert (0 <= b) as Hb by (unfold KM_LOW_CUTOFF in Hlo; lia).
  eexists b, s1, _. cbv zeta. split; [exact E1|].
  split; [apply (only_ext p x s); [exact Ho|exact Eq|exact Ep|intros y Hy; eapply km_frame_mem; [exact Hfr|now apply Hn]]|].
  split; [now rewrite Ek|]. split; [now rewrite Ep|]. split; [exact Hlo|]. split; [exact Hhi|].
  split; [intros y Hy HH; exact (Hn y HH (proj1 (Hst y Hy)))|]. split; [apply Hw; lia|].
  split; [apply (setup_ready (st_mem s1) b _ _ init_args_addr str Hb ltac:(lia) He Hfk Hfit Hc1); left; lia|].
  intros s2 Em Ek2. rewrite (stk_setup_eq s2 b _ init_args_addr str Hb ltac:(lia) A0
    ltac:(unfold KM_LOW_CUTOFF in *; lia) Hfit); [| |rewrite Ek2; left; lia|now rewrite Ek2|rewrite Ek2; unfold KM_LOW_CUTOFF in *; lia].
  - rewrite up_mem_const, Em, Ek2, (Hw (user_locs (st_krn s) + 4)) by lia. reflexivity.
  - now rewrite Em.
Qed.

(** Its queue, and the processor. *)
Lemma create_runs p x s :
  only p x s -> pcb_ok H x -> alive x -> p_parent x = p -> init_pcb (st_ps s) = p ->
  exists s', (schedule p ;; dispatch) s = Ret tt s' /\ sys_run H s' /\ current (st_ps s') = p /\
    init_pcb (st_ps s') = p /\ pcb_at s' p = Some (set_p_quantum Q_STD (set_p_state STATE_RUNNING x)) /\
    agree (fun a => ~ H a) (st_mem s) (st_mem s').
Proof.
  intros Ho Hok Ha Hpar Hi. pose proof (only_sys p x s Ho Hok Ha Hpar Hi) as Hs. destruct Ho as [_ _ Hx Hun].
  destruct (sys_schedule H [] s p x Hs ltac:(apply not_elem_of_nil) Hx Ha) as (s1 & E1 & Hs1 & Hx1 & Ho1 & Hf1 & _).
  destruct (sys_dispatch H s1 p _ Hs1 Hx1 eq_refl) as (s2 & q & y & E2 & Hr & Hc & Hy & Hst & Hy2 & Ho2 & Hf2).
  assert (q = p) as ->.
  { destruct (Z.eq_dec q p) as [|Hne]; [done|]. rewrite Ho1 in Hy by done.
    pose proof (Hun q y Hne Hy) as Hu. rewrite Hst in Hu. discriminate Hu. }
  rewrite Hx1 in Hy. injection Hy as <-.
  destruct (sched_frame_fields _ _ _ Hf1) as (I1 & _ & M1 & _). destruct (sched_frame_fields _ _ _ Hf2) as (I2 & _ & M2 & _).
  exists s2. split; [now mstep E1|]. split; [exact Hr|]. split; [exact Hc|]. split; [now rewrite I2, I1|].
  split; [exact Hy2|]. etransitivity; eassumption.
Qed.

Lemma create_init_spec l str s : init_ready l str s ->
  exists s', create_init s = Ret tt s' /\
    first_runs (ld32 (st_mem s) (user_locs (st_krn s))) (ld32 (st_mem s) (user_locs (st_krn s) + 4)) str s'.
Proof.
  intros [[Hkm Hpg] Hn (Hinv & Hqf & Hps) Hf [Hc Hfit] [A0 A1] [U0 U1]].
  destruct (create_pcb s Hinv Hqf Hps) as (s1 & H1 & (Em & Ek & _ & Et & Er & Ei) & ->).
  change (st_mem (up_ps (set_init_pcb (pcb_addr 0)) s)) with (st_mem s) in Em.
  change (st_km (up_ps (set_init_pcb (pcb_addr 0)) s)) with (st_km s) in Ek.
  change (st_stk (up_ps (set_init_pcb (pcb_addr 0)) s)) with (st_stk s) in Et.
  change (st_krn (up_ps (set_init_pcb (pcb_addr 0)) s)) with (st_krn s) in Er.
  change (init_pcb (st_ps (up_ps (set_init_pcb (pcb_addr 0)) s))) with (pcb_addr 0) in Ei.
  set (x := set_p_priority _ _) in *. rewrite <- Em, <- Er in *. rewrite <- Et in Hf.
  assert (km_inv l s1) as Hkm1 by (destruct Hkm as [K1 K2 K3 K4]; split; rewrite ?Em, ?Ek; done).
  destruct (create_stack l str _ x s1 Hkm1 Hpg Hn H1 Hf Hc Hfit A0 A1 U0 U1)
    as (b & s2 & m' & E2 & H2 & Ul & Ei2 & Hlo & Hhi & Hap & Ee & Hready & Esetup).
  set (ctx := start_context b (length str)) in *. set (entry := ld32 (st_mem s1) (user_locs (st_krn s1))) in *.
  pose proof Hready as [[Hin1 Hin2] _ _ _ _ _ Honly].
  destruct (only_set _ _ (set_p_stack b) _ H2) as (s3 & E3 & H3 & (Em3 & _ & _ & _ & Ek3 & Ei3)).
  assert (only (pcb_addr 0) (set_p_stack b x) (up_mem (fun _ => m') s3)) as H4.
  { apply (only_ext _ _ s3); [exact H3|done|done|]. intros y Hy. cbn. rewrite Em3. apply Honly.
    destruct (Z_lt_le_dec y ctx); [now left|]. right. destruct (Z_lt_le_dec y (b + SZ_STACK)); [|lia].
    exfalso. apply (Hap y); [unfold in_stack; lia|exact Hy]. }
  destruct (only_set _ _ (set_p_context ctx) _ H4) as (s5 & E5 & H5 & (Em5 & _ & _ & _ & _ & Ei5)).
  destruct (only_set _ _ (set_p_parent (pcb_addr 0)) _ H5) as (s6 & E6 & H6 & (Em6 & _ & _ & _ & _ & Ei6)).
  change (set_p_parent (pcb_addr 0) (set_p_context ctx (set_p_stack b x))) with (first_pcb_of b ctx) in H6.
  assert (pcb_ok H (first_pcb_of b ctx)) as Hok.
  { split; [split; cbn; unfold PRIO_HIGH, PRIO_LAST, PRIO_LOW; lia|cbn; lia| |].
    - intros i Hi HH. apply (Hap (ctx + i)); [unfold in_stack; cbn in *; lia|exact HH].
    - intros _ i Hi HH. apply (Hap (b + i)); [unfold in_stack, SZ_STACK, STACK_PAGES, SZ_PAGE; cbn in *; lia|exact HH]. }
  assert (alive (first_pcb_of b ctx)) as Hal by (split; discriminate).
  destruct (create_runs _ _ s6 H6 Hok Hal eq_refl) as (s7 & E7 & Hr & Hc7 & Hi7 & Hx7 & Hm7);
    [now rewrite Ei6, Ei5; cbn; rewrite Ei3, Ei2|].
  exists s7. split.
  - mstep E2. cbn [fst snd default from_option]. change (E_SUCCESS =? E_SUCCESS) with true. unfold assert at 1.
    rewrite bind_ret_l. cbv zeta. change (default NULL (Some b)) with b. mstep E3. rewrite run_krn, run_load32.
    rewrite Em3, Ek3, Ul. unfold ULOC_INIT. rewrite Z.mul_0_r, Z.add_0_r, u32_small by (unfold KM_LOW_CUTOFF in *; lia).
    rewrite Ee. rewrite (bind_Ret _ _ _ _ _ (Esetup s3 Em3 ltac:(now rewrite Ek3))). mstep E5.
    unfold assert. destruct (Z.eqb_spec ctx NULL); [unfold NULL, KM_LOW_CUTOFF in *; lia|]. cbn [negb].
    rewrite bind_ret_l. mstep E6. exact E7.
  - split; [exact Hr|done|]. exists b, ctx, (st_mem s2), m'. split; [exact Hx7|]. split; [exact Hready|].
    intros y Hy. rewrite (Hm7 y (Hap y Hy)), Em6, Em5. reflexivity.
Qed.
End First.

(** ** The queues *)

(** The nodes of the queues are in the page at [a]. *)
Definition node_page (a : Z) : Z -> Prop := with_page (fun _ => False) a.

Lemma no_queues_held s : free_qnodes (st_qs s) = NULL -> queues (st_qs s) = replicate 8 queue0 ->
  length (queue_free (st_qs s)) = 8%nat -> qs_inv (fun _ => False) [] [] (replicate 8 (NULL, [])) s.
Proof.
  intros E1 E2 E3. split; rewrite ?E1, ?E2, ?E3; [done|done|done|cbn; repeat constructor| |constructor].
  split; [constructor|]. intros a b Ha. now apply elem_of_nil in Ha.
Qed.

Lemma que_init_spec l a l' s s1 :
  cio_puts (chars " Que") s = Ret tt s1 -> km_inv l s1 -> first_fit 1 l = Some (a, l') ->
  length (queues (st_qs s1)) = 8%nat -> length (queue_free (st_qs s1)) = 8%nat ->
  exists s', que_init s = Ret tt s' /\ km_inv l' s' /\ queues_hold (node_page a) 512 (replicate 8 (NULL, [])) s' /\
    queue_free (st_qs s') = replicate 8 QUE_FREE /\ (forall x, node_page a x -> ~ in_blocks l' x) /\
    agree (fun x => x < KM_LOW_CUTOFF) (st_mem s1) (st_mem s') /\
    exists m k q, s' = up_mem (fun _ => m) (up_km (fun _ => k) (up_qs (fun _ => q) s1)).
Proof.
  intros E0 Hkm Hff Hq Hfl. unfold que_init. mstep E0. do 3 (erewrite bind_Ret; [|reflexivity]).
  match goal with |- context [qnode_add_page ?t] => set (s2 := t) end.
  assert (exists q, s2 = up_qs (fun _ => q) s1 /\ free_qnodes q = NULL /\ queues q = replicate 8 queue0 /\
    queue_free q = replicate 8 QUE_FREE) as (q & E2 & Q1 & Q2 & Q3).
  { eexists. split; [reflexivity|]. split; [reflexivity|]. ksimpl. now rewrite !map_const_replicate, Hq, Hfl. }
  clearbody s2. pose proof (inv_ok _ _ Hkm) as Hok.
  assert (qs_inv (fun _ => False) [] [] (replicate 8 (NULL, [])) s2) as Hinv
    by (rewrite E2; apply no_queues_held; [exact Q1|exact Q2|cbn; now rewrite Q3]).
  assert (km_inv l s2) as Hkm2 by (rewrite E2; destruct Hkm; now split).
  destruct (qnode_add_page_spec _ l a l' _ _ s2 Hkm2 Hinv ltac:(tauto) Hff)
    as (s' & E & Hkm' & Hdis & (s3 & Hf1 & Hf2) & F & Hinv' & Hlen). fold (node_page a) in *.
  destruct (first_fit_bounds 1 l a l' Hok ltac:(lia) Hff) as [Hlo _].
  pose proof Hf1 as (m1 & fp & np & E3 & Hm1). pose proof Hf2 as (m2 & q2 & E4 & Hm2 & Hq2).
  exists s'. split; [exact E|]. split; [exact Hkm'|].
  split; [exists F, (replicate 8 (NULL, [])); split; [exact Hinv'|split; [exact Hlen|reflexivity]]|].
  split; [rewrite E4, E3, E2 in *; cbn in *; now rewrite Hq2|]. split; [exact Hdis|]. split.
  - assert (st_mem s2 = st_mem s1) as <- by now rewrite E2. etransitivity.
    + intros x Hx. eapply km_frame_mem; [exact Hf1|]. intros Hin. apply (in_blocks_range _ _ _ Hok) in Hin. lia.
    + rewrite E4. cbn. eapply agree_weaken; [|exact Hm2]. intros x Hx [[]|Hin]. lia.
  - rewrite E4, E3, E2. eexists m2, _, q2. reflexivity.
Qed.
