(* ===== verification/BootMain.v ===== *)
(** kernel/kernel.c: [main], from the state that the bootstrap leaves to the first
    process. *)

From S2P Require Import Prelude Memory State Lib LibMem Sio Cio Frames CioSpec CioFormat CioTypes Kmem KmemInv KmemSpec KmemInit Queues QueuesInv QueuesSpec QueuesPages Stacks StacksSpec Procs ProcsSpec Drivers Clock ClockSpec Syscalls SyscallsSpec CreateSpec ForkSpec Kernel SysLogic SysInv SysCalls BootFrames BootDevices BootStart BootSpec.

Open Scope kernel_scope.

Section Main.
Context {L : Layout}.

(** [main] in three parts. *)
Definition main_start (k : K Z) : K Z :=
  w <- load16 USER_BLOB_DATA ;; krn_set (set_user_offset w) ;;
  w <- load16 (USER_BLOB_DATA + 2) ;; krn_set (set_user_segment w) ;;
  w <- load16 (USER_BLOB_DATA + 4) ;; krn_set (set_user_sectors w) ;;
  init_interrupts ;;
  cio_init NULL ;;
  segment_report ;;
  seg <- krn user_segment ;;
  off <- krn user_offset ;;
  krn_set (set_user_locs (u32 (Z.shiftl seg 4 + off))) ;;
  sec <- krn user_sectors ;;
  ul <- krn user_locs ;;
  cio_printf (chars "User blob %u sectors @ %04x:%04x (%08x)" ++ [10])%list
    [AI sec; AI seg; AI off; AI ul] ;;
  cio_puts (chars "System initialization starting." ++ [10])%list ;;
  cio_puts (chars "-------------------------------" ++ [10])%list ;;
  cio_puts (chars "Modules:") ;;
  k.

Definition main_modules (k : K Z) : K Z :=
  km_init ;;
  que_init ;;
  sio_init ;;
  pcb_init ;;
  stk_init ;;
  clk_init ;;
  sys_init ;;
  k.

Definition main_report (k : K Z) : K Z :=
  cio_opt_set CIO_OPT_DUP ;;
  cio_puts ([10] ++ chars "Module initialization complete." ++ [10])%list ;;
  kreport true ;;
  cio_puts (chars "-------------------------------" ++ [10])%list ;;
  cio_puts (chars "Creating initial user process...") ;;
  k.

Definition main_end : K Z :=
  cio_puts (chars " done." ++ [10])%list ;;
  cio_clearscreen ;;
  cio_setscroll 0 7 99 99 ;;
  cio_clearscroll ;;
  cio_puts_at 0 0 (42 :: replicate 79 32) ;;
  cio_puts_at 0 6 (replicate 80 61) ;;
  sio_flush (Z.lor SIO_RX SIO_TX) ;;
  sio_enable SIO_RX ;;
  cio_puts (chars "System initialization complete." ++ [10])%list ;;
  cio_puts (chars "-------------------------------" ++ [10])%list ;;
  ret 0.

Lemma main_parts : main = main_start (main_modules (main_report (create_init ;; main_end))).
Proof. unfold main, main_start, main_modules, main_report, main_end. reflexivity. Qed.

(** * Before the modules *)

(** The address of the table of user programs, that the bootstrap has left. *)
Definition user_table (m : memory) : Z :=
  u32 (Z.shiftl (ld16 m (USER_BLOB_DATA + 2)) 4 + ld16 m USER_BLOB_DATA).

(** Memory changes in the descriptor table only; allocators, queues and processes not at
    all. *)
Record started (s0 s : kstate) : Prop := Started {
  st_typed : off_wt s;
  st_memory : agree (fun a => ~ in_idt a) (st_mem s0) (st_mem s);
  st_modules : st_km s = st_km s0 /\ st_qs s = st_qs s0 /\ st_stk s = st_stk s0 /\ st_ps s = st_ps s0;
  st_table : user_locs (st_krn s) = user_table (st_mem s0);
  st_line : dev_in (st_dev s) = dev_in (st_dev s0)
}.

Lemma started_same s0 s s' : started s0 s -> same_drv s s' -> started s0 s'.
Proof.
  intros [T M (A1 & A2 & A3 & A4) U D] (T' & (B1 & B2 & B3 & B4 & B5 & B6 & B7) & _). split.
  - exact T'.
  - now rewrite B1.
  - repeat split; congruence.
  - apply (f_equal user_locs) in B6. exact (eq_trans B6 U).
  - congruence.
Qed.

Lemma started_quiet {A B} (m : K A) (k : A -> K B) R s0 s :
  quiet m -> started s0 s -> (forall a s', started s0 s' -> ends (k a) R s') -> ends (bind m k) R s.
Proof.
  intros Hm Hs Hk. eapply ends_bind; [exact (Hm s (st_typed _ _ Hs))|]. intros a s' H. apply Hk. now apply (started_same s0 s).
Qed.

Lemma quiet_blob sec seg off ul :
  quiet (cio_printf (chars "User blob %u sectors @ %04x:%04x (%08x)" ++ [10])%list [AI sec; AI seg; AI off; AI ul]).
Proof. apply quiet_fits; [vm_compute; reflexivity|cbn; lia]. Qed.

Lemma start_ends s0 k R : cio_raw s0 -> (forall s, started s0 s -> ends k R s) -> ends (main_start k) R s0.
Proof.
  intros [Hkeys Hout Hdup Hisr] Hk. unfold main_start. do 3 (apply ends_gets, ends_modify).
  match goal with |- ends _ _ ?t => set (s1 := t) end.
  eapply ends_bind; [exact (init_interrupts_ends s1 Hisr)|]. intros [] s2 (m & (Hm & E2) & _).
  assert (cio_raw s2) as Hraw by (subst s2; split; [exact Hkeys|exact Hout|exact Hdup|reflexivity]).
  eapply ends_bind; [exact (cio_init_ends s2 Hraw)|]. intros [] s3 (H3 & D3 & _).
  eapply ends_bind; [exact (quiet_segment_report s3 H3)|]. intros [] s4 (H4 & D4 & _).
  assert (drv_only s2 s4) as (D1 & D2 & D5 & D6 & D7 & D8 & D9) by (etransitivity; eassumption). clear D3 D4.
  assert (set_isr_table [] (st_krn s4) = set_isr_table [] (st_krn s1)) as Ek by (rewrite D8, E2; reflexivity).
  do 2 apply ends_gets. apply ends_modify.
  match goal with |- ends _ _ ?t => assert (started s0 t) as Hs end.
  { split.
    - destruct H4 as [[G C K O] Hd Hi]. split; [now split|exact Hd|exact Hi].
    - cbn [st_mem up_krn]. rewrite D1, E2. exact Hm.
    - cbn [st_km st_qs st_stk st_ps up_krn]. rewrite D2, D5, D6, D7, E2. repeat split.
    - apply (f_equal (fun r => (user_segment r, user_offset r))) in Ek. cbn in Ek. injection Ek as E1 E1'.
      cbn [st_krn up_krn user_locs set_user_locs]. now rewrite E1, E1'.
    - cbn [st_dev up_krn]. rewrite D9, E2. reflexivity. }
  match goal with |- ends _ _ ?t => clearbody s1; clear dependent s2; revert Hs; generalize t end.
  intros s Hs. do 2 apply ends_gets.
  eapply started_quiet; [apply quiet_blob|exact Hs|]. clear s Hs. intros _ s Hs.
  do 3 (eapply started_quiet; [apply quiet_puts|exact Hs|]; clear s Hs; intros _ s Hs).
  now apply Hk.
Qed.

(** * The modules *)

Lemma off_wt_ext s s' : off_wt s -> st_cio s' = st_cio s -> st_sio s' = st_sio s -> st_krn s' = st_krn s -> off_wt s'.
Proof. intros [[G C K O] Hd Hi] E1 E2 E3. split; [split|..]; now rewrite ?E1, ?E2, ?E3. Qed.

(** The memory below the pages, outside the descriptor table. *)
Definition low (a : Z) : Prop := a < KM_LOW_CUTOFF /\ ~ in_idt a.

(** The free list is [l]; the low memory is as it was in [s0]. *)
Record booted (s0 : kstate) (l : list block) (s : kstate) : Prop := Booted {
  bo_typed : off_wt s;
  bo_pages : km_inv l s;
  bo_memory : agree low (st_mem s0) (st_mem s);
  bo_table : user_locs (st_krn s) = user_table (st_mem s0);
  bo_line : dev_in (st_dev s) = dev_in (st_dev s0)
}.

Lemma booted_drv s0 l s s' : booted s0 l s -> off_wt s' -> drv_only s s' -> booted s0 l s'.
Proof.
  intros [T [K1 K2 K3 K4] M U D] T' (E1 & E2 & E3 & E4 & E5 & E6 & E7). split.
  - exact T'.
  - split; rewrite ?E1, ?E2; assumption.
  - now rewrite E1.
  - apply (f_equal user_locs) in E6. exact (eq_trans E6 U).
  - congruence.
Qed.

(** The modules change the memory and their own variables. *)
Lemma booted_module s0 l l' s s' : booted s0 l s -> plain s s' -> km_inv l' s' -> agree low (st_mem s) (st_mem s') ->
  booted s0 l' s'.
Proof.
  intros [T _ M U D] (E1 & E2 & E3 & E4 & _) K Hm. split.
  - now apply (off_wt_ext s).
  - exact K.
  - now rewrite M.
  - now rewrite E3.
  - now rewrite E4.
Qed.

Lemma named name s0 l s : booted s0 l s ->
  exists s1, cio_puts name s = Ret tt s1 /\ booted s0 l s1 /\ drv_only s s1 /\ st_sio s1 = st_sio s.
Proof.
  intros H. destruct (quiet_puts name s (bo_typed _ _ _ H)) as ([] & s1 & E & T & D & S). exists s1.
  split; [exact E|]. split; [now apply (booted_drv s0 l s)|auto].
Qed.

Lemma km_stage s0 rs s : started s0 s ->
  s32 (ld32 (st_mem s0) MMAP_ADDR) = Z.of_nat (length rs) -> rs <> [] ->
  map_at (st_mem s0) (MMAP_ADDR + 4) rs -> map_ok rs ->
  MMAP_ADDR + 4 + SZ_REGION * Z.of_nat (length rs) <= KM_LOW_CUTOFF ->
  exists s', km_init s = Ret tt s' /\ booted s0 (free_list_of rs) s' /\ st_qs s' = st_qs s0 /\ st_ps s' = st_ps s0.
Proof.
  intros [T M (_ & A2 & _ & A4) U D] En Hne Hm Hok Hlow.
  destruct (quiet_puts (chars " KM") s T) as ([] & s1 & E0 & T1 & (B1 & B2 & B3 & _ & B5 & B6 & B7) & _).
  assert (forall a, MMAP_ADDR <= a -> ld8 (st_mem s) a = ld8 (st_mem s0) a) as Hsame
    by (intros a Ha; apply M; unfold in_idt, IDT_ADDR, MMAP_ADDR in *; lia).
  destruct (km_init_spec rs s s1 E0) as (m & k & E & Hinv & Hag & _).
  - rewrite <- En. f_equal. apply ld32_agree. intros i Hi. apply Hsame. lia.
  - exact Hne.
  - eapply map_at_same; [|exact Hm]. intros x Hx. apply Hsame. lia.
  - exact Hok.
  - exact Hlow.
  - exists (with_km m k s1). split; [exact E|]. split; [|split; [exact (eq_trans B3 A2)|exact (eq_trans B5 A4)]]. split.
    + now apply (off_wt_ext s1).
    + exact Hinv.
    + etransitivity; [eapply agree_weaken; [|exact M]; now intros a []|]. eapply agree_weaken; [|exact Hag].
      intros a [Ha _] Hin. apply (in_blocks_range _ _ _ (inv_ok _ _ Hinv)) in Hin. lia.
    + apply (f_equal user_locs) in B6. exact (eq_trans B6 U).
    + exact (eq_trans B7 D).
Qed.

Lemma que_stage s0 l a l' s : booted s0 l s -> first_fit 1 l = Some (a, l') ->
  length (queues (st_qs s)) = 8%nat -> length (queue_free (st_qs s)) = 8%nat ->
  exists s', que_init s = Ret tt s' /\ booted s0 l' s' /\ queues_hold (node_page a) 512 (replicate 8 (NULL, [])) s' /\
    queue_free (st_qs s') = flags_used 0 /\ (forall x, node_page a x -> ~ in_blocks l' x) /\ st_ps s' = st_ps s.
Proof.
  intros H Hff H1 H2. destruct (named (chars " Que") s0 l s H) as (s1 & E0 & B & (_ & _ & B3 & _ & B5 & _) & _).
  destruct (que_init_spec l a l' s s1 E0 (bo_pages _ _ _ B) Hff ltac:(now rewrite B3) ltac:(now rewrite B3))
    as (s' & E & K & Hq & Hf & Hdis & Hag & (m & k & q & E')).
  exists s'. split; [exact E|]. split; [|split; [exact Hq|]].
  - apply (booted_module s0 l l' s1); [exact B|rewrite E'; repeat split|exact K|].
    eapply agree_weaken; [|exact Hag]. now intros x [].
  - split; [exact Hf|]. split; [exact Hdis|]. rewrite E'. exact B5.
Qed.

(** ** The processes *)

Context (H : Z -> Prop) (n : nat).

Record procs_fresh (s : kstate) : Prop := ProcsFresh {
  pf_inv : proc_inv H n (map (fun k => (k, [])) queue_keys) s;
  pf_flags : queue_free (st_qs s) = flags_used 7;
  pf_procs : st_ps s = fresh_procs
}.

Lemma procs_fresh_ext s s' : procs_fresh s -> st_qs s' = st_qs s -> st_ps s' = st_ps s ->
  agree H (st_mem s) (st_mem s') -> procs_fresh s'.
Proof. intros [P1 P2 P3] Eq Ep Hm. split; [eapply proc_inv_ext; eassumption|now rewrite Eq|now rewrite Ep]. Qed.

Lemma pcb_stage s0 l s : booted s0 l s -> queues_hold H n (replicate 8 (NULL, [])) s ->
  queue_free (st_qs s) = flags_used 0 -> length (ptable (st_ps s)) = 25%nat -> length (ready (st_ps s)) = 3%nat ->
  (25 <= n)%nat ->
  exists s', pcb_init s = Ret tt s' /\ booted s0 l s' /\ procs_fresh s' /\ st_sio s' = st_sio s.
Proof.
  intros B Hq Hf Ht Hr Hn. destruct (named (chars " PCB") s0 l s B) as (s1 & E0 & B1 & (C1 & _ & C3 & _ & C5 & _) & S).
  assert (queues_hold H n (replicate 8 (NULL, [])) s1) as Hq1 by (eapply queues_hold_same; eassumption).
  destruct (pcb_init_spec H n s s1 E0 Hq1 ltac:(now rewrite C3) ltac:(now rewrite C5) ltac:(now rewrite C5) Hn)
    as (s' & E & Hq' & Hp & Hf').
  destruct (tables_pcb_init s s1 s' E0 E) as (q & p & E'). exists s'. split; [exact E|]. split; [|split].
  - apply (booted_module s0 l l s1); rewrite ?E'; [exact B1|repeat split|destruct (bo_pages _ _ _ B1); now split|reflexivity].
  - split; [now apply fresh_inv|exact Hf'|exact Hp].
  - now rewrite E'.
Qed.

Lemma stk_stage s0 l b l' s : booted s0 l s -> procs_fresh s -> (forall x, H x -> ~ in_blocks l x) ->
  first_fit STACK_PAGES l = Some (b, l') ->
  exists s', stk_init s = Ret tt s' /\ booted s0 l' s' /\ procs_fresh s' /\ free_stacks (st_stk s') = NULL /\
    (forall x, H x -> ~ in_blocks l' x) /\ st_sio s' = st_sio s.
Proof.
  intros B P Hdis Hff. destruct (named (chars " Stk") s0 l s B) as (s1 & E0 & B1 & (C1 & _ & C3 & _ & C5 & _) & S).
  set (s2 := up_stk (set_free_stacks NULL) s1).
  assert (booted s0 l s2) as B2
    by (apply (booted_module s0 l l s1); [exact B1|repeat split|destruct (bo_pages _ _ _ B1); now split|reflexivity]).
  destruct (stk_alloc_fresh l b l' s2 eq_refl (bo_pages _ _ _ B2) Hff) as (s3 & E3 & K3 & Hfr & _ & _ & _ & Hsub).
  pose proof Hfr as (m & fp & np & E3' & Hag).
  exists (up_stk (fun r => set_kesp (u32 (b + 4 * (STACK_WDS - 1))) (set_kstack b r)) s3). split; [|split; [|split; [|split; [|split]]]].
  - unfold stk_init. mstep E0. erewrite bind_Ret by reflexivity. fold s2. mstep E3. reflexivity.
  - apply (booted_module s0 l l' s2); [exact B2|rewrite E3'; repeat split|destruct K3; now split|].
    intros a [Ha _]. cbn [st_mem up_stk]. eapply km_frame_mem; [exact Hfr|]. intros Hin.
    apply (in_blocks_range _ _ _ (inv_ok _ _ (bo_pages _ _ _ B2))) in Hin. lia.
  - apply (procs_fresh_ext s); [exact P|rewrite E3'; exact C3|rewrite E3'; exact C5|].
    intros a Ha. cbn [st_mem up_stk]. transitivity (ld8 (st_mem s2) a); [|now rewrite <- C1].
    eapply km_frame_mem; [exact Hfr|]. exact (Hdis a Ha).
  - rewrite E3'. reflexivity.
  - intros x Hx Hin. exact (Hdis x Hx (Hsub x Hin)).
  - rewrite E3'. exact S.
Qed.

Lemma quiet_stage {A} (m : K A) s0 l s : quiet m -> booted s0 l s -> procs_fresh s -> free_stacks (st_stk s) = NULL ->
  exists a s', m s = Ret a s' /\ booted s0 l s' /\ procs_fresh s' /\ free_stacks (st_stk s') = NULL /\ st_sio s' = st_sio s.
Proof.
  intros Hm B P F. destruct (Hm s (bo_typed _ _ _ B)) as (a & s' & E & T & D & S). exists a, s'. split; [exact E|].
  pose proof D as (D1 & _ & D3 & D4 & D5 & _). split; [exact (booted_drv s0 l s s' B T D)|].
  split; [apply (procs_fresh_ext s); [exact P|exact D3|exact D5|now rewrite D1]|]. split; [now rewrite D4|exact S].
Qed.
End Main.

(** * The machine that the bootstrap leaves *)

Section Modules.
Context {L : Layout}.

(** The memory map [rs] of the BIOS, with room for the page of the queue nodes and two
    stacks; the arrays of the data segment; the table of the user programs and the
    argument string [str] of the first one, outside the descriptor table; a serial line
    on which the input ends. *)
Record machine_ok (rs : list region_t) (str : list Z) (s : kstate) : Prop := MachineOk {
  mo_count : s32 (ld32 (st_mem s) MMAP_ADDR) = Z.of_nat (length rs) /\ rs <> [];
  mo_map : map_at (st_mem s) (MMAP_ADDR + 4) rs /\ map_ok rs;
  mo_low : MMAP_ADDR + 4 + SZ_REGION * Z.of_nat (length rs) <= KM_LOW_CUTOFF;
  mo_pages : has_pages (1 + 2 * STACK_PAGES) (free_list_of rs);
  mo_console : cio_raw s;
  mo_queues : length (queues (st_qs s)) = 8%nat /\ length (queue_free (st_qs s)) = 8%nat;
  mo_procs : length (ptable (st_ps s)) = 25%nat /\ length (ready (st_ps s)) = 3%nat;
  mo_table : MMAP_ADDR <= user_table (st_mem s) /\ user_table (st_mem s) + 8 <= KM_LOW_CUTOFF;
  mo_args : cstring (st_mem s) init_args_addr str /\ args_fit (length str);
  mo_args_low : MMAP_ADDR <= init_args_addr /\ init_args_addr + Z.of_nat (length str) + 4 <= KM_LOW_CUTOFF;
  mo_line : exists i, (i < 2 ^ 39)%N /\ forall j, (i <= j)%N -> Z.land (u8 (dev_in (st_dev s) j UA4_LSR)) UA4_LSR_RXDA = 0
}.

(** What [create_init] finds. *)
Record modules_ready (s0 : kstate) (a : Z) (l : list block) (str : list Z) (s : kstate) : Prop := ModulesReady {
  mr_boot : booted s0 l s;
  mr_init : init_ready (node_page a) 512 l str s;
  mr_out : outlast (st_sio s) = 0
}.

Lemma modules_end rs str s0 s a l1 b l2 :
  machine_ok rs str s0 -> booted s0 l2 s -> procs_fresh (node_page a) 512 s -> free_stacks (st_stk s) = NULL ->
  (forall x, node_page a x -> ~ in_blocks l2 x) -> outlast (st_sio s) = 0 ->
  first_fit 1 (free_list_of rs) = Some (a, l1) -> first_fit STACK_PAGES l1 = Some (b, l2) -> has_pages STACK_PAGES l2 ->
  modules_ready s0 a l2 str s.
Proof.
  intros [_ _ _ _ _ _ _ [U0 U1] [Hc Hfit] [A0 A1] _] B [P1 P2 P3] F Hdis O _ _ Hp.
  pose proof B as [_ K M U _]. assert (0 <= MMAP_ADDR) as H0 by (unfold MMAP_ADDR; lia).
  split; [exact B| |exact O]. split.
  - now split.
  - exact Hdis.
  - now split.
  - exact F.
  - split; [|exact Hfit]. eapply cstring_agree; [|exact Hc]. intros i Hi. apply M.
    unfold low, in_idt, IDT_ADDR, MMAP_ADDR in *. lia.
  - lia.
  - rewrite U. lia.
Qed.

Lemma modules_stage rs str s0 k R s : machine_ok rs str s0 -> started s0 s ->
  (forall a l1 l s', first_fit 1 (free_list_of rs) = Some (a, l1) -> modules_ready s0 a l str s' -> ends k R s') ->
  ends (main_modules k) R s.
Proof.
  intros Hok Hs Hk. pose proof Hok as [[M1 M2] [M3 M4] M5 M6 _ [M7 M8] [M9 M10] _ _ _ _].
  destruct (has_pages_fit (1 + 2 * STACK_PAGES) 1 _ ltac:(unfold STACK_PAGES; lia) M6) as (a & l1 & F1 & G1).
  destruct (has_pages_fit (1 + 2 * STACK_PAGES - 1) STACK_PAGES _ ltac:(unfold STACK_PAGES; lia) G1) as (b & l2 & F2 & G2).
  replace (1 + 2 * STACK_PAGES - 1 - STACK_PAGES) with STACK_PAGES in G2 by (unfold STACK_PAGES; lia).
  destruct (km_stage s0 rs s Hs M1 M2 M3 M4 M5) as (s1 & E1 & B1 & Q1 & P1).
  destruct (que_stage s0 _ a l1 s1 B1 F1 ltac:(now rewrite Q1) ltac:(now rewrite Q1)) as (s2 & E2 & B2 & Hq & Hf & Hdis & P2).
  unfold main_modules. eapply ends_step; [exact E1|]. eapply ends_step; [exact E2|].
  eapply ends_bind; [exact (sio_init_ends s2 (bo_typed _ _ _ B2))|]. intros [] s3 (T3 & D3 & O3).
  pose proof (booted_drv s0 l1 s2 s3 B2 T3 D3) as B3. destruct D3 as (D1 & _ & D3 & _ & D5 & _).
  assert (queues_hold (node_page a) 512 (replicate 8 (NULL, [])) s3) as Hq3 by (eapply queues_hold_same; eassumption).
  destruct (pcb_stage (node_page a) 512 s0 l1 s3 B3 Hq3 ltac:(now rewrite D3) ltac:(now rewrite D5, P2, P1)
    ltac:(now rewrite D5, P2, P1) ltac:(lia)) as (s4 & E4 & B4 & P4 & S4).
  destruct (stk_stage (node_page a) 512 s0 l1 b l2 s4 B4 P4 Hdis F2) as (s5 & E5 & B5 & P5 & F5 & Hdis5 & S5).
  destruct (quiet_stage (node_page a) 512 clk_init s0 l2 s5 quiet_clk_init B5 P5 F5) as ([] & s6 & E6 & B6 & P6 & F6 & S6).
  destruct (quiet_stage (node_page a) 512 sys_init s0 l2 s6 quiet_sys_init B6 P6 F6) as ([] & s7 & E7 & B7 & P7 & F7 & S7).
  eapply ends_step; [exact E4|]. eapply ends_step; [exact E5|]. eapply ends_step; [exact E6|]. eapply ends_step; [exact E7|].
  apply (Hk a l1 l2 s7 F1). eapply modules_end; try eassumption. now rewrite S7, S6, S5, S4.
Qed.
End Modules.

(** * With the output on the serial line as well *)

(** [m] writes at most [c] characters to the line, and nothing else changes. *)
Definition says {A} (m : K A) (c : Z) : Prop :=
  forall k s, 0 <= k -> con_wt (c + k) s -> ends m (fun _ s' => con_wt k s' /\ io_only s s') s.

Lemma says_io {A} (m : K A) c :
  keeps io_only m -> (forall k s, 0 <= k -> con_wt (c + k) s -> ends m (fun _ => con_wt k) s) -> says m c.
Proof.
  intros Hm H k s Hk Hs. destruct (H k s Hk Hs) as (a & s' & E & Hw). exists a, s'. split; [exact E|].
  split; [exact Hw|exact (io_Ret _ _ _ _ Hm E)].
Qed.

Lemma says_puts l : says (cio_puts l) (costs l).
Proof. apply says_io; [apply io_cio_puts|]. intros k s. apply ends_puts. Qed.

Lemma says_puts_at x y l : 0 <= x -> says (cio_puts_at x y l) (costs_at l).
Proof. intros Hx. apply says_io; [apply io_cio_puts_at|]. intros k s Hk. now apply ends_puts_at. Qed.

Lemma says_putchar c : says (cio_putchar c) (cost c).
Proof. apply says_io; [apply io_cio_putchar|]. intros k s. apply ends_putchar. Qed.

Lemma says_printf fmt ap text : formats fmt ap text -> no_nul text -> Z.of_nat (length fmt) < 2 ^ 40 ->
  says (cio_printf fmt ap) (costs text).
Proof.
  intros Hf Hn Hl k s Hk Hs. destruct (says_puts text k s Hk Hs) as (a & s' & E & H). exists a, s'.
  split; [now rewrite (cio_printf_puts _ _ text)|exact H].
Qed.

Lemma says_less {A} (m : K A) c c' : c <= c' -> says m c -> says m c'.
Proof. intros Hc H k s Hk Hs. apply (H k s Hk). eapply con_wt_less; [|exact Hs]. lia. Qed.

(** Two pieces of code: the sum. *)
Lemma says_bind {A B} (m : K A) (f : A -> K B) c d : 0 <= d -> says m c -> (forall a, says (f a) d) -> says (bind m f) (c + d).
Proof.
  intros Hd Hm Hf k s Hk Hs. eapply ends_bind; [apply (Hm (d + k) s); [lia|]; now rewrite Z.add_assoc|].
  intros a s1 (H1 & I1). eapply ends_mono; [exact (Hf a k s1 Hk H1)|]. intros b s2 (H2 & I2).
  split; [exact H2|etransitivity; eassumption].
Qed.

Ltac saying :=
  lazymatch goal with
  | |- says (bind _ _) _ => eapply says_bind; [|saying|intros _; saying]
  | |- says (when true _) _ => cbn [when]; saying
  | |- says (cio_puts _) _ => apply says_puts
  | |- says (cio_puts_at _ _ _) _ => apply says_puts_at; lia
  | |- says (cio_putchar _) _ => apply says_putchar
  | |- says (cio_printf _ _) _ =>
      eapply says_printf; [vm_compute; reflexivity|apply no_nul_check; vm_compute; reflexivity|cbn; lia]
  end.

Lemma says_kreport : says (kreport true) 200.
Proof.
  eapply says_less; [|unfold kreport; saying]; vm_compute; congruence.
Qed.

Lemma says_then {A B} (m : K A) (f : A -> K B) c j n R s0 s :
  says m c -> con_wt n s /\ io_only s0 s -> 0 <= j -> c + j <= n ->
  (forall a s', con_wt j s' /\ io_only s0 s' -> ends (f a) R s') -> ends (bind m f) R s.
Proof.
  intros Hm [Hw Hi] Hj Hn Hf. eapply ends_bind; [apply (Hm j s Hj); eapply con_wt_less; eassumption|].
  intros a s' [Hw' Hi']. apply Hf. split; [exact Hw'|]. etransitivity; eassumption.
Qed.

Lemma con_wt_off k s : off_wt s -> con_wt k s.
Proof. intros [[G C K [O1 O2 O3 _]] Hd _]. split; [exact G|exact C|exact K|]. split; [exact O1|exact O2|exact O3|now left]. Qed.

Section Report.
Context {L : Layout}.

Lemma report_stage k R s : off_wt s -> outlast (st_sio s) = 0 ->
  (forall s', con_wt 600 s' /\ io_only s s' -> ends k R s') -> ends (main_report k) R s.
Proof.
  intros Ht Ho Hk. unfold main_report. eapply ends_step; [reflexivity|].
  assert (con_wt 1024 (up_cio (set_dup_to_sio 1) s) /\ io_only s (up_cio (set_dup_to_sio 1) s)) as H1.
  { split; [|exact (io_cio_set (set_dup_to_sio 1) s)].
    apply con_wt_dup; [now apply con_wt_off|rewrite Ho; vm_compute; congruence]. }
  revert H1. generalize (up_cio (set_dup_to_sio 1) s) as s1. intros s1 H1.
  apply (says_then _ _ _ 980 _ _ s _ (says_puts _) H1); [lia|vm_compute; congruence|]. intros _ s2 H2.
  apply (says_then _ _ _ 780 _ _ s _ says_kreport H2); [lia|vm_compute; congruence|]. intros _ s3 H3.
  apply (says_then _ _ _ 700 _ _ s _ (says_puts _) H3); [lia|vm_compute; congruence|]. intros _ s4 H4.
  apply (says_then _ _ _ 600 _ _ s _ (says_puts _) H4); [lia|vm_compute; congruence|]. intros _ s5 H5.
  now apply Hk.
Qed.

(** ** The end of the messages *)

(** From the [i]-th read on the line has no input. *)
Definition line_ends (i : N) (s : kstate) : Prop :=
  (i < 2 ^ 39)%N /\ forall j, (i <= j)%N -> Z.land (u8 (dev_in (st_dev s) j UA4_LSR)) UA4_LSR_RXDA = 0.

Lemma line_ends_io i s s' : io_only s s' -> line_ends i s -> line_ends i s'.
Proof. intros Hi [H1 H2]. split; [exact H1|]. now rewrite (io_only_line _ _ Hi). Qed.

(** The variables of the line but the buffer, and the reads. *)
Lemma con_wt_line k s s' : con_wt k s -> st_cio s' = st_cio s -> outbuffer (st_sio s') = outbuffer (st_sio s) ->
  0 <= outlast (st_sio s') <= outlast (st_sio s) -> con_wt k s'.
Proof.
  intros [G C K [O1 O2 O3 O4]] Ec Eb El. split; rewrite ?Ec; [exact G|exact C|exact K|].
  split; [now rewrite Eb|lia|exact O3|]. destruct O4; [now left|right; lia].
Qed.

(** Reading what is left of the input: the reads come to an end with it. *)
Lemma drain_ends i s0 k s : line_ends i s0 -> con_wt k s /\ io_only s0 s ->
  ends (lsr <- inb UA4_LSR ;;
        loop (fun lsr =>
          if negb (Z.land lsr UA4_LSR_RXDA =? 0) then
            inb UA4_RXD ;;
            lsr <- inb UA4_LSR ;;
            ret (inl lsr)
          else ret (inr tt)) lsr) (fun _ s' => con_wt k s' /\ io_only s0 s') s.
Proof.
  intros Hl [Hw Hi]. eapply ends_step; [reflexivity|]. pose proof Hl as [Hn _].
  apply (ends_loop _ (fun lsr s' => (con_wt k s' /\ io_only s0 s') /\ (0 < dev_count (st_dev s'))%N /\
      lsr = u8 (dev_in (st_dev s') (dev_count (st_dev s') - 1)%N UA4_LSR))
    (fun _ s' => N.to_nat (i + 1 - dev_count (st_dev s')))).
  - clear s Hw Hi. intros lsr s ([Hw Hi] & Hc & El). destruct (Z.eqb_spec (Z.land lsr UA4_LSR_RXDA) 0) as [|Hne]; cbn [negb].
    { now apply ends_ret. }
    assert (dev_count (st_dev s) - 1 < i)%N as Hlt.
    { destruct (N.ltb_spec (dev_count (st_dev s) - 1) i) as [|Hge]; [done|]. destruct Hne. rewrite El.
      now apply (line_ends_io i s0 s Hi Hl). }
    eapply ends_step; [reflexivity|]. eapply ends_step; [reflexivity|]. apply ends_ret.
    split; [|cbn; lia]. split; [split|].
    + eapply con_wt_line; [exact Hw|reflexivity..|]. cbn. pose proof (ow_last _ _ _ (cw_out _ _ Hw)). lia.
    + etransitivity; [exact Hi|]. etransitivity; [exact (io_inb UA4_RXD s)|]. exact (io_inb UA4_LSR _).
    + cbn. split; [lia|]. f_equal. f_equal. lia.
  - split; [split|].
    + eapply con_wt_line; [exact Hw|reflexivity..|]. cbn. pose proof (ow_last _ _ _ (cw_out _ _ Hw)). lia.
    + etransitivity; [exact Hi|]. exact (io_inb UA4_LSR s).
    + cbn. split; [lia|]. f_equal. f_equal. lia.
  - cbn. lia.
Qed.

Lemma set_line {B} f k s0 s (m : K B) R :
  (forall o, outbuffer (f o) = outbuffer o /\ (0 <= outlast o -> 0 <= outlast (f o) <= outlast o)) ->
  con_wt k s /\ io_only s0 s -> (forall s', con_wt k s' /\ io_only s0 s' -> ends m R s') -> ends (sio_set f ;; m) R s.
Proof.
  intros Hf [Hw Hi] Hm. eapply ends_step; [reflexivity|]. apply Hm. destruct (Hf (st_sio s)) as [F1 F2]. split.
  - eapply con_wt_line; [exact Hw|reflexivity|exact F1|]. apply F2, (ow_last _ _ _ (cw_out _ _ Hw)).
  - etransitivity; [exact Hi|exact (io_sio_set f s)].
Qed.

Lemma flush_ends i k s0 s : line_ends i s0 -> con_wt k s /\ io_only s0 s ->
  ends (sio_flush (Z.lor SIO_RX SIO_TX)) (fun _ s' => con_wt k s' /\ io_only s0 s') s.
Proof.
  intros Hl H. unfold sio_flush.
  assert (negb (Z.land (Z.lor SIO_RX SIO_TX) SIO_RX =? 0) = true) as -> by reflexivity.
  assert (negb (Z.land (Z.lor SIO_RX SIO_TX) SIO_TX =? 0) = true) as -> by reflexivity. cbn [when].
  apply (ends_bind _ _ (fun _ s' => con_wt k s' /\ io_only s0 s')).
  - do 3 (eapply set_line; [intros o; cbn; split; [reflexivity|lia]|exact H|clear s H; intros s H]).
    exact (drain_ends i s0 k s Hl H).
  - clear s H. intros _ s H.
    do 3 (eapply set_line; [intros o; cbn; split; [reflexivity|lia]|exact H|clear s H; intros s H]).
    apply ends_eta. eapply set_line; [intros o; cbn; split; [reflexivity|lia]|exact H|clear s H; intros s H]. now apply ends_ret.
Qed.

Lemma says_enable w : says (sio_enable w) 0.
Proof.
  apply says_io; [apply io_sio_enable|]. intros k s Hk Hw. pose proof (ow_last _ _ _ (cw_out _ _ Hw)) as Ho.
  eapply ends_mono; [exact (ends_sio_enable w s Ho)|]. intros _ s' [(o & d & ->) [H1 H2]].
  destruct Hw as [G C K [O1 O2 O3 O4]]. cbn in *. split; [exact G|exact C|exact K|].
  split; cbn; [now rewrite H1|lia|exact O3|]. destruct O4; [now left|right; lia].
Qed.

Lemma says_screen (m : K unit) : keeps io_only m -> (forall k s, con_wt k s -> ends m (fun _ => con_wt k) s) -> says m 0.
Proof. intros Hm H. apply says_io; [exact Hm|]. intros k s _. apply H. Qed.

Lemma says_clearscreen : says cio_clearscreen 0.
Proof. apply says_screen; [unfold cio_clearscreen, vput; io|exact ends_clearscreen]. Qed.

Lemma says_setscroll a b c d : says (cio_setscroll a b c d) 0.
Proof. apply says_screen; [unfold cio_setscroll; io|]. intros k s. apply ends_setscroll. Qed.

Lemma says_clearscroll : says cio_clearscroll 0.
Proof. apply says_screen; [unfold cio_clearscroll; io|exact ends_clearscroll]. Qed.

Lemma main_end_ends i s : line_ends i s -> con_wt 500 s -> ends main_end (fun r s' => r = 0 /\ io_only s s') s.
Proof.
  intros Hl Hw. unfold main_end.
  assert (con_wt 500 s /\ io_only s s) as H1 by (split; [exact Hw|reflexivity]).
  apply (says_then _ _ _ 490 _ _ s _ (says_puts _) H1); [lia|vm_compute; congruence|]. intros _ s2 H2.
  apply (says_then _ _ 0 490 _ _ s _ says_clearscreen H2); [lia..|].
  intros _ s3 H3.
  apply (says_then _ _ 0 490 _ _ s _ (says_setscroll 0 7 99 99) H3); [lia..|]. intros _ s4 H4.
  apply (says_then _ _ 0 490 _ _ s _ says_clearscroll H4); [lia..|].
  intros _ s5 H5.
  apply (says_then _ _ _ 400 _ _ s _ (says_puts_at 0 0 _ ltac:(lia)) H5); [lia|vm_compute; congruence|]. intros _ s6 H6.
  apply (says_then _ _ _ 300 _ _ s _ (says_puts_at 0 6 _ ltac:(lia)) H6); [lia|vm_compute; congruence|]. intros _ s7 H7.
  apply (ends_bind _ _ _ _ _ (flush_ends i 300 s s7 Hl H7)). intros _ s8 H8.
  apply (says_then _ _ 0 300 _ _ s _ (says_enable _) H8); [lia..|]. intros _ s9 H9.
  apply (says_then _ _ _ 200 _ _ s _ (says_puts _) H9); [lia|vm_compute; congruence|]. intros _ s10 H10.
  apply (says_then _ _ _ 100 _ _ s _ (says_puts _) H10); [lia|vm_compute; congruence|]. intros _ s11 H11.
  apply ends_ret. split; [reflexivity|apply H11].
Qed.

(** * The whole of [main] *)

Lemma first_runs_io H entry fake str s s' : io_only s s' -> first_runs H entry fake str s -> first_runs H entry fake str s'.
Proof.
  intros Hio [R [C1 C2] (b & ctx & m & m' & Hx & Hr & Ha)]. destruct (io_only_fields _ _ Hio) as (Em & _ & _ & _ & Ep & _).
  split; [eapply sys_run_io; eassumption|now rewrite Ep|]. exists b, ctx, m, m'. unfold pcb_at in *. rewrite Ep, Em. auto.
Qed.

Lemma main_ends rs str s : machine_ok rs str s ->
  ends main (fun r s' => r = 0 /\ exists a l,
    first_fit 1 (free_list_of rs) = Some (a, l) /\
    first_runs (node_page a) (ld32 (st_mem s) (user_table (st_mem s))) (ld32 (st_mem s) (user_table (st_mem s) + 4)) str s') s.
Proof.
  intros Hok. rewrite main_parts. apply start_ends; [apply Hok|]. intros s1 H1.
  apply (modules_stage rs str s); [exact Hok|exact H1|]. intros a l1 l s2 Ha [B Hi O].
  apply report_stage; [exact (bo_typed _ _ _ B)|exact O|]. intros s3 [W3 I3].
  pose proof (init_ready_io _ _ _ _ _ _ I3 Hi) as Hi3.
  destruct (create_init_spec _ _ _ _ _ Hi3) as (s4 & E4 & F4). eapply ends_step; [exact E4|].
  destruct (plain_Ret _ _ _ _ plain_create_init E4) as (P1 & P2 & _ & P4 & _).
  destruct (mo_line _ _ _ Hok) as (i & Hl).
  eapply ends_mono; [apply (main_end_ends i s4)|].
  - destruct Hl as [L1 L2]. split; [exact L1|]. now rewrite P4, (io_only_line _ _ I3), (bo_line _ _ _ B).
  - apply (con_wt_less 600); [lia|]. destruct W3 as [G C K O3]. split; now rewrite ?P1, ?P2.
  - intros r s' [-> I]. split; [reflexivity|]. exists a, l1. split; [exact Ha|].
    apply (first_runs_io _ _ _ _ s4 s' I). pose proof B as [_ _ M U _].
    destruct (io_only_fields _ _ I3) as (Em & _ & _ & _ & _ & _ & Ek).
    destruct (mo_table _ _ _ Hok) as [U0 U1].
    assert (forall x, MMAP_ADDR <= x -> x + 4 <= KM_LOW_CUTOFF -> ld32 (st_mem s3) x = ld32 (st_mem s) x) as Hw.
    { intros x X0 X1. rewrite Em. apply ld32_agree. intros k Hk. apply M.
      unfold low, in_idt, IDT_ADDR, MMAP_ADDR in *. lia. }
    rewrite Ek, U, !Hw in F4 by lia. exact F4.
Qed.
End Report.
