(* ===== verification/BootClaims.v ===== *)
(** What the initialisation of the system establishes: the interrupt tables, the first
    process, and with it the invariant of the kernel. *)

From S2P Require Import Prelude Memory State Lib LibMem Sio Cio Frames CioSpec CioFormat CioTypes Kmem KmemInv KmemSpec KmemInit KmemClaims Queues QueuesInv Stacks StacksSpec Procs ProcsSpec Drivers Clock Syscalls CreateSpec Kernel SysLogic SysInv SysStep BootDevices BootStart BootSpec BootMain.

Open Scope kernel_scope.

#[local] Existing Instance example_layout.

(** ** The first machine state *)

(** The map of a machine of 128 MB; the user programs at 0x10000, whose table says that
    the first program starts at 0x10400 and that a program that returns goes to 0x10440;
    the argument string. *)
Definition boot_memory : memory :=
  st_bytes (st32 (st32 (st16 (st16 (st16 (map_memory ∅) USER_BLOB_DATA 0) (USER_BLOB_DATA + 2) 0x1000) (USER_BLOB_DATA + 4) 7)
    0x10000 0x10400) 0x10004 0x10440) 0x20000 (chars "init" ++ [0]).

(** Three characters wait on the serial line. *)
Definition boot_line (i : N) (port : Z) : Z := if (i <? 7)%N then 1 else 0.

Definition bare_machine : kstate := boot_state boot_memory boot_line.

Lemma bare_map : s32 (ld32 (st_mem bare_machine) MMAP_ADDR) = Z.of_nat (length example_map) /\
  map_at (st_mem bare_machine) (MMAP_ADDR + 4) example_map.
Proof. split; [vm_compute; reflexivity|vm_compute; intuition congruence]. Qed.

Lemma bare_console : cio_raw bare_machine.
Proof.
  split; [|vm_compute; intuition congruence|reflexivity|vm_compute; reflexivity].
  split; [reflexivity| |vm_compute; intuition congruence|now left|now right].
  apply Forall_replicate. lia.
Qed.

Lemma bare_strings : cstring (st_mem bare_machine) 0x20000 (chars "init") /\ user_table (st_mem bare_machine) = 0x10000 /\
  ld32 (st_mem bare_machine) 0x10000 = 0x10400 /\ ld32 (st_mem bare_machine) 0x10004 = 0x10440.
Proof. split; [|vm_compute; intuition congruence]. vm_compute. intuition congruence. Qed.

Lemma bare_machine_ok : machine_ok example_map (chars "init") bare_machine.
Proof.
  destruct bare_map as [M1 M2]. destruct bare_strings as (S1 & S2 & _).
  assert (free_list_of example_map = [(0x100000, 32480)]) as Ef by (vm_compute; reflexivity).
  split.
  - split; [exact M1|discriminate].
  - split; [exact M2|exact example_map_ok].
  - vm_compute. congruence.
  - rewrite Ef. right. eexists. split; [left|]. unfold STACK_PAGES. cbn. lia.
  - exact bare_console.
  - split; reflexivity.
  - split; reflexivity.
  - rewrite S2. unfold MMAP_ADDR, KM_LOW_CUTOFF. lia.
  - split; [exact S1|vm_compute; congruence].
  - vm_compute. intuition congruence.
  - exists 7%N. split; [lia|]. intros j Hj. cbn [st_dev bare_machine boot_state dev_in]. unfold boot_line.
    destruct (N.ltb_spec j 7); [lia|reflexivity].
Qed.

(** ** The system starts *)

(** C3: the system starts.  On a machine with a proper memory map and zeroed data, [main]
    comes to its end: no initialisation fails, no message overruns the buffer of the
    line, no loop hangs.  Then exactly one process exists; it is the running one, its own
    parent, and its context is one from which it starts at the entry point of init with
    its argument string; and the invariant of the kernel holds, then and along every run
    from there. *)
Theorem kernel_boots {L : Layout} rs str s : machine_ok rs str s ->
  exists a s', main s = Ret 0 s' /\
    first_runs (node_page a) (ld32 (st_mem s) (user_table (st_mem s))) (ld32 (st_mem s) (user_table (st_mem s) + 4)) str s' /\
    forall s'', rtc (kstep (node_page a)) s' s'' -> sys_run (node_page a) s''.
Proof.
  intros Hok. destruct (main_ends rs str s Hok) as (r & s' & E & -> & a & l & _ & F). exists a, s'.
  split; [exact E|]. split; [exact F|]. intros s'' Hr. exact (ksteps_run _ s' s'' Hr (fr_run _ _ _ _ _ F)).
Qed.

Lemma kernel_boots_witness :
  exists a s', main bare_machine = Ret 0 s' /\ first_runs (node_page a) 0x10400 0x10440 (chars "init") s' /\
    sys_run (node_page a) s'.
Proof.
  destruct (kernel_boots example_map (chars "init") bare_machine bare_machine_ok) as (a & s' & E & F & R).
  exists a, s'. split; [exact E|]. split; [|apply R, rtc_refl].
  revert F. destruct bare_strings as (_ & -> & -> & E2). change (0x10000 + 4) with 0x10004. rewrite E2. exact (fun F => F).
Defined.

(** ** The interrupt tables *)

(** C23: [init_interrupts] makes gate [i] of the descriptor table a present 32-bit
    interrupt gate of the kernel's code segment that leads to the stub of vector [i], for
    each of the 256 vectors; sends the two controllers their initialisation, with the
    vectors from 0x20 and 0x28 on; and leaves a table of handlers in which only the
    keyboard, the timer, the spurious vector and the two handled faults differ from the
    handler of unexpected interrupts.  Nothing else changes. *)
Theorem interrupts_installed {L : Layout} s : length (isr_table (st_krn s)) = 256%nat ->
  exists m, init_interrupts s =
      Ret tt (up_mem (fun _ => m) (up_krn (set_isr_table first_handlers)
        (up_dev (set_dev_out (pic_setup ++ dev_out (st_dev s))) s))) /\
    (forall i, 0 <= i < 256 -> gate_at m i (isr_stub_addr i)) /\ agree (fun a => ~ in_idt a) (st_mem s) m /\
    forall v, 0 <= v < 256 -> first_handlers !! Z.to_nat v =
      Some (if (v =? VEC_KBD) || (v =? VEC_TIMER) then HDefault else if v =? VEC_MYSTERY then HMystery
            else if v =? VEC_INVALID_OPCODE then HIllop else if v =? VEC_GENERAL_PROTECTION then HGp else HUnexpected).
Proof.
  intros Ht. destruct (init_interrupts_ends s Ht) as ([] & s' & E & m & (Hag & ->) & Hg).
  exists m. split; [exact E|]. split; [exact Hg|]. split; [exact Hag|]. apply first_handlers_at.
Qed.

Lemma interrupts_installed_witness : exists m s', init_interrupts bare_machine = Ret tt s' /\ st_mem s' = m /\
  gate_at m 0x80 0x13400.
Proof.
  destruct (interrupts_installed bare_machine ltac:(reflexivity)) as (m & E & Hg & _).
  exists m. eexists. split; [exact E|]. split; [reflexivity|]. exact (Hg 0x80 ltac:(lia)).
Defined.
