(* ===== verification/BootRun.v ===== *)
(** A run from the start of the system: the kernel boots on a bare machine, the first
    process forks and then execs; both new stacks come from the page allocator. *)

From S2P Require Import Prelude Memory State Lib LibMem Frames Kmem KmemInv KmemSpec KmemInit KmemClaims Queues QueuesInv QueuesSpec QueuesPages QueuesClaims Stacks StacksSpec Procs ProcsSpec Drivers Syscalls SyscallsSpec CreateSpec ForkSpec Kernel SysLogic SysInv SysExec SysStep SysClaims CioTypes BootSpec BootMain BootClaims.

Open Scope kernel_scope.

#[local] Existing Instance example_layout.

(** ** The booted machine *)

(** [main] has come to its end on the bare machine; the nodes of the queues are in the
    first page of the memory above 1 MB. *)
Definition started : kstate := final Kernel.main bare_machine.
Definition nodes : Z -> Prop := node_page 0x100000.

Lemma nodes_range a : nodes a -> 0x100000 <= a < 0x101000.
Proof. unfold nodes, node_page, with_page, SZ_PAGE. intros [[]|Ha]. lia. Qed.

Lemma started_run : sys_run nodes started.
Proof.
  destruct (main_ends example_map (chars "init") bare_machine bare_machine_ok)
    as (r & s' & E & _ & a & l & Hff & F).
  assert (first_fit 1 (free_list_of example_map) = Some (0x100000, [(0x101000, 32479)])) as Ef by (vm_compute; reflexivity).
  rewrite Ef in Hff. injection Hff as <- _. unfold started. rewrite (final_Ret _ _ _ _ E). exact (fr_run _ _ _ _ _ F).
Qed.

(** The first process. *)
Definition init_entry (ctx : Z) : pcb_t :=
  Pcb ctx 0x103000 (pcb_addr 0) 0 0 1 STATE_RUNNING 0 Q_STD (p_filler pcb0).

(** ** A stack from a single block of pages *)

Lemma one_block_inv s a n :
  km_initialized (st_km s) <> 0 -> free_pages (st_km s) = a -> n_pages (st_km s) = n ->
  ld32 (st_mem s) a = n -> ld32 (st_mem s) (a + 4) = NULL ->
  KM_LOW_CUTOFF <= a -> 1 <= n -> a + SZ_PAGE * n <= KM_HIGH_CUTOFF -> km_inv [(a, n)] s.
Proof.
  intros H1 H2 H3 H4 H5 H6 H7 H8. split; [exact H1| | |].
  - split; [exact H2|]. split; [exact H4|exact H5].
  - unfold blk_ok, blk_end. cbn [fst snd]. repeat split; (exact I || lia).
  - rewrite H3. cbn. lia.
Qed.

Lemma one_block_given s a n :
  free_stacks (st_stk s) = NULL -> km_inv [(a, n)] s -> STACK_PAGES <= n ->
  stack_given s a (final stk_alloc s) (in_blocks [(a, n)]).
Proof.
  intros Hf Hkm Hn.
  assert (exists l', first_fit STACK_PAGES [(a, n)] = Some (a, l')) as (l' & Hff).
  { cbn. destruct (Z.ltb_spec n STACK_PAGES); [lia|]. eauto. }
  destruct (stk_alloc_fresh _ _ _ s Hf Hkm Hff) as (s1 & E & _).
  rewrite (final_Ret _ _ _ _ E). eapply given_pages; eassumption.
Qed.

Lemma one_block_low a n b : in_blocks [(a, n)] b -> a <= b < a + SZ_PAGE * n.
Proof.
  intros [Hb|Hb]%in_blocks_cons; [unfold blk_end in Hb; cbn [fst snd] in Hb; lia|].
  unfold in_blocks in Hb. now rewrite Exists_nil in Hb.
Qed.

Lemma one_block_apart a n : 0x101000 <= a -> nodes_apart nodes (in_blocks [(a, n)]).
Proof.
  intros Ha b Hb%one_block_low Hn%nodes_range. lia.
Qed.

(** What user code stores for a call lies in its stack. *)
Lemma stack_write m a v : 0x101000 <= a -> agree nodes m (st32 m a v).
Proof. intros Ha. apply agree_word. intros i Hi Hn%nodes_range. lia. Qed.

(** ** Fork *)

(** Where the stub pushes the context. *)
Definition esp : Z := 0x104000.

(** The first process asks for a child of priority 1. *)
Definition fork_frame (m : memory) : memory :=
  st32 (st32 (st32 m (esp + reg_off VECTOR) VEC_SYSCALL) (esp + reg_off EAX) SYS_fork) (esp + SZ_CONTEXT + 4) 1.

Definition forking : kstate := up_mem (fun _ => fork_frame (st_mem started)) started.
Definition has_forked : kstate := final (isr_save esp) forking.

Lemma forking_step : kstep nodes started forking.
Proof.
  unfold forking. generalize started as s. intros s. apply (step_user nodes s). unfold fork_frame.
  do 3 (etransitivity; [|apply stack_write; unfold esp, SZ_CONTEXT; cbn; lia]). reflexivity.
Qed.

(** The facts about [forking] that the conditions of the interrupt need. *)
Lemma forking_facts :
  let s := saved esp (init_entry 0x104fa4) forking in
  current (st_ps forking) = pcb_addr 0 /\ pcb_at forking (pcb_addr 0) = Some (init_entry 0x104fa4) /\
  isr_table (st_krn forking) !! Z.to_nat (ld32 (st_mem forking) (esp + reg_off VECTOR)) = Some HSys /\
  s32 (ld32 (st_mem forking) (esp + reg_off EAX)) = SYS_fork /\
  ptable (st_ps s) !! 0%nat = Some (init_entry esp) /\ ptable (st_ps s) !! 1%nat = Some pcb0 /\
  free_stacks (st_stk s) = NULL /\
  km_initialized (st_km s) = 1 /\ free_pages (st_km s) = 0x105000 /\ n_pages (st_km s) = 32475 /\
  ld32 (st_mem s) 0x105000 = 32475 /\ ld32 (st_mem s) (0x105000 + 4) = NULL /\
  walk_start (final stk_alloc s) (init_entry esp) 0x105000 = 0 /\ returns (isr_save esp forking) = true.
Proof. vm_compute. repeat split. Qed.

Lemma forking_saved :
  let s := saved esp (init_entry 0x104fa4) forking in
  pcb_at s (current (st_ps s)) = Some (init_entry esp) /\ next_pid (st_ps s) = 2 /\ system_time (st_clk s) = 0 /\
  arg_of s (init_entry esp) 1 = 1.
Proof. vm_compute. repeat split. Qed.

(** A child can be made: its entry is the second one, its stack the first free pages; the
    frame pointer is 0, so that the walk visits no frame. *)
Lemma forking_call : fork_call_ok nodes (saved esp (init_entry 0x104fa4) forking) (init_entry esp) 1 0x105000
  (final stk_alloc (saved esp (init_entry 0x104fa4) forking)) (in_blocks [(0x105000, 32475)]) [].
Proof.
  pose proof forking_facts as Hf. revert Hf. cbv zeta.
  intros (_ & _ & _ & _ & H0 & H1 & Hfr & Hi & Hp & Hn & W0 & W1 & Hbp & _).
  revert H0 H1 Hfr Hi Hp Hn W0 W1 Hbp. generalize (saved esp (init_entry 0x104fa4) forking) as s.
  intros s H0 H1 Hfr Hi Hp Hn W0 W1 Hbp.
  assert (km_inv [(0x105000, 32475)] s) as Hkm
    by (apply (one_block_inv s 0x105000 32475 ltac:(rewrite Hi; discriminate) Hp Hn W0 W1); unfold KM_LOW_CUTOFF, KM_HIGH_CUTOFF, SZ_PAGE; lia).
  split.
  - exists pcb0. split; [exact H1|]. split; [reflexivity|]. intros j y Hj Hy. assert (j = 0)%nat as -> by lia.
    rewrite H0 in Hy. injection Hy as <-. reflexivity.
  - apply one_block_given; [exact Hfr|exact Hkm|unfold STACK_PAGES; lia].
  - unfold stack_region, NULL, SZ_STACK, STACK_PAGES, SZ_PAGE. cbn. lia.
  - intros j Hj Ha%one_block_low. cbn in Ha. unfold esp, SZ_CONTEXT in Ha. lia.
  - intros j Hj Hr%nodes_range. change (child_context_at (init_entry esp) 0x105000) with 0x106000 in Hr. lia.
  - apply one_block_apart. lia.
  - split; [rewrite Hbp; apply walk_end|cbn; lia|intros b Hb%elem_of_nil; contradiction|].
    intros j Hj Hr%nodes_range. change (u32 (List.last [] NULL + 8)) with 8 in Hr. lia.
Qed.

Lemma forking_interrupt : interrupt_ok nodes esp (init_entry 0x104fa4) forking.
Proof.
  pose proof forking_facts as Hf. pose proof forking_call as Hcall. revert Hf Hcall. cbv zeta. generalize forking as s0.
  intros s0 (Hc & Hx & Hv & He & _) Hcall.
  split; [now rewrite Hc|]. split; [split; [discriminate|]|].
  { intros i Hi' Hr%nodes_range. unfold esp, SZ_CONTEXT in *. lia. }
  split; [exists HSys; split; [exact Hv|discriminate]|]. intros _. rewrite He. exact (ok_fork _ _ _ _ _ _ _ _ Hcall).
Qed.

Lemma fork_step : kstep nodes forking has_forked.
Proof.
  assert (returns (isr_save esp forking) = true) as Hr by apply forking_facts.
  pose proof forking_interrupt as Hi. unfold has_forked. revert Hr Hi. generalize forking as s. intros s Hr Hi.
  unfold final. destruct (isr_save esp s) as [c s'| | |] eqn:E; try discriminate Hr.
  exact (step_interrupt nodes s esp _ c s' Hi E).
Qed.

(** ** Exec *)

(** It then becomes the program at 0x10400, with the argument string of init. *)
Definition exec_frame (m : memory) : memory :=
  st32 (st32 (st32 (st32 m (esp + reg_off VECTOR) VEC_SYSCALL) (esp + reg_off EAX) SYS_exec)
    (esp + SZ_CONTEXT + 4) 0x10400) (esp + SZ_CONTEXT + 8) 0x20000.

Definition execing : kstate := up_mem (fun _ => exec_frame (st_mem has_forked)) has_forked.
Definition has_execed : kstate := final (isr_save esp) execing.

Lemma execing_step : kstep nodes has_forked execing.
Proof.
  unfold execing. generalize has_forked as s. intros s. apply (step_user nodes s). unfold exec_frame.
  do 4 (etransitivity; [|apply stack_write; unfold esp, SZ_CONTEXT; cbn; lia]). reflexivity.
Qed.

Lemma execing_facts :
  let s := saved esp (init_entry esp) execing in
  current (st_ps execing) = pcb_addr 0 /\ pcb_at execing (pcb_addr 0) = Some (init_entry esp) /\
  isr_table (st_krn execing) !! Z.to_nat (ld32 (st_mem execing) (esp + reg_off VECTOR)) = Some HSys /\
  s32 (ld32 (st_mem execing) (esp + reg_off EAX)) = SYS_exec /\
  current (st_ps s) = pcb_addr 0 /\ pcb_at s (pcb_addr 0) = Some (init_entry esp) /\
  free_stacks (st_stk s) = NULL /\
  km_initialized (st_km s) = 1 /\ free_pages (st_km s) = 0x107000 /\ n_pages (st_km s) = 32473 /\
  ld32 (st_mem s) 0x107000 = 32473 /\ ld32 (st_mem s) (0x107000 + 4) = NULL /\
  arg_of s (init_entry esp) 2 = 0x20000 /\
  (ld8 (st_mem s) 0x20000 = 105 /\ ld8 (st_mem s) 0x20001 = 110 /\ ld8 (st_mem s) 0x20002 = 105 /\
   ld8 (st_mem s) 0x20003 = 116 /\ ld8 (st_mem s) 0x20004 = 0) /\
  user_locs (st_krn s) = 0x10000 /\ returns (isr_save esp execing) = true.
Proof. vm_compute. repeat split. Qed.

Lemma execing_interrupt : interrupt_ok nodes esp (init_entry esp) execing.
Proof.
  pose proof execing_facts as Hf. revert Hf. cbv zeta. generalize execing as s0. intros s0.
  intros (Hc & Hx & Hv & He & Hc1 & Hx1 & Hfr & Hi & Hp & Hn & W0 & W1 & Ha & (B0 & B1 & B2 & B3 & B4) & Hu & _).
  split; [now rewrite Hc|]. split; [split; [discriminate|]|].
  { intros i Hi' Hr%nodes_range. unfold esp, SZ_CONTEXT in *. lia. }
  split; [exists HSys; split; [exact Hv|discriminate]|]. intros _. rewrite He.
  change (set_p_context esp (init_entry esp)) with (init_entry esp).
  revert Hc1 Hx1 Hfr Hi Hp Hn W0 W1 Ha B0 B1 B2 B3 B4 Hu. generalize (saved esp (init_entry esp) s0) as s.
  intros s Hc1 Hx1 Hfr Hi Hp Hn W0 W1 Ha B0 B1 B2 B3 B4 Hu.
  assert (km_inv [(0x107000, 32473)] s) as Hkm
    by (apply (one_block_inv s 0x107000 32473 ltac:(rewrite Hi; discriminate) Hp Hn W0 W1); unfold KM_LOW_CUTOFF, KM_HIGH_CUTOFF, SZ_PAGE; lia).
  apply (ok_exec _ _ _ (chars "init") 0x107000 (final stk_alloc s) (in_blocks [(0x107000, 32473)])).
  - split; rewrite ?Hc1, ?Ha, ?Hu.
    + exact Hx1.
    + apply one_block_given; [exact Hfr|exact Hkm|unfold STACK_PAGES; lia].
    + change (chars "init") with [105; 110; 105; 116]. cbn [cstring]. repeat split; first [assumption|discriminate].
    + unfold args_fit, SZ_STACK, STACK_PAGES, SZ_PAGE. cbn. lia.
    + cbn. lia.
    + intros i Hj Hb%one_block_low. cbn in Hj. lia.
    + lia.
    + intros i Hj Hb%one_block_low. lia.
    + discriminate.
  - apply one_block_apart. lia.
Qed.

Lemma exec_step : kstep nodes execing has_execed.
Proof.
  assert (returns (isr_save esp execing) = true) as Hr by apply execing_facts.
  pose proof execing_interrupt as Hi. unfold has_execed. revert Hr Hi. generalize execing as s. intros s Hr Hi.
  unfold final. destruct (isr_save esp s) as [c s'| | |] eqn:E; try discriminate Hr.
  exact (step_interrupt nodes s esp _ c s' Hi E).
Qed.

(** ** The run *)

Lemma run_steps : rtc (kstep nodes) started has_execed.
Proof.
  eapply rtc_l; [exact forking_step|]. eapply rtc_l; [exact fork_step|].
  eapply rtc_l; [exact execing_step|]. apply rtc_once, exec_step.
Qed.

(** The child is READY; the first process runs on its second stack, which starts at
    0x107000. *)
Lemma run_end :
  pcb_at has_execed (pcb_addr 1) = Some (Pcb 0x106000 0x105000 (pcb_addr 0) 0 0 2 STATE_READY 1 0 (p_filler pcb0)) /\
  pcb_at has_execed (pcb_addr 0) = Some (init_entry 0x108fa4).
Proof. vm_compute. split; reflexivity. Qed.

Lemma kernel_invariant_witness : sys_run nodes has_execed /\
  pcb_at has_execed (pcb_addr 1) = Some (Pcb 0x106000 0x105000 (pcb_addr 0) 0 0 2 STATE_READY 1 0 (p_filler pcb0)) /\
  pcb_at has_execed (pcb_addr 0) = Some (init_entry 0x108fa4).
Proof.
  split; [exact (kernel_invariant nodes started has_execed started_run run_steps)|exact run_end].
Defined.

(** No process is lost in this run either. *)
Lemma processes_accounted_witness : exists n V, queues_hold nodes n V has_execed /\
  exists l, V !! 1%nat = Some (NULL, l) /\ pcb_addr 1 ∈ l.
Proof.
  destruct (processes_accounted nodes started has_execed started_run run_steps) as (n & V & Hq & _ & Hall).
  destruct run_end as [Hx _]. destruct (Hall _ _ Hx ltac:(discriminate)) as [Hp _].
  exists n, V. split; [exact Hq|].
  destruct Hp as [(_ & E & _)|[(_ & l & E & Hin)|[(E & _)|[(E & _)|(E & _)]]]]; [discriminate E| |discriminate E..].
  exists l. split; [exact E|exact Hin].
Defined.
