(* ===== verification/Host.v ===== *)
(** The tools that run on the development host: the part of the C library that they use
    (streams on files, error messages, numbers), as operations on the state of a
    process. *)

From S2P Require Import Prelude.

Open Scope kernel_scope.

(** Path names, the contents of files and command-line arguments are lists of bytes. *)
Notation bytes := (list Z).

(** What a program writes to the standard streams: the format with its arguments, or the
    call of [perror]. *)
Inductive harg := HS (s : bytes) | HD (d : Z).
Inductive message :=
| Fprintf (fmt : bytes) (args : list harg)
| Perror (s : bytes).

(** An open stream: a file and the position in it. *)
Record stream := Stream { f_path : bytes; f_pos : Z }.

(** The state of a process: the files; the streams in the order in which they were opened
    (a [FILE *] is an index); how many bytes the device still takes; the paths that cannot
    be opened; the messages, the latest first; the global variables of the program. *)
Record process (G : Type) := Process {
  h_files : gmap bytes bytes;
  h_streams : list stream;
  h_room : Z;
  h_denied : list bytes;
  h_stderr : list message;
  h_stdout : list message;
  h_vars : G
}.
Arguments Process {G} _ _ _ _ _ _ _.
Arguments h_files {G} _.
Arguments h_streams {G} _.
Arguments h_room {G} _.
Arguments h_denied {G} _.
Arguments h_stderr {G} _.
Arguments h_stdout {G} _.
Arguments h_vars {G} _.

Section Host.
Context {G : Type}.

Notation H := (M (process G)).

Definition set_files f (p : process G) : process G := Process (f (h_files p)) (h_streams p) (h_room p) (h_denied p) (h_stderr p) (h_stdout p) (h_vars p).
Definition set_streams f (p : process G) := Process (h_files p) (f (h_streams p)) (h_room p) (h_denied p) (h_stderr p) (h_stdout p) (h_vars p).
Definition set_room v (p : process G) := Process (h_files p) (h_streams p) v (h_denied p) (h_stderr p) (h_stdout p) (h_vars p).
Definition set_stderr f (p : process G) := Process (h_files p) (h_streams p) (h_room p) (h_denied p) (f (h_stderr p)) (h_stdout p) (h_vars p).
Definition set_stdout f (p : process G) := Process (h_files p) (h_streams p) (h_room p) (h_denied p) (h_stderr p) (f (h_stdout p)) (h_vars p).
Definition set_vars (f : G -> G) (p : process G) : process G := Process (h_files p) (h_streams p) (h_room p) (h_denied p) (h_stderr p) (h_stdout p) (f (h_vars p)).

Definition var {A} (f : G -> A) : H A := gets (fun p => f (h_vars p)).
Definition var_set (f : G -> G) : H unit := modify (set_vars f).

(** [exit]: the process ends. *)
Definition exit {A} (status : Z) : H A :=
  panics (if status =? 0 then "exit 0" else if status =? 1 then "exit 1" else "exit 2").

Definition EXIT_SUCCESS : Z := 0.
Definition EXIT_FAILURE : Z := 1.

Definition fprintf_stderr (fmt : bytes) (args : list harg) : H unit := modify (set_stderr (cons (Fprintf fmt args))).
Definition perror (s : bytes) : H unit := modify (set_stderr (cons (Perror s))).
Definition printf (fmt : bytes) (args : list harg) : H unit := modify (set_stdout (cons (Fprintf fmt args))).

Definition puts (s : bytes) : H unit := printf (chars "%s" ++ [10])%list [HS s].
Definition fputs_stdout (s : bytes) : H unit := printf (chars "%s") [HS s].
Definition putchar (c : Z) : H unit := printf (chars "%c") [HD c].

(** ** Streams *)

Inductive mode := RB | WB.

(** Opening for reading needs the file; opening for writing makes it empty. *)
Definition fopen (path : bytes) (m : mode) : H (option Z) := fun p =>
  if decide (path ∈ h_denied p) then Ret None p
  else match m, h_files p !! path with
  | RB, None => Ret None p
  | RB, Some _ => Ret (Some (Z.of_nat (length (h_streams p)))) (set_streams (fun l => l ++ [Stream path 0]) p)
  | WB, _ => Ret (Some (Z.of_nat (length (h_streams p))))
      (set_files <[path := []]> (set_streams (fun l => l ++ [Stream path 0]) p))
  end.

(** The stream and the contents of its file. *)
Definition get_stream (fd : Z) : H (stream * bytes) := fun p =>
  match h_streams p !! Z.to_nat fd with
  | Some f => Ret (f, default [] (h_files p !! f_path f)) p
  | None => Undef "no stream" p
  end.

Definition set_pos (fd pos : Z) : H unit :=
  modify (set_streams (alter (fun f => Stream (f_path f) pos) (Z.to_nat fd))).

(** The next [n] bytes, or as many as there are. *)
Definition fread (fd n : Z) : H bytes :=
  fc <- get_stream fd ;;
  let '(f, c) := fc in
  let b := take (Z.to_nat n) (drop (Z.to_nat (f_pos f)) c) in
  set_pos fd (f_pos f + Z.of_nat (length b)) ;;
  ret b.

(** [b] in place of what is at [p], with zeros between the end of the file and [p]. *)
Definition overwrite (c : bytes) (p : nat) (b : bytes) : bytes :=
  take p (c ++ replicate (p - length c) 0) ++ b ++ drop (p + length b) c.

(** The bytes written, as many as the device takes; their number. *)
Definition fwrite (fd : Z) (b : bytes) : H Z :=
  fc <- get_stream fd ;;
  let '(f, c) := fc in
  room <- gets h_room ;;
  let b := take (Z.to_nat room) b in
  let n := Z.of_nat (length b) in
  modify (set_files <[f_path f := overwrite c (Z.to_nat (f_pos f)) b]>) ;;
  modify (set_room (room - n)) ;;
  set_pos fd (f_pos f + n) ;;
  ret n.

(** To a position before the start of the file there is no way. *)
Definition fseek_set (fd pos : Z) : H Z :=
  if pos <? 0 then ret (-1) else set_pos fd pos ;; ret 0.

Definition fclose (fd : Z) : H unit := ret tt.

Definition unlink (path : bytes) : H unit := modify (set_files (delete path)).
End Host.

(** ** Numbers *)

Definition isspace (c : Z) : bool := (c =? 32) || ((9 <=? c) && (c <=? 13)).

Definition digit_value (c : Z) : Z :=
  if (48 <=? c) && (c <=? 57) then c - 48
  else if (97 <=? c) && (c <=? 122) then c - 97 + 10
  else if (65 <=? c) && (c <=? 90) then c - 65 + 10
  else 99.

Fixpoint skip_spaces (s : bytes) : bytes :=
  match s with c :: s' => if isspace c then skip_spaces s' else s | [] => [] end.

(** The digits at the start of [s], after the value [v]. *)
Fixpoint read_digits (base v : Z) (s : bytes) : Z * bytes :=
  match s with
  | c :: s' => if digit_value c <? base then read_digits base (v * base + digit_value c) s' else (v, s)
  | [] => (v, [])
  end.

(** Is there a digit of the base after a prefix 0x? *)
Definition hex_prefix (s : bytes) : option bytes :=
  match s with
  | z :: x :: c :: s' =>
      if (z =? 48) && ((x =? 120) || (x =? 88)) && (digit_value c <? 16) then Some (c :: s') else None
  | _ => None
  end.

(** The sign, and what is behind it. *)
Definition read_sign (s : bytes) : bool * bytes :=
  match s with
  | c :: s' => if c =? 45 then (true, s') else if c =? 43 then (false, s') else (false, s)
  | [] => (false, s)
  end.

(** The base, and what is behind a prefix of it. *)
Definition read_base (base : Z) (s : bytes) : Z * bytes :=
  if (base =? 0) || (base =? 16) then
    match hex_prefix s with
    | Some s' => (16, s')
    | None => (if base =? 0 then (if hd 0 s =? 48 then 8 else 10) else base, s)
    end
  else (base, s).

Definition LONG_MAX : Z := 2 ^ 63 - 1.
Definition LONG_MIN : Z := - 2 ^ 63.

(** [strtol]: the value, and what is left of the string: all of it when there is no
    number. *)
Definition strtol (nptr : bytes) (base : Z) : Z * bytes :=
  let '(neg, s) := read_sign (skip_spaces nptr) in
  let '(base, s) := read_base base s in
  match s with
  | c :: _ =>
      if digit_value c <? base then
        let '(v, rest) := read_digits base 0 s in
        (Z.max LONG_MIN (Z.min LONG_MAX (if neg then - v else v)), rest)
      else (0, nptr)
  | [] => (0, nptr)
  end.

(** [strchr]: the rest of the string from the character on. *)
Fixpoint strchr (s : bytes) (c : Z) : option bytes :=
  match s with
  | [] => None
  | d :: s' => if d =? c then Some s else strchr s' c
  end.

(** A string in memory ends at its first NUL. *)
Fixpoint to_nul (s : bytes) : bytes :=
  match s with c :: s' => if c =? 0 then [] else c :: to_nul s' | [] => [] end.

(** [strrchr] on the path of a program, and the name behind it. *)
Fixpoint strrchr (s : bytes) (c : Z) : option bytes :=
  match s with
  | [] => None
  | d :: s' => match strrchr s' c with Some r => Some r | None => if d =? c then Some s else None end
  end.

Definition s16 (x : Z) : Z := let y := x mod 2 ^ 16 in if y <? 2 ^ 15 then y else y - 2 ^ 16.

(** Halfwords and words in memory order. *)
Definition le16 (v : Z) : bytes := [v mod 2 ^ 8; (v / 2 ^ 8) mod 2 ^ 8].
Definition le32 (v : Z) : bytes := le16 v ++ le16 (v / 2 ^ 16).

(** The word at a place of an array of bytes. *)
Definition word_at (b : bytes) (i : nat) : Z :=
  nth i b 0 + 2 ^ 8 * nth (i + 1) b 0 + 2 ^ 16 * nth (i + 2) b 0 + 2 ^ 24 * nth (i + 3) b 0.

Fixpoint halfwords (b : bytes) : list Z :=
  match b with x :: y :: b' => (x + 2 ^ 8 * y) :: halfwords b' | _ => [] end.
