(* ===== verification/HostSpec.v ===== *)
(** The operations of Host.v on streams, and the two forms in which the tools read their
    variables. *)

From S2P Require Import Prelude Host.

Open Scope kernel_scope.

(** ** Operations on streams *)

Section Streams.
Context {G : Type}.
Implicit Types (p : process G).

(** The stream [fd] is at [pos] in the file [path], whose contents are [c]. *)
Definition stream_at p (fd : nat) (path : bytes) (pos : nat) (c : bytes) : Prop :=
  h_streams p !! fd = Some (Stream path (Z.of_nat pos)) /\ h_files p !! path = Some c.

Definition moved (fd pos : nat) p : process G :=
  set_streams (alter (fun f => Stream (f_path f) (Z.of_nat pos)) fd) p.

Lemma fread_eq p fd path pos c n : stream_at p fd path pos c ->
  let b := take n (drop pos c) in
  fread (Z.of_nat fd) (Z.of_nat n) p = Ret b (moved fd (pos + length b) p).
Proof.
  intros [E1 E2]. unfold fread, get_stream. cbv zeta. unfold bind at 1. rewrite Nat2Z.id, E1. cbn [f_path f_pos].
  rewrite E2. cbn [default from_option]. rewrite !Nat2Z.id. unfold set_pos, moved. rewrite Nat2Z.id, <- Nat2Z.inj_add. reflexivity.
Qed.

Definition written (fd : nat) (path : bytes) (pos : nat) (c b : bytes) p : process G :=
  moved fd (pos + length b) (set_room (h_room p - Z.of_nat (length b)) (set_files <[path := overwrite c pos b]> p)).

Lemma fwrite_eq p fd path pos c b : stream_at p fd path pos c -> Z.of_nat (length b) <= h_room p ->
  fwrite (Z.of_nat fd) b p = Ret (Z.of_nat (length b)) (written fd path pos c b p).
Proof.
  intros [E1 E2] Hr. unfold fwrite, get_stream. unfold bind at 1. rewrite Nat2Z.id, E1. cbn [f_path f_pos].
  rewrite E2. cbn [default from_option]. unfold bind at 1, gets. cbv zeta.
  rewrite take_ge by lia. rewrite Nat2Z.id. unfold set_pos, written, moved. rewrite Nat2Z.id, <- Nat2Z.inj_add. reflexivity.
Qed.

Lemma fseek_eq p fd pos : fseek_set (Z.of_nat fd) (Z.of_nat pos) p = Ret 0 (moved fd pos p).
Proof.
  unfold fseek_set. destruct (Z.ltb_spec (Z.of_nat pos) 0); [lia|]. unfold set_pos, moved. rewrite Nat2Z.id. reflexivity.
Qed.

Lemma moved_at p fd path pos c pos' : stream_at p fd path pos c -> stream_at (moved fd pos' p) fd path pos' c.
Proof. intros [E1 E2]. split; [|exact E2]. cbn. rewrite list_lookup_alter_eq, E1. reflexivity. Qed.

Lemma moved_other p fd fd' path pos c pos' : fd <> fd' -> stream_at p fd path pos c -> stream_at (moved fd' pos' p) fd path pos c.
Proof. intros Hne [E1 E2]. split; [|exact E2]. cbn. now rewrite list_lookup_alter_ne. Qed.

Lemma written_at p fd path pos c b : stream_at p fd path pos c ->
  stream_at (written fd path pos c b p) fd path (pos + length b) (overwrite c pos b).
Proof. intros [E1 E2]. split; cbn; [now rewrite list_lookup_alter_eq, E1|now rewrite lookup_insert_eq]. Qed.

Lemma written_other p fd fd' path path' pos pos' c c' b : fd <> fd' -> path <> path' -> stream_at p fd path pos c ->
  stream_at (written fd' path' pos' c' b p) fd path pos c.
Proof. intros Hne Hp [E1 E2]. split; cbn; [now rewrite list_lookup_alter_ne|now rewrite lookup_insert_ne by congruence]. Qed.

Lemma fopen_rb p path c : path ∉ h_denied p -> h_files p !! path = Some c ->
  exists p', fopen path RB p = Ret (Some (Z.of_nat (length (h_streams p)))) p' /\
    p' = set_streams (fun l => l ++ [Stream path 0]) p /\ stream_at p' (length (h_streams p)) path 0 c.
Proof.
  intros Hd E. eexists. unfold fopen. destruct (decide _) as [|_]; [done|]. rewrite E. split; [reflexivity|]. split; [reflexivity|].
  split; [|exact E]. cbn. now rewrite lookup_app_r, Nat.sub_diag by lia.
Qed.
End Streams.

(** Writing at the end appends. *)
Lemma overwrite_end c b : overwrite c (length c) b = c ++ b.
Proof.
  unfold overwrite. rewrite Nat.sub_diag, app_nil_r, take_ge by lia. rewrite drop_ge by lia. now rewrite app_nil_r.
Qed.

Lemma length_overwrite c p b : (p + length b <= length c)%nat -> length (overwrite c p b) = length c.
Proof.
  intros Hp. unfold overwrite. replace (p - length c)%nat with 0%nat by lia. rewrite app_nil_r.
  rewrite !length_app, length_take, length_drop. lia.
Qed.

Lemma length_overwrite_end c b : length (overwrite c (length c) b) = (length c + length b)%nat.
Proof. now rewrite overwrite_end, length_app. Qed.

Lemma run_gets' {S A B} (f : S -> A) (k : A -> M S B) s : bind (gets f) k s = k (f s) s.
Proof. reflexivity. Qed.

Lemma run_bind_gets {S A B} (f : S -> A) (h : A -> B) {C} (k : B -> M S C) s :
  bind (bind (gets f) (fun a => ret (h a))) k s = k (h (f s)) s.
Proof. reflexivity. Qed.

Lemma run_bind_gets2 {S A B C} (f : S -> A) (g : S -> B) (h : A -> B -> C) {D} (k : C -> M S D) s :
  bind (bind (gets f) (fun a => bind (gets g) (fun b => ret (h a b)))) k s = k (h (f s) (g s)) s.
Proof. reflexivity. Qed.
