(* ===== verification/BuildImage.v ===== *)
(** util/BuildImage.c: the tool that joins the bootstrap and the programs to a disk image.
    [getopt] is the POSIX function: a parameter that gives what its calls return, up to
    the end of the options, and the index of the first argument behind them.  Shifts of
    negative integers and conversions to [short] are those of GCC. *)

From S2P Require Import Prelude Host.

Open Scope kernel_scope.

Definition DRIVE_FLOPPY : Z := 0x00.
Definition DRIVE_USB : Z := 0x80.
Definition SECT_SIZE : Z := 512.
Definition N_INFO : Z := SECT_SIZE / 2.

(** The global variables. *)
Record image_vars := ImageVars {
  progname : bytes;
  bootstrap_filename : option bytes;
  output_filename : option bytes;
  out : Z;
  drive : Z;
  info : list Z;
  n_info : Z
}.

Definition set_progname v r := ImageVars v (bootstrap_filename r) (output_filename r) (out r) (drive r) (info r) (n_info r).
Definition set_bootstrap v r := ImageVars (progname r) v (output_filename r) (out r) (drive r) (info r) (n_info r).
Definition set_output v r := ImageVars (progname r) (bootstrap_filename r) v (out r) (drive r) (info r) (n_info r).
Definition set_out v r := ImageVars (progname r) (bootstrap_filename r) (output_filename r) v (drive r) (info r) (n_info r).
Definition set_drive v r := ImageVars (progname r) (bootstrap_filename r) (output_filename r) (out r) v (info r) (n_info r).
Definition set_info v n r := ImageVars (progname r) (bootstrap_filename r) (output_filename r) (out r) (drive r) v n.

Definition image_vars0 : image_vars :=
  ImageVars [] None None 0 DRIVE_USB (replicate (Z.to_nat N_INFO) 0) N_INFO.

Notation T := (M (process image_vars)).

(** A call of [getopt]: its result, [optarg], [optopt]. *)
Record option_t := Option { o_char : Z; o_arg : bytes; o_opt : Z }.

Definition quit {A} (msg : option bytes) (call_perror : bool) : T A :=
  (match msg with
   | Some m =>
       name <- var progname ;;
       fprintf_stderr (chars "%s: ") [HS name] ;;
       if call_perror then perror m else fprintf_stderr (chars "%s" ++ [10])%list [HS m]
   | None => ret tt
   end) ;;
  o <- var output_filename ;;
  (match o with Some f => unlink f | None => ret tt end) ;;
  exit EXIT_FAILURE.

Definition usage_error_msg : bytes :=
  [10] ++ chars "Usage: %s [ -d drive ] -b bootfile -o outfile { progfile loadpt } ..." ++ [10; 10] ++
  [9] ++ chars "'drive' is either 'floppy' or 'usb' (default 'usb')" ++ [10; 10] ++
  [9] ++ chars "There must be at least one program file and load point." ++ [10; 10] ++
  [9] ++ chars "Load points may be specified either as 32-bit quantities in hex," ++ [10] ++
  [9] ++ chars "decimal or octal (e.g. 0x10c00, 68608, 0206000 are all equivalent)," ++ [10] ++
  [9] ++ chars "or as an explicit segment:offset pair whose digits are always" ++ [10] ++
  [9] ++ chars "interpreted as hexadecimal values (e.g. 10c0:0000, 1000:0c00 are" ++ [10] ++
  [9] ++ chars "both equivalent to the previous examples)." ++ [10; 10].

Definition usage_error {A} : T A :=
  name <- var progname ;;
  fprintf_stderr usage_error_msg [HS name] ;;
  quit None false.

(** The buffer after a read: the bytes read, then zeros. *)
Definition pad_sector (b : bytes) : bytes := b ++ replicate (Z.to_nat SECT_SIZE - length b) 0.

Definition copy_file (in_ : Z) : T Z :=
  loop (fun n_sectors =>
    buf <- fread in_ SECT_SIZE ;;
    if 0 <? Z.of_nat (length buf) then
      o <- var out ;;
      n <- fwrite o (pad_sector buf) ;;
      when (negb (n =? SECT_SIZE)) (quit (Some (chars "Write failed or was wrong size")) false) ;;
      ret (inl (n_sectors + 1))
    else ret (inr n_sectors)) 0.

(** [info[ --n_info ] = v] *)
Definition push_info (v : Z) : T unit :=
  n <- var n_info ;;
  l <- var info ;;
  if in_bounds l (n - 1) then var_set (set_info (aset l (n - 1) (u16 v)) (n - 1))
  else undef "info underrun".

(** The load address: segment, offset, address, and whether it is valid. *)
Definition decode_address (addr : bytes) : T (Z * Z * Z * bool) :=
  match strchr addr 58 with
  | Some cp =>
      if (Z.of_nat (length addr) =? 9) && (Z.of_nat (length addr - length cp) =? 4) then
        let '(a1, ep1) := strtol addr 16 in
        let '(a2, ep2) := strtol (drop 5 addr) 16 in
        let segment := s16 a1 in
        let offset := s16 a2 in
        (* [*ep1] is compared with the end of the string *)
        ret (segment, offset, Z.shiftl segment 4 + offset,
             match ep1, ep2 with [], [] => true | _, _ => false end)
      else
        fprintf_stderr (chars "Bad address format - '%s'" ++ [10])%list [HS addr] ;;
        quit None false
  | None =>
      let '(address, ep) := strtol addr 0 in
      ret (s16 (Z.shiftr address 4), s16 (Z.land address 0xf), address,
           match ep with [] => true | _ => false end && (address <=? 0x0009ffff))
  end.

Definition process_file (name addr : bytes) : T unit :=
  f <- fopen name RB ;;
  match f with
  | None => quit (Some name) true
  | Some in_ =>
      n_sectors <- copy_file in_ ;;
      fclose in_ ;;
      d <- decode_address addr ;;
      let '(segment, offset, address, valid_address) := d in
      pn <- var progname ;;
      when (negb valid_address)
        (fprintf_stderr (chars "%s: Invalid address: %s" ++ [10])%list [HS pn; HS addr] ;;
         quit None false) ;;
      when (0x0009ffff <? address + s32 (n_sectors * SECT_SIZE))
        (fprintf_stderr (chars "Program %s too large to start at 0x%08x" ++ [10])%list [HS name; HD (u32 address)] ;;
         quit None false) ;;
      n <- var n_info ;;
      when (n <? 3) (quit (Some (chars "Too many programs!")) false) ;;
      fprintf_stderr (chars "%s: %d sectors, loaded at 0x%x" ++ [10])%list [HS name; HD n_sectors; HD (u32 address)] ;;
      push_info n_sectors ;;
      push_info segment ;;
      push_info offset
  end.

Section Main.
Context (getopt : list bytes -> list option_t * Z).

(** The options, in the order in which [getopt] finds them; then [optind]. *)
Fixpoint process_options (l : list option_t) : T unit :=
  match l with
  | [] => ret tt
  | o :: l =>
      let c := o_char o in
      (if c =? 58 then
         fprintf_stderr (chars "missing operand after -%c" ++ [10])%list [HD (o_opt o)] ;;
         usage_error
       else if c =? 63 then usage_error
       else if c =? 98 then var_set (set_bootstrap (Some (o_arg o)))
       else if c =? 100 then
         let d := hd 0 (o_arg o) in
         if d =? 102 then var_set (set_drive DRIVE_FLOPPY)
         else if d =? 117 then var_set (set_drive DRIVE_USB)
         else usage_error
       else if c =? 111 then var_set (set_output (Some (o_arg o)))
       else usage_error) ;;
      process_options l
  end.

Definition process_args (av : list bytes) : T Z :=
  let '(opts, optind) := getopt av in
  process_options opts ;;
  pn <- var progname ;;
  b <- var bootstrap_filename ;;
  (match b with
   | None => fprintf_stderr (chars "%s: no bootstrap file specified" ++ [10])%list [HS pn] ;; exit 2
   | Some _ => ret tt
   end) ;;
  o <- var output_filename ;;
  (match o with
   | None => fprintf_stderr (chars "%s: no disk image file specified" ++ [10])%list [HS pn] ;; exit 2
   | Some _ => ret tt
   end) ;;
  let remain := Z.of_nat (length av) - optind in
  when ((remain <? 2) || negb (Z.land remain 1 =? 0)) usage_error ;;
  ret optind.

(** The programs with their addresses; an odd argument is an error. *)
Fixpoint process_files (av : list bytes) : T unit :=
  match av with
  | name :: addr :: av' => process_file name addr ;; process_files av'
  | [_] => usage_error
  | [] => ret tt
  end.

Definition open_or_quit (path : bytes) (m : mode) : T Z :=
  f <- fopen path m ;;
  match f with Some fd => ret fd | None => quit (Some path) true end.

(** The words that have been stored, in memory order. *)
Definition info_words : T (list Z) :=
  l <- var info ;; n <- var n_info ;; ret (drop (Z.to_nat n) l).

(** From the place of the information on: nothing may be there yet. *)
Definition patch_image (bootimage_size : Z) : T unit :=
  n <- var n_info ;;
  let n_words := N_INFO - n in
  let n_bytes := n_words * 2 in
  o <- var out ;;
  fseek_set o (bootimage_size - n_bytes) ;;
  existing_data <- fread o n_bytes ;;
  when (negb (Z.of_nat (length existing_data) / 2 =? n_words))
    (quit (Some (chars "Read from boot image failed or was too short")) false) ;;
  when (existsb (fun w => negb (w =? 0)) (halfwords existing_data))
    (quit (Some (chars "Too many programs to load!")) false) ;;
  fseek_set o (bootimage_size - n_bytes) ;;
  w <- info_words ;;
  k <- fwrite o (flat_map le16 w) ;;
  when (negb (k / 2 =? n_words))
    (quit (Some (chars "Write to boot image failed or was too short")) false) ;;
  fseek_set o (SECT_SIZE - 4) ;;
  d <- var drive ;;
  fwrite o (le16 d) ;;
  fclose o.

Definition main (av : list bytes) : T Z :=
  let av0 := hd [] av in
  var_set (set_progname (match strrchr av0 47 with Some p => tl p | None => av0 end)) ;;
  optind <- process_args av ;;
  on <- var output_filename ;;
  o <- open_or_quit (default [] on) WB ;;
  var_set (set_out o) ;;
  bn <- var bootstrap_filename ;;
  bootimage <- open_or_quit (default [] bn) RB ;;
  n <- copy_file bootimage ;;
  let bootimage_size := n * SECT_SIZE in
  fclose bootimage ;;
  process_files (drop (Z.to_nat optind) av) ;;
  patch_image bootimage_size ;;
  ret EXIT_SUCCESS.
End Main.

(** * An example *)

Definition example_getopt (av : list bytes) : list option_t * Z :=
  ([Option 100 (chars "usb") 0; Option 111 (chars "disk.img") 0; Option 98 (chars "boot.img") 0], 7).

Definition example_av : list bytes :=
  [chars "util/BuildImage"; chars "-d"; chars "usb"; chars "-o"; chars "disk.img"; chars "-b"; chars "boot.img";
   chars "kernel.img"; chars "0x10000"; chars "user.img"; chars "0x30000"].

Definition example_host : process image_vars :=
  Process {[ chars "boot.img" := replicate 700 1; chars "kernel.img" := replicate 1000 2; chars "user.img" := replicate 20 3 ]}
    [] 1000000 [] [] [] image_vars0.
