(* ===== verification/BuildSpec.v ===== *)
(** util/BuildImage.c: the image that a successful run of the tool leaves. *)

From S2P Require Import Prelude Host HostSpec BuildImage.

Open Scope kernel_scope.

(** ** Whole sectors *)

Definition n_sectors (c : bytes) : nat := ((length c + 511) / 512)%nat.

Lemma n_sectors_spec c : (length c <= 512 * n_sectors c)%nat /\ (512 * n_sectors c < length c + 512)%nat.
Proof.
  unfold n_sectors. pose proof (Nat.div_mod (length c + 511) 512 ltac:(lia)).
  pose proof (Nat.mod_upper_bound (length c + 511) 512 ltac:(lia)). lia.
Qed.

(** A file, filled up to whole sectors. *)
Definition pad_file (c : bytes) : bytes := c ++ replicate (512 * n_sectors c - length c) 0.

Lemma length_pad_file c : length (pad_file c) = (512 * n_sectors c)%nat.
Proof. unfold pad_file. rewrite length_app, length_replicate. pose proof (n_sectors_spec c). lia. Qed.

(** The [k]-th sector: what is read, filled up. *)
Lemma pad_sector_at c k : (k < n_sectors c)%nat ->
  pad_sector (take 512 (drop (512 * k) c)) = take 512 (drop (512 * k) (pad_file c)).
Proof.
  intros Hk. pose proof (n_sectors_spec c) as [H1 H2]. unfold pad_sector, pad_file.
  change (Z.to_nat SECT_SIZE) with 512%nat. rewrite drop_app_le by lia. rewrite take_app. f_equal.
  rewrite length_take, length_drop, take_replicate. f_equal. lia.
Qed.

Lemma take_sectors (c : bytes) k : take (512 * k) c ++ take 512 (drop (512 * k) c) = take (512 * S k) c.
Proof. replace (512 * S k)%nat with (512 * k + 512)%nat by lia. now rewrite take_take_drop. Qed.

(** ** Copying a file to the end of the image *)

Implicit Types (p q : process image_vars).

(** The tool writes the image [img] to the file [op]. *)
Definition writing (op img : bytes) p : Prop :=
  exists o : nat, out (h_vars p) = Z.of_nat o /\ (o < length (h_streams p))%nat /\ stream_at p o op (length img) img.

(** The image has extended to [img']; the rest of the files and the variables are as before. *)
Record extended (op img img' : bytes) p q : Prop := Extended {
  gr_writing : writing op img' q;
  gr_files : h_files q = <[op := img']> (h_files p);
  gr_room : h_room q = h_room p - (Z.of_nat (length img') - Z.of_nat (length img));
  gr_denied : h_denied q = h_denied p;
  gr_vars : h_vars q = h_vars p
}.

(** The first [k] sectors of [c] have been copied. *)
Definition copying (in_ o : nat) (ip op c img : bytes) p (k : nat) q : Prop :=
  let img' := img ++ take (512 * k) (pad_file c) in
  stream_at q in_ ip (Nat.min (512 * k) (length c)) c /\ stream_at q o op (length img') img' /\
  length (h_streams q) = length (h_streams p) /\
  h_files q = <[op := img']> (h_files p) /\ h_room q = h_room p - Z.of_nat (512 * k) /\
  h_denied q = h_denied p /\ h_vars q = h_vars p.

Definition copy_body (in_ : Z) : Z -> T (Z + Z) := fun n_sectors =>
  buf <- fread in_ SECT_SIZE ;;
  if 0 <? Z.of_nat (length buf) then
    o <- var out ;;
    n <- fwrite o (pad_sector buf) ;;
    when (negb (n =? SECT_SIZE)) (quit (Some (chars "Write failed or was wrong size")) false) ;;
    ret (inl (n_sectors + 1))
  else ret (inr n_sectors).

Section Copy.
Context (in_ o : nat) (ip op c img : bytes) (p : process image_vars).
Hypothesis Hne : in_ <> o.
Hypothesis Hpath : ip <> op.
Hypothesis Hout : out (h_vars p) = Z.of_nat o.
Hypothesis Hroom : Z.of_nat (512 * n_sectors c) <= h_room p.

Lemma sector_copied k q : (k < n_sectors c)%nat -> copying in_ o ip op c img p k q ->
  exists q', copy_body (Z.of_nat in_) (Z.of_nat k) q = Ret (inl (Z.of_nat (S k))) q' /\
    copying in_ o ip op c img p (S k) q'.
Proof.
  intros Hk (Si & So & Hl & Hf & Hr & Hd & Hv). pose proof (n_sectors_spec c) as [N1 N2].
  rewrite Nat.min_l in Si by lia. unfold copy_body.
  change SECT_SIZE with (Z.of_nat 512) at 1. rewrite (bind_Ret _ _ _ _ _ (fread_eq q in_ ip _ c 512 Si)). cbv zeta.
  set (b := take 512 (drop (512 * k) c)).
  assert (length b = Nat.min 512 (length c - 512 * k)) as Hb by (unfold b; now rewrite length_take, length_drop).
  destruct (Z.ltb_spec 0 (Z.of_nat (length b))); [|lia].
  set (q1 := moved in_ (512 * k + length b) q).
  unfold var. rewrite run_gets'. change (h_vars q1) with (h_vars q). rewrite Hv, Hout.
  pose proof (pad_sector_at c k Hk) as Hp. fold b in Hp.
  assert (length (pad_sector b) = 512%nat) as Hlb by (rewrite Hp, length_take, length_drop, length_pad_file; lia).
  assert (stream_at q1 o op (length (img ++ take (512 * k) (pad_file c))) (img ++ take (512 * k) (pad_file c))) as So1
    by (apply moved_other; [congruence|exact So]).
  rewrite (bind_Ret _ _ _ _ _ (fwrite_eq q1 o op _ _ (pad_sector b) So1 ltac:(rewrite Hlb; cbn; lia))).
  rewrite Hlb. change (negb (Z.of_nat 512 =? SECT_SIZE)) with false. cbn [when].
  eexists. split; [rewrite bind_ret_l; unfold ret; do 2 f_equal; lia|].
  unfold copying. cbv zeta. set (img1 := img ++ take (512 * k) (pad_file c)) in *.
  assert (img ++ take (512 * S k) (pad_file c) = overwrite img1 (length img1) (pad_sector b)) as ->
    by (rewrite overwrite_end, Hp, <- take_sectors; apply app_assoc).
  split; [|split; [|split; [|split; [|split; [|done]]]]].
  - apply written_other; [congruence|congruence|].
    replace (Nat.min (512 * S k) (length c)) with (512 * k + length b)%nat by lia. now apply (moved_at _ _ _ (512 * k)).
  - rewrite length_overwrite_end. now apply written_at.
  - cbn. now rewrite !length_alter.
  - cbn. now rewrite Hf, insert_insert_eq.
  - change (h_room q - Z.of_nat (length (pad_sector b)) = h_room p - Z.of_nat (512 * S k)). lia.
Qed.
End Copy.

Lemma copy_file_eq in_ ip op c img p :
  stream_at p in_ ip 0 c -> ip <> op -> writing op img p -> Z.of_nat (512 * n_sectors c) <= h_room p ->
  Z.of_nat (n_sectors c) < 2 ^ 40 ->
  exists q, copy_file (Z.of_nat in_) p = Ret (Z.of_nat (n_sectors c)) q /\ extended op img (img ++ pad_file c) p q /\
    length (h_streams q) = length (h_streams p).
Proof.
  intros Si Hpath (o & Ho & Hol & So) Hroom Hn. pose proof (n_sectors_spec c) as [N1 N2].
  assert (in_ <> o) as Hne by (intros ->; destruct Si as [E1 _], So as [E2 _]; congruence).
  assert (forall n k q, (k + n = n_sectors c)%nat -> copying in_ o ip op c img p k q ->
    exists q', loopN (n + 1) (copy_body (Z.of_nat in_)) (Z.of_nat k) q = Ret (inr (Z.of_nat (n_sectors c))) q' /\
      copying in_ o ip op c img p (n_sectors c) q') as Hloop.
  { induction n as [|n IH]; intros k q Hk Hc.
    - replace k with (n_sectors c) in * by lia. pose proof Hc as (Sc & _ & Hc2).
      rewrite Nat.min_r in Sc by lia. exists (moved in_ (length c) q). split.
      + apply loopN_done. unfold copy_body. change SECT_SIZE with (Z.of_nat 512) at 1.
        rewrite (bind_Ret _ _ _ _ _ (fread_eq q in_ ip _ c 512 Sc)). rewrite drop_ge, take_nil by lia.
        cbn [length]. rewrite Nat.add_0_r. reflexivity.
      + destruct Hc as (_ & Hso & Hl & Hf & Hr & Hd & Hv). split; [|split; [|split; [|done]]].
        * rewrite Nat.min_r by lia. now apply (moved_at _ _ _ (length c)).
        * now apply moved_other.
        * cbn. now rewrite length_alter.
    - destruct (sector_copied in_ o ip op c img p Hne Hpath Ho Hroom k q ltac:(lia) Hc) as (q1 & E1 & Hc1).
      destruct (IH (S k) q1 ltac:(lia) Hc1) as (q2 & E2 & Hc2). exists q2. split; [|exact Hc2].
      cbn [Nat.add]. now rewrite (loopN_step _ _ _ _ _ _ E1). }
  destruct (Hloop (n_sectors c) 0%nat p ltac:(lia)) as (q & E & (_ & Hso & Hl & Hf & Hr & Hd & Hv)).
  { unfold copying. rewrite Nat.mul_0_r, take_0, app_nil_r. destruct So as [So1 So2].
    split; [exact Si|]. split; [now split|]. split; [done|]. split; [now rewrite insert_id|]. split; [lia|done]. }
  rewrite take_ge in * by (rewrite length_pad_file; lia). exists q. split; [|split; [|exact Hl]].
  - unfold copy_file. fold (copy_body (Z.of_nat in_)). apply (loop_intro _ (n_sectors c + 1)); [lia|exact E].
  - split; [|exact Hf| |exact Hd|exact Hv].
    + exists o. rewrite Hv, Hl. auto.
    + rewrite Hr, length_app, length_pad_file. lia.
Qed.

(** ** The programs *)

(** A program: its file, the load address as it is given, the contents, the address. *)
Record prog := Prog { pr_name : bytes; pr_addr : bytes; pr_content : bytes; pr_load : Z }.

(** What the image says of a program: offset, segment, sectors. *)
Definition triple (x : prog) : list Z := [pr_load x mod 16; pr_load x / 16; Z.of_nat (n_sectors (pr_content x))].

(** The address is a number in the usable part of the first megabyte, and the program fits
    there; the file is not the image itself. *)
Record prog_ok (op : bytes) p (x : prog) : Prop := ProgOk {
  po_file : h_files p !! pr_name x = Some (pr_content x);
  po_open : pr_name x <> op /\ pr_name x ∉ h_denied p;
  po_addr : strchr (pr_addr x) 58 = None /\ strtol (pr_addr x) 0 = (pr_load x, []);
  po_fits : 0 <= pr_load x /\ pr_load x + 512 * Z.of_nat (n_sectors (pr_content x)) <= 0x9ffff
}.

(** The information that has been stored. *)
Definition info_is (w : list Z) (r : image_vars) : Prop :=
  length (info r) = 256%nat /\ 0 <= n_info r <= 256 /\ drop (Z.to_nat (n_info r)) (info r) = w.

Lemma info_is_length w r : info_is w r -> Z.of_nat (length w) = 256 - n_info r.
Proof. intros (H1 & H2 & <-). rewrite length_drop. lia. Qed.

Lemma push_info_eq v w p : info_is w (h_vars p) -> (length w < 256)%nat -> 0 <= v < 2 ^ 16 ->
  exists r, push_info v p = Ret tt (set_vars (fun _ => r) p) /\ info_is (v :: w) r /\
    set_info [] 0 r = set_info [] 0 (h_vars p).
Proof.
  intros Hi Hw Hv. pose proof (info_is_length w _ Hi) as Hl. destruct Hi as (H1 & H2 & H3).
  exists (set_info (aset (info (h_vars p)) (n_info (h_vars p) - 1) v) (n_info (h_vars p) - 1) (h_vars p)).
  split; [|split; [|reflexivity]].
  - unfold push_info, var. do 2 rewrite run_gets'. unfold in_bounds.
    destruct (Z.leb_spec 0 (n_info (h_vars p) - 1)); [|lia]. destruct (Z.ltb_spec (n_info (h_vars p) - 1) (Z.of_nat (length (info (h_vars p))))); [|lia].
    cbn [andb]. unfold u16. rewrite Z.mod_small by exact Hv. reflexivity.
  - unfold info_is. cbn [info n_info set_info]. rewrite length_aset. split; [exact H1|]. split; [lia|].
    unfold aset. rewrite <- H3. replace (Z.to_nat (n_info (h_vars p))) with (S (Z.to_nat (n_info (h_vars p) - 1))) by lia.
    set (k := Z.to_nat (n_info (h_vars p) - 1)). rewrite drop_S with (x := v).
    + now rewrite drop_insert_lt by lia.
    + apply list_lookup_insert_eq. lia.
Qed.

(** The image and the information are what they should be; the rest as at the start. *)
Record building (op : bytes) p0 (img : bytes) (w : list Z) q : Prop := Building {
  bu_writing : writing op img q;
  bu_files : h_files q = <[op := img]> (h_files p0);
  bu_room : h_room q = h_room p0 - Z.of_nat (length img);
  bu_denied : h_denied q = h_denied p0;
  bu_info : info_is w (h_vars q);
  bu_vars : set_info [] 0 (h_vars q) = set_info [] 0 (h_vars p0)
}.

Lemma building_push op p0 img w v q : building op p0 img w q -> (length w < 256)%nat -> 0 <= v < 2 ^ 16 ->
  exists q', push_info v q = Ret tt q' /\ building op p0 img (v :: w) q' /\ h_stderr q' = h_stderr q.
Proof.
  intros [(o & Ho & Hol & Hs) Hf Hr Hd Hi Hv] Hw Hv16. destruct (push_info_eq v w q Hi Hw Hv16) as (r & E & Hi' & Hr').
  eexists. split; [exact E|]. split; [|reflexivity]. split; [|exact Hf|exact Hr|exact Hd|exact Hi'|cbn; congruence].
  exists o. split; [|now split]. apply (f_equal out) in Hr'. cbn in *. congruence.
Qed.

Lemma building_messages op p0 img w f q : building op p0 img w q -> building op p0 img w (set_stderr f q).
Proof. intros [(o & Ho & Hol & Hs) Hf Hr Hd Hi Hv]. split; [exists o; split; [exact Ho|now split]|done..]. Qed.

Lemma triple_range x : 0 <= pr_load x -> pr_load x + 512 * Z.of_nat (n_sectors (pr_content x)) <= 0x9ffff ->
  Forall (fun v => 0 <= v < 2 ^ 16) (triple x).
Proof. intros H0 H1. unfold triple. do 3 (apply Forall_cons; split; [Z.div_mod_to_equations; lia|]). constructor. Qed.

(** A number below 2^19 survives the conversions to [short] and back. *)
Lemma segment_value a : 0 <= a <= 0x9ffff -> u16 (s16 (Z.shiftr a 4)) = a / 16 /\ u16 (s16 (Z.land a 0xf)) = a mod 16.
Proof.
  intros Ha. rewrite Z.shiftr_div_pow2 by lia. change 0xf with (Z.ones 4). rewrite Z.land_ones by lia.
  assert (forall x, 0 <= x < 2 ^ 16 -> u16 (s16 x) = x) as Hx.
  { intros x Hx. unfold u16, s16. rewrite (Z.mod_small x) by lia. destruct (Z.ltb_spec x (2 ^ 15)); [apply Z.mod_small; lia|].
    rewrite <- (Z.mod_add (x - 2 ^ 16) 1) by lia. replace (x - 2 ^ 16 + 1 * 2 ^ 16) with x by lia. now apply Z.mod_small. }
  split; apply Hx; Z.div_mod_to_equations; lia.
Qed.

Lemma decode_number addr a p : strchr addr 58 = None -> strtol addr 0 = (a, []) -> a <= 0x9ffff ->
  decode_address addr p = Ret (s16 (Z.shiftr a 4), s16 (Z.land a 0xf), a, true) p.
Proof.
  intros E1 E2 Ha. unfold decode_address. rewrite E1, E2. destruct (Z.leb_spec a 0x0009ffff); [reflexivity|lia].
Qed.

(** [push_info] stores a halfword. *)
Lemma push_u16 v v' p : u16 v = u16 v' -> push_info v p = push_info v' p.
Proof. intros E. unfold push_info. now rewrite E. Qed.

Lemma process_file_eq op p0 img w q x :
  building op p0 img w q -> prog_ok op q x -> (length w + 3 <= 256)%nat ->
  Z.of_nat (512 * n_sectors (pr_content x)) <= h_room q ->
  exists q', process_file (pr_name x) (pr_addr x) q = Ret tt q' /\
    building op p0 (img ++ pad_file (pr_content x)) (triple x ++ w) q'.
Proof.
  intros Hb [Hfile [Hne Hopen] [Hc Hn] [Hl0 Hl1]] Hw Hroom. pose proof Hb as [Hwr Hf Hr Hd Hi Hv].
  destruct (fopen_rb q (pr_name x) _ Hopen Hfile) as (q1 & E1 & Eq1 & S1). unfold process_file. rewrite (bind_Ret _ _ _ _ _ E1).
  assert (writing op img q1) as W1.
  { destruct Hwr as (o & Ho & Hol & So & So'). exists o. rewrite Eq1. cbn. split; [exact Ho|].
    rewrite length_app. split; [lia|]. split; [|exact So']. cbn. now rewrite lookup_app_l. }
  destruct (copy_file_eq _ (pr_name x) op (pr_content x) img q1 S1 Hne W1 ltac:(rewrite Eq1; exact Hroom) ltac:(lia))
    as (q2 & E2 & [G1 G2 G3 G4 G5] & _).
  rewrite (bind_Ret _ _ _ _ _ E2). unfold fclose. rewrite bind_ret_l.
  rewrite (bind_Ret _ _ _ _ _ (decode_number _ _ q2 Hc Hn ltac:(lia))). unfold var. rewrite run_gets'. cbn [negb when]. rewrite bind_ret_l.
  assert (s32 (Z.of_nat (n_sectors (pr_content x)) * SECT_SIZE) = Z.of_nat (n_sectors (pr_content x)) * 512) as ->
    by (unfold SECT_SIZE; apply s32_small; lia).
  destruct (Z.ltb_spec 0x0009ffff (pr_load x + Z.of_nat (n_sectors (pr_content x)) * 512)); [lia|]. cbn [when]. rewrite bind_ret_l, run_gets'.
  assert (building op p0 (img ++ pad_file (pr_content x)) w q2) as B2.
  { split; [exact G1|rewrite G2, Eq1; cbn; now rewrite Hf, insert_insert_eq|rewrite G3, Eq1; cbn; rewrite length_app; lia
      |rewrite G4, Eq1; exact Hd|rewrite G5, Eq1; exact Hi|rewrite G5, Eq1; exact Hv]. }
  pose proof (info_is_length w _ (bu_info _ _ _ _ _ B2)) as Hwl.
  destruct (Z.ltb_spec (n_info (h_vars q2)) 3); [lia|]. cbn [when]. rewrite bind_ret_l. unfold fprintf_stderr.
  erewrite bind_Ret by reflexivity. eapply building_messages in B2.
  pose proof (triple_range x Hl0 Hl1) as [T1 [T2 [T3 _]%Forall_cons]%Forall_cons]%Forall_cons.
  destruct (segment_value (pr_load x) ltac:(lia)) as [V1 V2].
  destruct (building_push _ _ _ _ _ _ B2 ltac:(lia) T3) as (q3 & E3 & B3 & _). rewrite (bind_Ret _ _ _ _ _ E3).
  rewrite (bind_ext _ (push_info (pr_load x / 16))) by (apply push_u16; rewrite V1; symmetry; apply Z.mod_small; exact T2).
  destruct (building_push _ _ _ _ _ _ B3 ltac:(cbn [length]; lia) T2) as (q4 & E4 & B4 & _). rewrite (bind_Ret _ _ _ _ _ E4).
  rewrite (push_u16 _ (pr_load x mod 16)) by (rewrite V2; symmetry; apply Z.mod_small; exact T1).
  destruct (building_push _ _ _ _ _ _ B4 ltac:(cbn [length]; lia) T1) as (q5 & E5 & B5 & _). eauto.
Qed.

Lemma prog_ok_building op p0 img w q x : building op p0 img w q -> prog_ok op p0 x -> prog_ok op q x.
Proof.
  intros [_ Hf _ Hd _ _] [P1 [P2 P3] P4 P5]. split; [|split; [exact P2|now rewrite Hd]|exact P4|exact P5].
  rewrite Hf. now rewrite lookup_insert_ne by congruence.
Qed.

(** All the programs, in order; what is stored of them, the last first. *)
Definition arguments (l : list prog) : list bytes := flat_map (fun x => [pr_name x; pr_addr x]) l.
Definition contents (l : list prog) : bytes := flat_map (fun x => pad_file (pr_content x)) l.
Definition information (l : list prog) : list Z := flat_map triple (rev l).

Lemma length_information l : length (information l) = (3 * length l)%nat.
Proof.
  unfold information. rewrite <- (length_rev l). induction (rev l) as [|x l' IH]; [reflexivity|].
  cbn [flat_map length triple app]. rewrite IH. lia.
Qed.

Lemma information_cons x l : information (x :: l) = information l ++ triple x.
Proof. unfold information. cbn [rev]. rewrite flat_map_app. cbn [flat_map]. now rewrite app_nil_r. Qed.

Lemma process_files_eq op p0 l img w q :
  building op p0 img w q -> Forall (prog_ok op p0) l -> (length w + 3 * length l <= 256)%nat ->
  Z.of_nat (length (contents l)) <= h_room q ->
  exists q', process_files (arguments l) q = Ret tt q' /\ building op p0 (img ++ contents l) (information l ++ w) q'.
Proof.
  revert img w q; induction l as [|x l IH]; intros img w q Hb Hl Hw Hroom.
  - exists q. split; [reflexivity|]. cbn. now rewrite app_nil_r.
  - apply Forall_cons in Hl as [Hx Hl]. cbn [length] in Hw. unfold contents in Hroom. cbn [flat_map] in Hroom.
    rewrite length_app, length_pad_file in Hroom. fold (contents l) in Hroom.
    destruct (process_file_eq op p0 img w q x Hb (prog_ok_building _ _ _ _ _ _ Hb Hx) ltac:(lia) ltac:(lia)) as (q1 & E1 & B1).
    assert (h_room q1 = h_room q - Z.of_nat (512 * n_sectors (pr_content x))) as Hr1
      by (rewrite (bu_room _ _ _ _ _ B1), (bu_room _ _ _ _ _ Hb), length_app, length_pad_file; lia).
    destruct (IH _ _ q1 B1 Hl ltac:(rewrite length_app; cbn [triple length]; lia) ltac:(lia)) as (q2 & E2 & B2).
    exists q2. split; [cbn [arguments flat_map app process_files]; now rewrite (bind_Ret _ _ _ _ _ E1)|].
    unfold contents. cbn [flat_map]. rewrite information_cons, <- !app_assoc in *. exact B2.
Qed.

(** ** The information in the bootstrap *)

(** The halfwords before the end of the bootstrap, and the drive. *)
Definition patched (size : nat) (w : list Z) (d : Z) (img : bytes) : bytes :=
  overwrite (overwrite img (size - 2 * length w) (flat_map le16 w)) 508 (le16 d).

Lemma length_flat_le16 w : length (flat_map le16 w) = (2 * length w)%nat.
Proof. induction w as [|v w IH]; [reflexivity|]. cbn [flat_map le16 app length]. lia. Qed.

Lemma halfwords_zero n : existsb (fun w => negb (w =? 0)) (halfwords (replicate n 0)) = false.
Proof.
  induction n as [n IH] using lt_wf_ind. destruct n as [|[|n]]; [reflexivity..|].
  cbn [replicate halfwords existsb]. rewrite IH by lia. reflexivity.
Qed.

Lemma patch_image_eq op p0 boot rest w q :
  building op p0 (boot ++ rest) w q -> (0 < length w)%nat -> (512 <= length boot)%nat -> (2 * length w <= length boot)%nat ->
  drop (length boot - 2 * length w) boot = replicate (2 * length w) 0 -> Z.of_nat (2 * length w) + 2 <= h_room q ->
  exists q', patch_image (Z.of_nat (length boot)) q = Ret tt q' /\
    h_files q' = <[op := patched (length boot) w (drive (h_vars p0)) (boot ++ rest)]> (h_files p0).
Proof.
  intros [(o & Ho & _ & Hs) Hf Hr Hd Hi Hv] Hw H512 Hlen Hz Hroom. pose proof (info_is_length w _ Hi) as Hn.
  unfold patch_image, var. rewrite run_gets'. cbv zeta. rewrite run_gets', Ho.
  assert (N_INFO - n_info (h_vars q) = Z.of_nat (length w)) as -> by (change N_INFO with 256; lia).
  set (at_ := (length boot - 2 * length w)%nat).
  assert (Z.of_nat (length boot) - Z.of_nat (length w) * 2 = Z.of_nat at_) as -> by (unfold at_; lia).
  rewrite (bind_Ret _ _ _ _ _ (fseek_eq q o at_)). pose proof (moved_at _ _ _ _ _ at_ Hs) as Hs1.
  replace (Z.of_nat (length w) * 2) with (Z.of_nat (2 * length w)) by lia.
  rewrite (bind_Ret _ _ _ _ _ (fread_eq _ _ _ _ _ (2 * length w) Hs1)).
  assert (take (2 * length w) (drop at_ (boot ++ rest)) = replicate (2 * length w) 0) as ->.
  { rewrite drop_app_le by lia. unfold at_. rewrite Hz, take_app_le by (rewrite length_replicate; lia).
    rewrite take_ge by (rewrite length_replicate; lia). reflexivity. }
  rewrite length_replicate. replace (Z.of_nat (2 * length w) / 2) with (Z.of_nat (length w)) by (Z.div_mod_to_equations; lia).
  rewrite Z.eqb_refl, halfwords_zero. cbn [negb when]. rewrite !bind_ret_l.
  pose proof (moved_at _ _ _ _ _ (at_ + 2 * length w) Hs1) as Hs2.
  set (q2 := moved o (at_ + 2 * length w) (moved o at_ q)) in *.
  rewrite (bind_Ret _ _ _ _ _ (fseek_eq q2 o at_)). pose proof (moved_at _ _ _ _ _ at_ Hs2) as Hs3.
  set (q3 := moved o at_ q2) in *. unfold info_words, var. rewrite run_bind_gets2.
  change (h_vars q3) with (h_vars q). destruct Hi as (Hi1 & Hi2 & ->).
  assert (length (flat_map le16 w) = (2 * length w)%nat) as Hl2 by apply length_flat_le16.
  rewrite (bind_Ret _ _ _ _ _ (fwrite_eq q3 o op at_ _ (flat_map le16 w) Hs3 ltac:(rewrite Hl2; change (h_room q3) with (h_room q); lia))).
  rewrite Hl2. replace (Z.of_nat (2 * length w) / 2) with (Z.of_nat (length w)) by (Z.div_mod_to_equations; lia).
  rewrite Z.eqb_refl. cbn [negb when]. rewrite bind_ret_l.
  pose proof (written_at q3 o op at_ _ (flat_map le16 w) Hs3) as Hs4. set (q4 := written o op at_ _ _ q3) in *.
  change (SECT_SIZE - 4) with (Z.of_nat 508). rewrite (bind_Ret _ _ _ _ _ (fseek_eq q4 o 508)), run_gets'.
  pose proof (moved_at _ _ _ _ _ 508%nat Hs4) as Hs5. set (q5 := moved o 508 q4) in *.
  assert (h_room q5 = h_room q - Z.of_nat (2 * length w)) as Hr5 by (unfold q5, q4; cbn [h_room moved written set_streams set_room]; now rewrite Hl2).
  rewrite (bind_Ret _ _ _ _ _ (fwrite_eq q5 o op 508 _ (le16 _) Hs5 ltac:(cbn [le16 length]; lia))).
  eexists. split; [reflexivity|]. unfold patched. apply (f_equal drive) in Hv. cbn in Hv.
  change (drive (h_vars q5)) with (drive (h_vars q)). rewrite Hv.
  unfold q5, q4, q3, q2. cbn [h_files written moved set_streams set_room set_files]. now rewrite Hf, !insert_insert_eq.
Qed.

(** ** The command line *)

(** What the options say, or that one of them is wrong. *)
Fixpoint options (l : list option_t) (r : image_vars) : option image_vars :=
  match l with
  | [] => Some r
  | Option 98 a _ :: l => options l (set_bootstrap (Some a) r)
  | Option 111 a _ :: l => options l (set_output (Some a) r)
  | Option 100 (102 :: _) _ :: l => options l (set_drive DRIVE_FLOPPY r)
  | Option 100 (117 :: _) _ :: l => options l (set_drive DRIVE_USB r)
  | _ => None
  end.

Lemma options_cons c a e l r r' : options (Option c a e :: l) r = Some r' ->
  (c = 98 /\ options l (set_bootstrap (Some a) r) = Some r') \/
  (c = 111 /\ options l (set_output (Some a) r) = Some r') \/
  (c = 100 /\ hd 0 a = 102 /\ options l (set_drive DRIVE_FLOPPY r) = Some r') \/
  (c = 100 /\ hd 0 a = 117 /\ options l (set_drive DRIVE_USB r) = Some r').
Proof.
  destruct (Z.eq_dec c 98) as [->|N1]; [auto|]. destruct (Z.eq_dec c 111) as [->|N2]; [auto|].
  destruct (Z.eq_dec c 100) as [->|N3].
  - destruct a as [|d a]; [discriminate|]. destruct (Z.eq_dec d 102) as [->|D1]; [intros E; right; right; left; auto|].
    destruct (Z.eq_dec d 117) as [->|D2]; [intros E; right; right; right; auto|].
    intros E. exfalso. revert D1 D2 E. cbn. clear. intros D1 D2 E. destruct d as [|d|d]; try discriminate E.
    repeat (first [discriminate E|congruence|destruct d as [d|d|]]).
  - intros E. exfalso. revert N1 N2 N3 E. cbn. clear. intros N1 N2 N3 E. destruct c as [|d|d]; try discriminate E.
    repeat (first [discriminate E|congruence|destruct d as [d|d|]]).
Qed.

(** The arrays are not changed by the options. *)
Definition same_info (r r' : image_vars) : Prop := info r' = info r /\ n_info r' = n_info r /\ progname r' = progname r.

Lemma process_options_eq l p r : options l (h_vars p) = Some r ->
  process_options l p = Ret tt (set_vars (fun _ => r) p) /\ same_info (h_vars p) r.
Proof.
  revert p; induction l as [|[c a e] l IH]; intros p E; [injection E as <-; split; [now destruct p|repeat split]|].
  cbn [process_options o_char o_arg o_opt]. unfold var_set, modify.
  destruct (options_cons _ _ _ _ _ _ E) as [(-> & E')|[(-> & E')|[(-> & Ha & E')|(-> & Ha & E')]]]; rewrite ?Ha;
    cbv beta iota zeta; cbn [Z.eqb Pos.eqb];
    (erewrite bind_Ret by reflexivity);
    match goal with |- context [process_options l ?q] => destruct (IH q E') as [-> (I1 & I2 & I3)] end;
    (split; [reflexivity|split; [exact I1|split; [exact I2|exact I3]]]).
Qed.

(** ** The whole run *)

Section Run.
Context (getopt : list bytes -> list option_t * Z).

Lemma process_args_eq av opts optind p r : getopt av = (opts, optind) -> options opts (h_vars p) = Some r ->
  bootstrap_filename r <> None -> output_filename r <> None ->
  2 <= Z.of_nat (length av) - optind -> (Z.of_nat (length av) - optind) mod 2 = 0 ->
  process_args getopt av p = Ret optind (set_vars (fun _ => r) p).
Proof.
  intros Eg Eo Hb Ho H2 Hm. unfold process_args. rewrite Eg.
  destruct (process_options_eq opts p r Eo) as [E _]. rewrite (bind_Ret _ _ _ _ _ E). unfold var. do 2 rewrite run_gets'.
  cbn [h_vars set_vars]. destruct (bootstrap_filename r); [|done]. rewrite bind_ret_l, run_gets'.
  cbn [h_vars set_vars]. destruct (output_filename r); [|done]. rewrite bind_ret_l.
  change 1 with (Z.ones 1). rewrite Z.land_ones by lia. change (2 ^ 1) with 2. rewrite Hm.
  destruct (Z.ltb_spec (Z.of_nat (length av) - optind) 2); [lia|]. reflexivity.
Qed.

(** The arguments of the tool, and what it finds. *)
Record run_ok (av : list bytes) (bn op boot : bytes) (l : list prog) (r : image_vars) p : Prop := RunOk {
  ro_options : exists opts optind, getopt av = (opts, optind) /\
    options opts (set_progname (match strrchr (hd [] av) 47 with Some q => tl q | None => hd [] av end) (h_vars p)) = Some r /\
    drop (Z.to_nat optind) av = arguments l /\ 0 <= optind;
  ro_files : bootstrap_filename r = Some bn /\ output_filename r = Some op /\ bn <> op;
  ro_open : bn ∉ h_denied p /\ op ∉ h_denied p;
  ro_boot : h_files p !! bn = Some boot /\ boot <> [];
  ro_progs : Forall (prog_ok op p) l /\ l <> [] /\ (3 * length l <= 256)%nat;
  ro_space : (6 * length l <= 512 * n_sectors boot)%nat /\
    drop (512 * n_sectors boot - 6 * length l) (pad_file boot) = replicate (6 * length l) 0;
  ro_room : Z.of_nat (length (pad_file boot ++ contents l) + 6 * length l + 2) <= h_room p;
  ro_vars : length (info (h_vars p)) = 256%nat /\ n_info (h_vars p) = 256 /\ Z.of_nat (n_sectors boot) < 2 ^ 40
}.

(** The image: the bootstrap with the table of the programs at its end and the drive in
    its first sector, then the programs. *)
Definition image_of (boot : bytes) (l : list prog) (d : Z) : bytes :=
  patched (512 * n_sectors boot) (information l) d (pad_file boot ++ contents l).

Lemma length_arguments l : length (arguments l) = (2 * length l)%nat.
Proof. induction l as [|x l IH]; [reflexivity|]. cbn [arguments flat_map app length] in *. unfold arguments in IH. lia. Qed.

(** Opening the image, and copying the bootstrap. *)
Lemma boot_copied (bn op boot : bytes) p : bn <> op -> bn ∉ h_denied p -> op ∉ h_denied p ->
  h_files p !! bn = Some boot -> length (info (h_vars p)) = 256%nat -> n_info (h_vars p) = 256 ->
  Z.of_nat (n_sectors boot) < 2 ^ 40 -> Z.of_nat (512 * n_sectors boot) <= h_room p ->
  exists q0 q1 q2, open_or_quit op WB p = Ret (Z.of_nat (length (h_streams p))) q0 /\
    let p1 := set_vars (set_out (Z.of_nat (length (h_streams p)))) q0 in
    open_or_quit bn RB p1 = Ret (Z.of_nat (length (h_streams p1))) q1 /\
    copy_file (Z.of_nat (length (h_streams p1))) q1 = Ret (Z.of_nat (n_sectors boot)) q2 /\
    building op p1 (pad_file boot) [] q2 /\ h_vars q0 = h_vars p /\ h_files p1 = <[op := []]> (h_files p) /\
    h_room p1 = h_room p /\ h_denied p1 = h_denied p.
Proof.
  intros Hne Hb Ho Hf Hi Hn H40 Hroom.
  set (q0 := set_files <[op := []]> (set_streams (fun l => l ++ [Stream op 0]) p)).
  set (p1 := set_vars (set_out (Z.of_nat (length (h_streams p)))) q0).
  assert (h_files p1 !! bn = Some boot) as Hf1 by (cbn; now rewrite lookup_insert_ne by congruence).
  destruct (fopen_rb p1 bn boot Hb Hf1) as (q1 & E1 & Eq1 & S1).
  assert (writing op [] q1) as W1.
  { exists (length (h_streams p)). rewrite Eq1. cbn. rewrite !length_app. cbn [length]. split; [reflexivity|]. split; [lia|].
    split; cbn; [|apply lookup_insert_eq]. rewrite lookup_app_l by (rewrite length_app; cbn; lia).
    now rewrite lookup_app_r, Nat.sub_diag by lia. }
  destruct (copy_file_eq _ bn op boot [] q1 S1 Hne W1 ltac:(rewrite Eq1; exact Hroom) H40) as (q2 & E2 & [G1 G2 G3 G4 G5] & _).
  exists q0, q1, q2. split; [|split; [|split; [exact E2|split; [|done]]]].
  - unfold open_or_quit, fopen. unfold bind at 1. destruct (decide _); [done|]. destruct (h_files p !! op); reflexivity.
  - unfold open_or_quit. now rewrite (bind_Ret _ _ _ _ _ E1).
  - rewrite app_nil_l in *. split; [exact G1|rewrite G2, Eq1; reflexivity| |rewrite G4, Eq1; reflexivity| |rewrite G5, Eq1; reflexivity].
    + rewrite G3, Eq1. change (h_room p - (Z.of_nat (length (pad_file boot)) - 0) = h_room p - Z.of_nat (length (pad_file boot))). lia.
    + rewrite G5, Eq1. cbn. unfold info_is. cbn [info n_info set_out]. rewrite Hi, Hn. split; [done|]. split; [lia|].
      apply drop_ge. rewrite Hi. reflexivity.
Qed.

Lemma main_eq av bn op boot l r p : run_ok av bn op boot l r p ->
  exists p', main getopt av p = Ret EXIT_SUCCESS p' /\
    h_files p' = <[op := image_of boot l (drive r)]> (h_files p).
Proof.
  intros [(opts & optind & Eg & Eo & Ed & H0) (Rb & Ro & Hne) [Hb Hop] [Hf Hb0] (Hl & Hl0 & Hl3) [Hs1 Hs2] Hroom (Hi & Hn & H40)].
  unfold main. cbv zeta. unfold var_set at 1, modify. erewrite bind_Ret by reflexivity.
  match goal with |- context [bind (process_args getopt av) _ ?q] => set (pa := q) end.
  assert (length l <> 0)%nat as Hln by (destruct l; done).
  assert (Z.of_nat (length av) - optind = Z.of_nat (2 * length l)) as Hrem.
  { pose proof (f_equal length Ed) as HL. rewrite length_drop, length_arguments in HL. lia. }
  rewrite (bind_Ret _ _ _ _ _ (process_args_eq av opts optind pa r Eg Eo ltac:(congruence) ltac:(congruence) ltac:(lia)
    ltac:(rewrite Hrem; Z.div_mod_to_equations; lia))).
  unfold var at 1. rewrite run_gets'. cbn [h_vars set_vars]. rewrite Ro. cbn [default from_option].
  set (pb := set_vars (fun _ => r) pa). destruct (process_options_eq opts pa r Eo) as [_ (I1 & I2 & _)].
  rewrite length_app, length_pad_file in Hroom.
  destruct (boot_copied bn op boot pb Hne Hb Hop Hf ltac:(cbn; rewrite I1; exact Hi) ltac:(cbn; rewrite I2; exact Hn) H40
    ltac:(change (h_room pb) with (h_room p); lia)) as (q0 & q1 & q2 & E0 & E1 & E2 & B & V0 & F0 & R0 & D0).
  cbv zeta in *. rewrite (bind_Ret _ _ _ _ _ E0). unfold var_set, modify. erewrite bind_Ret by reflexivity.
  set (p1 := set_vars (set_out _) q0) in *. unfold var. rewrite run_gets'. change (h_vars p1) with (set_out (Z.of_nat (length (h_streams pb))) (h_vars q0)).
  rewrite V0. cbn [h_vars set_vars set_out bootstrap_filename]. change (h_vars pb) with r. rewrite Rb. cbn [default from_option].
  rewrite (bind_Ret _ _ _ _ _ E1), (bind_Ret _ _ _ _ _ E2). unfold fclose. rewrite bind_ret_l, Ed.
  assert (Forall (prog_ok op p1) l) as Hl1.
  { eapply Forall_impl; [exact Hl|]. intros x [P1 [P2 P3] P4 P5]. split; [|split; [exact P2|now rewrite D0]|exact P4|exact P5].
    rewrite F0. now rewrite lookup_insert_ne by congruence. }
  assert (h_room q2 = h_room p - Z.of_nat (512 * n_sectors boot)) as Hr2
    by (rewrite (bu_room _ _ _ _ _ B), R0, length_pad_file; reflexivity).
  destruct (process_files_eq op p1 l (pad_file boot) [] q2 B Hl1 ltac:(cbn [length]; lia) ltac:(lia)) as (q3 & E3 & B3).
  rewrite app_nil_r in B3. rewrite (bind_Ret _ _ _ _ _ E3).
  assert (Z.of_nat (n_sectors boot) * SECT_SIZE = Z.of_nat (length (pad_file boot))) as -> by (rewrite length_pad_file; unfold SECT_SIZE; lia).
  pose proof (n_sectors_spec boot) as [N1 _]. assert (length boot <> 0)%nat as Hbl
    by (intros Hz; match goal with H : boot <> [] |- _ => exact (H (nil_length_inv _ Hz)) end).
  destruct (patch_image_eq op p1 (pad_file boot) (contents l) (information l) q3 B3) as (q4 & E4 & F4);
    rewrite ?length_information, ?length_pad_file; try lia.
  - replace (2 * (3 * length l))%nat with (6 * length l)%nat by lia. exact Hs2.
  - rewrite (bu_room _ _ _ _ _ B3), R0, length_app, length_pad_file. change (h_room pb) with (h_room p). lia.
  - rewrite length_pad_file in E4. exists q4. split; [now rewrite (bind_Ret _ _ _ _ _ E4)|]. rewrite F4, F0, insert_insert_eq.
    assert (drive (h_vars p1) = drive r) as -> by (cbn; now rewrite V0). unfold image_of. now rewrite length_pad_file.
Qed.
End Run.

