(* ===== verification/BuildClaims.v ===== *)
(** util/BuildImage.c: the contract of the tool, and what the kernel finds of its work. *)

From S2P Require Import Prelude Memory State Lib LibMem Kmem KmemInv KmemSpec KmemInit KmemClaims Stacks StacksSpec Syscalls CreateSpec Kernel SysInv BootDevices BootStart BootSpec BootMain BootClaims Host HostSpec BuildImage BuildSpec.

Open Scope kernel_scope.

#[local] Existing Instance example_layout.

(** C35: the image builder builds the image.  On valid arguments, with the files there, room
    on the device and zeros at the end of the bootstrap, [main] succeeds, and the only file
    it has changed is the image: the bootstrap filled up to whole sectors, with the table
    of the programs (offset, segment, sectors, the last program first) at its end and the
    drive in its first sector, followed by the programs, each filled up to whole
    sectors. *)
Theorem image_built getopt av bn op boot l r p : run_ok getopt av bn op boot l r p ->
  exists p', BuildImage.main getopt av p = Ret EXIT_SUCCESS p' /\
    h_files p' = <[op := image_of boot l (drive r)]> (h_files p).
Proof. apply main_eq. Qed.

Definition example_boot : bytes := replicate 700 1.
Definition example_progs : list prog :=
  [Prog (chars "kernel.img") (chars "0x10000") (replicate 1000 2) 0x10000;
   Prog (chars "user.img") (chars "0x30000") (replicate 20 3) 0x30000].

Definition example_vars : image_vars :=
  set_bootstrap (Some (chars "boot.img")) (set_output (Some (chars "disk.img"))
    (set_drive DRIVE_USB (set_progname (chars "BuildImage") image_vars0))).

Lemma example_run_ok :
  run_ok example_getopt example_av (chars "boot.img") (chars "disk.img") example_boot example_progs example_vars example_host.
Proof.
  split.
  - eexists _, _. split; [reflexivity|]. split; [vm_compute; reflexivity|]. split; [vm_compute; reflexivity|lia].
  - split; [reflexivity|]. split; [reflexivity|discriminate].
  - split; apply not_elem_of_nil.
  - split; [vm_compute; reflexivity|discriminate].
  - split; [|split; [discriminate|vm_compute; lia]].
    repeat constructor; try (vm_compute; reflexivity); try discriminate; try apply not_elem_of_nil; vm_compute; congruence.
  - split; [vm_compute; lia|vm_compute; reflexivity].
  - vm_compute. congruence.
  - split; [vm_compute; reflexivity|]. split; vm_compute; reflexivity.
Qed.

Lemma image_built_witness : exists p', BuildImage.main example_getopt example_av example_host = Ret EXIT_SUCCESS p' /\
  h_files p' !! chars "disk.img" = Some (image_of example_boot example_progs DRIVE_USB).
Proof.
  destruct (image_built example_getopt example_av _ _ _ _ _ example_host example_run_ok) as (p' & E & F).
  exists p'. split; [exact E|]. rewrite F. exact (lookup_insert_eq _ _ _).
Defined.

(** ** From the image to the kernel *)

Lemma drop_overwrite c p b k : (p + length b <= k)%nat -> (p + length b <= length c)%nat ->
  drop k (overwrite c p b) = drop k c.
Proof.
  intros Hk Hc. unfold overwrite. replace (p - length c)%nat with 0%nat by lia. rewrite app_nil_r, app_assoc.
  rewrite drop_app_ge by (rewrite length_app, length_take; lia). rewrite drop_drop, length_app, length_take. f_equal. lia.
Qed.

Lemma take_overwrite c p b : (p + length b <= length c)%nat -> take (p + length b) (overwrite c p b) = take p c ++ b.
Proof.
  intros Hc. unfold overwrite. replace (p - length c)%nat with 0%nat by lia. rewrite app_nil_r, app_assoc.
  apply take_app_length'. rewrite length_app, length_take. lia.
Qed.

(** The last halfwords of the table, at the end of the bootstrap. *)
Lemma table_end boot x y l d : n_sectors boot = 2%nat -> (6 * length (x :: y :: l) <= 1024)%nat ->
  drop 1012 (take 1024 (image_of boot (x :: y :: l) d)) = flat_map le16 (triple y ++ triple x).
Proof.
  intros Hb Hl. unfold image_of, patched. rewrite Hb. set (w := information (x :: y :: l)).
  assert (length w = 3 * length (x :: y :: l))%nat as Hw by apply length_information.
  assert (w = information l ++ triple y ++ triple x) as Ew
    by (unfold w; rewrite !information_cons, <- app_assoc; reflexivity).
  clearbody w. cbn [length] in Hl, Hw.
  assert (length (pad_file boot) = 1024%nat) as Hp by (rewrite length_pad_file, Hb; reflexivity).
  set (img := pad_file boot ++ contents (x :: y :: l)).
  assert (1024 <= length img)%nat as Hi by (unfold img; rewrite length_app; lia).
  assert (length (flat_map le16 w) = 2 * length w)%nat as Hf by apply length_flat_le16.
  change (512 * 2)%nat with 1024%nat. set (X := overwrite img (1024 - 2 * length w) (flat_map le16 w)).
  assert (length X = length img) as HX by (apply length_overwrite; rewrite Hf; lia).
  replace (drop 1012 (take 1024 (overwrite X 508 (le16 d)))) with (drop 1012 (take 1024 X)).
  - assert (take 1024 X = take (1024 - 2 * length w) img ++ flat_map le16 w) as ->.
    { rewrite <- take_overwrite by lia. fold X. f_equal. lia. }
    rewrite drop_app_ge by (rewrite length_take; lia).
    rewrite length_take, Ew, flat_map_app. apply drop_app_length'.
    rewrite length_flat_le16. rewrite Ew, !length_app in Hw. rewrite ?length_app. cbn [triple length] in *. lia.
  - rewrite !skipn_firstn_comm. f_equal. symmetry. apply drop_overwrite; cbn [le16 length]; lia.
Qed.

Lemma ld16_bytes m a v : 0 <= v < 2 ^ 16 -> bytes_at m a 2 = le16 v -> ld16 m a = v.
Proof. intros Hv E. injection E as E1 E2. unfold ld16. rewrite E1, E2. Z.div_mod_to_equations. lia. Qed.

(** Two entries of the table in memory. *)
Lemma table_in_memory m a x y :
  0 <= pr_load x <= 0x9ffff -> 0 <= pr_load y <= 0x9ffff ->
  Z.of_nat (n_sectors (pr_content x)) < 2 ^ 16 -> Z.of_nat (n_sectors (pr_content y)) < 2 ^ 16 ->
  bytes_at m a 12 = flat_map le16 (triple y ++ triple x) ->
  ld16 m a = pr_load y mod 16 /\ ld16 m (a + 2) = pr_load y / 16 /\ ld16 m (a + 4) = Z.of_nat (n_sectors (pr_content y)) /\
  ld16 m (a + 6) = pr_load x mod 16 /\ ld16 m (a + 8) = pr_load x / 16 /\ ld16 m (a + 10) = Z.of_nat (n_sectors (pr_content x)).
Proof.
  intros Hx Hy Nx Ny E.
  assert (forall v (l : list Z) b n, bytes_at m b (2 + n) = le16 v ++ l -> bytes_at m b 2 = le16 v /\ bytes_at m (b + 2) n = l) as Hs.
  { intros v l b n H. rewrite bytes_at_app in H. apply app_inj_1 in H; [exact H|reflexivity]. }
  cbn [triple app flat_map] in E. rewrite app_nil_r in E.
  apply (Hs _ _ _ 10%nat) in E as [E1 E]. apply (Hs _ _ _ 8%nat) in E as [E2 E]. apply (Hs _ _ _ 6%nat) in E as [E3 E].
  apply (Hs _ _ _ 4%nat) in E as [E4 E]. apply (Hs _ _ _ 2%nat) in E as [E5 E6].
  rewrite <- !Z.add_assoc in *. cbn [Z.add Pos.add Pos.succ] in *.
  repeat split; apply ld16_bytes; try assumption; Z.div_mod_to_equations; lia.
Qed.

(** The sectors of a program behind the bootstrap and the programs [pre]. *)
Lemma program_sectors boot pre x l d : (6 * length (pre ++ x :: l) <= 512 * n_sectors boot)%nat -> (1 <= n_sectors boot)%nat ->
  take (512 * n_sectors (pr_content x)) (drop (512 * n_sectors boot + length (contents pre)) (image_of boot (pre ++ x :: l) d)) =
  pad_file (pr_content x).
Proof.
  intros Hl Hb. unfold image_of, patched. set (w := information (pre ++ x :: l)).
  assert (2 * length w = 6 * length (pre ++ x :: l))%nat as Hw by (unfold w; rewrite length_information; lia).
  assert (length (flat_map le16 w) = 2 * length w)%nat as Hf by apply length_flat_le16. clearbody w.
  pose proof (length_pad_file boot) as Hp. set (img := pad_file boot ++ contents (pre ++ x :: l)).
  assert (512 * n_sectors boot <= length img)%nat as Hi by (unfold img; rewrite length_app; lia).
  rewrite drop_overwrite; [| |rewrite length_overwrite; rewrite ?Hf]; cbn [le16 length]; try lia.
  rewrite drop_overwrite by (rewrite Hf; lia). unfold img, contents. rewrite flat_map_app, <- drop_drop, drop_app_length' by exact (eq_sym Hp).
  rewrite drop_app_length' by reflexivity. cbn [flat_map]. apply take_app_length'. symmetry. apply length_pad_file.
Qed.

(** The word at an offset of a file. *)
Definition word_of (c : bytes) (k : nat) : Z :=
  nth k c 0 + 2 ^ 8 * nth (k + 1) c 0 + 2 ^ 16 * nth (k + 2) c 0 + 2 ^ 24 * nth (k + 3) c 0.

Lemma nth_bytes_at m a n i : (i < n)%nat -> nth i (bytes_at m a n) 0 = ld8 m (a + Z.of_nat i).
Proof.
  revert a i; induction n as [|n IH]; intros a [|i] Hi; [lia..| |]; cbn [bytes_at nth]; [f_equal; lia|].
  rewrite IH by lia. f_equal. lia.
Qed.

Lemma ld32_bytes m a n k : (k + 4 <= n)%nat -> ld32 m (a + Z.of_nat k) = word_of (bytes_at m a n) k.
Proof.
  intros Hk. unfold ld32, word_of. rewrite !nth_bytes_at by lia. rewrite !Nat2Z.inj_add, !Z.add_assoc. reflexivity.
Qed.

(** What the bootstrap has done when it enters the kernel: it is still in memory, and it
    has copied the user programs from their sectors behind those of the kernel to their
    address. *)
Record loaded_from (img : bytes) (kernel user : prog) (m : memory) : Prop := LoadedFrom {
  lf_boot : bytes_at m 0x7c00 1024 = take 1024 img;
  lf_user : bytes_at m (pr_load user) (512 * n_sectors (pr_content user)) =
    take (512 * n_sectors (pr_content user)) (drop (1024 + 512 * n_sectors (pr_content kernel)) img)
}.

Lemma n_sectors_some c : c <> [] -> (1 <= n_sectors c)%nat.
Proof. intros Hc. pose proof (n_sectors_spec c) as [H _]. destruct c; [done|]. cbn [length] in H. lia. Qed.

(** The table and the first words of the user programs in memory. *)
Lemma loaded_table boot kernel user l d m :
  n_sectors boot = 2%nat -> (6 * length (kernel :: user :: l) <= 1024)%nat ->
  Forall (fun x => 0 <= pr_load x /\ pr_load x + 512 * Z.of_nat (n_sectors (pr_content x)) <= 0x9ffff) [kernel; user] ->
  pr_content user <> [] -> loaded_from (image_of boot (kernel :: user :: l) d) kernel user m ->
  user_table m = pr_load user /\ ld16 m (USER_BLOB_DATA + 4) = Z.of_nat (n_sectors (pr_content user)) /\
  16 * ld16 m (USER_BLOB_DATA + 8) + ld16 m (USER_BLOB_DATA + 6) = pr_load kernel /\
  ld16 m (USER_BLOB_DATA + 10) = Z.of_nat (n_sectors (pr_content kernel)) /\
  ld32 m (pr_load user) = word_of (pad_file (pr_content user)) 0 /\
  ld32 m (pr_load user + 4) = word_of (pad_file (pr_content user)) 4.
Proof.
  intros Hb Hl [[Hk Nk] [[Hu Nu] _]%Forall_cons]%Forall_cons Hne [Hm Huser].
  apply (f_equal (drop 1012)) in Hm. rewrite (table_end boot kernel user l d Hb Hl) in Hm.
  change 1024%nat with (1012 + 12)%nat in Hm. rewrite bytes_at_app, drop_app_length' in Hm by (symmetry; apply length_bytes_at).
  change (0x7c00 + Z.of_nat 1012) with USER_BLOB_DATA in Hm.
  destruct (table_in_memory m _ kernel user ltac:(lia) ltac:(lia) ltac:(lia) ltac:(lia) Hm) as (E1 & E2 & E3 & E4 & E5 & E6).
  pose proof (n_sectors_some _ Hne) as Hn.
  pose proof (program_sectors boot [kernel] user l d ltac:(cbn [app]; lia) ltac:(lia)) as Hs. cbn [app contents flat_map] in Hs.
  rewrite app_nil_r, length_pad_file, Hb in Hs. change (512 * 2)%nat with 1024%nat in Hs. rewrite Hs in Huser.
  split; [|split; [exact E3|split; [|split; [exact E6|split]]]].
  - unfold user_table. rewrite E1, E2, Z.shiftl_mul_pow2 by lia. rewrite u32_small; Z.div_mod_to_equations; lia.
  - rewrite E4, E5. Z.div_mod_to_equations; lia.
  - rewrite <- Huser, <- (ld32_bytes m _ _ 0) by lia. f_equal. lia.
  - rewrite <- Huser, <- (ld32_bytes m _ _ 4) by lia. f_equal.
Qed.

(** C36: the kernel starts what the image builder was given.  A run of the builder on valid
    arguments (a bootstrap of two sectors; the kernel, then the user programs) leaves an
    image from which the system comes up: when the bootstrap of the image is in memory at
    0x7c00 and has copied the user programs from their sectors to their address, then
    [main] of the kernel, from any machine state in which it can run, finds the programs
    at the address the builder was given and starts the first process at the entry point
    in the first word of the user programs, with the second word as its return address.
    The table also has the lengths of both and the address of the kernel. *)
Theorem kernel_finds_programs {Lay : Layout} getopt av bn op boot kernel user l r p rs str :
  run_ok getopt av bn op boot (kernel :: user :: l) r p -> n_sectors boot = 2%nat -> pr_content user <> [] ->
  exists p' img, BuildImage.main getopt av p = Ret EXIT_SUCCESS p' /\ h_files p' !! op = Some img /\
    forall s, machine_ok rs str s -> loaded_from img kernel user (st_mem s) ->
      ld16 (st_mem s) (USER_BLOB_DATA + 4) = Z.of_nat (n_sectors (pr_content user)) /\
      16 * ld16 (st_mem s) (USER_BLOB_DATA + 8) + ld16 (st_mem s) (USER_BLOB_DATA + 6) = pr_load kernel /\
      ld16 (st_mem s) (USER_BLOB_DATA + 10) = Z.of_nat (n_sectors (pr_content kernel)) /\
      exists a s', Kernel.main s = Ret 0 s' /\
        first_runs (node_page a) (word_of (pad_file (pr_content user)) 0) (word_of (pad_file (pr_content user)) 4) str s'.
Proof.
  intros Hr Hb Hne. destruct (main_eq getopt av bn op boot _ r p Hr) as (p' & E & F).
  exists p', (image_of boot (kernel :: user :: l) (drive r)).
  split; [exact E|]. split; [rewrite F; apply lookup_insert_eq|]. intros s Hs Hm.
  destruct Hr as [_ _ _ _ (Hp & _) (Hsp & _) _ _]. rewrite Hb in Hsp. change (512 * 2)%nat with 1024%nat in Hsp.
  apply Forall_cons in Hp as [[_ _ _ Hk] Hp]. apply Forall_cons in Hp as [[_ _ _ Hu] _].
  destruct (loaded_table boot kernel user l (drive r) (st_mem s) Hb Hsp) as (E1 & E2 & E3 & E4 & E5 & E6);
    [repeat constructor; apply Hk || apply Hu|exact Hne|exact Hm|].
  split; [exact E2|]. split; [exact E3|]. split; [exact E4|].
  destruct (main_ends rs str s Hs) as (z & s' & Em & -> & a & l' & _ & Hf). exists a, s'. split; [exact Em|].
  rewrite E1, E5, E6 in Hf. exact Hf.
Qed.

(** The bare machine, with the image of the example instead of the table of its own. *)
Definition example_image : bytes := image_of example_boot example_progs DRIVE_USB.

Definition image_machine : kstate :=
  boot_state (st_bytes (st_bytes (st_bytes (map_memory ∅) 0x7c00 (take 1024 example_image)) 0x30000 (take 512 (drop 2048 example_image)))
    0x20000 (chars "init" ++ [0])) boot_line.

Definition in_range (b : bytes) : Prop := Forall (fun c => 0 <= c < 256) b.

Lemma in_range_check b : forallb (fun c => (0 <=? c) && (c <? 256)) b = true -> in_range b.
Proof.
  intros Hb. apply Forall_forall. intros c Hc. rewrite forallb_forall in Hb. apply list_elem_of_In in Hc. specialize (Hb c Hc). lia.
Qed.

Lemma bytes_stored m a b n : n = length b -> in_range b -> bytes_at (st_bytes m a b) a n = b.
Proof. intros -> Hb. now apply bytes_at_st_bytes. Qed.

Lemma image_machine_mem : st_mem image_machine = st_bytes (st_bytes (st_bytes (map_memory ∅) 0x7c00 (take 1024 example_image))
  0x30000 (take 512 (drop 2048 example_image))) 0x20000 (chars "init" ++ [0]).
Proof. reflexivity. Qed.

Lemma image_parts : length (take 1024 example_image) = 1024%nat /\ length (take 512 (drop 2048 example_image)) = 512%nat /\
  in_range (take 1024 example_image) /\ in_range (take 512 (drop 2048 example_image)).
Proof. repeat split; first [vm_compute; reflexivity|apply in_range_check; vm_compute; reflexivity]. Qed.

Lemma image_loaded : exists kernel user, example_progs = [kernel; user] /\ loaded_from example_image kernel user (st_mem image_machine).
Proof.
  eexists _, _. split; [reflexivity|]. rewrite image_machine_mem. destruct image_parts as (L1 & L2 & R1 & R2).
  split; cbn [pr_load pr_content].
  - revert L1 L2 R1. generalize (take 1024 example_image) (take 512 (drop 2048 example_image)). intros b u L1 L2 R1.
    rewrite !bytes_at_st_bytes_out by (rewrite ?L1, ?L2; cbn; lia). now apply bytes_stored.
  - change (512 * n_sectors (replicate 20 3%Z))%nat with 512%nat. change (1024 + 512 * n_sectors (replicate 1000 2%Z))%nat with 2048%nat.
    revert L2 R2. generalize (take 1024 example_image) (take 512 (drop 2048 example_image)). intros b u L2 R2.
    rewrite bytes_at_st_bytes_out by (cbn; lia). now apply bytes_stored.
Qed.

Lemma image_map : s32 (ld32 (st_mem image_machine) MMAP_ADDR) = Z.of_nat (length example_map) /\
  map_at (st_mem image_machine) (MMAP_ADDR + 4) example_map.
Proof. split; [vm_compute; reflexivity|vm_compute; intuition congruence]. Qed.

Lemma image_strings : cstring (st_mem image_machine) 0x20000 (chars "init") /\ user_table (st_mem image_machine) = 0x30000.
Proof. vm_compute. intuition congruence. Qed.

Lemma image_machine_ok : machine_ok example_map (chars "init") image_machine.
Proof.
  destruct image_map as [M1 M2]. destruct image_strings as (S1 & S2). destruct bare_machine_ok as [_ [_ B2] B3 B4 B5 B6 B7 _ [_ B9] B10 B11].
  split; [split; [exact M1|discriminate]|now split|exact B3|exact B4|destruct B5 as [C1 C2 C3 C4]; exact (CioRaw image_machine C1 C2 C3 C4)|exact B6|exact B7|rewrite S2; vm_compute; intuition congruence
    |now split|exact B10|exact B11].
Qed.

Lemma kernel_finds_programs_witness : exists p' img, BuildImage.main example_getopt example_av example_host = Ret EXIT_SUCCESS p' /\
  h_files p' !! chars "disk.img" = Some img /\ bytes_at (st_mem image_machine) 0x7c00 1024 = take 1024 img /\
  exists a s', Kernel.main image_machine = Ret 0 s' /\ first_runs (node_page a) 0x03030303 0x03030303 (chars "init") s'.
Proof.
  destruct (kernel_finds_programs example_getopt example_av _ _ _ _ _ [] _ example_host example_map (chars "init") example_run_ok
    ltac:(vm_compute; reflexivity) ltac:(discriminate)) as (p' & img & E & F & H).
  assert (img = example_image) as ->.
  { destruct (main_eq example_getopt example_av _ _ _ _ _ example_host example_run_ok) as (p2 & E2 & F2).
    rewrite E in E2. injection E2 as <-. rewrite F2, lookup_insert_eq in F. now injection F as <-. }
  destruct image_loaded as (kernel & user & Ep & Hl). injection Ep as <- <-.
  exists p', example_image. split; [exact E|]. split; [exact F|]. split; [exact (lf_boot _ _ _ _ Hl)|].
  destruct (H image_machine image_machine_ok Hl) as (_ & _ & _ & K). exact K.
Defined.

(** ** Failures *)

(** When [m] ends the process with failure, the image does not exist. *)
Definition clean {A} (m : T A) : Prop := forall p p', m p = Panic "exit 1" p' ->
  forall op, output_filename (h_vars p') = Some op -> h_files p' !! op = None.

Lemma clean_ret {A} (a : A) : clean (ret a).
Proof. intros p p' E. discriminate E. Qed.

Lemma clean_gets {A} (f : process image_vars -> A) : clean (gets f).
Proof. intros p p' E. discriminate E. Qed.

Lemma clean_var {A} (f : image_vars -> A) : clean (var f).
Proof. apply clean_gets. Qed.

Lemma clean_modify f : clean (modify f : T unit).
Proof. intros p p' E. discriminate E. Qed.

Lemma clean_undef {A} why : clean (undef why : T A).
Proof. intros p p' E. discriminate E. Qed.

Lemma clean_exit2 {A} : clean (exit 2 : T A).
Proof. intros p p' E. discriminate E. Qed.

Lemma clean_bind {A B} (m : T A) (k : A -> T B) : clean m -> (forall a, clean (k a)) -> clean (bind m k).
Proof.
  intros Hm Hk p p' E. unfold bind in E. destruct (m p) as [a q|msg q| |] eqn:Em; try discriminate E.
  - exact (Hk a q p' E).
  - injection E as -> ->. exact (Hm p p' Em).
Qed.

Lemma clean_when b (m : T unit) : clean m -> clean (when b m).
Proof. destruct b; [auto|]. intros _. apply clean_ret. Qed.

Lemma clean_loop {A B} (body : A -> T (A + B)) a : (forall a, clean (body a)) -> clean (loop body a).
Proof.
  intros Hb. assert (forall n a, clean (loopN n body a)) as Hn.
  { induction n as [|n IH]; intros x; cbn [loopN]; [apply clean_ret|]. apply clean_bind; [apply Hb|].
    intros [a'|b]; [apply IH|apply clean_ret]. }
  unfold loop. apply clean_bind.
  - intros p p'. rewrite loopP_loopN. apply Hn.
  - intros [a'|b]; [|apply clean_ret]. intros p p' E. discriminate E.
Qed.

Lemma clean_quit {A} msg b : clean (quit msg b : T A).
Proof.
  intros p p' E op Ho. unfold quit in E.
  destruct msg as [m|]; [destruct b|]; unfold bind, var, gets, fprintf_stderr, perror, modify, ret in E;
    cbn [h_vars h_files set_stderr] in E;
    (destruct (output_filename (h_vars p)) as [f|] eqn:Ef; unfold unlink, modify, ret, exit, panics in E;
      injection E as <-; cbn in *; [|congruence]; rewrite Ef in Ho; injection Ho as ->; apply lookup_delete_eq).
Qed.

Lemma clean_usage {A} : clean (usage_error : T A).
Proof.
  unfold usage_error. apply clean_bind; [apply clean_var|]. intros name. apply clean_bind; [apply clean_modify|].
  intros _. apply clean_quit.
Qed.

Lemma clean_get_stream fd : clean (get_stream fd : T _).
Proof. intros p p' E. unfold get_stream in E. destruct (h_streams p !! _); discriminate E. Qed.

Lemma clean_fopen path m : clean (fopen path m : T _).
Proof. intros p p' E. unfold fopen in E. destruct (decide _), m; try discriminate E; destruct (h_files p !! path); discriminate E. Qed.

Create HintDb clean discriminated.
#[export] Hint Resolve clean_ret clean_gets clean_var clean_modify clean_undef clean_exit2 clean_quit clean_usage clean_get_stream
  clean_fopen : clean.

Ltac clean_step :=
  lazymatch goal with
  | |- clean (bind _ _) => apply clean_bind; [|intros ?]
  | |- clean (when _ _) => apply clean_when
  | |- clean (loop _ _) => apply clean_loop; intros ?
  | |- clean (let _ := _ in _) => cbv zeta
  | |- clean (match ?x with _ => _ end) => destruct x
  | |- clean (fwrite _ _) => unfold fwrite
  | |- clean (fread _ _) => unfold fread
  | |- clean (fseek_set _ _) => unfold fseek_set
  | |- clean (set_pos _ _) => unfold set_pos
  | |- clean (fprintf_stderr _ _) => unfold fprintf_stderr
  | |- clean (fclose _) => unfold fclose
  | |- clean (var_set _) => unfold var_set
  | |- clean _ => solve [auto with clean]
  end.
Ltac cleanly := intros; repeat clean_step.

Lemma clean_copy_file in_ : clean (copy_file in_).
Proof. unfold copy_file. cleanly. Qed.

Lemma clean_push_info v : clean (push_info v).
Proof. unfold push_info. cleanly. Qed.

Lemma clean_decode addr : clean (decode_address addr).
Proof. unfold decode_address. cleanly. Qed.
#[export] Hint Resolve clean_copy_file clean_push_info clean_decode : clean.

Lemma clean_process_file name addr : clean (process_file name addr).
Proof. unfold process_file. cleanly. Qed.
#[export] Hint Resolve clean_process_file : clean.

Lemma clean_process_files av : clean (process_files av).
Proof.
  remember (length av) as n eqn:En. revert av En. induction n as [n IH] using lt_wf_ind. intros [|name [|addr av]] ->; cbn [process_files]; [cleanly..|].
  apply clean_bind; [cleanly|]. intros _. apply (IH (length av)); [cbn; lia|reflexivity].
Qed.

Lemma clean_process_options l : clean (process_options l).
Proof. induction l as [|o l IH]; cbn [process_options]; cleanly. Qed.

Lemma clean_process_args getopt av : clean (process_args getopt av).
Proof. unfold process_args. pose proof clean_process_options. cleanly. Qed.

Lemma clean_patch_image n : clean (patch_image n).
Proof. unfold patch_image, info_words. cleanly. Qed.
#[export] Hint Resolve clean_process_files clean_process_args clean_patch_image : clean.

(** C37: a failed run of the image builder leaves no image behind.  Whatever goes wrong (a
    usage error, a file that cannot be opened, a bad address, a program that is too large,
    a full device, no room in the bootstrap): when the process ends with the status of
    failure, the file that was to hold the image does not exist. *)
Theorem failed_build_leaves_nothing getopt av p p' op :
  BuildImage.main getopt av p = Panic "exit 1" p' -> output_filename (h_vars p') = Some op -> h_files p' !! op = None.
Proof.
  assert (clean (BuildImage.main getopt av)) as Hc by (unfold BuildImage.main, open_or_quit; cleanly).
  intros E. exact (Hc p p' E op).
Qed.

(** A load address in the form of the usage message. *)
Definition colon_av : list bytes := take 7 example_av ++ [chars "kernel.img"; chars "10c0:0000"].

Definition colon_end : option (process image_vars) :=
  match BuildImage.main example_getopt colon_av example_host with
  | Panic msg p => if String.eqb msg "exit 1" then Some p else None
  | _ => None
  end.

Lemma colon_fails : exists p', BuildImage.main example_getopt colon_av example_host = Panic "exit 1" p' /\
  output_filename (h_vars p') = Some (chars "disk.img").
Proof.
  assert (output_filename ∘ h_vars <$> colon_end = Some (Some (chars "disk.img"))) as H by (vm_compute; reflexivity).
  revert H. unfold colon_end. generalize (BuildImage.main example_getopt colon_av example_host) as o.
  intros [|msg p'| |] H; try discriminate H. destruct (String.eqb msg "exit 1") eqn:E; [|discriminate H].
  apply String.eqb_eq in E as ->. exists p'. split; [reflexivity|]. now injection H.
Qed.

Lemma failed_build_leaves_nothing_witness : exists p',
  BuildImage.main example_getopt colon_av example_host = Panic "exit 1" p' /\ h_files p' !! chars "disk.img" = None.
Proof.
  destruct colon_fails as (p' & E & Ho). exists p'. split; [exact E|].
  exact (failed_build_leaves_nothing example_getopt colon_av example_host p' (chars "disk.img") E Ho).
Defined.

(** ** Addresses with a colon *)

Definition has_colon (s : bytes) : Prop := 58 ∈ s.

Lemma strchr_colon s : has_colon s -> exists cp, strchr s 58 = Some cp.
Proof.
  induction s as [|c s IH]; intros H; [now apply not_elem_of_nil in H|]. cbn [strchr].
  destruct (Z.eqb_spec c 58); [eauto|]. apply IH. apply elem_of_cons in H as [?|H]; [congruence|exact H].
Qed.

Lemma colon_tail c s : c <> 58 -> has_colon (c :: s) -> has_colon s.
Proof. intros Hc H. apply elem_of_cons in H as [?|H]; [congruence|exact H]. Qed.

Lemma colon_spaces s : has_colon s -> has_colon (skip_spaces s).
Proof.
  induction s as [|c s IH]; intros H; [exact H|]. cbn [skip_spaces]. destruct (isspace c) eqn:E; [|exact H].
  apply IH. eapply colon_tail; [|exact H]. intros ->. discriminate E.
Qed.

Lemma colon_digits base v s : base <= 36 -> has_colon s -> has_colon (snd (read_digits base v s)).
Proof.
  intros Hb. revert v; induction s as [|c s IH]; intros v H; [exact H|]. cbn [read_digits].
  destruct (Z.ltb_spec (digit_value c) base) as [Hd|]; [|exact H]. apply IH. eapply colon_tail; [|exact H].
  intros ->. cbn in Hd. lia.
Qed.

Lemma colon_prefix s s' : hex_prefix s = Some s' -> has_colon s -> has_colon s'.
Proof.
  unfold hex_prefix. destruct s as [|c [|x [|d s]]]; try discriminate. intros E H.
  destruct ((c =? 48) && _ && _) eqn:Eb; [|discriminate E]. injection E as <-.
  apply andb_true_iff in Eb as [[Ec%Z.eqb_eq Ex]%andb_true_iff _]. subst c.
  apply (colon_tail 48), (colon_tail x) in H; [exact H| |discriminate]. intros ->. discriminate Ex.
Qed.

Lemma colon_sign s : has_colon s -> has_colon (snd (read_sign s)).
Proof.
  destruct s as [|c s]; [auto|]. cbn [read_sign]. intros H.
  destruct (Z.eqb_spec c 45) as [->|]; [now apply (colon_tail 45)|].
  destruct (Z.eqb_spec c 43) as [->|]; [now apply (colon_tail 43)|exact H].
Qed.

Lemma colon_base s : has_colon s -> fst (read_base 16 s) = 16 /\ has_colon (snd (read_base 16 s)).
Proof.
  intros H. unfold read_base. cbn [Z.eqb Pos.eqb orb]. destruct (hex_prefix s) as [s'|] eqn:E; [|auto].
  split; [reflexivity|now apply (colon_prefix s)].
Qed.

(** A number never reaches beyond a colon. *)
Lemma strtol_colon s : has_colon s -> snd (strtol s 16) <> [].
Proof.
  assert (forall l, has_colon l -> l <> []) as Hne by (intros l Hl ->; now apply not_elem_of_nil in Hl).
  intros H. unfold strtol. pose proof (colon_sign _ (colon_spaces s H)) as H2.
  destruct (read_sign (skip_spaces s)) as [neg s2]. cbn [snd] in H2. destruct (colon_base s2 H2) as [Hb H3].
  destruct (read_base 16 s2) as [b s3]. cbn [fst snd] in Hb, H3. subst b. destruct s3 as [|c s3]; [now apply Hne|].
  destruct (digit_value c <? 16); [|now apply Hne].
  pose proof (colon_digits 16 0 (c :: s3) ltac:(lia) H3) as H4. destruct (read_digits 16 0 (c :: s3)) as [v rest]. now apply Hne.
Qed.

Lemma quit_ends {A} msg b p (r : A) p' : quit msg b p <> Ret r p'.
Proof.
  unfold quit. intros (? & p1 & _ & E)%bind_inv_Ret. apply bind_inv_Ret in E as (? & p2 & _ & E).
  apply bind_inv_Ret in E as (? & p3 & _ & E). discriminate E.
Qed.

(** A message, and the end. *)
Lemma fails {A} fmt args p (r : A) p' : bind (fprintf_stderr fmt args) (fun _ => quit None false) p <> Ret r p'.
Proof. intros (? & p1 & _ & E)%bind_inv_Ret. now apply quit_ends in E. Qed.

Lemma decode_colon addr p d p' : has_colon addr -> decode_address addr p = Ret d p' -> snd d = false.
Proof.
  intros Hc E. unfold decode_address in E. destruct (strchr_colon addr Hc) as [cp Ecp]. rewrite Ecp in E.
  destruct ((_ =? 9) && _); [|now apply fails in E].
  pose proof (strtol_colon addr Hc) as Hne. destruct (strtol addr 16) as [a1 ep1], (strtol (drop 5 addr) 16) as [a2 ep2].
  injection E as <- _. now destruct ep1.
Qed.

Lemma process_file_colon name addr p r p' : has_colon addr -> process_file name addr p <> Ret r p'.
Proof.
  intros Hc (f & p1 & _ & E)%bind_inv_Ret. destruct f as [fd|]; [|now apply quit_ends in E].
  apply bind_inv_Ret in E as (n & p2 & _ & E). apply bind_inv_Ret in E as (? & p3 & _ & E).
  apply bind_inv_Ret in E as (d & p4 & Ed & E). apply decode_colon in Ed; [|exact Hc].
  destruct d as [[[segment offset] address] valid]. cbn [snd] in Ed. subst valid.
  apply bind_inv_Ret in E as (pn & p5 & _ & E). apply bind_inv_Ret in E as (? & p6 & E & _). now apply fails in E.
Qed.

Lemma process_files_colon pre name addr rest p r p' : Nat.Even (length pre) -> has_colon addr ->
  process_files (pre ++ name :: addr :: rest) p <> Ret r p'.
Proof.
  intros [n Hn] Hc. revert pre Hn p. induction n as [|n IH]; intros pre Hn p E.
  - apply nil_length_inv in Hn as ->. cbn [app process_files] in E.
    apply bind_inv_Ret in E as (? & p1 & E & _). now apply process_file_colon in E.
  - destruct pre as [|x [|y pre]]; [cbn in Hn; lia..|]. cbn [app process_files] in E.
    apply bind_inv_Ret in E as (? & p1 & _ & E). apply (IH pre) in E; [exact E|]. cbn in Hn. lia.
Qed.

Lemma process_args_index getopt av p i p' : process_args getopt av p = Ret i p' -> i = snd (getopt av).
Proof.
  unfold process_args. destruct (getopt av) as [opts optind]. intros (? & p1 & _ & E)%bind_inv_Ret.
  repeat (apply bind_inv_Ret in E as (? & ? & _ & E)). cbn in E. now injection E.
Qed.

(** C38: no address is accepted in the form segment:offset.  The usage message of the image
    builder offers load addresses like 10c0:0000; a run in which the address of some
    program has a colon never succeeds, whatever the files, the options and the rest of
    the arguments are: the first number ends at the colon, and only numbers that end with
    the argument are valid. *)
Theorem segment_offset_rejected getopt av pre name addr rest p status p' :
  drop (Z.to_nat (snd (getopt av))) av = pre ++ name :: addr :: rest -> Nat.Even (length pre) -> has_colon addr ->
  BuildImage.main getopt av p <> Ret status p'.
Proof.
  intros Hav Hp Hc (? & p1 & _ & E)%bind_inv_Ret. apply bind_inv_Ret in E as (i & p2 & Ei & E).
  apply process_args_index in Ei as ->. do 6 (apply bind_inv_Ret in E as (? & ? & _ & E)). cbv zeta in E.
  apply bind_inv_Ret in E as (? & p3 & _ & E). apply bind_inv_Ret in E as (? & p4 & E & _).
  rewrite Hav in E. now apply process_files_colon in E.
Qed.

Lemma segment_offset_rejected_witness :
  ~ exists status p', BuildImage.main example_getopt colon_av example_host = Ret status p'.
Proof.
  intros (status & p' & E).
  refine (segment_offset_rejected example_getopt colon_av [] (chars "kernel.img") (chars "10c0:0000") [] example_host status p' _ _ _ E).
  - vm_compute. reflexivity.
  - exists 0%nat. reflexivity.
  - unfold has_colon. apply (bool_decide_unpack (58 ∈ chars "10c0:0000")). vm_compute. exact I.
Defined.
