(* ===== verification/MkBlob.v ===== *)
(** misc/util/mkblob.c: the tool that joins the ELF files of the user programs to one blob
    with a table of its contents.  The list of the programs, with its two pointers, is a
    Coq list in the order of the links. *)

From S2P Require Import Prelude Host.

Open Scope kernel_scope.

Definition NAMELEN : Z := 20.
Definition FL_ROUNDUP : Z := 1.
Definition FSIZE_MASK : Z := 7.
Definition SIZEOF_EHDR : Z := 52.
Definition SIZEOF_HEADER : Z := 8.
Definition SIZEOF_PROG : Z := 32.

Record prog_t := Prog { p_name : bytes; p_offset : Z; p_size : Z; p_flags : Z }.

(** [fullname] is what [strdup] has returned. *)
Record node_t := Node { data : prog_t; fullname : option bytes }.

(** The global variables, and the number of allocations that will still succeed. *)
Record blob_vars := BlobVars { progs : list node_t; n_progs : Z; offset : Z; heap : Z }.

Definition blob_vars0 (heap : Z) : blob_vars := BlobVars [] 0 0 heap.

Definition set_progs v r := BlobVars v (n_progs r) (offset r) (heap r).
Definition set_n_progs v r := BlobVars (progs r) v (offset r) (heap r).
Definition set_offset v r := BlobVars (progs r) (n_progs r) v (heap r).
Definition set_heap v r := BlobVars (progs r) (n_progs r) (offset r) v.

Notation B := (M (process blob_vars)).

(** [calloc] and [strdup]: is there memory? *)
Definition alloc : B bool :=
  h <- var heap ;;
  if 0 <? h then var_set (set_heap (h - 1)) ;; ret true else ret false.

Definition ELF_MAGIC : bytes := [127; 69; 76; 70].

(** [strncpy] into a cleared field of [NAMELEN] bytes. *)
Definition name_field (s : bytes) : bytes :=
  let s := take (Z.to_nat NAMELEN - 1) s in s ++ replicate (Z.to_nat NAMELEN - length s) 0.

(** The last component of a path. *)
Definition base_name (name : bytes) : bytes :=
  match strrchr name 47 with None => name | Some slash => tl slash end.

(** The bytes that fill a file of this size up to a multiple of eight. *)
Definition rounded (size : Z) : bool := negb (Z.land size FSIZE_MASK =? 0).

Section MkBlob.
(** Which names are those of directories and devices; [h_files] has the regular files. *)
Context (special : bytes -> bool).

(** [stat]: is it a regular file, and its size. *)
Definition stat (name : bytes) : B (option (bool * Z)) :=
  f <- gets h_files ;;
  ret (if special name then Some (false, 0)
       else match f !! name with Some c => Some (true, Z.of_nat (length c)) | None => None end).

Definition report (fmt : string) (args : list harg) : B unit :=
  fprintf_stderr (chars fmt ++ [10])%list args.

(** The entry for a file that has passed the tests. *)
Definition add_prog (name : bytes) (st_size : Z) : B unit :=
  ok <- alloc ;;
  if negb ok then report "%s: calloc prog returned NULL" [HS name]
  else
    ok <- alloc ;;
    if negb ok then report "%s: calloc node returned NULL" [HS name]
    else
      dup <- alloc ;;
      off <- var offset ;;
      n <- var n_progs ;;
      l <- var progs ;;
      var_set (set_n_progs (u32 (n + 1))) ;;
      var_set (set_offset (u32 (u32 (off + st_size) +
        (if rounded st_size then 8 - Z.land st_size FSIZE_MASK else 0)))) ;;
      var_set (set_progs (l ++ [Node (Prog (name_field (base_name name)) off (u32 st_size)
        (if rounded st_size then FL_ROUNDUP else 0)) (if dup : bool then Some name else None)])).

Definition process (name : bytes) : B unit :=
  if NAMELEN <=? Z.of_nat (length name) then
    report "%s: name exceeds length limit (%d)" [HS name; HD (NAMELEN - 1)]
  else
    st <- stat name ;;
    match st with
    | None => perror name
    | Some (reg, st_size) =>
        if negb reg then report "%s: not a regular file" [HS name]
        else
          f <- fopen name RB ;;
          match f with
          | None => perror name
          | Some fd =>
              hdr <- fread fd SIZEOF_EHDR ;;
              fclose fd ;;
              let n := Z.of_nat (length hdr) in
              if negb (n =? SIZEOF_EHDR) then
                report "%s: header read was short - only %d" [HS name; HD n]
              else if negb (bool_decide (take 4 hdr = ELF_MAGIC)) then
                report "%s: bad ELF magic number" [HS name]
              else add_prog name st_size
          end
    end.

(** The name that is printed: the string in the field. *)
Definition prog_name (prog : prog_t) : bytes := to_nul (p_name prog).

Definition copy (ofd : Z) (node : node_t) : B unit :=
  let prog := data node in
  f <- (match fullname node with Some name => fopen name RB | None => ret None end) ;;
  match f with
  | None => perror (default [] (fullname node))
  | Some fd =>
      loop (fun _ : unit =>
        buf <- fread fd 512 ;;
        let n := Z.of_nat (length buf) in
        if n <? 1 then ret (inr tt)
        else
          k <- fwrite ofd buf ;;
          when (negb (k =? n)) (report "%s: write of %d returned %d" [HS (prog_name prog); HD n; HD k]) ;;
          ret (inl tt)) tt ;;
      printf (chars "%s: copied %d") [HS (prog_name prog); HD (s32 (p_size prog))] ;;
      when (negb (Z.land (p_flags prog) FL_ROUNDUP =? 0))
        (let nbytes := 8 - Z.land (p_size prog) FSIZE_MASK in
         n <- fwrite ofd (replicate (Z.to_nat nbytes) 0) ;;
         when (negb (n =? nbytes))
           (report "%s: fill write of %d returned %d" [HS (prog_name prog); HD nbytes; HD n]) ;;
         printf (chars "(+%d)") [HD n]) ;;
      puts (chars " bytes") ;;
      fclose fd
  end.

(** A write of [size] bytes that must be complete. *)
Definition write_or_exit (ofd : Z) (b : bytes) (what : string) : B unit :=
  n <- fwrite ofd b ;;
  when (negb (n =? Z.of_nat (length b))) (perror (chars what) ;; fclose ofd ;; exit 1).

Definition header_bytes (n : Z) : bytes := chars "BLB" ++ [0] ++ le32 n.

Definition prog_bytes (prog : prog_t) : bytes :=
  p_name prog ++ le32 (p_offset prog) ++ le32 (p_size prog) ++ le32 (p_flags prog).

(** An operation for every element of a list. *)
Fixpoint for_each {A} (l : list A) (body : A -> B unit) : B unit :=
  match l with [] => ret tt | x :: l => body x ;; for_each l body end.

Definition user_img : bytes := chars "user.img".

(** The offsets in the table count from the start of the blob. *)
Definition relocate (hlen : Z) (node : node_t) : node_t :=
  Node (Prog (p_name (data node)) (u32 (p_offset (data node) + hlen)) (p_size (data node)) (p_flags (data node)))
    (fullname node).

Definition main (argv : list bytes) : B Z :=
  for_each (tl argv) process ;;
  n <- var n_progs ;;
  when (n <? 1) (fprintf_stderr (chars "Nothing to do... exiting.") [] ;; exit 0) ;;
  f <- fopen user_img WB ;;
  match f with
  | None => perror user_img ;; exit 1
  | Some ofd =>
      printf (chars "Processing %d ELF files" ++ [10])%list [HD (s32 n)] ;;
      let hlen := u32 (SIZEOF_HEADER + n * SIZEOF_PROG) in
      l <- var progs ;;
      var_set (set_progs (map (relocate hlen) l)) ;;
      write_or_exit ofd (header_bytes n) "blob header" ;;
      l <- var progs ;;
      for_each l (fun curr => write_or_exit ofd (prog_bytes (data curr)) "blob prog entry write") ;;
      for_each l (copy ofd) ;;
      fclose ofd ;;
      ret 0
  end.
End MkBlob.
