(* ===== verification/ListBlob.v ===== *)
(** misc/util/listblob.c: the tool that prints the table of a blob, as a list, as
    preprocessor symbols or as the members of a C enumeration.  The table is an array of
    bytes in the stack of the process. *)

From S2P Require Import Prelude Host.

Open Scope kernel_scope.

Definition SIZEOF_HEADER : nat := 8.
Definition SIZEOF_PROG : nat := 32.

(** The global variables that are used. *)
Record list_vars := ListVars { defs : bool; enums : bool }.

Definition list_vars0 : list_vars := ListVars false false.

Definition set_defs v r := ListVars v (enums r).
Definition set_enums v r := ListVars (defs r) v.

Notation L := (M (process list_vars)).

Definition report (fmt : string) (args : list harg) : L unit :=
  fprintf_stderr (chars fmt ++ [10])%list args.

Definition lines (l : list string) : bytes := flat_map (fun s => chars s ++ [10]) l.

Definition header : bytes :=
  lines ["/**"; "** @file	userids.h"; "**"; "** @author	Warren R. Carithers"; "**";
    "** @brief	IDs for user-level programs"; "**";
    "** NOTE: this file is automatically generated when the user.img file";
    "** is created. Do not edit this manually!"; "*/"; "";
    "#ifndef USERIDS_H_"; "#define USERIDS_H_"; ""; "#ifndef ASM_SRC"; "/*";
    "** These IDs are used to identify the various user programs.";
    "** Each call to exec() will provide one of these as the first"; "** argument."; "**";
    "** This list should be updated if/when the collection of"; "** user processes changes."; "*/"]
  ++ chars "enum users_e {".

Definition trailer : bytes :=
  [10; 9] ++ lines ["// sentinel"] ++ [9] ++
  lines [", N_USERS"; "};"; "#endif  /* !ASM_SRC */"; ""] ++ chars "#endif".

(** The string at a place of the array; it must end there. *)
Definition string_at (b : bytes) (i : nat) : L bytes :=
  if existsb (Z.eqb 0) (drop i b) then ret (to_nul (drop i b)) else undef "string not terminated".

(** The C locale: only the letters of ASCII. *)
Definition toupper (c : Z) : Z := if (97 <=? c) && (c <=? 122) then c - 32 else c.

(** [process( num, &progs[num] )]: the array may have changed, in the first letter of the
    name. *)
Definition process (num : nat) (progs : bytes) : L bytes :=
  let prog := (SIZEOF_PROG * num)%nat in
  d <- var defs ;;
  e <- var enums ;;
  if d || e then
    name <- string_at progs prog ;;
    let slash := match strrchr name 47 with
      | None => prog
      | Some s => (prog + (length name - length s) + 1)%nat
      end in
    let progs := alter toupper slash progs in
    name <- string_at progs prog ;;
    (if d : bool then printf (chars "#define %-15s %2d" ++ [10])%list [HS name; HD (Z.of_nat num)]
     else
       (if (num =? 0)%nat then puts header ;; putchar 9
        else fputs_stdout (if Z.land (Z.of_nat num) 7 =? 0 then chars "," ++ [10; 9] else chars ", ")) ;;
       printf (chars "%s") [HS name]) ;;
    ret progs
  else
    name <- string_at progs prog ;;
    printf (chars "Entry %2d:  ") [HD (Z.of_nat num)] ;;
    printf (chars "%-s,") [HS name] ;;
    printf (chars " offset 0x%x, size 0x%x, flags %08x" ++ [10])%list
      [HD (word_at progs (prog + 20)); HD (word_at progs (prog + 24)); HD (word_at progs (prog + 28))] ;;
    ret progs.

Definition usage (name : bytes) : L unit := report "usage: %s [-d | -e] blob_name" [HS name].

Section Main.
(** How large an array on the stack may be. *)
Context (stack_size : Z).

(** The options: the index of the name. *)
Definition options (argv : list bytes) : L nat :=
  let arg0 := nth 0 argv [] in
  if (length argv <? 2)%nat || (3 <? length argv)%nat then usage arg0 ;; exit 1
  else if (length argv =? 3)%nat then
    let arg1 := nth 1 argv [] in
    (if bool_decide (arg1 = chars "-d") then var_set (set_defs true)
     else if bool_decide (arg1 = chars "-e") then var_set (set_enums true)
     else usage arg0 ;; exit 1) ;;
    ret 2%nat
  else ret 1%nat.

(** The header of the blob: the number of programs. *)
Definition read_header (name : bytes) (fd : Z) : L Z :=
  hdr <- fread fd (Z.of_nat SIZEOF_HEADER) ;;
  let n := length hdr in
  if negb (n =? SIZEOF_HEADER)%nat then
    report "%s: header read returned only %d bytes" [HS name; HD (Z.of_nat n)] ;; fclose fd ;; exit 1
  else if negb (bool_decide (take 4 hdr = chars "BLB" ++ [0])) then
    report "%s: bad magic number" [HS name] ;; fclose fd ;; exit 1
  else
    let num := word_at hdr 4 in
    if num <? 1 then report "%s: no programs in blob?" [HS name] ;; fclose fd ;; exit 1
    else ret num.

Definition read_table (name : bytes) (fd num : Z) : L bytes :=
  let size := num * Z.of_nat SIZEOF_PROG in
  if stack_size <? size then undef "stack overflow"
  else
    progs <- fread fd size ;;
    let n := Z.of_nat (length progs) in
    if negb (n =? s32 size) then
      report "%s: prog table only %d bytes, expected %lu" [HS name; HD n; HD size] ;; fclose fd ;; exit 1
    else ret progs.

Definition main (argv : list bytes) : L Z :=
  nameix <- options argv ;;
  let name := nth nameix argv [] in
  f <- fopen name RB ;;
  match f with
  | None => perror name ;; exit 1
  | Some fd =>
      num <- read_header name fd ;;
      progs <- read_table name fd num ;;
      loop (fun '(i, progs) =>
        if Z.of_nat i <? num then
          progs <- process i progs ;;
          ret (inl ((i + 1)%nat, progs))
        else ret (inr tt)) (0%nat, progs) ;;
      e <- var enums ;;
      when e (puts trailer) ;;
      fclose fd ;;
      ret 0
  end.
End Main.
