(* ===== verification/BlobSpec.v ===== *)
(** misc/util/mkblob.c: the blob that a run of the tool leaves. *)

From S2P Require Import Prelude Host HostSpec MkBlob.

Open Scope kernel_scope.

Implicit Types (p q : Host.process blob_vars).

(** ** The files that go into the blob *)

(** A program: the name that was given, and the contents of the file. *)
Record elf := Elf { e_name : bytes; e_content : bytes }.

Definition size_of (e : elf) : Z := Z.of_nat (length (e_content e)).

(** How many zeros fill a file of this size up to a multiple of eight. *)
Definition fill (size : Z) : Z := if rounded size then 8 - Z.land size FSIZE_MASK else 0.

Definition padded (e : elf) : bytes := e_content e ++ replicate (Z.to_nat (fill (size_of e))) 0.

Lemma land_7 n : Z.land n FSIZE_MASK = n mod 8.
Proof. change FSIZE_MASK with (Z.ones 3). now rewrite Z.land_ones. Qed.

Lemma fill_spec size : 0 <= fill size < 8 /\ (size + fill size) mod 8 = 0.
Proof.
  unfold fill, rounded. rewrite land_7. destruct (Z.eqb_spec (size mod 8) 0); cbn [negb];
    Z.div_mod_to_equations; lia.
Qed.

Lemma length_padded e : Z.of_nat (length (padded e)) = size_of e + fill (size_of e).
Proof. unfold padded, size_of. pose proof (fill_spec (Z.of_nat (length (e_content e)))). rewrite length_app, length_replicate. lia. Qed.

Definition flags_of (e : elf) : Z := if rounded (size_of e) then FL_ROUNDUP else 0.

Definition node_of (off : Z) (e : elf) : node_t :=
  Node (Prog (name_field (base_name (e_name e))) off (u32 (size_of e)) (flags_of e)) (Some (e_name e)).

Definition next (off : Z) (e : elf) : Z := u32 (off + Z.of_nat (length (padded e))).

Fixpoint nodes (off : Z) (l : list elf) : list node_t :=
  match l with [] => [] | e :: l => node_of off e :: nodes (next off e) l end.

Section MkBlob.
Context (special : bytes -> bool).

(** The files that [process] accepts. *)
Definition accepted p (name : bytes) : bool :=
  (Z.of_nat (length name) <? NAMELEN) && negb (special name) && bool_decide (name ∉ h_denied p) &&
  match h_files p !! name with
  | Some c => (52 <=? length c)%nat && bool_decide (take 4 c = ELF_MAGIC)
  | None => false
  end.

Definition elves p (names : list bytes) : list elf :=
  map (fun name => Elf name (default [] (h_files p !! name))) (List.filter (accepted p) names).

(** The variables when the files [l] have been added. *)
Definition added (l : list elf) (r : blob_vars) : blob_vars :=
  BlobVars (progs r ++ nodes (offset r) l) (fold_left (fun n _ => u32 (n + 1)) l (n_progs r))
    (fold_left next l (offset r)) (heap r - 3 * Z.of_nat (length l)).

Lemma added_nil r : added [] r = r.
Proof. destruct r. unfold added. cbn. f_equal; [apply app_nil_r|lia]. Qed.

Lemma added_cons e l r : added (e :: l) r = added l (added [e] r).
Proof. unfold added. cbn. f_equal; [now rewrite <- app_assoc|lia]. Qed.

(** Only messages, streams and the variables have changed. *)
Record same_world p q : Prop := SameWorld {
  sw_files : h_files q = h_files p;
  sw_room : h_room q = h_room p;
  sw_denied : h_denied q = h_denied p
}.

Lemma same_world_refl p : same_world p p.
Proof. done. Qed.

Lemma same_world_trans p q r : same_world p q -> same_world q r -> same_world p r.
Proof. intros [] []. split; congruence. Qed.

Lemma alloc_eq p : 0 < heap (h_vars p) ->
  alloc p = Ret true (set_vars (fun r => set_heap (heap r - 1) r) p).
Proof.
  intros H. unfold alloc, var. rewrite run_gets'. destruct (Z.ltb_spec 0 (heap (h_vars p))); [|lia]. reflexivity.
Qed.

Lemma add_prog_eq p name c : h_files p !! name = Some c -> 3 <= heap (h_vars p) ->
  exists q, add_prog name (Z.of_nat (length c)) p = Ret tt q /\ same_world p q /\
    h_vars q = added [Elf name c] (h_vars p).
Proof.
  intros Hc Hh. unfold add_prog. rewrite (bind_Ret _ _ _ _ _ (alloc_eq p ltac:(lia))). cbn [negb].
  set (p1 := set_vars _ p). rewrite (bind_Ret _ _ _ _ _ (alloc_eq p1 ltac:(cbn; lia))). cbn [negb].
  set (p2 := set_vars _ p1). rewrite (bind_Ret _ _ _ _ _ (alloc_eq p2 ltac:(cbn; lia))).
  set (p3 := set_vars _ p2). unfold var. rewrite !run_gets'. eexists. split; [reflexivity|]. split; [done|].
  cbn. unfold added. cbn [nodes fold_left length].
  unfold set_progs, set_offset, set_n_progs, set_heap. cbn [progs offset n_progs heap]. f_equal; [|lia].
  unfold next. rewrite length_padded. unfold size_of. cbn [e_content]. fold (fill (Z.of_nat (length c))).
  now rewrite u32_add_l, Z.add_assoc.
Qed.

Lemma process_eq p name : 3 <= heap (h_vars p) ->
  exists q, process special name p = Ret tt q /\ same_world p q /\
    h_vars q = if accepted p name then added (elves p [name]) (h_vars p) else h_vars p.
Proof.
  intros Hh. unfold process, elves. cbn [List.filter]. unfold accepted.
  rewrite Z.ltb_antisym. destruct (NAMELEN <=? Z.of_nat (length name)); cbn [negb andb]; [now eexists|].
  unfold stat. rewrite run_bind_gets. destruct (special name); cbn [negb andb]; [now eexists|].
  destruct (h_files p !! name) as [c|] eqn:Ec; [|rewrite andb_false_r; now eexists]. cbn [negb].
  destruct (bool_decide_reflect (name ∉ h_denied p)) as [Hd|Hd]; cbn [andb].
  2:{ unfold fopen. unfold bind at 1. rewrite decide_True by (now apply dec_stable). now eexists. }
  destruct (fopen_rb p name c Hd Ec) as (q1 & E1 & -> & S1). rewrite (bind_Ret _ _ _ _ _ E1).
  change SIZEOF_EHDR with (Z.of_nat 52) at 1. rewrite (bind_Ret _ _ _ _ _ (fread_eq _ _ _ _ _ 52 S1)).
  rewrite drop_0. unfold fclose. rewrite bind_ret_l. cbv zeta. rewrite length_take, take_take.
  change SIZEOF_EHDR with (Z.of_nat 52). change (4 `min` 52)%nat with 4%nat.
  destruct (Nat.leb_spec 52 (length c)); cbn [andb].
  2:{ destruct (Z.eqb_spec (Z.of_nat (52 `min` length c)) (Z.of_nat 52)); [lia|]. now eexists. }
  destruct (Z.eqb_spec (Z.of_nat (52 `min` length c)) (Z.of_nat 52)); [|lia]. cbn [negb].
  destruct (bool_decide (take 4 c = ELF_MAGIC)); cbn [negb]; [|now eexists].
  cbn [map]. rewrite Ec. cbn [default from_option].
  match goal with |- context [add_prog name _ ?s] => destruct (add_prog_eq s name c Ec Hh) as (q & E & [W1 W2 W3] & V) end.
  now exists q.
Qed.

Lemma elves_world p q names : same_world p q -> elves q names = elves p names.
Proof.
  intros [F _ D]. unfold elves. rewrite F. f_equal. apply List.filter_ext. intros name. unfold accepted. now rewrite F, D.
Qed.

Lemma elves_cons p name names : elves p (name :: names) = elves p [name] ++ elves p names.
Proof. unfold elves. cbn [List.filter]. now destruct (accepted p name). Qed.

Lemma processes_eq names p : 3 * Z.of_nat (length names) <= heap (h_vars p) ->
  exists q, for_each names (process special) p = Ret tt q /\ same_world p q /\ h_vars q = added (elves p names) (h_vars p).
Proof.
  revert p. induction names as [|name names IH]; intros p Hh.
  { exists p. split; [reflexivity|]. split; [done|]. symmetry. apply added_nil. }
  cbn [length] in Hh. destruct (process_eq p name ltac:(lia)) as (q1 & E1 & W1 & V1).
  assert (heap (h_vars p) - 3 <= heap (h_vars q1)) as Hh1.
  { rewrite V1. unfold elves. cbn [List.filter]. destruct (accepted p name); cbn; lia. }
  destruct (IH q1 ltac:(lia)) as (q & E & W & V). exists q. cbn [for_each]. rewrite (bind_Ret _ _ _ _ _ E1).
  split; [exact E|]. split; [now apply (same_world_trans _ q1)|].
  rewrite V, (elves_world p q1 names W1), elves_cons, V1. unfold elves at 2 3. cbn [List.filter].
  destruct (accepted p name); [|done]. cbn [map app]. symmetry. apply added_cons.
Qed.
End MkBlob.

(** ** Writing the blob *)

(** The tool writes the blob [img]; the rest is as in [p] (but for messages and streams). *)
Record writing (o : nat) p (img : bytes) q : Prop := Writing {
  wr_at : stream_at q o user_img (length img) img;
  wr_files : h_files q = <[user_img := img]> (h_files p);
  wr_room : h_room q = h_room p - Z.of_nat (length img);
  wr_denied : h_denied q = h_denied p;
  wr_vars : h_vars q = h_vars p
}.

(** Messages do not count. *)
Lemma writing_printf o p img q f : writing o p img q -> writing o p img (set_stdout f q).
Proof. now intros [[] ? ? ? ?]. Qed.

Lemma write_eq o p img q b : writing o p img q -> Z.of_nat (length (img ++ b)) <= h_room p ->
  exists q', fwrite (Z.of_nat o) b q = Ret (Z.of_nat (length b)) q' /\ writing o p (img ++ b) q' /\
    q' = written o user_img (length img) img b q.
Proof.
  intros [S F R D V] Hr. rewrite length_app in Hr. eexists.
  split; [apply (fwrite_eq q o user_img (length img) img b S); lia|]. split; [|reflexivity].
  pose proof (written_at q o user_img (length img) img b S) as S'. rewrite overwrite_end in S'.
  split.
  - rewrite length_app. exact S'.
  - cbn. now rewrite overwrite_end, F, insert_insert_eq.
  - cbn. rewrite length_app. lia.
  - exact D.
  - exact V.
Qed.

Lemma write_or_exit_eq o p img q b what : writing o p img q -> Z.of_nat (length (img ++ b)) <= h_room p ->
  exists q', write_or_exit (Z.of_nat o) b what q = Ret tt q' /\ writing o p (img ++ b) q'.
Proof.
  intros W Hr. destruct (write_eq o p img q b W Hr) as (q' & E & W' & _). exists q'. split; [|exact W'].
  unfold write_or_exit. now rewrite (bind_Ret _ _ _ _ _ E), Z.eqb_refl.
Qed.

(** What every operation appends. *)
Lemma for_each_writing {A} (body : A -> B unit) (f : A -> bytes) o p l :
  (forall x img q, x ∈ l -> writing o p img q -> Z.of_nat (length (img ++ f x)) <= h_room p ->
    exists q', body x q = Ret tt q' /\ writing o p (img ++ f x) q') ->
  forall img q, writing o p img q -> Z.of_nat (length (img ++ flat_map f l)) <= h_room p ->
  exists q', for_each l body q = Ret tt q' /\ writing o p (img ++ flat_map f l) q'.
Proof.
  induction l as [|x l IH]; intros Hb img q W Hr; cbn [flat_map for_each] in *.
  { rewrite app_nil_r. eauto. }
  rewrite app_assoc in *. destruct (Hb x img q ltac:(left) W) as (q1 & E1 & W1).
  { rewrite length_app in Hr. lia. }
  destruct (IH (fun y img q Hy => Hb y img q ltac:(now right)) _ q1 W1 Hr) as (q2 & E2 & W2).
  exists q2. now rewrite (bind_Ret _ _ _ _ _ E1).
Qed.

(** *** Copying a file *)

(** The loop has copied [k] blocks. *)
Definition copied (i o : nat) (path c img : bytes) p (k : nat) q : Prop :=
  stream_at q i path (Nat.min (512 * k) (length c)) c /\ writing o p (img ++ take (512 * k) c) q.

Definition copy_body (fd ofd : Z) (prog : prog_t) : unit -> B (unit + unit) := fun _ =>
  buf <- fread fd 512 ;;
  let n := Z.of_nat (length buf) in
  if n <? 1 then ret (inr tt)
  else
    k <- fwrite ofd buf ;;
    when (negb (k =? n)) (report "%s: write of %d returned %d" [HS (prog_name prog); HD n; HD k]) ;;
    ret (inl tt).

Section Copy.
Context (i o : nat) (path c img : bytes) (p : Host.process blob_vars) (prog : prog_t).
Hypothesis Hne : i <> o.
Hypothesis Hpath : path <> user_img.
Hypothesis Hroom : Z.of_nat (length (img ++ c)) <= h_room p.

Lemma take_blocks k : take (512 * k) c ++ take 512 (drop (512 * k) c) = take (512 * S k) c.
Proof. replace (512 * S k)%nat with (512 * k + 512)%nat by lia. now rewrite take_take_drop. Qed.

Lemma writing_moved j n q im : j <> o -> writing o p im q -> writing o p im (moved j n q).
Proof. intros Hj [S F R D V]. split; [now apply moved_other; [congruence|]|exact F|exact R|exact D|exact V]. Qed.

Lemma block_copied k q : (512 * k < length c)%nat -> copied i o path c img p k q ->
  exists q', copy_body (Z.of_nat i) (Z.of_nat o) prog tt q = Ret (inl tt) q' /\ copied i o path c img p (S k) q'.
Proof.
  intros Hk [Si W]. rewrite Nat.min_l in Si by lia. unfold copy_body. change 512 with (Z.of_nat 512) at 1.
  rewrite (bind_Ret _ _ _ _ _ (fread_eq q i path _ c 512 Si)). cbv zeta. set (b := take 512 (drop (512 * k) c)).
  assert (length b = Nat.min 512 (length c - 512 * k)) as Hb by (unfold b; now rewrite length_take, length_drop).
  destruct (Z.ltb_spec (Z.of_nat (length b)) 1); [lia|].
  pose proof (writing_moved i (512 * k + length b) q _ Hne W) as W1. set (q1 := moved i _ q) in *.
  assert (stream_at q1 i path (512 * k + length b) c) as S1 by now apply (moved_at _ _ _ (512 * k)).
  destruct (write_eq o p _ q1 b W1) as (q2 & E2 & W2 & Eq2).
  { rewrite length_app in Hroom |- *. rewrite length_app, length_take. lia. }
  exists q2. rewrite (bind_Ret _ _ _ _ _ E2), Z.eqb_refl. cbn [negb when]. split; [reflexivity|].
  split.
  - rewrite Eq2. apply written_other; [congruence|congruence|].
    replace (Nat.min (512 * S k) (length c)) with (512 * k + length b)%nat by lia. exact S1.
  - rewrite <- take_blocks, app_assoc. exact W2.
Qed.

Lemma copy_end k q : (length c <= 512 * k)%nat -> copied i o path c img p k q ->
  exists q', copy_body (Z.of_nat i) (Z.of_nat o) prog tt q = Ret (inr tt) q' /\ writing o p (img ++ c) q'.
Proof.
  intros Hk [S0 W0]. rewrite take_ge in W0 by lia. rewrite Nat.min_r in S0 by lia.
  exists (moved i (length c) q). split; [|now apply writing_moved].
  unfold copy_body. change 512 with (Z.of_nat 512) at 1.
  rewrite (bind_Ret _ _ _ _ _ (fread_eq q i path _ c 512 S0)). rewrite drop_ge, take_nil by lia.
  cbn [length]. rewrite Nat.add_0_r. reflexivity.
Qed.

Lemma copy_loop q : stream_at q i path 0 c -> writing o p img q -> Z.of_nat (length c) < 2 ^ 40 - 1 ->
  exists q', loop (copy_body (Z.of_nat i) (Z.of_nat o) prog) tt q = Ret tt q' /\ writing o p (img ++ c) q'.
Proof.
  intros Si W Hc.
  assert (forall n k q, (length c <= 512 * (k + n))%nat -> copied i o path c img p k q ->
    exists q', loopN (n + 1) (copy_body (Z.of_nat i) (Z.of_nat o) prog) tt q = Ret (inr tt) q' /\
      writing o p (img ++ c) q') as Hloop.
  { induction n as [|n IH]; intros k q0 Hk Hq; (destruct (Nat.ltb_spec (512 * k) (length c)) as [Hlt|Hge]; [try lia|]).
    - destruct (copy_end k q0 Hge Hq) as (q1 & E1 & H1). exists q1. split; [now apply loopN_done|exact H1].
    - destruct (block_copied k q0 Hlt Hq) as (q1 & E1 & H1).
      destruct (IH (S k) q1 ltac:(lia) H1) as (q2 & E2 & W2). exists q2. split; [|exact W2].
      cbn [Nat.add]. now rewrite (loopN_step _ _ _ _ _ _ E1).
    - destruct (copy_end k q0 Hge Hq) as (q1 & E1 & H1). exists q1. split; [|exact H1].
      cbn [Nat.add loopN]. now rewrite (bind_Ret _ _ _ _ _ E1). }
  destruct (Hloop (length c) 0%nat q ltac:(lia)) as (q' & E & W').
  { split; [exact Si|]. rewrite Nat.mul_0_r, take_0, app_nil_r. exact W. }
  exists q'. split; [|exact W']. apply (loop_intro _ (length c + 1)); [lia|exact E].
Qed.
End Copy.

(** A file that can be copied. *)
Record elf_ok p (e : elf) : Prop := ElfOk {
  eo_file : h_files p !! e_name e = Some (e_content e);
  eo_open : e_name e ∉ h_denied p;
  eo_name : e_name e <> user_img;
  eo_size : size_of e < 2 ^ 32
}.

Lemma copy_eq o p img q hlen off e : elf_ok p e -> writing o p img q ->
  Z.of_nat (length (img ++ padded e)) <= h_room p ->
  exists q', copy (Z.of_nat o) (relocate hlen (node_of off e)) q = Ret tt q' /\ writing o p (img ++ padded e) q'.
Proof.
  intros [Ef Eo En Es] W Hroom. pose proof W as [S F R D V].
  assert (h_files q !! e_name e = Some (e_content e)) as Ef' by (now rewrite F, lookup_insert_ne by congruence).
  destruct (fopen_rb q (e_name e) _ ltac:(now rewrite D) Ef') as (q1 & E1 & Eq1 & S1).
  assert (writing o p img q1) as W1.
  { rewrite Eq1. destruct S as [Sa Sb]. split; [split; [|exact Sb]|exact F|exact R|exact D|exact V].
    cbn. now rewrite (lookup_app_l_Some _ _ _ _ Sa). }
  assert (length (h_streams q) <> o) as Hne by (destruct S as [Sa _]; apply lookup_lt_Some in Sa; lia).
  rewrite length_app in Hroom. unfold padded in Hroom |- *. rewrite length_app in Hroom.
  destruct (copy_loop _ o (e_name e) (e_content e) img p (data (relocate hlen (node_of off e))) Hne En
    ltac:(rewrite length_app; lia) q1 S1 W1 ltac:(unfold size_of in Es; lia)) as (q2 & E2 & W2).
  unfold copy. cbv zeta. cbn [fullname relocate node_of]. rewrite (bind_Ret _ _ _ _ _ E1).
  fold (copy_body (Z.of_nat (length (h_streams q))) (Z.of_nat o) (data (relocate hlen (node_of off e)))).
  rewrite (bind_Ret _ _ _ _ _ E2). unfold printf at 1, modify. erewrite bind_Ret by reflexivity.
  cbn [data relocate node_of p_flags p_size]. set (q3 := set_stdout _ q2).
  assert (writing o p (img ++ e_content e) q3) as W3 by now apply writing_printf.
  pose proof (fill_spec (size_of e)) as [Hf _]. rewrite app_assoc in *.
  assert (u32 (size_of e) = size_of e) as Hu by (apply u32_small; unfold size_of in *; lia).
  unfold flags_of. destruct (rounded (size_of e)) eqn:Er.
  - change (negb (Z.land FL_ROUNDUP FL_ROUNDUP =? 0)) with true. cbn [when]. rewrite Hu.
    assert (8 - Z.land (size_of e) FSIZE_MASK = fill (size_of e)) as -> by (unfold fill; now rewrite Er).
    destruct (write_eq o p _ q3 (replicate (Z.to_nat (fill (size_of e))) 0) W3) as (q4 & E4 & W4 & _).
    { rewrite !length_app. lia. }
    rewrite bind_assoc, (bind_Ret _ _ _ _ _ E4), length_replicate, Z2Nat.id by lia. rewrite Z.eqb_refl. cbn [negb when].
    eexists. split; [reflexivity|]. now do 2 apply writing_printf.
  - change (negb (Z.land 0 FL_ROUNDUP =? 0)) with false. cbn [when].
    assert (fill (size_of e) = 0) as -> by (unfold fill; now rewrite Er).
    cbn [Z.to_nat replicate]. rewrite app_nil_r. eexists. split; [reflexivity|]. now apply writing_printf.
Qed.

Lemma copies_eq o p hlen l : Forall (elf_ok p) l -> forall off img q, writing o p img q ->
  Z.of_nat (length (img ++ flat_map padded l)) <= h_room p ->
  exists q', for_each (map (relocate hlen) (nodes off l)) (copy (Z.of_nat o)) q = Ret tt q' /\
    writing o p (img ++ flat_map padded l) q'.
Proof.
  induction 1 as [|e l He Hl IH]; intros off img q W Hr; cbn [flat_map nodes map for_each] in *.
  { rewrite app_nil_r. eauto. }
  rewrite app_assoc in *. destruct (copy_eq o p img q hlen off e He W) as (q1 & E1 & W1).
  { rewrite length_app in Hr. lia. }
  destruct (IH (next off e) _ q1 W1 Hr) as (q2 & E2 & W2). exists q2. now rewrite (bind_Ret _ _ _ _ _ E1).
Qed.

(** ** The blob *)

Definition header_size (l : list elf) : Z := SIZEOF_HEADER + Z.of_nat (length l) * SIZEOF_PROG.

Definition entries (l : list elf) : list node_t := map (relocate (header_size l)) (nodes 0 l).

Definition table (l : list elf) : bytes := flat_map (fun n => prog_bytes (data n)) (entries l).

Definition blob_of (l : list elf) : bytes :=
  header_bytes (Z.of_nat (length l)) ++ table l ++ flat_map padded l.

Lemma length_le32 v : length (le32 v) = 4%nat.
Proof. reflexivity. Qed.

Lemma length_header_bytes n : length (header_bytes n) = 8%nat.
Proof. reflexivity. Qed.

Lemma length_name_field s : length (name_field s) = 20%nat.
Proof. unfold name_field. cbv zeta. change (Z.to_nat NAMELEN) with 20%nat. rewrite length_app, length_replicate, length_take. lia. Qed.

Lemma length_nodes off l : length (nodes off l) = length l.
Proof. revert off. induction l as [|e l IH]; intros off; cbn [nodes length]; [done|now rewrite IH]. Qed.

Lemma length_entry e h off : length (prog_bytes (data (relocate h (node_of off e)))) = 32%nat.
Proof. unfold prog_bytes. cbn [data relocate node_of p_name]. rewrite !length_app, length_name_field, !length_le32. reflexivity. Qed.

Lemma length_table_from h off l :
  length (flat_map (fun n => prog_bytes (data n)) (map (relocate h) (nodes off l))) = (32 * length l)%nat.
Proof.
  revert off. induction l as [|e l IH]; intros off; [reflexivity|]. cbn [nodes map flat_map length].
  rewrite length_app, length_entry, IH. lia.
Qed.

Lemma length_table l : length (table l) = (32 * length l)%nat.
Proof. apply length_table_from. Qed.

Lemma length_blob_of l : Z.of_nat (length (blob_of l)) = header_size l + Z.of_nat (length (flat_map padded l)).
Proof. unfold blob_of, header_size, SIZEOF_HEADER, SIZEOF_PROG. rewrite !length_app, length_header_bytes, length_table. lia. Qed.

Lemma count_small {A} (l : list A) n : 0 <= n -> n + Z.of_nat (length l) < 2 ^ 32 ->
  fold_left (fun n _ => u32 (n + 1)) l n = n + Z.of_nat (length l).
Proof.
  revert n. induction l as [|x l IH]; intros n H0 Hn; cbn [fold_left length] in *; [lia|].
  rewrite u32_small by lia. rewrite IH by lia. lia.
Qed.

Lemma elves_ok special p names l : l = elves special p names -> user_img ∉ names ->
  Z.of_nat (length (blob_of l)) < 2 ^ 32 -> Forall (elf_ok p) l.
Proof.
  intros El Hu Hb. apply Forall_forall. intros e He.
  assert (size_of e < 2 ^ 32) as Hs.
  { rewrite length_blob_of in Hb. apply list_elem_of_split in He. destruct He as (l1 & l2 & ->).
    rewrite flat_map_app, length_app in Hb. cbn [flat_map] in Hb. rewrite length_app in Hb.
    pose proof (length_padded e) as Hl. pose proof (fill_spec (size_of e)). unfold header_size, SIZEOF_HEADER, SIZEOF_PROG in Hb. lia. }
  subst l. apply list_elem_of_In, in_map_iff in He. destruct He as (name & <- & Hn).
  apply filter_In in Hn. destruct Hn as [Hn Ha]. unfold accepted in Ha.
  destruct (h_files p !! name) as [c|] eqn:Ec; [|now rewrite andb_false_r in Ha].
  apply andb_true_iff in Ha as [Ha _]. apply andb_true_iff in Ha as [_ Ha]. apply bool_decide_eq_true in Ha.
  split; [exact Ec|exact Ha| |exact Hs]. cbn [e_name]. intros ->. apply Hu. now apply list_elem_of_In.
Qed.

Lemma elf_ok_world p q e : h_files q = <[user_img := []]> (h_files p) -> h_denied q = h_denied p -> elf_ok p e -> elf_ok q e.
Proof. intros F D [Ef Eo En Es]. split; [now rewrite F, lookup_insert_ne by congruence|now rewrite D|exact En|exact Es]. Qed.

Section Main.
Context (special : bytes -> bool).

(** [main] with its loops over the programs. *)
Lemma mkblob_eq argv p h l : h_vars p = blob_vars0 h -> 3 * Z.of_nat (length (tl argv)) <= h ->
  l = elves special p (tl argv) -> l <> [] -> user_img ∉ tl argv -> user_img ∉ h_denied p ->
  Z.of_nat (length (blob_of l)) <= h_room p -> Z.of_nat (length (blob_of l)) < 2 ^ 32 ->
  exists q, main special argv p = Ret 0 q /\ h_files q = <[user_img := blob_of l]> (h_files p).
Proof.
  intros Ev Hh El Hl Hu Hd Hroom Hsize.
  pose proof (elves_ok special p (tl argv) l El Hu Hsize) as Hok.
  pose proof Hsize as Hn. rewrite length_blob_of in Hn. unfold header_size, SIZEOF_HEADER, SIZEOF_PROG in Hn.
  destruct (processes_eq special (tl argv) p ltac:(rewrite Ev; exact Hh)) as (q1 & E1 & [F1 R1 D1] & V1).
  rewrite <- El, Ev in V1. unfold added in V1. cbn in V1. rewrite count_small in V1 by lia.
  unfold main. rewrite (bind_Ret _ _ _ _ _ E1). unfold var at 1. rewrite run_gets', V1. cbn [n_progs].
  destruct l as [|e l']; [done|]. set (l := e :: l') in *.
  destruct (Z.ltb_spec (0 + Z.of_nat (length l)) 1) as [Hlt|_]; [cbn [l length] in Hlt; lia|]. cbn [when]. rewrite bind_ret_l.
  unfold fopen. unfold bind at 1. rewrite decide_False by (now rewrite D1).
  set (o := length (h_streams q1)).
  set (q2 := set_files _ _). replace (match h_files q1 !! user_img with Some _ | None => Ret (Some (Z.of_nat o)) q2 end)
    with (Ret (Some (Z.of_nat o)) q2) by (now destruct (h_files q1 !! user_img)). cbv beta iota.
  unfold printf at 1, modify. erewrite bind_Ret by reflexivity. set (q3 := set_stdout _ q2).
  rewrite Z.add_0_l. unfold var. rewrite run_gets'. unfold var_set, modify. erewrite bind_Ret by reflexivity.
  rewrite u32_small by (unfold SIZEOF_HEADER, SIZEOF_PROG; lia). fold (header_size l).
  set (q4 := set_vars _ q3).
  assert (writing o q4 [] q4) as W4.
  { assert (h_files q4 = <[user_img := []]> (h_files q1)) as F4 by reflexivity.
    split; [split; [|now rewrite F4, lookup_insert_eq]| | |reflexivity|reflexivity].
    - change (h_streams q4) with (h_streams q1 ++ [Stream user_img 0]).
      unfold o. now rewrite lookup_app_r, Nat.sub_diag by lia.
    - now rewrite F4, insert_insert_eq.
    - cbn [length]. lia. }
  assert (h_room q4 = h_room p) as R4 by exact R1. unfold blob_of in Hroom.
  destruct (write_or_exit_eq o q4 [] q4 (header_bytes (Z.of_nat (length l))) "blob header" W4) as (q5 & E5 & W5).
  { rewrite R4. rewrite length_app in Hroom. cbn [app]. lia. }
  rewrite (bind_Ret _ _ _ _ _ E5). rewrite app_nil_l in W5. rewrite run_gets', (wr_vars _ _ _ _ W5).
  change (progs (h_vars q4)) with (map (relocate (header_size l)) (progs (h_vars q3))).
  change (progs (h_vars q3)) with (progs (h_vars q1)). rewrite V1. cbn [progs]. fold (entries l).
  destruct (for_each_writing (fun curr => write_or_exit (Z.of_nat o) (prog_bytes (data curr)) "blob prog entry write")
    (fun n => prog_bytes (data n)) o q4 (entries l)
    (fun x img q _ W Hr => write_or_exit_eq o q4 img q _ _ W Hr) _ q5 W5) as (q6 & E6 & W6).
  { rewrite R4. fold (table l). rewrite app_assoc, length_app in Hroom. lia. }
  rewrite (bind_Ret _ _ _ _ _ E6). fold (table l) in W6.
  destruct (copies_eq o q4 (header_size l) l) with (off := 0) (img := header_bytes (Z.of_nat (length l)) ++ table l) (q := q6)
    as (q7 & E7 & W7); [|exact W6|rewrite R4, <- app_assoc; exact Hroom|].
  { eapply Forall_impl; [exact Hok|]. intros x. apply elf_ok_world; [|exact D1]. cbn. now rewrite F1. }
  unfold entries. rewrite (bind_Ret _ _ _ _ _ E7). eexists. split; [reflexivity|].
  rewrite (wr_files _ _ _ _ W7), <- app_assoc. change (h_files q4) with (<[user_img := []]> (h_files q1)).
  now rewrite F1, insert_insert_eq.
Qed.
End Main.

(** ** The layout of the blob *)

(** Where the contents of a program start. *)
Definition content_at (l : list elf) (i : nat) : Z :=
  header_size l + Z.of_nat (length (flat_map padded (take i l))).

(** The descriptor that the table has for it. *)
Definition entry_of (l : list elf) (i : nat) (e : elf) : prog_t :=
  Prog (name_field (base_name (e_name e))) (content_at l i) (size_of e) (flags_of e).

Lemma nodes_lookup l i e off : l !! i = Some e -> 0 <= off ->
  off + Z.of_nat (length (flat_map padded l)) < 2 ^ 32 ->
  nodes off l !! i = Some (node_of (off + Z.of_nat (length (flat_map padded (take i l)))) e).
Proof.
  revert i off. induction l as [|e' l IH]; intros i off Hi H0 Hs; [now destruct i|].
  cbn [flat_map] in Hs. rewrite length_app in Hs.
  destruct i as [|i].
  - injection Hi as ->. cbn. do 2 f_equal. lia.
  - assert (next off e' = off + Z.of_nat (length (padded e'))) as En by (unfold next; apply u32_small; lia).
    change (nodes off (e' :: l) !! S i) with (nodes (next off e') l !! i). change (l !! i = Some e) in Hi.
    rewrite (IH i (next off e') Hi) by (rewrite En; lia). cbn [take flat_map]. rewrite En, length_app. do 2 f_equal. lia.
Qed.

Lemma size_of_small l i e : l !! i = Some e -> 0 <= size_of e <= Z.of_nat (length (flat_map padded l)).
Proof.
  intros Hi. apply list_elem_of_lookup_2, list_elem_of_split in Hi. destruct Hi as (l1 & l2 & ->).
  rewrite flat_map_app, length_app. cbn [flat_map]. rewrite length_app.
  pose proof (length_padded e) as Hl. pose proof (fill_spec (size_of e)). unfold size_of in *. lia.
Qed.

Lemma length_take_padded l i : (length (flat_map padded (take i l)) <= length (flat_map padded l))%nat.
Proof. rewrite <- (take_drop i l) at 2. rewrite flat_map_app, length_app. lia. Qed.

Lemma entries_lookup l i e : l !! i = Some e -> Z.of_nat (length (blob_of l)) < 2 ^ 32 ->
  exists n, entries l !! i = Some n /\ data n = entry_of l i e.
Proof.
  intros Hi Hs. rewrite length_blob_of in Hs. pose proof (size_of_small l i e Hi) as He.
  pose proof (length_take_padded l i) as Ht. unfold header_size, SIZEOF_HEADER, SIZEOF_PROG in Hs.
  unfold entries. rewrite list_lookup_fmap, (nodes_lookup l i e 0 Hi) by lia. eexists. split; [reflexivity|].
  unfold entry_of, content_at. cbn [data relocate node_of p_name p_offset p_size p_flags]. f_equal.
  - rewrite Z.add_0_l, Z.add_comm. apply u32_small. unfold header_size, SIZEOF_HEADER, SIZEOF_PROG. lia.
  - apply u32_small. lia.
Qed.

(** The bytes of a list of pieces of the same size. *)
Lemma drop_pieces {A} (f : A -> bytes) k l i x : (forall y, y ∈ l -> length (f y) = k) -> l !! i = Some x ->
  exists rest, drop (k * i) (flat_map f l) = f x ++ rest.
Proof.
  revert i. induction l as [|y l IH]; intros i Hk Hi; [now destruct i|]. destruct i as [|i].
  - injection Hi as ->. rewrite Nat.mul_0_r, drop_0. now eexists.
  - destruct (IH i (fun z Hz => Hk z ltac:(now right)) Hi) as (rest & E). exists rest. cbn [flat_map].
    rewrite drop_app_ge by (rewrite (Hk y ltac:(left)); lia). rewrite <- E. f_equal. rewrite (Hk y ltac:(left)). lia.
Qed.

Lemma table_lookup l i e : l !! i = Some e -> Z.of_nat (length (blob_of l)) < 2 ^ 32 ->
  exists rest, drop (32 * i) (table l) = prog_bytes (entry_of l i e) ++ rest.
Proof.
  intros Hi Hs. destruct (entries_lookup l i e Hi Hs) as (n & En & Ed).
  rewrite <- Ed. apply (drop_pieces (fun n => prog_bytes (data n))); [|exact En].
  intros y Hy. unfold entries in Hy. apply list_elem_of_fmap in Hy as (z & -> & Hz).
  apply list_elem_of_lookup in Hz as (j & Hj). assert (exists off e', z = node_of off e') as (off & e' & ->).
  { clear - Hj. revert j Hj. generalize 0. induction l as [|e' l IH]; intros off j Hj; [now destruct j|].
    destruct j as [|j]; [injection Hj as <-; eauto|]. now apply (IH (next off e') j). }
  apply length_entry.
Qed.

(** The contents of a program are where its entry says, at a multiple of eight. *)
Lemma content_lookup l i e : l !! i = Some e ->
  take (length (e_content e)) (drop (Z.to_nat (content_at l i)) (blob_of l)) = e_content e.
Proof.
  intros Hi. unfold content_at, header_size, blob_of. rewrite app_assoc.
  rewrite drop_app_ge by (rewrite length_app, length_header_bytes, length_table; unfold SIZEOF_HEADER, SIZEOF_PROG; lia).
  rewrite length_app, length_header_bytes, length_table.
  rewrite <- (take_drop i l) at 4. rewrite flat_map_app.
  rewrite drop_app_length' by (unfold SIZEOF_HEADER, SIZEOF_PROG; lia).
  rewrite (drop_S l e i Hi). cbn [flat_map]. unfold padded at 1. rewrite <- app_assoc. now apply take_app_length'.
Qed.

Lemma content_aligned l i : content_at l i mod 8 = 0.
Proof.
  unfold content_at, header_size, SIZEOF_HEADER, SIZEOF_PROG.
  assert (forall l, exists k, Z.of_nat (length (flat_map padded l)) = 8 * k) as Hk.
  { clear. intros l. induction l as [|e l [k IH]]; [now exists 0|]. cbn [flat_map]. rewrite length_app.
    pose proof (length_padded e). pose proof (fill_spec (size_of e)) as [_ Hf]. exists ((size_of e + fill (size_of e)) / 8 + k).
    Z.div_mod_to_equations. lia. }
  destruct (Hk (take i l)) as (k & ->). Z.div_mod_to_equations. lia.
Qed.

(** ** Names *)

Lemma strrchr_spec s c r : strrchr s c = Some r -> exists l, r = c :: l /\ c ∉ l /\ exists l0, s = l0 ++ r.
Proof.
  revert r. induction s as [|d s IH]; intros r E; [discriminate|]. cbn [strrchr] in E.
  destruct (strrchr s c) as [r'|] eqn:Er.
  - injection E as <-. destruct (IH r' eq_refl) as (l & -> & Hl & l0 & ->). exists l. split; [done|]. split; [done|].
    now exists (d :: l0).
  - destruct (Z.eqb_spec d c) as [->|]; [|discriminate]. injection E as <-. exists s. split; [done|]. split; [|now exists []].
    clear IH. induction s as [|a s IH]; [apply not_elem_of_nil|]. cbn [strrchr] in Er.
    destruct (strrchr s c); [discriminate|]. destruct (Z.eqb_spec a c); [discriminate|].
    apply not_elem_of_cons. split; [congruence|]. now apply IH.
Qed.

Lemma strrchr_none s c : strrchr s c = None <-> c ∉ s.
Proof.
  split; intros H.
  - induction s as [|a s IH]; [apply not_elem_of_nil|]. cbn [strrchr] in H.
    destruct (strrchr s c); [discriminate|]. destruct (Z.eqb_spec a c); [discriminate|].
    apply not_elem_of_cons. split; [congruence|]. now apply IH.
  - destruct (strrchr s c) as [r|] eqn:E; [|done]. exfalso. destruct (strrchr_spec s c r E) as (l & -> & _ & l0 & ->).
    apply H, elem_of_app. right. left.
Qed.

Lemma base_name_spec name : 47 ∉ base_name name /\ (length (base_name name) <= length name)%nat /\
  forall c, c ∈ base_name name -> c ∈ name.
Proof.
  unfold base_name. destruct (strrchr name 47) as [r|] eqn:E.
  - destruct (strrchr_spec _ _ _ E) as (l & -> & Hl & l0 & ->). cbn [tl]. rewrite length_app. cbn [length].
    split; [done|]. split; [lia|]. intros c Hc. apply elem_of_app. right. now right.
  - apply strrchr_none in E. split; [done|]. split; [lia|done].
Qed.

(** The field of a name that fits. *)
Lemma name_field_spec s : (length s < 20)%nat -> exists k, name_field s = s ++ replicate (S k) 0.
Proof.
  intros Hs. exists (19 - length s)%nat. unfold name_field. cbv zeta. change (Z.to_nat NAMELEN) with 20%nat.
  rewrite take_ge by lia. do 2 f_equal. lia.
Qed.

Lemma to_nul_app s r : 0 ∉ s -> to_nul (s ++ 0 :: r) = s.
Proof.
  induction s as [|c s IH]; intros Hs; [reflexivity|]. apply not_elem_of_cons in Hs as [Hc Hs]. cbn [app to_nul].
  destruct (Z.eqb_spec c 0); [congruence|]. now rewrite IH.
Qed.

(** ** Words *)

Lemma word_at_le32 b k v r : drop k b = le32 v ++ r -> 0 <= v < 2 ^ 32 -> word_at b k = v.
Proof.
  intros E Hv. unfold word_at.
  assert (forall j, nth (k + j) b 0 = nth j (drop k b) 0) as Hn by (intros j; symmetry; apply nth_skipn).
  rewrite <- (Nat.add_0_r k) at 1. rewrite !Hn, E. cbn [le32 le16 app nth].
  Z.div_mod_to_equations. lia.
Qed.
