(* ===== verification/BlobClaims.v ===== *)
(** misc/util: the contract of mkblob and of listblob, which reads what mkblob has
    written. *)

From S2P Require Import Prelude Host HostSpec MkBlob ListBlob BlobSpec.

Open Scope kernel_scope.

(** ** Making a blob *)

(** C39: mkblob packs its files.  When at least one argument names an ELF file (and there is
    memory for all of them and room on the device, and the blob has less than 2^32 bytes),
    [main] succeeds, and the only file it changes is user.img.  That file holds the
    accepted files and no others, in the order of the arguments: the header has their
    number, and entry [i] of the table has the name, the size and the place of the [i]-th
    one, at which the blob has its contents, at a multiple of eight. *)
Theorem mkblob_packs special argv p h l : h_vars p = blob_vars0 h -> 3 * Z.of_nat (length (tl argv)) <= h ->
  l = elves special p (tl argv) -> l <> [] -> user_img ∉ tl argv -> user_img ∉ h_denied p ->
  Z.of_nat (length (blob_of l)) <= h_room p -> Z.of_nat (length (blob_of l)) < 2 ^ 32 ->
  exists q blob, MkBlob.main special argv p = Ret 0 q /\ h_files q = <[user_img := blob]> (h_files p) /\
    take 8 blob = header_bytes (Z.of_nat (length l)) /\
    forall i e, l !! i = Some e ->
      take 32 (drop (8 + 32 * i) blob) = prog_bytes (entry_of l i e) /\
      take (length (e_content e)) (drop (Z.to_nat (content_at l i)) blob) = e_content e /\
      content_at l i mod 8 = 0.
Proof.
  intros Ev Hh El Hl Hu Hd Hroom Hsize.
  destruct (mkblob_eq special argv p h l Ev Hh El Hl Hu Hd Hroom Hsize) as (q & E & F).
  exists q, (blob_of l). split; [exact E|]. split; [exact F|].
  split; [reflexivity|]. intros i e Hi. split; [|split; [now apply content_lookup|apply content_aligned]].
  destruct (table_lookup l i e Hi Hsize) as (rest & Et). unfold blob_of.
  pose proof (lookup_lt_Some _ _ _ Hi) as Hlt.
  rewrite drop_app_ge by (rewrite length_header_bytes; lia). rewrite length_header_bytes.
  replace (8 + 32 * i - 8)%nat with (32 * i)%nat by lia. rewrite drop_app_le by (rewrite length_table; lia).
  rewrite Et, <- app_assoc. apply take_app_length'.
  unfold prog_bytes, entry_of. cbn [p_name]. now rewrite !length_app, length_name_field, !length_le32.
Qed.

(** ** Listing a blob *)

(** The name with a capital. *)
Definition capital (s : bytes) : bytes := match s with [] => [] | c :: s => toupper c :: s end.

(** What is printed for a program, in the order of the calls. *)
Definition shown (d e : bool) (l : list elf) (i : nat) (x : elf) : list message :=
  let name := base_name (e_name x) in
  if d then [Fprintf (chars "#define %-15s %2d" ++ [10])%list [HS (capital name); HD (Z.of_nat i)]]
  else if e then
    (if (i =? 0)%nat then [Fprintf (chars "%s" ++ [10])%list [HS header]; Fprintf (chars "%c") [HD 9]]
     else [Fprintf (chars "%s") [HS (if Z.land (Z.of_nat i) 7 =? 0 then chars "," ++ [10; 9] else chars ", ")]]) ++
    [Fprintf (chars "%s") [HS (capital name)]]
  else
    [Fprintf (chars "Entry %2d:  ") [HD (Z.of_nat i)]; Fprintf (chars "%-s,") [HS name];
     Fprintf (chars " offset 0x%x, size 0x%x, flags %08x" ++ [10])%list
       [HD (content_at l i); HD (size_of x); HD (flags_of x)]].

(** All of it. *)
Definition listing (d e : bool) (l : list elf) : list message :=
  mjoin (imap (shown d e l) l) ++ (if e then [Fprintf (chars "%s" ++ [10])%list [HS trailer]] else []).

(** The names are C strings that fit. *)
Definition named (x : elf) : Prop := 0 ∉ e_name x /\ (length (e_name x) < 20)%nat.

Lemma string_at_eq b k s r (p : Host.process list_vars) : drop k b = s ++ 0 :: r -> 0 ∉ s -> string_at b k p = Ret s p.
Proof.
  intros E Hs. unfold string_at. rewrite E, to_nul_app by exact Hs. rewrite existsb_app. cbn [existsb].
  now rewrite orb_true_r.
Qed.

Lemma capital_no_nul s : 0 ∉ s -> 0 ∉ capital s.
Proof.
  destruct s as [|c s]; [done|]. cbn [capital]. rewrite !not_elem_of_cons. intros [Hc Hs]. split; [|exact Hs].
  unfold toupper. destruct (Z.leb_spec 97 c), (Z.leb_spec c 122); cbn [andb]; lia.
Qed.

Lemma drop_alter (f : Z -> Z) k (b : bytes) : drop k (alter f k b) = alter f 0%nat (drop k b).
Proof.
  revert b. induction k as [|k IH]; intros [|c b]; [reflexivity..|]. exact (IH b).
Qed.

Lemma drop_alter_gt (f : Z -> Z) k j (b : bytes) : (k < j)%nat -> drop j (alter f k b) = drop j b.
Proof.
  revert k b. induction j as [|j IH]; intros k [|c b] Hk; [lia|lia|now destruct k|]. destruct k as [|k]; [reflexivity|].
  apply (IH k b). lia.
Qed.

Lemma alter_capital s r : alter toupper 0%nat (s ++ 0 :: r) = capital s ++ 0 :: r.
Proof. now destruct s. Qed.

Section List.
Context (d e : bool) (l : list elf).
Hypothesis Hmode : d && e = false.
Hypothesis Hnamed : Forall named l.
Hypothesis Hsize : Z.of_nat (length (blob_of l)) < 2 ^ 32.
Implicit Types (p q : Host.process list_vars).

(** [msgs] have been printed; nothing else has changed. *)
Definition printed (msgs : list message) p q : Prop := h_stdout q = rev msgs ++ h_stdout p /\ h_vars q = h_vars p /\ h_files q = h_files p.

Lemma printed_app m1 m2 p q r : printed m1 p q -> printed m2 q r -> printed (m1 ++ m2) p r.
Proof. intros (A1 & A2 & A3) (B1 & B2 & B3). split; [|split; congruence]. now rewrite B1, A1, rev_app_distr, app_assoc. Qed.

(** The entry [i] and what follows have not been touched. *)
Lemma entry_processed i x progs p : l !! i = Some x -> drop (32 * i) progs = drop (32 * i) (table l) ->
  h_vars p = ListVars d e ->
  exists progs' q, ListBlob.process i progs p = Ret progs' q /\ printed (shown d e l i x) p q /\
    drop (32 * S i) progs' = drop (32 * S i) (table l).
Proof.
  intros Hi Ep Ev. destruct (table_lookup l i x Hi Hsize) as (rest & Et).
  assert (named x) as [Hx0 Hx] by (eapply Forall_lookup_1; [exact Hnamed|exact Hi]).
  destruct (base_name_spec (e_name x)) as (Hslash & Hlen & Hin).
  destruct (name_field_spec (base_name (e_name x)) ltac:(lia)) as (k & Ek).
  assert (0 ∉ base_name (e_name x)) as Hb0 by auto.
  set (w := le32 (content_at l i) ++ le32 (size_of x) ++ le32 (flags_of x) ++ rest).
  assert (drop (32 * i) progs = name_field (base_name (e_name x)) ++ w) as Ed.
  { rewrite Ep, Et. unfold prog_bytes, entry_of, w. cbn [p_name p_offset p_size p_flags]. now rewrite <- !app_assoc. }
  assert (drop (32 * i) progs = base_name (e_name x) ++ 0 :: replicate k 0 ++ w) as Es.
  { rewrite Ed, Ek, <- app_assoc. reflexivity. }
  unfold ListBlob.process, shown. cbv zeta. change (SIZEOF_PROG * i)%nat with (32 * i)%nat.
  unfold var. do 2 rewrite run_gets'. rewrite Ev. cbn [defs enums].
  destruct (d || e) eqn:Ede.
  - rewrite (bind_Ret _ _ _ _ _ (string_at_eq progs (32 * i) _ _ p Es Hb0)).
    rewrite (proj2 (strrchr_none _ 47) Hslash).
    set (progs' := alter toupper (32 * i)%nat progs).
    assert (drop (32 * i) progs' = capital (base_name (e_name x)) ++ 0 :: replicate k 0 ++ w) as Es'
      by (unfold progs'; now rewrite drop_alter, Es, alter_capital).
    rewrite (bind_Ret _ _ _ _ _ (string_at_eq progs' (32 * i) _ _ p Es' (capital_no_nul _ Hb0))).
    exists progs'. assert (drop (32 * S i) progs' = drop (32 * S i) (table l)) as Er.
    { unfold progs'. rewrite drop_alter_gt by lia. replace (32 * S i)%nat with (32 * i + 32)%nat by lia.
      now rewrite <- !drop_drop, Ep. }
    destruct d; [eexists; split; [reflexivity|]; split; [|exact Er]; repeat split|].
    cbn [orb] in Ede. rewrite Ede. destruct (i =? 0)%nat; (eexists; split; [reflexivity|]; split; [|exact Er]; repeat split).
  - apply orb_false_iff in Ede as [-> ->].
    rewrite (bind_Ret _ _ _ _ _ (string_at_eq progs (32 * i) _ _ p Es Hb0)).
    exists progs.
    assert (forall j r v, w = r ++ le32 v ++ j -> 0 <= v < 2 ^ 32 -> word_at progs (32 * i + 20 + length r) = v) as Hw.
    { intros j r v Ew Hv. apply (word_at_le32 _ _ _ j); [|exact Hv]. rewrite <- Nat.add_assoc, <- drop_drop, Ed.
      rewrite drop_app_ge by (rewrite length_name_field; lia). rewrite length_name_field, Ew.
      replace (20 + length r - 20)%nat with (length r) by lia. now apply drop_app_length'. }
    pose proof Hsize as Hs. rewrite length_blob_of in Hs.
    pose proof (size_of_small l i x Hi) as Hxs. pose proof (length_take_padded l i) as Htk.
    assert (word_at progs (32 * i + 20) = content_at l i) as ->.
    { replace (32 * i + 20)%nat with (32 * i + 20 + 0)%nat by lia.
      apply (Hw (le32 (size_of x) ++ le32 (flags_of x) ++ rest) []); [reflexivity|]. unfold content_at, header_size, MkBlob.SIZEOF_HEADER, MkBlob.SIZEOF_PROG in *. lia. }
    assert (word_at progs (32 * i + 24) = size_of x) as ->.
    { replace (32 * i + 24)%nat with (32 * i + 20 + 4)%nat by lia. apply (Hw (le32 (flags_of x) ++ rest) (le32 (content_at l i))); [reflexivity|].
      unfold header_size, MkBlob.SIZEOF_HEADER, MkBlob.SIZEOF_PROG in *. lia. }
    assert (word_at progs (32 * i + 28) = flags_of x) as ->.
    { replace (32 * i + 28)%nat with (32 * i + 20 + 8)%nat by lia.
      apply (Hw rest (le32 (content_at l i) ++ le32 (size_of x))); [now rewrite <- app_assoc|].
      unfold flags_of. destruct (rounded _); unfold FL_ROUNDUP; lia. }
    eexists. split; [reflexivity|]. split; [repeat split|]. replace (32 * S i)%nat with (32 * i + 32)%nat by lia.
    now rewrite <- !drop_drop, Ep.
Qed.

(** The loop over the table. *)
Definition list_body (num : Z) : nat * bytes -> L (nat * bytes + unit) := fun '(i, progs) =>
  if Z.of_nat i <? num then progs <- ListBlob.process i progs ;; ret (inl ((i + 1)%nat, progs)) else ret (inr tt).

Lemma list_loop n i progs p : (i + n = length l)%nat -> drop (32 * i) progs = drop (32 * i) (table l) ->
  h_vars p = ListVars d e ->
  exists q, loopN (n + 1) (list_body (Z.of_nat (length l))) (i, progs) p = Ret (inr tt) q /\
    printed (mjoin (drop i (imap (shown d e l) l))) p q.
Proof.
  revert i progs p. induction n as [|n IH]; intros i progs p Hn Ep Ev.
  - exists p. split.
    + apply loopN_done. unfold list_body. destruct (Z.ltb_spec (Z.of_nat i) (Z.of_nat (length l))); [lia|reflexivity].
    + rewrite drop_ge by (rewrite length_imap; lia). repeat split.
  - destruct (lookup_lt_is_Some_2 l i ltac:(lia)) as (x & Hi).
    destruct (entry_processed i x progs p Hi Ep Ev) as (progs' & q1 & E1 & P1 & Ep').
    destruct (IH (S i) progs' q1 ltac:(lia) Ep' ltac:(destruct P1 as (_ & V & _); congruence)) as (q2 & E2 & P2).
    exists q2. split.
    + cbn [Nat.add]. rewrite (loopN_step (list_body (Z.of_nat (length l))) (n + 1) (i, progs) p (S i, progs') q1); [exact E2|]. unfold list_body.
      destruct (Z.ltb_spec (Z.of_nat i) (Z.of_nat (length l))); [|lia].
      rewrite (bind_Ret _ _ _ _ _ E1). now rewrite Nat.add_1_r.
    + rewrite (drop_S _ (shown d e l i x) i) by (rewrite list_lookup_imap, Hi; reflexivity).
      exact (printed_app _ _ _ _ _ P1 P2).
Qed.
End List.

(** ** The header and the table that listblob reads *)

Definition same_output (p q : Host.process list_vars) : Prop :=
  h_stdout q = h_stdout p /\ h_vars q = h_vars p /\ h_files q = h_files p.

Section Read.
Context (l : list elf).
Hypothesis Hl : l <> [].
Hypothesis Hsize : Z.of_nat (length (blob_of l)) < 2 ^ 32.
Context (stack_size : Z).
Hypothesis Htable : 32 * Z.of_nat (length l) <= stack_size /\ 32 * Z.of_nat (length l) < 2 ^ 31.
Implicit Types (p q : Host.process list_vars).

Lemma read_header_eq name fd p : stream_at p fd name 0 (blob_of l) ->
  read_header name (Z.of_nat fd) p = Ret (Z.of_nat (length l)) (moved fd 8 p).
Proof.
  intros S. unfold read_header. change SIZEOF_HEADER with 8%nat.
  rewrite (bind_Ret _ _ _ _ _ (fread_eq p fd name 0 _ 8 S)). rewrite drop_0.
  replace (take 8 (blob_of l)) with (header_bytes (Z.of_nat (length l))) by reflexivity.
  rewrite length_header_bytes. cbn [Nat.eqb negb Nat.add]. rewrite bool_decide_true by reflexivity. cbn [negb].
  rewrite (word_at_le32 _ 4 (Z.of_nat (length l)) []); [|reflexivity|lia].
  destruct (Z.ltb_spec (Z.of_nat (length l)) 1); [destruct l; [done|cbn [length] in *; lia]|reflexivity].
Qed.

Lemma read_table_eq name fd p : stream_at p fd name 8 (blob_of l) ->
  read_table stack_size name (Z.of_nat fd) (Z.of_nat (length l)) p = Ret (table l) (moved fd (8 + 32 * length l) p).
Proof.
  intros S. unfold read_table. cbv zeta. change (Z.of_nat SIZEOF_PROG) with 32.
  destruct (Z.ltb_spec stack_size (Z.of_nat (length l) * 32)); [lia|].
  replace (Z.of_nat (length l) * 32) with (Z.of_nat (32 * length l)) by lia.
  rewrite (bind_Ret _ _ _ _ _ (fread_eq p fd name 8 _ (32 * length l) S)).
  assert (take (32 * length l) (drop 8 (blob_of l)) = table l) as ->.
  { unfold blob_of. rewrite drop_app_length' by reflexivity. apply take_app_length'. now rewrite length_table. }
  rewrite length_table, s32_small by lia. rewrite Z.eqb_refl. reflexivity.
Qed.

(** The command line: an option, or none. *)
Definition list_args (d e : bool) (arg0 name : bytes) : list bytes :=
  [arg0] ++ (if d then [chars "-d"] else if e then [chars "-e"] else []) ++ [name].

Lemma options_eq d e arg0 name p : d && e = false -> h_vars p = list_vars0 ->
  exists q, ListBlob.options (list_args d e arg0 name) p = Ret (length (list_args d e arg0 name) - 1)%nat q /\
    h_vars q = ListVars d e /\ h_stdout q = h_stdout p /\ h_files q = h_files p /\ h_denied q = h_denied p.
Proof.
  intros Hm Ev. unfold ListBlob.options, list_args. cbv zeta.
  destruct d; [destruct e; [discriminate|]|destruct e]; cbn [app length nth Nat.leb Nat.ltb Nat.eqb orb Nat.sub].
  - rewrite bool_decide_true by done. eexists. split; [reflexivity|]. cbn. now rewrite Ev.
  - rewrite bool_decide_false by discriminate. rewrite bool_decide_true by done.
    eexists. split; [reflexivity|]. cbn. now rewrite Ev.
  - exists p. now rewrite Ev.
Qed.

Lemma list_main_eq d e arg0 name p : d && e = false -> Forall named l -> h_vars p = list_vars0 ->
  h_files p !! name = Some (blob_of l) -> name ∉ h_denied p ->
  exists q, ListBlob.main stack_size (list_args d e arg0 name) p = Ret 0 q /\
    h_stdout q = rev (listing d e l) ++ h_stdout p /\ h_files q = h_files p.
Proof.
  intros Hm Hn Ev Ef Hd. destruct (options_eq d e arg0 name p Hm Ev) as (q1 & E1 & V1 & O1 & F1 & D1).
  unfold ListBlob.main. rewrite (bind_Ret _ _ _ _ _ E1).
  assert (nth (length (list_args d e arg0 name) - 1) (list_args d e arg0 name) [] = name) as -> by (now destruct d, e).
  destruct (fopen_rb q1 name (blob_of l) ltac:(now rewrite D1) ltac:(now rewrite F1)) as (q2 & E2 & Eq2 & S2).
  rewrite (bind_Ret _ _ _ _ _ E2). set (fd := length (h_streams q1)) in *.
  rewrite (bind_Ret _ _ _ _ _ (read_header_eq name fd q2 S2)).
  pose proof (moved_at q2 fd name 0 _ 8 S2) as S3.
  rewrite (bind_Ret _ _ _ _ _ (read_table_eq name fd _ S3)). set (q3 := moved fd _ (moved fd 8 q2)).
  assert (h_vars q3 = ListVars d e) as V3 by (unfold q3; rewrite Eq2; exact V1).
  assert (h_stdout q3 = h_stdout p) as O3 by (unfold q3; rewrite Eq2; exact O1).
  assert (h_files q3 = h_files p) as F3 by (unfold q3; rewrite Eq2; exact F1).
  destruct (list_loop d e l Hm Hn Hsize (length l) 0 (table l) q3 eq_refl eq_refl V3) as (q4 & E4 & (O4 & V4 & F4)).
  fold (list_body (Z.of_nat (length l))).
  assert (loop (list_body (Z.of_nat (length l))) (0%nat, table l) q3 = Ret tt q4) as E4'
    by (apply (loop_intro _ (length l + 1)); [lia|exact E4]).
  rewrite (bind_Ret _ _ _ _ _ E4'). unfold var. rewrite run_gets', V4, V3. cbn [enums].
  assert (h_files q4 = h_files p) as F5 by congruence.
  unfold listing. rewrite rev_app_distr, <- app_assoc. rewrite drop_0 in O4.
  destruct e; cbn [when]; (eexists; split; [reflexivity|]; split; [|exact F5]); cbn; now rewrite O4, O3.
Qed.
End Read.

(** C40: listblob prints what mkblob has packed.  After a run of mkblob, listblob on user.img
    succeeds and prints, in the order of the arguments, one entry for each file: the last
    component of its name, where its contents start in the blob, its size and whether it
    has been filled up; with the option -d or -e, the name with a capital and the index of
    the entry, as a symbol or as a member of an enumeration. *)
Theorem blob_listed special stack_size argv p h l d e arg0 p1 :
  h_vars p = blob_vars0 h -> 3 * Z.of_nat (length (tl argv)) <= h ->
  l = elves special p (tl argv) -> l <> [] -> user_img ∉ tl argv -> user_img ∉ h_denied p ->
  Z.of_nat (length (blob_of l)) <= h_room p -> Z.of_nat (length (blob_of l)) < 2 ^ 32 ->
  Forall (fun name => 0 ∉ name) (tl argv) ->
  32 * Z.of_nat (length l) <= stack_size -> 32 * Z.of_nat (length l) < 2 ^ 31 ->
  d && e = false -> h_vars p1 = list_vars0 -> user_img ∉ h_denied p1 ->
  exists q, MkBlob.main special argv p = Ret 0 q /\
    (h_files p1 = h_files q ->
     exists q1, ListBlob.main stack_size (list_args d e arg0 user_img) p1 = Ret 0 q1 /\
       h_stdout q1 = rev (listing d e l) ++ h_stdout p1 /\ h_files q1 = h_files p1).
Proof.
  intros Ev Hh El Hl Hu Hd Hroom Hsize H0 Hst H31 Hm Ev1 Hd1.
  destruct (mkblob_eq special argv p h l Ev Hh El Hl Hu Hd Hroom Hsize) as (q & E & F).
  exists q. split; [exact E|]. intros F1.
  apply list_main_eq; [exact Hl|exact Hsize|now split|exact Hm| |exact Ev1| |exact Hd1].
  - subst l. apply Forall_forall. intros x Hx. apply list_elem_of_In, in_map_iff in Hx. destruct Hx as (name & <- & Hn).
    apply filter_In in Hn. destruct Hn as [Hn Ha]. rewrite Forall_forall in H0. split; [apply H0; now apply list_elem_of_In|].
    cbn [e_name]. unfold accepted in Ha. do 3 apply andb_true_iff in Ha as [Ha _].
    apply Z.ltb_lt in Ha. unfold NAMELEN in Ha. lia.
  - rewrite F1, F. apply lookup_insert_eq.
Qed.

(** ** An example *)

(** A device, a file that is too short, and two programs. *)
Definition example_elf (n : nat) : bytes := ELF_MAGIC ++ replicate (48 + n) 7.

Definition example_names : list bytes :=
  [chars "mkblob"; chars "user/init"; chars "tty"; chars "shell"; chars "note"].

Definition example_host : Host.process blob_vars :=
  Process {[ chars "user/init" := example_elf 3; chars "shell" := example_elf 600; chars "note" := [1; 2; 3] ]}
    [] 10000 [] [] [] (blob_vars0 100).

Definition example_special (name : bytes) : bool := bool_decide (name = chars "tty").

Definition example_elves : list elf :=
  [Elf (chars "user/init") (example_elf 3); Elf (chars "shell") (example_elf 600)].

(** The next process finds the files that mkblob has left. *)
Definition example_list_host : Host.process list_vars :=
  match MkBlob.main example_special example_names example_host with
  | Ret _ q => Process (h_files q) [] 0 [] [] [] list_vars0
  | _ => Process ∅ [] 0 [] [] [] list_vars0
  end.

Lemma mkblob_packs_witness : exists q blob,
  MkBlob.main example_special example_names example_host = Ret 0 q /\
  h_files q = <[user_img := blob]> (h_files example_host) /\ take 8 blob = header_bytes 2.
Proof.
  destruct (mkblob_packs example_special example_names example_host 100 example_elves) as (q & blob & E & F & H & _).
  - reflexivity.
  - vm_compute. discriminate.
  - vm_compute. reflexivity.
  - discriminate.
  - apply (bool_decide_eq_true_1 (user_img ∉ tl example_names)). vm_compute. reflexivity.
  - apply not_elem_of_nil.
  - vm_compute. discriminate.
  - vm_compute. reflexivity.
  - exists q, blob. now split; [|split].
Defined.

Lemma blob_listed_witness : exists q1,
  ListBlob.main 8388608 [chars "listblob"; user_img] example_list_host = Ret 0 q1 /\
  h_stdout q1 =
    [Fprintf (chars " offset 0x%x, size 0x%x, flags %08x" ++ [10])%list [HD 128; HD 652; HD 1];
     Fprintf (chars "%-s,") [HS (chars "shell")]; Fprintf (chars "Entry %2d:  ") [HD 1];
     Fprintf (chars " offset 0x%x, size 0x%x, flags %08x" ++ [10])%list [HD 72; HD 55; HD 1];
     Fprintf (chars "%-s,") [HS (chars "init")]; Fprintf (chars "Entry %2d:  ") [HD 0]].
Proof.
  destruct (blob_listed example_special 8388608 example_names example_host 100 example_elves false false
    (chars "listblob") example_list_host) as (q & E & H).
  - reflexivity.
  - vm_compute. discriminate.
  - vm_compute. reflexivity.
  - discriminate.
  - apply (bool_decide_eq_true_1 (user_img ∉ tl example_names)). vm_compute. reflexivity.
  - apply not_elem_of_nil.
  - vm_compute. discriminate.
  - vm_compute. reflexivity.
  - apply (bool_decide_eq_true_1 (Forall (fun name => 0 ∉ name) (tl example_names))). vm_compute. reflexivity.
  - vm_compute. discriminate.
  - vm_compute. reflexivity.
  - reflexivity.
  - unfold example_list_host. destruct (MkBlob.main _ _ _); reflexivity.
  - unfold example_list_host. destruct (MkBlob.main _ _ _); apply not_elem_of_nil.
  - destruct H as (q1 & E1 & O1 & _); [unfold example_list_host; now rewrite E|].
    exists q1. split; [exact E1|]. rewrite O1. vm_compute. reflexivity.
Defined.
