(* ===== verification/UserLib.v ===== *)
(** User level: the system calls a process can make, as the events of
    interaction trees, and lib/uextras.c and the macros of udefs.h on top of
    them.  A string in the memory of a process is the list of its bytes before
    the NUL; what the C code leaves undefined is the event [Trap]. *)

From ITree Require Import ITree.
From S2P Require Import Prelude Memory State Lib Cio.

(** * System calls *)

(** The stubs of usys.S: each puts the code of the call into EAX and enters the
    kernel.  The answer of [SWait] is the pid and what was stored through the
    status pointer, when something was. *)
Variant sysE : Type -> Type :=
| SExit (status : Z) : sysE unit
| SWait (ask : bool) : sysE (Z * option Z)
| SFork (priority : Z) : sysE Z
| SExec (prog : Z) (args : list Z) : sysE unit
| SRead (chan len : Z) : sysE (Z * list Z)
| SWrite (chan : Z) (buf : list Z) : sysE Z
| SSleep (ms : Z) : sysE unit
| SGetpid : sysE Z
| SGettime : sysE Z
| SGetprio (pid : Z) : sysE Z
| SBogus : sysE unit
| Delay (n : Z) : sysE unit
| Trap (why : string) : sysE Empty_set.

Notation U := (itree sysE).

Declare Scope user_scope.
Delimit Scope user_scope with user.
Notation "x <- m ;; k" := (ITree.bind m (fun x => k)) : user_scope.
Notation "m ;; k" := (ITree.bind m (fun _ => k)) : user_scope.
Notation "'let*' p := m 'in' k" := (ITree.bind m (fun x => match x with p => k end))
  (at level 100, p pattern, m at level 200, k at level 200) : user_scope.
Open Scope user_scope.

Definition done {A} (a : A) : U A := ITreeDefinition.Ret a.

Definition exit (status : Z) : U unit := ITree.trigger (SExit (s32 status)).
Definition wait (ask : bool) : U (Z * option Z) := ITree.trigger (SWait ask).
Definition fork (priority : Z) : U Z := ITree.trigger (SFork priority).
Definition exec (prog : Z) (args : list Z) : U unit := ITree.trigger (SExec prog args).
Definition read (chan len : Z) : U (Z * list Z) := ITree.trigger (SRead chan len).
Definition write (chan : Z) (buf : list Z) : U Z := ITree.trigger (SWrite chan buf).
Definition sleep (ms : Z) : U unit := ITree.trigger (SSleep (u32 ms)).
Definition getpid : U Z := ITree.trigger SGetpid.
Definition gettime : U Z := ITree.trigger SGettime.
Definition getprio (pid : Z) : U Z := ITree.trigger (SGetprio pid).
Definition bogus : U unit := ITree.trigger SBogus.

(** The busy loop of the macro [DELAY]. *)
Definition delay (n : Z) : U unit := ITree.trigger (Delay n).
Definition DELAY_LONG : Z := 100000000.
Definition DELAY_MED : Z := 4500000.
Definition DELAY_SHORT : Z := 2500000.
Definition DELAY_STD : Z := DELAY_SHORT.

Definition SEC_TO_MS (n : Z) : Z := s32 (n * 1000).

Definition trap {A} (why : string) : U A :=
  ITree.bind (ITree.trigger (Trap why)) (fun e : Empty_set => match e with end).

(** * The library functions a process calls *)

(** The string that a function of the library leaves in [char buf[size]]: the
    text must fit with its NUL, and a NUL in the text ends the string. *)
Definition sprint_buf (size : Z) (fmt : list Z) (args : list arg) : U (list Z) :=
  match sprint fmt args tt with
  | Prelude.Ret text _ =>
      if Z.of_nat (length text) <? size then done (until_nul text)
      else trap "buffer overrun"
  | _ => trap "bad format"
  end.

(** The digits that [str2int] reads from the rest of the string. *)
Fixpoint str2int_digits (base bchar num : Z) (str : list Z) : Z :=
  match str with
  | [] => num
  | c :: str =>
      match find_char hexdigits (UCASE (s8 c)) 0 with
      | None => num
      | Some digit =>
          if bchar <? nth (Z.to_nat digit) hexdigits 0 then num
          else str2int_digits base bchar (s32 (num * base + digit)) str
      end
  end.

(** The string after a minus sign, and after a prefix such as 0x. *)
Definition skip_sign (str : list Z) : Z * list Z :=
  match str with c :: l => if c =? 45 then (-1, l) else (1, str) | [] => (1, str) end.

Definition skip_prefix (lo up : Z) (str : list Z) : list Z :=
  match str with
  | c0 :: c1 :: l => if (c0 =? 48) && ((c1 =? lo) || (c1 =? up)) then l else str
  | _ => str
  end.

(** [str2int] on a string instead of an address. *)
Definition str2int_of (str : list Z) (base : Z) : Z :=
  let '(sign, str) := skip_sign str in
  let '(bchar, str) :=
    if negb (base =? 10) then
      if base =? 16 then (70, skip_prefix 120 88 str)
      else if base =? 2 then (s8 (48 + base - 1), skip_prefix 98 66 str)
      else (s8 (48 + base - 1), str)
    else (57, str) in
  s32 (str2int_digits base bchar 0 str * sign).

(** * Command-line arguments *)

Definition ARG_SEP : Z := 13.

(** An argument, and the string that follows it ([[]] at the end). *)
Fixpoint cut_arg (sep : Z) (str : list Z) : list Z * list Z :=
  match str with
  | [] => ([], [])
  | c :: str =>
      if c =? sep then ([], str)
      else let '(w, rest) := cut_arg sep str in (c :: w, rest)
  end.

(** [k] iterations of [parseArgs] at most: the last index it reaches, and the
    arguments. *)
Fixpoint cut_args (k : nat) (sep : Z) (str : list Z) : Z * list (list Z) :=
  match k with
  | Datatypes.O => (0, [])
  | Datatypes.S k =>
      let '(w, rest) := cut_arg sep str in
      match rest with
      | [] => (0, [w])
      | _ => let '(i, ws) := cut_args k sep rest in (i + 1, w :: ws)
      end
  end.

(** [parseArgs] on the string [args]. *)
Definition parse_args (argc : Z) (args : list Z) (sep n : Z) : Z * list (list Z) :=
  if n <=? argc then (-1, [])
  else let '(i, ws) := cut_args (Z.to_nat (Z.min argc (n - 1))) sep args in (i + 1, ws).

(** [argv[i]] after [ARG_PROC], an array of [vlen] pointers that were NULL. *)
Definition argv_at (vlen : Z) (argv : list (list Z)) (i : Z) : U (option (list Z)) :=
  if (0 <=? i) && (i <? vlen) then done (nth_error argv (Z.to_nat i)) else trap "argv index".

(** [argv[i]] where the code reads through the pointer. *)
Definition argv_str (vlen : Z) (argv : list (list Z)) (i : Z) : U (list Z) :=
  o <- argv_at vlen argv i ;;
  match o with Some w => done w | None => trap "NULL argument" end.

(** [argv[i][k]], a signed character. *)
Definition argv_char (vlen : Z) (argv : list (list Z)) (i k : Z) : U Z :=
  w <- argv_str vlen argv i ;;
  if k <=? Z.of_nat (length w) then done (s8 (nth (Z.to_nat k) (w ++ [0]) 0))
  else trap "index past the end of the string".

(** * uextras.c *)

Definition cwritech (ch : Z) : U Z := write CHAN_CIO [u8 ch].
Definition cwrites (str : list Z) : U Z := write CHAN_CIO str.
Definition cwrite (buf : list Z) : U Z := write CHAN_CIO buf.
Definition swritech (ch : Z) : U Z := write CHAN_SIO [u8 ch].
Definition swrites (str : list Z) : U Z := write CHAN_SIO str.
Definition swrite (buf : list Z) : U Z := write CHAN_SIO buf.

(** The printable characters at the start of the arguments. *)
Fixpoint program_name (args : list Z) : list Z :=
  match args with
  | c :: args => if (32 <=? s8 c) && (s8 c <? 127) then c :: program_name args else []
  | [] => []
  end.

Definition spawn (what : Z) (args : list Z) : U Z :=
  pid <- fork PRIO_INHERIT ;;
  if negb (pid =? 0) then done pid
  else
    exec what args ;;
    pid <- getpid ;;
    let pname := program_name args in
    (if Z.of_nat (length pname) <? 16 then done tt else trap "pname overrun") ;;
    buf <- sprint_buf 512 (chars "Child %d exec(%08x,'%s') failed" ++ [10])%list
      [AI pid; AI what; AS pname] ;;
    cwrites buf ;;
    exit S_ERROR ;;
    done 42.

(** * Loops of the user programs *)

(** [for( int i = first; i < limit; ++i )], with the variable [a] that the body
    updates; [n] iterations are left. *)
Fixpoint ufold_from {A} (i : Z) (n : nat) (body : Z -> A -> U A) (a : A) : U A :=
  match n with
  | Datatypes.O => done a
  | Datatypes.S n => a <- body i a ;; ufold_from (i + 1) n body a
  end.

Definition ufold {A} (first limit : Z) (body : Z -> A -> U A) (a : A) : U A :=
  ufold_from first (Z.to_nat (limit - first)) body a.

Definition ufor (first limit : Z) (body : Z -> U unit) : U unit :=
  ufold first limit (fun i _ => body i) tt.

(** [for(;;)]: the loop never ends, the code behind it is not reached. *)
Definition forever {A} (body : U unit) : U A :=
  ITree.iter (fun _ : unit => body ;; done (inl tt)) tt.

(** What is left of a process when its main function returns: [fake_exit]. *)
Definition fake_exit (status : Z) : U unit :=
  exit status ;; ITree.spin.
