(* ===== verification/UserArgs.v ===== *)
(** The string functions of the user programs work on memory: [parseArgs] on the
    string of arguments and the array of pointers it fills in, [str2int] on an
    argument. They compute what [parse_args] and [str2int_of] say. *)

From S2P Require Import Prelude Memory State Lib LibMem UserLib.

Open Scope kernel_scope.

(** ** Cutting off an argument *)

Lemma cut_arg_length sep str :
  let '(w, rest) := cut_arg sep str in
  (length w + length rest <= length str)%nat /\
  (rest <> [] -> length w + length rest + 1 = length str)%nat.
Proof.
  induction str as [|c str IH]; cbn [cut_arg length]; [split; [lia|done]|].
  destruct (c =? sep); cbn [length]; [split; lia|].
  destruct (cut_arg sep str) as [w rest]. cbn [length]. destruct IH as [IH1 IH2].
  split; [lia|]. intros Hr. specialize (IH2 Hr). lia.
Qed.

Lemma s8_eqb c k : 0 <= c < 256 -> 0 <= k < 128 -> (s8 c =? k) = (c =? k).
Proof.
  intros Hc Hk. assert (k = s8 k) as Ek.
  { unfold s8. rewrite u8_small by lia. cbv zeta. destruct (Z.ltb_spec k (2 ^ 7)); lia. }
  rewrite Ek at 1. apply s8_inj; lia.
Qed.

Definition sep_body (sep : Z) (ptr : Z) : K (Z + Z) :=
  c <- load_char ptr ;;
  if c =? 0 then ret (inr ptr)
  else if c =? sep then store8 ptr 0 ;; ret (inr (u32 (ptr + 1)))
  else ret (inl (u32 (ptr + 1))).

Lemma sep_loop sep str ptr s :
  cstring (st_mem s) ptr str -> 0 <= ptr -> ptr + Z.of_nat (length str) + 1 < 2 ^ 32 ->
  0 < sep < 128 ->
  let '(w, rest) := cut_arg sep str in
  exists m', loopN (length str + 1) (sep_body sep) ptr s =
      Ret (inr (ptr + Z.of_nat (length str) - Z.of_nat (length rest))) (up_mem (fun _ => m') s) /\
    cstring m' ptr w /\
    cstring m' (ptr + Z.of_nat (length str) - Z.of_nat (length rest)) rest /\
    agree (outside ptr (Z.of_nat (length str))) (st_mem s) m'.
Proof.
  revert ptr. induction str as [|c str IH]; intros ptr Hc Hp Hl Hs; cbn [cut_arg length] in *.
  - exists (st_mem s). replace (up_mem (fun _ => st_mem s) s) with s by now destruct s.
    cbn in Hc. rewrite Z.add_0_r, Z.sub_0_r. split; [|done].
    apply loopN_done. unfold sep_body. now rewrite load_char_bind, Hc.
  - destruct Hc as (Hc & Hc0 & Hstr). pose proof (ld8_range (st_mem s) ptr) as Hr. rewrite Hc in Hr.
    assert (sep_body sep ptr s = if c =? sep then Ret (inr (ptr + 1)) (up_mem (fun m => st8 m ptr 0) s)
      else Ret (inl (ptr + 1)) s) as E.
    { unfold sep_body. rewrite load_char_bind, Hc, s8_zero by done.
      destruct (Z.eqb_spec c 0); [done|].
      rewrite s8_eqb by lia.
      rewrite u32_small by lia. now destruct (c =? sep). }
    destruct (c =? sep).
    + exists (st8 (st_mem s) ptr 0). split; [|split; [|split]].
      * cbn [Nat.add]. rewrite (loopN_done _ _ _ _ _ _ E). f_equal. f_equal. lia.
      * cbn. apply ld8_st8_eq.
      * replace (ptr + Z.of_nat (S (length str)) - Z.of_nat (length str)) with (ptr + 1) by lia.
        apply (cstring_agree (st_mem s)); [|exact Hstr]. intros x Hx. apply ld8_st8_ne. lia.
      * intros x Hx. apply ld8_st8_ne. unfold outside in *. lia.
    + specialize (IH (ptr + 1) Hstr ltac:(lia) ltac:(lia) Hs).
      destruct (cut_arg sep str) as [w rest]. destruct IH as (m' & E' & Hw & Hrest & Ha).
      exists m'. split; [|split; [|split]].
      * cbn [Nat.add]. rewrite (loopN_step _ _ _ _ _ _ E), E'. f_equal. f_equal. lia.
      * cbn. split; [|split; [exact Hc0|exact Hw]]. rewrite (Ha ptr) by (unfold outside; lia). exact Hc.
      * now replace (ptr + Z.of_nat (S (length str))) with (ptr + 1 + Z.of_nat (length str)) by lia.
      * intros x Hx. apply Ha. unfold outside in *. lia.
Qed.

Lemma next_sep_eq sep str ptr s :
  cstring (st_mem s) ptr str -> 0 <= ptr -> ptr + Z.of_nat (length str) + 1 < 2 ^ 32 ->
  0 < sep < 128 ->
  let '(w, rest) := cut_arg sep str in
  exists m', next_sep sep ptr s =
      Ret (ptr + Z.of_nat (length str) - Z.of_nat (length rest)) (up_mem (fun _ => m') s) /\
    cstring m' ptr w /\
    cstring m' (ptr + Z.of_nat (length str) - Z.of_nat (length rest)) rest /\
    agree (outside ptr (Z.of_nat (length str))) (st_mem s) m'.
Proof.
  intros Hc Hp Hl Hs. pose proof (sep_loop sep str ptr s Hc Hp Hl Hs) as H.
  destruct (cut_arg sep str) as [w rest]. destruct H as (m' & E & H).
  exists m'. split; [|exact H].
  unfold next_sep. change (loop _ ptr) with (loop (sep_body sep) ptr).
  apply (loop_intro _ (length str + 1)); [lia|exact E].
Qed.

(** ** The whole argument vector *)

Definition args_body (argc sep n argv : Z) (st : Z * Z) : K (Z * Z + Z) :=
  let '(i, ptr) := st in
  if (i <? argc) && (i <? n - 1) then
    store32 (u32 (argv + 4 * i)) ptr ;;
    ptr <- next_sep sep ptr ;;
    c <- load_char ptr ;;
    if c =? 0 then ret (inr i) else ret (inl (i + 1, ptr))
  else ret (inr i).

(** [argv[i]] points to the [i]-th string of [ws], from index [i0] on. *)
Definition argv_holds (m : memory) (argv i0 : Z) (ws : list (list Z)) : Prop :=
  forall j w, ws !! j = Some w -> cstring m (ld32 m (argv + 4 * (i0 + Z.of_nat j))) w.

(** The addresses that the iterations from index [i] on leave alone. *)
Definition args_frame (argv i n ptr len : Z) (x : Z) : Prop :=
  outside ptr len x /\ outside (argv + 4 * i) (4 * (n - i)) x.

Lemma args_loop k argc sep n argv i ptr str s :
  k = Z.to_nat (Z.min argc (n - 1) - i) -> 0 <= i ->
  cstring (st_mem s) ptr str -> 0 <= ptr -> ptr + Z.of_nat (length str) + 1 < 2 ^ 32 ->
  0 < sep < 128 -> 0 <= argv -> argv + 4 * n <= 2 ^ 32 ->
  argv + 4 * n <= ptr \/ ptr + Z.of_nat (length str) < argv + 4 * i ->
  exists m', loopN (k + 1) (args_body argc sep n argv) (i, ptr) s =
      Ret (inr (i + fst (cut_args k sep str))) (up_mem (fun _ => m') s) /\
    argv_holds m' argv i (snd (cut_args k sep str)) /\
    agree (args_frame argv i n ptr (Z.of_nat (length str) + 1)) (st_mem s) m'.
Proof.
  revert i ptr str s. induction k as [|k IH]; intros i ptr str s Ek Hi Hc Hp Hl Hs Hv Hvn Ho.
  { exists (st_mem s). replace (up_mem (fun _ => st_mem s) s) with s by now destruct s.
    cbn [cut_args fst snd Nat.add]. split; [|split; [now intros j w|reflexivity]].
    rewrite Z.add_0_r. apply (loopN_done _ 0). unfold args_body.
    destruct (Z.ltb_spec i argc), (Z.ltb_spec i (n - 1)); try reflexivity. lia. }
  set (m1 := st32 (st_mem s) (argv + 4 * i) ptr). set (s1 := up_mem (fun _ => m1) s).
  assert (cstring m1 ptr str) as Hc1.
  { apply (cstring_agree (st_mem s)); [|exact Hc]. intros x Hx. apply ld8_st32_ne. lia. }
  pose proof (next_sep_eq sep str ptr s1 Hc1 Hp Hl Hs) as Hn.
  pose proof (cut_arg_length sep str) as Hlen.
  cbn [cut_args]. destruct (cut_arg sep str) as [w rest]. destruct Hlen as [Hlen Hlenr].
  destruct Hn as (m2 & E & Hw & Hrest & Ha2).
  set (ptr' := ptr + Z.of_nat (length str) - Z.of_nat (length rest)) in *.
  assert (args_body argc sep n argv (i, ptr) s =
    (if match rest with [] => true | _ => false end then ret (inr i) else ret (inl (i + 1, ptr')))
      (up_mem (fun _ => m2) s)) as Eb.
  { unfold args_body. destruct (Z.ltb_spec i argc); [|lia]. destruct (Z.ltb_spec i (n - 1)); [|lia].
    cbn [andb]. rewrite u32_small by lia.
    assert (store32 (argv + 4 * i) ptr s = Ret tt s1) as Es by reflexivity.
    mstep Es. mstep E. rewrite load_char_bind.
    change (st_mem (up_mem (fun _ => m2) s1)) with m2. rewrite s8_zero by apply ld8_range.
    destruct rest as [|c rest]; cbn in Hrest; [now rewrite Hrest|].
    destruct Hrest as (Hc' & Hc0 & _). rewrite Hc'. now destruct (Z.eqb_spec c 0). }
  assert (ld32 m1 (argv + 4 * i) = ptr) as Hcell by (apply ld32_st32_eq; lia).
  destruct rest as [|c rest].
  - exists m2. cbn [fst snd]. rewrite Z.add_0_r. split; [|split].
    + cbn [Nat.add]. now rewrite (loopN_done _ _ _ _ _ _ Eb).
    + intros [|j] w' Hj; [|destruct j; discriminate Hj]. injection Hj as <-.
      rewrite Z.add_0_r. assert (ld32 m2 (argv + 4 * i) = ptr) as ->; [|exact Hw].
      rewrite <- Hcell. apply ld32_agree. intros x Hx. apply Ha2. unfold outside. lia.
    + intros x [Hx1 Hx2]. unfold outside in *. rewrite (Ha2 x) by (unfold outside; lia).
      apply ld8_st32_ne. lia.
  - specialize (Hlenr ltac:(done)). cbn [length] in *.
    destruct (IH (i + 1) ptr' (c :: rest) (up_mem (fun _ => m2) s) ltac:(lia) ltac:(lia)
      Hrest ltac:(lia) ltac:(cbn [length]; lia) Hs Hv Hvn ltac:(cbn [length]; lia)) as (m3 & E3 & Hh & Ha3).
    destruct (cut_args k sep (c :: rest)) as [i' ws] eqn:Ec. cbn [fst snd] in *.
    exists m3. split; [|split].
    + cbn [Nat.add]. rewrite (loopN_step _ _ _ _ _ _ Eb), E3. f_equal. f_equal. lia.
    + assert (forall x, ptr <= x <= ptr + Z.of_nat (length w) \/ argv + 4 * i <= x < argv + 4 * i + 4 ->
        args_frame argv (i + 1) n ptr' (Z.of_nat (length (c :: rest)) + 1) x) as Hfr.
      { intros x Hx. unfold args_frame, outside. cbn [length]. lia. }
      intros [|j] w' Hj; cbn in Hj.
      * injection Hj as <-. rewrite Z.add_0_r.
        assert (ld32 m3 (argv + 4 * i) = ptr) as ->.
        { rewrite <- Hcell. transitivity (ld32 m2 (argv + 4 * i)).
          - apply ld32_agree. intros x Hx. apply Ha3, Hfr. lia.
          - apply ld32_agree. intros x Hx. apply Ha2. unfold outside. lia. }
        apply (cstring_agree m2); [|exact Hw]. intros x Hx. apply Ha3, Hfr. lia.
      * specialize (Hh j w' Hj).
        now replace (i + Z.of_nat (S j)) with (i + 1 + Z.of_nat j) by lia.
    + intros x [Hx1 Hx2]. transitivity (ld8 m2 x); [apply Ha3|transitivity (ld8 m1 x);
        [apply Ha2|apply ld8_st32_ne]]; unfold args_frame, outside in *; cbn [length] in *; lia.
Qed.

(** C32: [parseArgs] on a string in memory: it terminates, returns what
    [parse_args] says, the pointers it stores lead to the arguments, each ended
    by a NUL, and it writes only the string and the array. *)
Theorem parseArgs_parses argc args sep n argv str s :
  cstring (st_mem s) args str -> 0 < args -> args + Z.of_nat (length str) + 1 < 2 ^ 32 ->
  0 < sep < 128 -> 0 <= argv -> argv + 4 * n <= 2 ^ 32 ->
  argv + 4 * n <= args \/ args + Z.of_nat (length str) < argv ->
  exists m', parseArgs argc args sep n argv s =
      Ret (fst (parse_args argc str sep n)) (up_mem (fun _ => m') s) /\
    argv_holds m' argv 0 (snd (parse_args argc str sep n)) /\
    agree (args_frame argv 0 n args (Z.of_nat (length str) + 1)) (st_mem s) m'.
Proof.
  intros Hc Ha Hl Hs Hv Hvn Ho. unfold parseArgs, parse_args.
  destruct (Z.eqb_spec args NULL); [unfold NULL in *; lia|].
  destruct (Z.leb_spec n argc).
  { exists (st_mem s). replace (up_mem (fun _ => st_mem s) s) with s by now destruct s.
    split; [reflexivity|]. split; [now intros j w|reflexivity]. }
  destruct (args_loop (Z.to_nat (Z.min argc (n - 1))) argc sep n argv 0 args str s)
    as (m' & E & Hh & Hag); try assumption; try lia.
  destruct (cut_args (Z.to_nat (Z.min argc (n - 1))) sep str) as [i ws] eqn:Ec.
  cbn [fst snd] in *. exists m'. split; [|split; assumption].
  change (loop _ _) with (loop (args_body argc sep n argv) (0, args)).
  rewrite (bind_Ret _ _ _ i (up_mem (fun _ => m') s)); [reflexivity|].
  apply (loop_intro _ (Z.to_nat (Z.min argc (n - 1)) + 1)); [|exact E]. lia.
Qed.

(** The arguments of user A, at 100; the array is at 400. *)
Definition args_example : kstate :=
  boot_state (st_bytes ∅ 100 (chars "userA" ++ [13; 65; 13; 51; 48] ++ [0])) (fun _ _ => 0).

Lemma parseArgs_parses_witness :
  exists m', parseArgs 3 100 13 5 400 args_example = Ret 3 (up_mem (fun _ => m') args_example) /\
    cstring m' (ld32 m' 404) [65] /\ cstring m' (ld32 m' 408) [51; 48].
Proof.
  destruct (parseArgs_parses 3 100 13 5 400 (chars "userA" ++ [13; 65; 13; 51; 48]) args_example)
    as (m' & E & Hh & _); try (cbn; lia).
  - vm_compute. intuition discriminate.
  - exists m'. split; [exact E|]. split.
    + exact (Hh 1%nat [65] eq_refl).
    + exact (Hh 2%nat [51; 48] eq_refl).
Defined.

(** ** Numbers *)

Definition digits_body (base bchar : Z) (st : Z * Z) : K (Z * Z + Z) :=
  let '(str, num) := st in
  c <- load_char str ;;
  if c =? 0 then ret (inr num)
  else
    match find_char hexdigits (UCASE c) 0 with
    | None => ret (inr num)
    | Some digit =>
        if bchar <? nth (Z.to_nat digit) hexdigits 0 then ret (inr num)
        else ret (inl (u32 (str + 1), s32 (num * base + digit)))
    end.

Lemma digits_loop base bchar str a num s :
  cstring (st_mem s) a str -> 0 <= a -> a + Z.of_nat (length str) < 2 ^ 32 ->
  exists n, (n <= length str)%nat /\
    loopN (n + 1) (digits_body base bchar) (a, num) s = Ret (inr (str2int_digits base bchar num str)) s.
Proof.
  revert a num. induction str as [|c str IH]; intros a num Hc Ha Hl; cbn [str2int_digits length] in *.
  - exists 0%nat. split; [lia|]. apply (loopN_done _ 0). unfold digits_body. now rewrite load_char_bind, Hc.
  - destruct Hc as (Hc & Hc0 & Hstr). pose proof (ld8_range (st_mem s) a) as Hr. rewrite Hc in Hr.
    assert (digits_body base bchar (a, num) s =
      match find_char hexdigits (UCASE (s8 c)) 0 with
      | None => Ret (inr num) s
      | Some digit =>
          if bchar <? nth (Z.to_nat digit) hexdigits 0 then Ret (inr num) s
          else Ret (inl (a + 1, s32 (num * base + digit))) s
      end) as E.
    { unfold digits_body. rewrite load_char_bind, Hc, s8_zero by done.
      destruct (Z.eqb_spec c 0); [done|]. rewrite u32_small by lia.
      destruct (find_char _ _ _) as [d|]; [|reflexivity]. now destruct (bchar <? _). }
    destruct (find_char _ _ _) as [d|]; [destruct (bchar <? _)|].
    + exists 0%nat. split; [lia|]. now apply (loopN_done _ 0).
    + destruct (IH (a + 1) (s32 (num * base + d)) Hstr ltac:(lia) ltac:(lia)) as (n & Hn & E').
      exists (S n). split; [lia|]. cbn [Nat.add]. now rewrite (loopN_step _ _ _ _ _ _ E).
    + exists 0%nat. split; [lia|]. now apply (loopN_done _ 0).
Qed.

(** Where the code is when the list functions have skipped something. *)
Definition reads (m : memory) (a : Z) (str : list Z) (len : nat) : Prop :=
  cstring m a str /\ 0 <= a /\ a + Z.of_nat (length str) + 2 < 2 ^ 32 /\ (length str <= len)%nat.

Lemma skip_sign_eq m a str :
  reads m a str (length str) ->
  exists a', (if s8 (ld8 m a) =? 45 then (-1, u32 (a + 1)) else (1, a)) = (fst (skip_sign str), a') /\
    reads m a' (snd (skip_sign str)) (length str).
Proof.
  intros (Hc & Ha & Hl & _). rewrite s8_eqb by (apply ld8_range || lia).
  unfold reads. destruct str as [|c str]; cbn [skip_sign cstring length] in *.
  - rewrite Hc. cbn. exists a. split; [reflexivity|]. cbn. repeat split; (done || lia).
  - destruct Hc as (Hc & Hc0 & Hstr). rewrite Hc. destruct (c =? 45) eqn:E; cbn [fst snd].
    + rewrite u32_small by lia. exists (a + 1). split; [reflexivity|].
      repeat split; (done || lia).
    + exists a. split; [reflexivity|]. cbn [cstring length]. repeat split; (done || lia).
Qed.

Lemma skip_prefix_eq m a str lo up :
  reads m a str (length str) -> 0 < lo < 128 -> 0 < up < 128 ->
  let c0 := s8 (ld8 m a) in let c1 := s8 (ld8 m (u32 (a + 1))) in
  exists a', (if (c0 =? 48) && ((c1 =? lo) || (c1 =? up)) then u32 (a + 2) else a) = a' /\
    reads m a' (skip_prefix lo up str) (length str).
Proof.
  intros (Hc & Ha & Hl & _) Hlo Hup. cbv zeta. rewrite !s8_eqb by (apply ld8_range || lia).
  rewrite !u32_small by lia. unfold reads.
  destruct str as [|c0 [|c1 str]]; cbn [skip_prefix cstring length] in *.
  - rewrite Hc. cbn. exists a. repeat split; (done || lia).
  - destruct Hc as (Hc & Hc0 & Hc1). rewrite Hc, Hc1. exists a. split.
    + destruct (c0 =? 48); [|done]. cbn [andb]. destruct (Z.eqb_spec 0 lo), (Z.eqb_spec 0 up); done || lia.
    + repeat split; (done || lia).
  - destruct Hc as (Hc & Hc0 & Hd & Hd0 & Hstr). rewrite Hc, Hd.
    destruct ((c0 =? 48) && ((c1 =? lo) || (c1 =? up))); eexists; (split; [reflexivity|]);
      cbn [cstring length]; repeat split; try done; try lia.
    now replace (a + 2) with (a + 1 + 1) by lia.
Qed.

(** [str2int] terminates on every string, in every base, and computes
    [str2int_of] without changing anything. *)
Theorem str2int_total base str a s :
  cstring (st_mem s) a str -> 0 <= a -> a + Z.of_nat (length str) + 2 < 2 ^ 32 ->
  str2int a base s = Ret (str2int_of str base) s.
Proof.
  intros Hc Ha Hl.
  destruct (skip_sign_eq (st_mem s) a str) as (a1 & E1 & Hr1); [repeat split; (done || lia)|].
  unfold str2int, str2int_of. rewrite load_char_bind, E1.
  destruct (skip_sign str) as [sign str1]. cbn [fst snd] in *. rewrite !load_char_bind.
  set (c0 := s8 (ld8 (st_mem s) a1)). set (c1 := s8 (ld8 (st_mem s) (u32 (a1 + 1)))).
  assert (reads (st_mem s) a1 str1 (length str1)) as Hr by (destruct Hr1 as (?&?&?&?); repeat split; (done || lia)).
  destruct (skip_prefix_eq _ a1 str1 120 88 Hr ltac:(lia) ltac:(lia)) as (a16 & E16 & Hr16).
  destruct (skip_prefix_eq _ a1 str1 98 66 Hr ltac:(lia) ltac:(lia)) as (a2 & E2 & Hr2).
  fold c0 c1 in E16, E2.
  set (p := if negb (base =? 10) then _ else _). set (q := if negb (base =? 10) then _ else (57, str1)).
  assert (fst p = fst q /\ reads (st_mem s) (snd p) (snd q) (length str1)) as [Ep Hq].
  { unfold p, q. rewrite E16, E2. destruct (base =? 10), (base =? 16), (base =? 2); done. }
  destruct p as [bchar a'], q as [bchar' str']. cbn [fst snd] in *. subst bchar'.
  destruct Hq as (Hc' & Ha' & Hl' & _).
  destruct (digits_loop base bchar str' a' 0 s Hc' Ha' ltac:(lia)) as (n & Hn & E).
  change (loop _ (a', 0)) with (loop (digits_body base bchar) (a', 0)).
  rewrite (bind_Ret _ _ _ (str2int_digits base bchar 0 str') s); [reflexivity|].
  apply (loop_intro _ (n + 1)); [lia|exact E].
Qed.

Lemma str2int_total_witness :
  str2int 104 13 args_example = Ret (str2int_of (chars "A" ++ [13; 65; 13; 51; 48]) 13) args_example.
Proof. apply str2int_total; [vm_compute; intuition discriminate|lia|cbn; lia]. Defined.
