(* ===== verification/UserProgs.v ===== *)
(** user/*.c: the idle process and the test programs, except init.  Each main
    function is an interaction tree over the system calls that returns what the
    C function returns. *)

From ITree Require Import ITree.
From S2P Require Import Prelude Memory State Lib Cio UserLib.

(** The programs of the user blob.  Where they start is decided by the linker. *)
Inductive program :=
| Idle | ProgABC | ProgDE | ProgFG | ProgH | ProgI | ProgJ | ProgKL | ProgMN | ProgP
| ProgQ | ProgR | ProgS | ProgTUV | ProgW | ProgX | ProgY | ProgZ.

Class Entries := entry : program -> Z.

Definition nl : list Z := [10].

(** A string literal whose words are separated by [\r]. *)
Fixpoint cmdline (l : list string) : list Z :=
  match l with
  | [] => []
  | [w] => chars w
  | w :: l => chars w ++ [13] ++ cmdline l
  end.

Definition MAX_CHILDREN : Z := 50.

(** * The common start of the programs *)

Definition ARG_PROC (n : Z) (args : list Z) (vlen : Z) : Z * list (list Z) :=
  parse_args n args ARG_SEP vlen.

(** The report of unexpected arguments, after its first line: one argument per
    index from [first] to [argc]; the code prints the argument [ix i]. *)
Definition report_rest (argc : Z) (argv : list (list Z)) (first : Z) (ix : Z -> Z) : U unit :=
  ufor first (argc + 1) (fun i =>
    o <- argv_at 5 argv (ix i) ;;
    buf <- sprint_buf 128 (chars " %s")
      [AS (match o with Some w => w | None => chars "(null)" end)] ;;
    cwrites buf ;; done tt) ;;
  cwrites nl ;; done tt.

Definition report_args (argc : Z) (argv : list (list Z)) (first : Z) (ix : Z -> Z) : U unit :=
  name <- argv_str 5 argv 0 ;;
  buf <- sprint_buf 128 (chars "%s: argc %d, args: ") [AS name; AI argc] ;;
  cwrites buf ;;
  report_rest argc argv first ix.

(** [switch( argc )] with the cases 3 (a number and the character) and 2 (the
    character); the other cases report and keep the defaults. *)
Definition switch3 (argc : Z) (argv : list (list Z)) (num ch : Z) (report : U unit) : U (Z * Z) :=
  if argc =? 3 then
    w <- argv_str 5 argv 2 ;; c <- argv_char 5 argv 1 0 ;; done (str2int_of w 10, c)
  else if argc =? 2 then c <- argv_char 5 argv 1 0 ;; done (num, c)
  else report ;; done (num, ch).

(** The same with a case 4 before them, for a third argument read by [last]. *)
Definition switch4 {A} (argc : Z) (argv : list (list Z)) (dflt : A) (last : list Z -> U A)
    (num ch : Z) (report : U unit) : U (A * Z * Z) :=
  if argc =? 4 then
    w <- argv_str 5 argv 3 ;; a <- last w ;;
    w <- argv_str 5 argv 2 ;; c <- argv_char 5 argv 1 0 ;; done (a, str2int_of w 10, c)
  else
    let* (n, c) := switch3 argc argv num ch report in done (dflt, n, c).

Definition number (w : list Z) : U Z := done (str2int_of w 10).

(** The check of the count that [write] returned. *)
Definition check_write (fmt : list Z) (ch n expected : Z) : U unit :=
  if negb (n =? expected) then
    buf <- sprint_buf 128 fmt [AI ch; AI n] ;;
    cwrites buf ;; done tt
  else done tt.

Section Programs.
Context {E : Entries}.

(** * idle *)

Definition idle (args : list Z) : U Z :=
  let ch := 46 in
  pid <- getpid ;;
  now <- gettime ;;
  prio <- getprio 0 ;;
  buf <- sprint_buf 128 (chars "idle [%d], started @ %u" ++ nl)%list [AI pid; AI prio; AI now] ;;
  cwrites buf ;;
  write CHAN_SIO [ch] ;;
  forever (delay DELAY_LONG ;; write CHAN_SIO [ch] ;; done tt).

(** * Programs that print in a loop *)

Definition progABC (args : list Z) : U Z :=
  let '(argc, argv) := ARG_PROC 3 args 5 in
  let* (count, ch) := switch3 argc argv 30 49 (report_args argc argv 1 id) in
  n <- swritech ch ;;
  check_write (chars "== %c, write #1 returned %d" ++ nl)%list ch n 1 ;;
  ufor 0 count (fun i =>
    delay DELAY_STD ;;
    n <- swritech ch ;;
    check_write (chars "== %c, write #2 returned %d" ++ nl)%list ch n 1) ;;
  exit (50 + (ch - 65)) ;;
  n <- write CHAN_SIO [42; u8 ch; 42] ;;
  check_write (chars "User %c, write #3 returned %d" ++ nl)%list ch n 3 ;;
  done 99.

Definition progDE (args : list Z) : U Z :=
  let '(argc, argv) := ARG_PROC 3 args 5 in
  let* (count, ch) := switch3 argc argv 30 50 (report_args argc argv 0 id) in
  n <- swritech ch ;;
  check_write (chars "== %c, write #1 returned %d" ++ nl)%list ch n 1 ;;
  ufor 0 count (fun i =>
    delay DELAY_STD ;;
    n <- swritech ch ;;
    check_write (chars "== %c, write #2 returned %d" ++ nl)%list ch n 1) ;;
  done (60 + (ch - 68)).

Definition progFG (args : list Z) : U Z :=
  let nap := 10 in
  let '(argc, argv) := ARG_PROC 3 args 5 in
  let* (count, ch) := switch3 argc argv 30 51 (report_args argc argv 0 id) in
  n <- swritech ch ;;
  check_write (chars "=== %c, write #1 returned %d" ++ nl)%list ch n 1 ;;
  write CHAN_SIO [u8 ch] ;;
  ufor 0 count (fun i =>
    sleep (SEC_TO_MS nap) ;;
    write CHAN_SIO [u8 ch] ;; done tt) ;;
  exit 0 ;;
  done 42.

Definition progP (args : list Z) : U Z :=
  let '(argc, argv) := ARG_PROC 4 args 5 in
  let* (nap, count, ch) := switch4 argc argv 2 number 3 112 (report_args argc argv 0 id) in
  now <- gettime ;;
  buf <- sprint_buf 128 (chars " P@%u") [AI now] ;;
  swrites buf ;;
  ufor 0 count (fun i =>
    sleep (SEC_TO_MS nap) ;;
    write CHAN_SIO [u8 ch] ;; done tt) ;;
  exit 0 ;;
  done 42.

Definition progQ (args : list Z) : U Z :=
  let '(argc, argv) := ARG_PROC 2 args 5 in
  ch <- (if argc =? 2 then argv_char 5 argv 1 0
         else report_args argc argv 0 id ;; done 113) ;;
  write CHAN_SIO [u8 ch] ;;
  bogus ;;
  buf <- sprint_buf 128 (chars "!!!!! %c returned from bogus syscall!?!?!" ++ nl)%list [AI ch] ;;
  cwrites buf ;;
  exit 1 ;;
  done 42.

Definition progS (args : list Z) : U Z :=
  let '(argc, argv) := ARG_PROC 3 args 5 in
  let* (nap, ch) := switch3 argc argv 20 115 (report_args argc argv 0 id) in
  write CHAN_SIO [u8 ch] ;;
  name <- argv_str 5 argv 0 ;;
  buf <- sprint_buf 128 (chars "%s sleeping %d(%d)" ++ nl)%list
    [AS name; AI nap; AI (SEC_TO_MS nap)] ;;
  cwrites buf ;;
  forever (sleep (SEC_TO_MS nap) ;; write CHAN_SIO [u8 ch] ;; done tt).

Definition progW (args : list Z) : U Z :=
  let '(argc, argv) := ARG_PROC 4 args 5 in
  let* (nap, count, ch) := switch4 argc argv 3 number 20 119 (report_args argc argv 0 id) in
  pid <- getpid ;;
  now <- gettime ;;
  buf <- sprint_buf 128 (chars " %c[%d,%u]") [AI ch; AI pid; AI now] ;;
  swrites buf ;;
  write CHAN_SIO [u8 ch] ;;
  ufor 0 count (fun i =>
    now <- gettime ;;
    buf <- sprint_buf 128 (chars " %c[%d,%u] ") [AI ch; AI pid; AI now] ;;
    swrites buf ;;
    sleep (SEC_TO_MS nap)) ;;
  exit 0 ;;
  done 42.

Definition progX (args : list Z) : U Z :=
  let '(argc, argv) := ARG_PROC 3 args 5 in
  let* (count, ch) := switch3 argc argv 20 120 (report_args argc argv 0 id) in
  pid <- getpid ;;
  buf <- sprint_buf 128 (chars " %c[%d]") [AI ch; AI pid] ;;
  swrites buf ;;
  ufor 0 count (fun i => swrites buf ;; delay DELAY_STD) ;;
  exit 12 ;;
  done 42.

(** The first line of the report of progY and progZ does not name the program. *)
Definition report_anonymous (argc : Z) (argv : list (list Z)) : U unit :=
  buf <- sprint_buf 128 (chars "?: argc %d, args: ") [AI argc] ;;
  cwrites buf ;;
  report_rest argc argv 0 id.

Definition progY (args : list Z) : U Z :=
  let '(argc, argv) := ARG_PROC 3 args 5 in
  let* (count, ch) := switch3 argc argv 10 121 (report_anonymous argc argv) in
  pid <- getpid ;;
  buf <- sprint_buf 128 (chars " %c[%d]") [AI ch; AI pid] ;;
  swrites buf ;;
  ufor 0 count (fun i => swrites buf ;; delay DELAY_STD ;; sleep (SEC_TO_MS 1)) ;;
  exit 0 ;;
  done 42.

Definition progZ (args : list Z) : U Z :=
  let '(argc, argv) := ARG_PROC 3 args 5 in
  let* (count, ch) := switch3 argc argv 10 122 (report_anonymous argc argv) in
  pid <- getpid ;;
  buf <- sprint_buf 128 (chars " %c[%d]") [AI ch; AI pid] ;;
  swrites buf ;;
  ufor 0 count (fun i =>
    buf <- sprint_buf 128 (chars " %c[%d]") [AI ch; AI i] ;;
    swrites buf ;;
    delay DELAY_STD ;;
    if truth (Z.land i 1) then sleep 0 else done tt) ;;
  exit 0 ;;
  done 42.

(** * Programs that create processes *)

Definition progH (args : list Z) : U Z :=
  let '(argc, argv) := ARG_PROC 3 args 5 in
  let* (count, ch) := switch3 argc argv 5 104 (report_args argc argv 0 (fun _ => argc)) in
  swritech ch ;;
  ret <- ufold 0 count (fun i ret =>
    whom <- spawn (entry ProgZ) (cmdline ["progZ"; "Z"; "10"]) ;;
    if whom <? 0 then
      buf <- sprint_buf 128 (chars "!! %c spawn() failed, returned %d" ++ nl)%list
        [AI ch; AI whom] ;;
      cwrites buf ;;
      done (ret + 1)
    else done ret) 0 ;;
  sleep 0 ;;
  swritech ch ;;
  exit ret ;;
  done 42.

(** [children[nkids++] = whom]. *)
Definition add_child (children : list Z) (whom : Z) : U (list Z) :=
  if Z.of_nat (length children) <? MAX_CHILDREN then done (children ++ [whom])%list
  else trap "children overrun".

(** Entries of [children] that were not stored are indeterminate. *)
Definition child_at (children : list Z) (i : Z) : U Z :=
  match nth_error children (Z.to_nat i) with
  | Some c => done c
  | None => trap "children not initialised"
  end.

Definition progI (args : list Z) : U Z :=
  let nap := 5 in
  let '(argc, argv) := ARG_PROC 3 args 5 in
  let* (count, ch) := (if argc =? 1 then done (5, 105)
                   else switch3 argc argv 5 105 (report_args argc argv 0 id)) in
  write CHAN_SIO [u8 ch] ;;
  children <- ufold 0 count (fun i children =>
    whom <- spawn (entry ProgW) (cmdline ["progW"; "W"; "10"; "5"]) ;;
    if whom <? 0 then swrites (until_nul [42; u8 ch; 42]) ;; done children
    else swritech ch ;; add_child children whom) [] ;;
  sleep (SEC_TO_MS nap) ;;
  ITree.iter (fun _ : unit =>
    let* (n, _) := wait false in
    if n =? S_NO_CHILD then done (inr tt)
    else
      ufor 0 count (fun i =>
        c <- child_at children i ;;
        if c =? n then
          buf <- sprint_buf 128 (chars "== %c: child %d (%d)" ++ nl)%list [AI ch; AI i; AI c] ;;
          cwrites buf ;; done tt
        else done tt) ;;
      sleep (SEC_TO_MS nap) ;;
      done (inl tt)) tt ;;
  exit 0 ;;
  done 42.

Definition progJ (args : list Z) : U Z :=
  let '(argc, argv) := ARG_PROC 3 args 5 in
  let* (count, ch) := switch3 argc argv (2 * Z.of_nat N_PROCS) 106 (report_args argc argv 0 id) in
  write CHAN_SIO [u8 ch] ;;
  ufor 0 count (fun i =>
    whom <- spawn (entry ProgY) (cmdline ["progY"; "Y"; "10"]) ;;
    if whom <? 0 then write CHAN_SIO (chars "!j!") ;; done tt
    else write CHAN_SIO [u8 ch] ;; done tt) ;;
  exit 0 ;;
  done 42.

(** progKL has a buffer of 32 characters, also for its report. *)
Definition report_KL (argc : Z) (argv : list (list Z)) : U unit :=
  buf <- sprint_buf 32 (chars "%s: argc %d, args: ") [AS (chars "progKL"); AI argc] ;;
  cwrites buf ;;
  ufor 0 (argc + 1) (fun i =>
    o <- argv_at 5 argv i ;;
    buf <- sprint_buf 32 (chars " %s")
      [AS (match o with Some w => w | None => chars "(null)" end)] ;;
    cwrites buf ;; done tt) ;;
  cwrites nl ;; done tt.

Definition progKL (args : list Z) : U Z :=
  let nap := 30 in
  let '(argc, argv) := ARG_PROC 3 args 5 in
  let* (count, ch) := switch3 argc argv 5 52 (report_KL argc argv) in
  write CHAN_SIO [u8 ch] ;;
  ufor 0 count (fun i =>
    write CHAN_SIO [u8 ch] ;;
    buf <- sprint_buf 32 (cmdline ["progX"; "X"; "%d"]) [AI (100 + i)] ;;
    whom <- spawn (entry ProgX) buf ;;
    (if whom <? 0 then swrites (chars "*4*") else write CHAN_SIO [u8 ch]) ;;
    sleep (SEC_TO_MS nap)) ;;
  exit 0 ;;
  done 42.

Definition progMN (args : list Z) : U Z :=
  let '(argc, argv) := ARG_PROC 4 args 5 in
  let* (alsoZ, count, ch) :=
    switch4 argc argv false (fun w => done (nth 0 (w ++ [0]) 0 =? 116)) 5 53
      (report_args argc argv 0 id) in
  let msgw := until_nul [42; u8 ch; 119; 42] in
  let msgz := until_nul [42; u8 ch; 122; 42] in
  write CHAN_SIO [u8 ch] ;;
  ufor 0 count (fun i =>
    write CHAN_SIO [u8 ch] ;;
    whom <- spawn (entry ProgW) (cmdline ["progW"; "W"; "15"; "5"]) ;;
    (if whom <? 1 then swrites msgw ;; done tt else done tt) ;;
    if (alsoZ : bool) then
      whom <- spawn (entry ProgZ) (cmdline ["progZ"; "Z"; "15"]) ;;
      if whom <? 1 then swrites msgz ;; done tt else done tt
    else done tt) ;;
  exit 0 ;;
  done 42.

Definition progR (args : list Z) : U Z :=
  let '(argc, argv) := ARG_PROC 4 args 5 in
  let* (delay, seq, ch) := switch4 argc argv 10 number 99 114 (report_args argc argv 0 id) in
  ITree.iter (fun seq =>
    pid <- getpid ;;
    buf <- sprint_buf 128 (chars " %c[%d,%d]") [AI ch; AI seq; AI pid] ;;
    swrites buf ;;
    sleep (SEC_TO_MS delay) ;;
    next <- (if seq <? 5 then
               n <- fork PRIO_INHERIT ;;
               if n =? -1 then
                 buf <- sprint_buf 128 (chars "** R[%d] fork code %d" ++ nl)%list [AI pid; AI n] ;;
                 cwrites buf ;;
                 done (inr (seq + 1))
               else if n =? 0 then done (inl (seq + 1))
               else sleep (SEC_TO_MS delay) ;; done (inr seq)
             else done (inr seq)) ;;
    match next with
    | inl seq => done (inl seq)
    | inr seq =>
        pid <- getpid ;;
        buf <- sprint_buf 128 (chars " %c[%d,%d]") [AI ch; AI seq; AI pid] ;;
        swrites buf ;;
        exit 0 ;;
        done (inr 42)
    end) seq.

(** The first index of [pid] among the children. *)
Fixpoint find_child (children : list Z) (pid i : Z) : Z :=
  match children with
  | [] => -1
  | c :: l => if c =? u32 pid then i else find_child l pid (i + 1)
  end.

Definition progTUV (args : list Z) : U Z :=
  let nap := 8 in
  let '(argc, argv) := ARG_PROC 3 args 5 in
  let* (count, ch) := switch3 argc argv 3 54 (report_args argc argv 0 id) in
  let ch2 := until_nul [42; u8 ch; 42] in
  write CHAN_SIO [u8 ch] ;;
  children <- ufold 0 count (fun i children =>
    whom <- spawn (entry ProgW) (cmdline ["progW"; "W"; "10"; "5"]) ;;
    if whom <? 0 then swrites ch2 ;; done children
    else add_child children (u32 whom)) [] ;;
  sleep (SEC_TO_MS nap) ;;
  let nkids := Z.of_nat (length children) in
  ITree.iter (fun n =>
    let* (this, st) := wait true in
    let status := match st with Some v => v | None => 0xcafe end in
    if this <? 1 then
      (if negb (this =? S_NO_CHILD) then
         sprint_buf 128 (chars "!! %c: wait() ret %d status %d (%x)" ++ nl)%list
           [AI ch; AI this; AI status; AI (u32 status)]
       else sprint_buf 128 (chars "!! %c: no children" ++ nl)%list [AI ch]) ;;
      done (inr tt)
    else
      let ix := find_child children this 0 in
      buf <- (if ix <? 0 then
                sprint_buf 128 (chars "!! %c: child PID %d status %d, NOT FOUND" ++ nl)%list
                  [AI ch; AI this; AI status]
              else
                sprint_buf 128 (chars "== %c: child %d (%d) status %d" ++ nl)%list
                  [AI ch; AI ix; AI this; AI status]) ;;
      cwrites buf ;;
      done (if n + 1 <? nkids then inl (n + 1) else inr tt)) 0 ;;
  exit 0 ;;
  done 42.
End Programs.
