(* ===== verification/UserInit.v ===== *)
(** user/init.c: the first process. *)

From ITree Require Import ITree.
From S2P Require Import Prelude Memory State Lib Cio UserLib UserProgs.

Record proc_t := Proc { proc_entry : program; proc_args : list Z; proc_priority : Z; proc_select : Z }.

Definition PROCENT (e : program) (args : list string) (prio : Z) (sel : string) : proc_t :=
  Proc e (cmdline args) prio (nth 0 (chars sel) 0).

(** The table for the options of udefs.h: SPAWN_A to SPAWN_L. *)
Definition in_procs : list proc_t :=
  [PROCENT Idle ["idle"; "."] PRIO_LOW "!";
   PROCENT ProgABC ["userA"; "A"; "30"] PRIO_STD "a";
   PROCENT ProgABC ["userB"; "B"; "30"] PRIO_STD "b";
   PROCENT ProgABC ["userC"; "C"; "30"] PRIO_STD "c";
   PROCENT ProgDE ["userD"; "D"; "20"] PRIO_STD "d";
   PROCENT ProgDE ["userE"; "E"; "20"] PRIO_STD "e";
   PROCENT ProgFG ["userF"; "F"; "20"] PRIO_STD "f";
   PROCENT ProgFG ["userG"; "G"; "10"] PRIO_STD "g";
   PROCENT ProgH ["userH"; "H"; "4"] PRIO_STD "h";
   PROCENT ProgI ["userI"; "I"] PRIO_STD "i";
   PROCENT ProgJ ["userJ"; "J"] PRIO_STD "j";
   PROCENT ProgKL ["userK"; "K"; "8"] PRIO_STD "k";
   PROCENT ProgKL ["userL"; "L"; "5"] PRIO_STD "l"].

Definition IN_ENTRIES : Z := Z.of_nat (length in_procs).

(** The entries for the options that are switched off (SPAWN_M to SPAWN_V). *)
Definition in_procs_off : list proc_t :=
  [PROCENT ProgMN ["userM"; "M"; "5"; "f"] PRIO_STD "m";
   PROCENT ProgMN ["userN"; "N"; "5"; "t"] PRIO_STD "n";
   PROCENT ProgP ["userP"; "P"; "3"; "2"] PRIO_STD "p";
   PROCENT ProgQ ["userQ"; "Q"] PRIO_STD "q";
   PROCENT ProgR ["userR"; "R"; "20"; "1"] PRIO_STD "r";
   PROCENT ProgS ["userS"; "S"; "13"] PRIO_STD "s";
   PROCENT ProgTUV ["userT"; "T"; "6"] PRIO_STD "t";
   PROCENT ProgTUV ["userU"; "U"; "6"] PRIO_STD "u";
   PROCENT ProgTUV ["userV"; "V"; "6"] PRIO_STD "v"].

Section Init.
Context {E : Entries}.

(** [process( ix )] with the array [proc_pids], which it updates in the parent. *)
Definition process (ix : Z) (proc_pids : list Z) : U (list Z) :=
  match (if 0 <=? ix then in_procs !! Z.to_nat ix else None) with
  | None =>
      buf <- sprint_buf 128 (chars "INIT: process(%d)???" ++ nl)%list [AI ix] ;;
      cwrites buf ;;
      done proc_pids
  | Some proc =>
      p <- fork (proc_priority proc) ;;
      if p <? 0 then
        buf <- sprint_buf 128 (chars "INIT: fork for 0x%08x failed" ++ nl)%list
          [AI (entry (proc_entry proc))] ;;
        cwrites buf ;;
        done proc_pids
      else if p =? 0 then
        exec (entry (proc_entry proc)) (proc_args proc) ;;
        buf <- sprint_buf 128 (chars "INIT: exec(0x%08x) failed" ++ nl)%list
          [AI (entry (proc_entry proc))] ;;
        cwrites buf ;;
        done proc_pids
      else done (aset proc_pids ix p)
  end.

(** The first index of [whom] in [proc_pids]. *)
Fixpoint find_started (proc_pids : list Z) (whom ix : Z) : option Z :=
  match proc_pids with
  | [] => None
  | p :: l => if p =? whom then Some ix else find_started l whom (ix + 1)
  end.

(** One iteration of the loop that waits for children. *)
Definition reap (name : list Z) (proc_pids : list Z) : U (list Z) :=
  let* (whom, st) := wait true in
  if whom <=? 0 then
    buf <- sprint_buf 128 (chars "%s: wait() returned %d???" ++ nl)%list [AS name; AI whom] ;;
    cwrites buf ;;
    done proc_pids
  else
    status <- (match st with Some v => done v | None => trap "status not initialised" end) ;;
    buf <- sprint_buf 128 (chars "%s: pid %d exit(%d)" ++ nl)%list
      [AS name; AI whom; AI status] ;;
    cwrites buf ;;
    match find_started proc_pids whom 0 with
    | None => done proc_pids
    | Some ix =>
        let proc_pids := aset proc_pids ix 0 in
        if ix =? 0 then process 0 proc_pids else done proc_pids
    end.

Definition init (args : list Z) : U Z :=
  let '(argc, argv) := ARG_PROC 2 args 5 in
  ch <- (if argc =? 2 then argv_char 5 argv 1 0 else done 43) ;;
  swrites (nl ++ nl ++ chars "Audio, video, disco!" ++ nl ++ nl ++ [13])%list ;;
  name <- argv_str 5 argv 0 ;;
  buf <- sprint_buf 128 (chars "%s: starting user processes" ++ nl)%list [AS name] ;;
  cwrites buf ;;
  pids <- ufold 0 IN_ENTRIES process (replicate (Z.to_nat IN_ENTRIES) 0) ;;
  swrites (chars " !!!" ++ [13; 10; 10])%list ;;
  buf <- sprint_buf 128 (chars "%s: transitioning to wait() mode" ++ nl)%list [AS name] ;;
  cwrites buf ;;
  ITree.iter (fun pids => pids <- reap name pids ;; done (inl pids)) pids.

(** * Programs as processes *)

(** The main function at an entry point, and the whole life of a process. *)
Definition main_of (p : program) : list Z -> U Z :=
  match p with
  | Idle => idle | ProgABC => progABC | ProgDE => progDE | ProgFG => progFG | ProgH => progH
  | ProgI => progI | ProgJ => progJ | ProgKL => progKL | ProgMN => progMN | ProgP => progP
  | ProgQ => progQ | ProgR => progR | ProgS => progS | ProgTUV => progTUV | ProgW => progW
  | ProgX => progX | ProgY => progY | ProgZ => progZ
  end.

Definition process_of (p : program) (args : list Z) : U unit :=
  v <- main_of p args ;; fake_exit v.

Definition init_process (args : list Z) : U unit :=
  v <- init args ;; fake_exit v.
End Init.
