(* ===== verification/UserFormat.v ===== *)
(** Bounds on the text that [sprint] produces: how much room a format needs can
    be computed from the format and the lengths of its string arguments alone,
    so that the buffers of the user programs are checked by evaluation. *)

From S2P Require Import Prelude Memory State Lib Cio UserLib.

(** ** The conversions *)

Lemma length_cvtdec0_rec fuel v : (length (cvtdec0_rec fuel v) <= fuel)%nat.
Proof.
  revert v. induction fuel as [|fuel IH]; intros v; cbn [cvtdec0_rec]; [done|]. cbv zeta.
  destruct (_ <? 0); rewrite length_app; destruct (negb _); cbn; try lia;
    match goal with |- context[cvtdec0_rec fuel ?q] => pose proof (IH q) end; lia.
Qed.

Lemma length_cvtdec0 v : (length (cvtdec0 v) <= 11)%nat.
Proof. apply length_cvtdec0_rec. Qed.

Lemma length_cvtdec v : (length (cvtdec v) <= 12)%nat.
Proof.
  unfold cvtdec. destruct (v <? 0); cbn [length];
    match goal with |- context[cvtdec0 ?q] => pose proof (length_cvtdec0 q) end; lia.
Qed.

Lemma length_cvtuns v : (length (cvtuns v) <= 12)%nat.
Proof.
  unfold cvtuns, cvtuns0. rewrite length_app. cbn [length]. destruct (negb _); cbn [length]; [|lia].
  match goal with |- context[cvtdec0 ?q] => pose proof (length_cvtdec0 q) end. lia.
Qed.

Lemma length_cvthex_loop i n c v : (length (cvthex_loop i n c v) <= n)%nat.
Proof.
  revert i c v. induction n as [|n IH]; intros i c v; cbn [cvthex_loop]; [done|]. cbv zeta.
  destruct (_ || _); cbn [length];
    match goal with |- context[cvthex_loop ?a n ?b ?q] => pose proof (IH a b q) end; lia.
Qed.

Lemma length_cvtoct_loop i n c x v : (length (cvtoct_loop i n c x v) <= n)%nat.
Proof.
  revert i c x v. induction n as [|n IH]; intros i c x v; cbn [cvtoct_loop]; [done|]. cbv zeta.
  destruct (_ || _); cbn [length];
    match goal with |- context[cvtoct_loop ?a n ?b ?y ?q] => pose proof (IH a b y q) end; lia.
Qed.

(** A bound for the text of a conversion, and the arguments it leaves. *)
Definition convert_bound (ch : Z) (ap : list arg) : option (option (nat * list arg)) :=
  if (ch =? 99) || (ch =? 100) || (ch =? 120) || (ch =? 111) || (ch =? 117) then
    match ap with AI _ :: ap => Some (Some (if ch =? 99 then 1%nat else 12%nat, ap)) | _ => None end
  else if ch =? 115 then
    match ap with AS str :: ap => Some (Some (length str, ap)) | _ => None end
  else Some None.

Lemma convert_within ch ap r :
  convert_bound ch ap = Some r ->
  match r with
  | None => convert ch ap tt = Ret None tt
  | Some (n, ap') => exists str len, convert ch ap tt = Ret (Some (str, len, ap')) tt /\
      (length str <= n)%nat /\ (len = -1 \/ len = Z.of_nat (length str))
  end.
Proof.
  unfold convert_bound, convert. intros H.
  pose proof length_cvtdec. pose proof length_cvtuns.
  destruct (Z.eqb_spec ch 99) as [->|]; cbn [orb] in H.
  { destruct ap as [|[v|] ap]; try discriminate H. injection H as <-.
    eexists _, _. split; [reflexivity|]. cbn. lia. }
  destruct (Z.eqb_spec ch 100) as [->|]; cbn [orb] in H.
  { destruct ap as [|[v|] ap]; try discriminate H. injection H as <-.
    eexists _, _. split; [reflexivity|]. cbn -[cvtdec]. auto. }
  destruct (Z.eqb_spec ch 120) as [->|]; cbn [orb] in H.
  { destruct ap as [|[v|] ap]; try discriminate H. injection H as <-.
    eexists _, _. split; [reflexivity|]. split; [|auto].
    pose proof (length_cvthex_loop 0 8 0 (u32 v)). unfold cvthex. cbn -[cvthex_loop]. lia. }
  destruct (Z.eqb_spec ch 111) as [->|]; cbn [orb] in H.
  { destruct ap as [|[v|] ap]; try discriminate H. injection H as <-.
    eexists _, _. split; [reflexivity|]. split; [|auto]. unfold cvtoct.
    match goal with |- context[cvtoct_loop ?a ?n ?b ?x ?q] =>
      pose proof (length_cvtoct_loop a n b x q) end. cbn -[cvtoct_loop]. lia. }
  destruct (Z.eqb_spec ch 117) as [->|]; cbn [orb] in H.
  { destruct ap as [|[v|] ap]; try discriminate H. injection H as <-.
    eexists _, _. split; [reflexivity|]. cbn -[cvtuns]. auto. }
  destruct (Z.eqb_spec ch 115) as [->|]; injection H as <- || idtac.
  - destruct ap as [|[v|str] ap]; try discriminate H. injection H as <-.
    eexists _, _. split; [reflexivity|]. split; [lia|auto].
  - reflexivity.
Qed.

Lemma length_padstr str len width left padchar :
  len = -1 \/ len = Z.of_nat (length str) ->
  (length (padstr str len width left padchar) <= Nat.max (length str) (Z.to_nat width))%nat.
Proof.
  intros Hlen. unfold padstr.
  set (n := if len <? 0 then Z.of_nat (length str) else len).
  assert (n = Z.of_nat (length str)) as En.
  { unfold n. destruct Hlen as [->| ->]; [reflexivity|].
    destruct (Z.ltb_spec (Z.of_nat (length str)) 0); lia. }
  rewrite En. rewrite !length_app, length_take.
  destruct (Z.ltb_spec 0 (width - Z.of_nat (length str))); cbn [andb];
    destruct (truth left); cbn [negb]; unfold pad; rewrite ?length_replicate; cbn [length]; lia.
Qed.

(** ** Whole formats *)

(** The room that a format needs at most; [fuel] is more than its length. *)
Fixpoint fmt_bound (fuel : nat) (fmt : list Z) (ap : list arg) : option nat :=
  match fuel with
  | Datatypes.O => None
  | Datatypes.S fuel =>
      match fmt with
      | [] => Some 0%nat
      | ch :: fmt =>
          if ch =? 37 then
            let '(_, _, width, fmt) := parse_spec fmt in
            match fmt with
            | [] => None
            | ch :: fmt =>
                match convert_bound ch ap with
                | None => None
                | Some None => fmt_bound fuel fmt ap
                | Some (Some (n, ap)) =>
                    match fmt_bound fuel fmt ap with
                    | Some m => Some (Nat.max n (Z.to_nat width) + m)%nat
                    | None => None
                    end
                end
            end
          else match fmt_bound fuel fmt ap with Some m => Some (Datatypes.S m) | None => None end
      end
  end.

Lemma parse_width_length fmt w : (length (snd (parse_width fmt w)) <= length fmt)%nat.
Proof.
  revert w. induction fmt as [|c fmt IH]; intros w; cbn [parse_width]; [done|].
  destruct (_ && _); cbn [length snd]; [|done]. specialize (IH (s32 (s32 (w * 10) + (c - 48)))). lia.
Qed.

Lemma sprint_within fuel fmt ap n dst :
  fmt_bound fuel fmt ap = Some n ->
  exists text, loopN fuel sprint_step (dst, fmt, ap) tt = Ret (inr text) tt /\
    (length text <= length dst + n)%nat /\ exists rest, text = (dst ++ rest)%list.
Proof.
  revert fmt ap n dst. induction fuel as [|fuel IH]; intros fmt ap n dst H; [discriminate H|].
  cbn [fmt_bound] in H. destruct fmt as [|ch fmt].
  { injection H as <-. exists dst. split; [now apply loopN_done|].
    split; [lia|exists []; now rewrite app_nil_r]. }
  destruct (ch =? 37) eqn:Ech.
  - destruct (parse_spec fmt) as [[[left padchar] width] rest] eqn:Es.
    destruct rest as [|c rest]; [discriminate H|].
    destruct (convert_bound c ap) as [r|] eqn:Er; [|discriminate H].
    pose proof (convert_within c ap r Er) as Hc. destruct r as [[m ap']|].
    + destruct Hc as (str & len & Ec & Hm & Hlen).
      destruct (fmt_bound fuel rest ap') as [m'|] eqn:Em; [|discriminate H]. injection H as <-.
      destruct (IH rest ap' m' (dst ++ padstr str len width left padchar) Em) as (text & E & Ht & more & Em').
      exists text. split.
      * rewrite (loopN_step _ _ _ _ (dst ++ padstr str len width left padchar, rest, ap') tt); [exact E|].
        unfold sprint_step. rewrite Ech, Es. now rewrite (bind_Ret _ _ _ _ _ Ec).
      * rewrite length_app in Ht. pose proof (length_padstr str len width left padchar Hlen).
        split; [lia|]. eexists. rewrite <- app_assoc in Em'. exact Em'.
    + destruct (IH rest ap n dst H) as (text & E & Ht & more & Em'). exists text. split; [|eauto].
      rewrite (loopN_step _ _ _ _ (dst, rest, ap) tt); [exact E|].
      unfold sprint_step. rewrite Ech, Es. now rewrite (bind_Ret _ _ _ _ _ Hc).
  - destruct (fmt_bound fuel fmt ap) as [m|] eqn:Em; [|discriminate H]. injection H as <-.
    destruct (IH fmt ap m (dst ++ [ch]) Em) as (text & E & Ht & more & Em'). exists text. split.
    + rewrite (loopN_step _ _ _ _ (dst ++ [ch], fmt, ap) tt); [exact E|].
      unfold sprint_step. now rewrite Ech.
    + rewrite length_app in Ht. cbn in Ht.
      split; [lia|]. eexists. rewrite <- app_assoc in Em'. exact Em'.
Qed.

Lemma length_until_nul l : (length (until_nul l) <= length l)%nat.
Proof. induction l as [|c l IH]; cbn; [done|]. destruct (c =? 0); cbn; lia. Qed.

(** A format whose bound is less than the buffer gives a string of that length
    at most. *)
Lemma sprint_buf_within size fmt ap n :
  fmt_bound (Datatypes.S (length fmt)) fmt ap = Some n ->
  Z.of_nat n < size -> Z.of_nat (length fmt) < 2 ^ 30 ->
  exists text, sprint_buf size fmt ap = done text /\ (length text <= n)%nat.
Proof.
  intros Hb Hn Hf. destruct (sprint_within _ fmt ap n [] Hb) as (text & E & Ht & _).
  assert (sprint fmt ap tt = Ret text tt) as Es by (eapply loop_intro; [|exact E]; lia).
  exists (until_nul text). cbn in Ht. unfold sprint_buf. rewrite Es.
  destruct (Z.ltb_spec (Z.of_nat (length text)) size); [|lia].
  split; [reflexivity|]. pose proof (length_until_nul text). lia.
Qed.
