(* ===== verification/UserLogic.v ===== *)
(** A program logic for the user programs.  A protocol says, with a ghost state,
    which system calls a process may make, what the kernel may answer, and how
    the state goes on.  [conforms] is the greatest predicate of the processes
    that keep to a protocol, for ever if they do not end; [achieves] the least
    one: the process keeps to it and comes to an end, whatever the answers;
    [endures]: it keeps to it, and unless it ends it makes any number of calls
    (a process that falls silent does not endure). *)

From ITree Require Import ITree.
From Paco Require Import paco.
From Stdlib Require Import Program.Equality.
From S2P Require Import Prelude UserLib.

Record protocol (S : Type) := Protocol {
  allowed : S -> forall X, sysE X -> Prop;
  answers : S -> forall X, sysE X -> X -> Prop;
  after : S -> forall X, sysE X -> X -> S
}.
Arguments allowed {S} p s {X} e.
Arguments answers {S} p s {X} e x.
Arguments after {S} p s {X} e x.

Section Logic.
Context {S : Type} (P : protocol S).

(** ** Processes that may run for ever *)

Definition conformsF {A} (Q : S -> A -> Prop) (r : S -> U A -> Prop) (s : S) (t : U A) : Prop :=
  match observe t with
  | RetF a => Q s a
  | TauF t => r s t
  | VisF e k => allowed P s e /\ forall x, answers P s e x -> r (after P s e x) (k x)
  end.

Definition conforms {A} (Q : S -> A -> Prop) (s : S) (t : U A) : Prop :=
  paco2 (conformsF Q) bot2 s t.

Lemma conformsF_mon {A} (Q : S -> A -> Prop) : monotone2 (conformsF Q).
Proof.
  intros s t r r' H Hle. unfold conformsF in *.
  destruct (observe t); [exact H|now apply Hle|].
  destruct H as [Ha Hk]. split; [exact Ha|]. intros x Hx. now apply Hle, Hk.
Qed.
Local Hint Resolve conformsF_mon : paco.

Lemma conforms_done {A} (Q : S -> A -> Prop) s a : Q s a -> conforms Q s (done a).
Proof. intros H. pfold. exact H. Qed.

Lemma conforms_trigger {X} (Q : S -> X -> Prop) s (e : sysE X) :
  allowed P s e -> (forall x, answers P s e x -> Q (after P s e x) x) ->
  conforms Q s (ITree.trigger e).
Proof.
  intros Ha HQ. pfold. split; [exact Ha|]. intros x Hx. left. apply conforms_done. now apply HQ.
Qed.

Lemma observe_bind {A B} (t : U A) (k : A -> U B) :
  observe (ITree.bind t k) =
  match observe t with
  | RetF a => observe (k a)
  | TauF t => TauF (ITree.bind t k)
  | VisF e h => VisF e (fun x => ITree.bind (h x) k)
  end.
Proof. unfold observe. cbn. fold (observe t). destruct (observe t); reflexivity. Qed.

Lemma conforms_bind {A B} (Q : S -> A -> Prop) (R : S -> B -> Prop) s t (k : A -> U B) :
  conforms Q s t -> (forall s a, Q s a -> conforms R s (k a)) -> conforms R s (ITree.bind t k).
Proof.
  intros Ht Hk. revert s t Ht. pcofix CIH. intros s t Ht. pfold.
  punfold Ht. unfold conformsF in *. rewrite observe_bind. destruct (observe t) as [a|t'|X e h].
  - specialize (Hk s a Ht). punfold Hk. eapply conformsF_mon; [exact Hk|].
    intros s' t' [H|[]]. left. eapply paco2_mon; [exact H|]. now intros ? ? [].
  - right. apply CIH. now pclearbot.
  - destruct Ht as [Ha Ht]. split; [exact Ha|]. intros x Hx. right. apply CIH.
    specialize (Ht x Hx). now pclearbot.
Qed.

(** The loops: an invariant on the state and the loop's variable. *)
Lemma conforms_iter {A B} (I : S -> A -> Prop) (Q : S -> B -> Prop) s body a :
  (forall s a, I s a ->
    conforms (fun s r => match r with inl a => I s a | inr b => Q s b end) s (body a)) ->
  I s a -> conforms Q s (ITree.iter body a).
Proof.
  intros Hb. revert s a. pcofix CIH. intros s a Ha.
  assert (forall s (t : U (A + B)),
    conforms (fun s r => match r with inl a => I s a | inr b => Q s b end) s t ->
    paco2 (conformsF Q) r s
      (ITree.bind t (fun r => match r with inl a => Tau (ITree.iter body a) | inr b => ITreeDefinition.Ret b end)))
    as Hloop.
  { clear s a Ha. pcofix CIH2. intros s t Ht. pfold. punfold Ht. unfold conformsF in *.
    rewrite observe_bind. destruct (observe t) as [[a|b]|t'|X e h].
    - right. cbn. now apply CIH.
    - exact Ht.
    - right. apply CIH2. now pclearbot.
    - destruct Ht as [He Ht]. split; [exact He|]. intros x Hx. right. apply CIH2.
      specialize (Ht x Hx). now pclearbot. }
  pfold. specialize (Hloop s (body a) (Hb s a Ha)). now punfold Hloop.
Qed.

Lemma conforms_mon {A} (Q R : S -> A -> Prop) s t :
  conforms Q s t -> (forall s a, Q s a -> R s a) -> conforms R s t.
Proof.
  intros Ht HQ. revert s t Ht. pcofix CIH. intros s t Ht. pfold. punfold Ht.
  unfold conformsF in *. destruct (observe t) as [a|t'|X e h]; [now apply HQ| |].
  - right. apply CIH. now pclearbot.
  - destruct Ht as [Ha Ht]. split; [exact Ha|]. intros x Hx. right. apply CIH.
    specialize (Ht x Hx). now pclearbot.
Qed.

(** ** Processes that come to an end *)

Inductive achieves {A} (Q : S -> A -> Prop) (s : S) (t : U A) : Prop :=
| achieves_ret a : observe t = RetF a -> Q s a -> achieves Q s t
| achieves_tau t' : observe t = TauF t' -> achieves Q s t' -> achieves Q s t
| achieves_vis X (e : sysE X) k : observe t = VisF e k -> allowed P s e ->
    (forall x, answers P s e x -> achieves Q (after P s e x) (k x)) -> achieves Q s t.

(** What comes to an end keeps to the protocol. *)
Lemma achieves_conforms {A} (Q : S -> A -> Prop) s t : achieves Q s t -> conforms Q s t.
Proof.
  intros H. induction H as [s t a Ht HQ|s t t' Ht _ IH|s t X e k Ht Ha _ IH];
    pfold; unfold conformsF; rewrite Ht.
  - exact HQ.
  - left. exact IH.
  - split; [exact Ha|]. intros x Hx. left. now apply IH.
Qed.

Lemma achieves_done {A} (Q : S -> A -> Prop) s a : Q s a -> achieves Q s (done a).
Proof. intros H. now eapply achieves_ret. Qed.

Lemma achieves_trigger {X} (Q : S -> X -> Prop) s (e : sysE X) :
  allowed P s e -> (forall x, answers P s e x -> Q (after P s e x) x) ->
  achieves Q s (ITree.trigger e).
Proof.
  intros Ha HQ. eapply achieves_vis; [reflexivity|exact Ha|].
  intros x Hx. apply achieves_done. now apply HQ.
Qed.

Lemma achieves_bind {A B} (Q : S -> A -> Prop) (R : S -> B -> Prop) s t (k : A -> U B) :
  achieves Q s t -> (forall s a, Q s a -> achieves R s (k a)) -> achieves R s (ITree.bind t k).
Proof.
  intros Ht Hk. induction Ht as [s t a Ht HQ|s t t' Ht _ IH|s t X e h Ht Ha _ IH];
    pose proof (observe_bind t k) as Hb; rewrite Ht in Hb.
  - specialize (Hk s a HQ). destruct Hk as [b E HR|u E Hu|X e h E Ha Hh].
    + eapply achieves_ret; [rewrite Hb; exact E|exact HR].
    + eapply achieves_tau; [rewrite Hb; exact E|exact Hu].
    + eapply achieves_vis; [rewrite Hb; exact E|exact Ha|exact Hh].
  - eapply achieves_tau; [exact Hb|exact IH].
  - eapply achieves_vis; [exact Hb|exact Ha|exact IH].
Qed.

(** A loop without end returns nothing. *)
Lemma conforms_forever {A} (I : S -> Prop) (Q : S -> A -> Prop) s body :
  (forall s, I s -> conforms (fun s _ => I s) s body) -> I s ->
  conforms Q s (forever body).
Proof.
  intros Hb Hs. unfold forever. eapply (conforms_iter (fun s _ => I s)); [|exact Hs].
  intros s' [] Hs'. eapply conforms_bind; [now apply Hb|]. intros s1 u H1. now apply conforms_done.
Qed.

Lemma conforms_spin {A} (Q : S -> A -> Prop) s : conforms Q s ITree.spin.
Proof. pcofix CIH. pfold. right. exact CIH. Qed.

(** ** Processes that go on making calls *)

(** The process makes [n] calls, all of them allowed, unless it ends before. *)
Inductive lasts {A} (Q : S -> A -> Prop) (n : nat) (s : S) (t : U A) : Prop :=
| lasts_enough : n = 0%nat -> lasts Q n s t
| lasts_ret a : observe t = RetF a -> Q s a -> lasts Q n s t
| lasts_tau t' : observe t = TauF t' -> lasts Q n s t' -> lasts Q n s t
| lasts_vis m X (e : sysE X) k : n = Datatypes.S m -> observe t = VisF e k -> allowed P s e ->
    (forall x, answers P s e x -> lasts Q m (after P s e x) (k x)) -> lasts Q n s t.

Definition endures {A} (Q : S -> A -> Prop) (s : S) (t : U A) : Prop := forall n, lasts Q n s t.

Lemma endures_done {A} (Q : S -> A -> Prop) s a : Q s a -> endures Q s (done a).
Proof. intros H n. now eapply lasts_ret. Qed.

Lemma endures_trigger {X} (Q : S -> X -> Prop) s (e : sysE X) :
  allowed P s e -> (forall x, answers P s e x -> Q (after P s e x) x) -> endures Q s (ITree.trigger e).
Proof.
  intros Ha HQ [|n]; [now apply lasts_enough|]. eapply lasts_vis; [reflexivity|reflexivity|exact Ha|].
  intros x Hx. apply endures_done. now apply HQ.
Qed.

Lemma lasts_bind {A B} (Q : S -> A -> Prop) (R : S -> B -> Prop) n s t (k : A -> U B) :
  lasts Q n s t -> (forall m s a, (m <= n)%nat -> Q s a -> lasts R m s (k a)) -> lasts R n s (ITree.bind t k).
Proof.
  intros Ht. induction Ht as [n s t ->|n s t a Ht HQ|n s t t' Ht _ IH|n s t m X e h -> Ht Ha _ IH]; intros Hk.
  - now apply lasts_enough.
  - pose proof (observe_bind t k) as Hb. rewrite Ht in Hb. specialize (Hk n s a (le_n n) HQ).
    destruct Hk as [E|b E HR|u E Hu|m X e h En E Ha Hh].
    + now apply lasts_enough.
    + eapply lasts_ret; [rewrite Hb; exact E|exact HR].
    + eapply lasts_tau; [rewrite Hb; exact E|exact Hu].
    + eapply lasts_vis; [exact En|rewrite Hb; exact E|exact Ha|exact Hh].
  - pose proof (observe_bind t k) as Hb. rewrite Ht in Hb. eapply lasts_tau; [exact Hb|exact (IH Hk)].
  - pose proof (observe_bind t k) as Hb. rewrite Ht in Hb. eapply lasts_vis; [reflexivity|exact Hb|exact Ha|].
    intros x Hx. apply (IH x Hx). intros j s' a Hj. apply Hk. lia.
Qed.

Lemma endures_bind {A B} (Q : S -> A -> Prop) (R : S -> B -> Prop) s t (k : A -> U B) :
  endures Q s t -> (forall s a, Q s a -> endures R s (k a)) -> endures R s (ITree.bind t k).
Proof. intros Ht Hk n. eapply lasts_bind; [apply Ht|]. intros m s' a _ Ha. exact (Hk s' a Ha m). Qed.

Lemma endures_mon {A} (Q R : S -> A -> Prop) s t :
  endures Q s t -> (forall s a, Q s a -> R s a) -> endures R s t.
Proof.
  intros Ht HQ n. specialize (Ht n). induction Ht as [n s t ->|n s t a Ht Ha|n s t t' Ht _ IH|n s t m X e h -> Ht Ha _ IH].
  - now apply lasts_enough.
  - eapply lasts_ret; [exact Ht|now apply HQ].
  - eapply lasts_tau; [exact Ht|exact IH].
  - eapply lasts_vis; [reflexivity|exact Ht|exact Ha|exact IH].
Qed.

(** What a process that is about to make a call does. *)
Lemma lasts_call {A X} (Q : S -> A -> Prop) n s (t : U A) (e : sysE X) k :
  observe t = VisF e k -> lasts Q (Datatypes.S n) s t ->
  allowed P s e /\ forall x, answers P s e x -> lasts Q n (after P s e x) (k x).
Proof.
  intros Et Ht. destruct Ht as [E|a E _|t' E _|m Y e' h En E Ha Hh]; [discriminate E|rewrite Et in E; try discriminate E..].
  injection En as <-. revert Ha Hh. dependent destruction E. auto.
Qed.

(** A loop whose body begins with a call. *)
Lemma endures_iter {A B} (I : S -> A -> Prop) (Q : S -> B -> Prop) s body a :
  (forall a, exists X (e : sysE X) k, observe (body a) = VisF e k) ->
  (forall s a, I s a -> endures (fun s r => match r with inl a => I s a | inr b => Q s b end) s (body a)) ->
  I s a -> endures Q s (ITree.iter body a).
Proof.
  intros Hc Hb Ha n. revert s a Ha. induction n as [n IH] using lt_wf_ind. intros s a Ha.
  destruct n as [|n]; [now apply lasts_enough|]. destruct (Hc a) as (X & e & k & E).
  destruct (lasts_call _ n s (body a) e k E (Hb s a Ha (Datatypes.S n))) as [He Hk].
  set (cont := fun r => match r with inl a => Tau (ITree.iter body a) | inr b => ITreeDefinition.Ret b end).
  assert (observe (ITree.iter body a) = VisF e (fun x => ITree.bind (k x) cont)) as Eo.
  { change (observe (ITree.iter body a)) with (observe (ITree.bind (body a) cont)). now rewrite observe_bind, E. }
  eapply lasts_vis; [reflexivity|exact Eo|exact He|]. intros x Hx.
  eapply lasts_bind; [exact (Hk x Hx)|]. intros m s' [a'|b] Hm HI; cbn [cont].
  - eapply lasts_tau; [reflexivity|]. apply IH; [lia|exact HI].
  - now eapply lasts_ret.
Qed.

(** ** Sequences are associative *)

Lemma achieves_bind_inv {A B} (R : S -> B -> Prop) s (t : U A) (k : A -> U B) :
  achieves R s (ITree.bind t k) -> achieves (fun s a => achieves R s (k a)) s t.
Proof.
  intros H. remember (ITree.bind t k) as u eqn:Eu. revert t Eu.
  induction H as [s u b E HR|s u u' E Hu IH|s u X e h E Ha Hh IH]; intros t ->;
    pose proof E as E'; rewrite observe_bind in E';
    destruct (observe t) as [a|t'|Y e' h'] eqn:Et; try discriminate E'.
  - eapply achieves_ret; [exact Et|]. eapply achieves_ret; [exact E'|exact HR].
  - eapply achieves_ret; [exact Et|]. eapply achieves_tau; [exact E'|exact Hu].
  - injection E' as <-. eapply achieves_tau; [exact Et|]. now apply IH.
  - eapply achieves_ret; [exact Et|]. eapply achieves_vis; [exact E'|exact Ha|exact Hh].
  - eapply achieves_vis; [exact Et| |]; revert IH; revert Ha Hh; clear E;
      dependent destruction E'; [now intros|]. intros Ha Hh IH x Hx. now apply (IH x Hx).
Qed.

Lemma conforms_bind_inv {A B} (R : S -> B -> Prop) s (t : U A) (k : A -> U B) :
  conforms R s (ITree.bind t k) -> conforms (fun s a => conforms R s (k a)) s t.
Proof.
  revert s t. pcofix CIH. intros s t H. pfold. punfold H. unfold conformsF in *.
  rewrite observe_bind in H. destruct (observe t) as [a|t'|X e h].
  - pfold. exact H.
  - right. apply CIH. now pclearbot.
  - destruct H as [Ha H]. split; [exact Ha|]. intros x Hx. right. apply CIH.
    specialize (H x Hx). now pclearbot.
Qed.

Lemma achieves_assoc {A B C} (R : S -> C -> Prop) s (t : U A) (k : A -> U B) (h : B -> U C) :
  achieves R s (ITree.bind t (fun a => ITree.bind (k a) h)) ->
  achieves R s (ITree.bind (ITree.bind t k) h).
Proof.
  intros H%achieves_bind_inv. eapply achieves_bind; [|now intros s' b Hb; exact Hb].
  eapply achieves_bind; [exact H|]. intros s' a Ha%achieves_bind_inv. exact Ha.
Qed.

Lemma conforms_assoc {A B C} (R : S -> C -> Prop) s (t : U A) (k : A -> U B) (h : B -> U C) :
  conforms R s (ITree.bind t (fun a => ITree.bind (k a) h)) ->
  conforms R s (ITree.bind (ITree.bind t k) h).
Proof.
  intros H%conforms_bind_inv. eapply conforms_bind; [|now intros s' b Hb; exact Hb].
  eapply conforms_bind; [exact H|]. intros s' a Ha%conforms_bind_inv. exact Ha.
Qed.
Lemma lasts_assoc {A B C} (R : S -> C -> Prop) n s (t : U A) (k : A -> U B) (h : B -> U C) :
  lasts R n s (ITree.bind t (fun a => ITree.bind (k a) h)) -> lasts R n s (ITree.bind (ITree.bind t k) h).
Proof.
  intros H. remember (ITree.bind t (fun a => ITree.bind (k a) h)) as u eqn:Eu. revert t Eu.
  assert (forall t a, observe t = RetF a ->
    observe (ITree.bind t (fun a => ITree.bind (k a) h)) = observe (ITree.bind (ITree.bind t k) h)) as Hret.
  { intros t a Et. now rewrite (observe_bind (ITree.bind t k) h), !(observe_bind t), Et, (observe_bind (k a) h). }
  induction H as [n s u ->|n s u b E HR|n s u u' E Hu IH|n s u m X e g -> E Ha Hg IH]; intros t ->.
  - now apply lasts_enough.
  - pose proof E as E'. rewrite observe_bind in E'. destruct (observe t) as [a|t'|Y e' g'] eqn:Et; try discriminate E'.
    eapply lasts_ret; [rewrite <- (Hret t a Et); exact E|exact HR].
  - pose proof E as E'. rewrite observe_bind in E'. destruct (observe t) as [a|t'|Y e' g'] eqn:Et; try discriminate E'.
    + eapply lasts_tau; [rewrite <- (Hret t a Et); exact E|exact Hu].
    + injection E' as <-. eapply lasts_tau; [|exact (IH t' eq_refl)].
      now rewrite (observe_bind (ITree.bind t k) h), (observe_bind t k), Et.
  - pose proof E as E'. rewrite observe_bind in E'. destruct (observe t) as [a|t'|Y e' g'] eqn:Et; try discriminate E'.
    + eapply lasts_vis; [reflexivity|rewrite <- (Hret t a Et); exact E|exact Ha|exact Hg].
    + eapply (lasts_vis _ _ _ _ m Y e' (fun x => ITree.bind (ITree.bind (g' x) k) h)); [reflexivity| | |].
      * now rewrite (observe_bind (ITree.bind t k) h), (observe_bind t k), Et.
      * revert Ha. clear -E'. dependent destruction E'. auto.
      * revert Ha Hg IH. clear -E'. dependent destruction E'. intros _ _ IH x Hx. now apply (IH x Hx).
Qed.
End Logic.

(** ** The rules, for the three predicates *)

(** What the proofs about programs use: the predicates are its instances. *)
Class ProgramLogic {S} (P : protocol S)
    (W : forall A, (S -> A -> Prop) -> S -> U A -> Prop) : Prop := {
  logic_done A (Q : S -> A -> Prop) s a : Q s a -> W A Q s (done a);
  logic_trigger X (Q : S -> X -> Prop) s (e : sysE X) :
    allowed P s e -> (forall x, answers P s e x -> Q (after P s e x) x) ->
    W X Q s (ITree.trigger e);
  logic_bind A B (Q : S -> A -> Prop) (R : S -> B -> Prop) s t (k : A -> U B) :
    W A Q s t -> (forall s a, Q s a -> W B R s (k a)) -> W B R s (ITree.bind t k);
  logic_assoc A B C (R : S -> C -> Prop) s (t : U A) (k : A -> U B) (h : B -> U C) :
    W C R s (ITree.bind t (fun a => ITree.bind (k a) h)) ->
    W C R s (ITree.bind (ITree.bind t k) h)
}.

#[export] Instance conforms_logic {S} (P : protocol S) : ProgramLogic P (@conforms S P).
Proof.
  split; intros.
  - now apply conforms_done.
  - now apply conforms_trigger.
  - eapply conforms_bind; eassumption.
  - now apply conforms_assoc.
Qed.

#[export] Instance endures_logic {S} (P : protocol S) : ProgramLogic P (@endures S P).
Proof.
  split; intros.
  - now apply endures_done.
  - now apply endures_trigger.
  - eapply endures_bind; eassumption.
  - intros n. now apply lasts_assoc.
Qed.

#[export] Instance achieves_logic {S} (P : protocol S) : ProgramLogic P (@achieves S P).
Proof.
  split; intros.
  - now apply achieves_done.
  - now apply achieves_trigger.
  - eapply achieves_bind; eassumption.
  - now apply achieves_assoc.
Qed.

Section Derived.
Context {S : Type} {P : protocol S} {W : forall A, (S -> A -> Prop) -> S -> U A -> Prop}.
Context {HW : ProgramLogic P W}.

Lemma logic_call {X B} (R : S -> B -> Prop) s (e : sysE X) (k : X -> U B) :
  allowed P s e -> (forall x, answers P s e x -> W B R (after P s e x) (k x)) ->
  W B R s (ITree.bind (ITree.trigger e) k).
Proof.
  intros Ha Hk. eapply (logic_bind _ _ (fun s' x => s' = after P s e x /\ answers P s e x)).
  - apply logic_trigger; [exact Ha|]. now intros x Hx.
  - intros s' x [-> Hx]. now apply Hk.
Qed.

Lemma logic_done_bind {A B} (R : S -> B -> Prop) s (a : A) k :
  W B R s (k a) -> W B R s (ITree.bind (done a) k).
Proof.
  intros H. apply (logic_bind _ _ (fun s' a' => s' = s /\ a' = a)); [now apply logic_done|].
  now intros s' a' [-> ->].
Qed.

(** Loops with a bound: an invariant for the index, the state and the variable. *)
Lemma logic_fold {A B} (I : Z -> S -> A -> Prop) (R : S -> B -> Prop) s first limit body a k :
  (forall i s a, first <= i < limit -> I i s a ->
    W A (fun s a => I (i + 1) s a) s (body i a)) ->
  I first s a -> (forall s a, I (Z.max first limit) s a -> W B R s (k a)) ->
  W B R s (ITree.bind (ufold first limit body a) k).
Proof.
  intros Hb Ha Hk. apply (logic_bind _ _ (fun s a => I (Z.max first limit) s a)); [clear Hk|exact Hk].
  unfold ufold. remember (Z.to_nat (limit - first)) as n eqn:En.
  revert first s a En Hb Ha. induction n as [|n IH]; intros first s a En Hb Ha; cbn.
  - apply logic_done. now replace (Z.max first limit) with first by lia.
  - eapply logic_bind; [apply Hb; [lia|exact Ha]|].
    intros s' a' Ha'. replace (Z.max first limit) with (Z.max (first + 1) limit) by lia.
    apply IH; [lia| |exact Ha']. intros i s1 a1 Hi. apply Hb. lia.
Qed.

Lemma logic_for {B} (I : Z -> S -> Prop) (R : S -> B -> Prop) s first limit body k :
  (forall i s, first <= i < limit -> I i s -> W unit (fun s _ => I (i + 1) s) s (body i)) ->
  I first s -> (forall s, I (Z.max first limit) s -> W B R s (k tt)) ->
  W B R s (ITree.bind (ufor first limit body) k).
Proof.
  intros Hb Hs Hk. apply (logic_fold (fun i s _ => I i s)); [|exact Hs|].
  - intros i s' [] Hi Hs'. now apply Hb.
  - intros s' [] Hs'. now apply Hk.
Qed.
End Derived.
