(* ===== verification/UserSpec.v ===== *)
(** What the user programs may rely on and what they promise: the protocols, and
    the automation that walks through a program. *)

From ITree Require Import ITree.
From S2P Require Import Prelude Memory State Lib Cio UserLib UserProgs UserInit UserFormat UserLogic.

(** ** The kernel's side *)

(** What the kernel answers.  [exit] and the call that does not exist do not
    return, and [exec] only when it fails. *)
Definition kernel_answers {X} (e : sysE X) : X -> Prop :=
  match e in sysE X return X -> Prop with
  | SExit _ => fun _ => False
  | SWait ask => fun r =>
      (0 < fst r < 2 ^ 31 /\ (snd r = None <-> ask = false)) \/ (fst r = S_NO_CHILD /\ snd r = None)
  | SFork _ => fun pid => -1 <= pid < 2 ^ 31
  | SRead _ len => fun r => fst r <= len
  | SWrite _ buf => fun n => 0 <= n <= Z.of_nat (length buf)
  | SGetpid => fun pid => 0 < pid < 2 ^ 31
  | SGettime => fun t => 0 <= t < 2 ^ 32
  | SGetprio _ => fun p => 0 <= p < 256
  | SBogus => fun _ => False
  | _ => fun _ => True
  end.

(** What the C code may not do: read through NULL, leave a buffer, ... *)
Definition defined_call {X} (e : sysE X) : Prop :=
  match e with Trap _ => False | _ => True end.

(** The protocol of a process that has no undefined behaviour. [forks] says that
    the kernel never runs out of processes and stacks. *)
Definition defined_protocol (forks : bool) : protocol unit := {|
  allowed _ _ e := defined_call e;
  answers _ X e x :=
    kernel_answers e x /\
    (forks = true -> match e in sysE X return X -> Prop with SFork _ => fun pid => 0 <= pid | _ => fun _ => True end x);
  after _ _ _ _ := tt
|}.

(** Every command line that init or a program of its table starts a program with. *)
Definition command_lines : list (program * list Z) :=
  map (fun p => (proc_entry p, proc_args p)) (in_procs ++ in_procs_off) ++
  [(ProgW, cmdline ["progW"; "W"; "10"; "5"]); (ProgW, cmdline ["progW"; "W"; "15"; "5"]);
   (ProgY, cmdline ["progY"; "Y"; "10"]);
   (ProgZ, cmdline ["progZ"; "Z"; "10"]); (ProgZ, cmdline ["progZ"; "Z"; "15"])] ++
  map (fun i => (ProgX, cmdline ["progX"; "X"; ""] ++ cvtdec (100 + i))) [0; 1; 2; 3; 4; 5; 6; 7].

(** ** Rules for the library *)

Section Rules.
Context {S : Type} {P : protocol S} {W : forall A, (S -> A -> Prop) -> S -> U A -> Prop}.
Context {HW : ProgramLogic P W}.

Lemma logic_sprint {B} (R : S -> B -> Prop) s size fmt ap n k :
  fmt_bound (Datatypes.S (length fmt)) fmt ap = Some n ->
  Z.of_nat n < size -> Z.of_nat (length fmt) < 2 ^ 30 ->
  (forall buf, (length buf <= n)%nat -> W B R s (k buf)) ->
  W B R s (ITree.bind (sprint_buf size fmt ap) k).
Proof.
  intros Hb Hn Hf Hk. destruct (sprint_buf_within size fmt ap n Hb Hn Hf) as (text & -> & Ht).
  apply logic_done_bind. now apply Hk.
Qed.

Lemma logic_argv_str {B} (R : S -> B -> Prop) s vlen argv i w k :
  (0 <=? i) && (i <? vlen) = true -> nth_error argv (Z.to_nat i) = Some w ->
  W B R s (k w) -> W B R s (ITree.bind (argv_str vlen argv i) k).
Proof.
  intros Hi Hw Hk. unfold argv_str, argv_at. rewrite Hi, Hw.
  apply logic_assoc. now do 2 apply logic_done_bind.
Qed.

Lemma logic_argv_char {B} (R : S -> B -> Prop) s vlen argv i w k :
  (0 <=? i) && (i <? vlen) = true -> nth_error argv (Z.to_nat i) = Some w ->
  W B R s (k (s8 (hd 0 w))) -> W B R s (ITree.bind (argv_char vlen argv i 0) k).
Proof.
  intros Hi Hw Hk. unfold argv_char. apply logic_assoc.
  apply (logic_argv_str _ _ _ _ _ w); [exact Hi|exact Hw|].
  destruct (Z.leb_spec 0 (Z.of_nat (length w))); [|lia]. apply logic_done_bind.
  now destruct w.
Qed.

(** The arguments of a program that was given a character and a number. *)
Lemma logic_switch3 {B} (R : S -> B -> Prop) s name x n num ch report k :
  W B R s (k (str2int_of n 10, s8 (hd 0 x))) ->
  W B R s (ITree.bind (switch3 3 [name; x; n] num ch report) k).
Proof.
  intros H. unfold switch3. cbn [Z.eqb Pos.eqb].
  apply logic_assoc, (logic_argv_str _ _ _ _ _ n); [reflexivity|reflexivity|].
  apply logic_assoc, (logic_argv_char _ _ _ _ _ x); [reflexivity|reflexivity|].
  now apply logic_done_bind.
Qed.

(** A main function that has ended calls [exit], which does not return. *)
Lemma logic_fake_exit (R : S -> unit -> Prop) s status :
  allowed P s (SExit (s32 status)) -> (forall x, answers P s (SExit (s32 status)) x -> False) ->
  W unit R s (fake_exit status).
Proof. intros Ha Hn. apply logic_call; [exact Ha|]. intros x Hx. now destruct (Hn x Hx). Qed.
End Rules.

Lemma conforms_loop {S} {P : protocol S} {A B C} (I : S -> A -> Prop) (Q : S -> B -> Prop)
    (R : S -> C -> Prop) s body a k :
  (forall s a, I s a ->
    conforms P (fun s r => match r with inl a => I s a | inr b => Q s b end) s (body a)) ->
  I s a -> (forall s b, Q s b -> conforms P R s (k b)) ->
  conforms P R s (ITree.bind (ITree.iter body a) k).
Proof.
  intros Hb Hs Hk. eapply conforms_bind; [now apply (conforms_iter P I Q)|]. exact Hk.
Qed.

(** The report of a short write does not touch the rest of the program. *)
Lemma defined_check_write {B} f (R : unit -> B -> Prop) fmt ch n expected b k :
  fmt_bound (Datatypes.S (length fmt)) fmt [AI ch; AI n] = Some b ->
  Z.of_nat b < 128 -> Z.of_nat (length fmt) < 2 ^ 30 ->
  conforms (defined_protocol f) R tt (k tt) ->
  conforms (defined_protocol f) R tt (ITree.bind (check_write fmt ch n expected) k).
Proof.
  intros Hb Hl Hf Hk. apply (conforms_bind _ (fun _ _ => True)); [|now intros [] [] _].
  unfold check_write. destruct (negb _); [|now apply conforms_done].
  eapply logic_sprint; [exact Hb|exact Hl|exact Hf|]. intros buf _.
  apply logic_call; [exact Logic.I|]. intros x _. now apply conforms_done.
Qed.

Lemma spawn_message_bound pid what pname :
  (length pname < 16)%nat -> let fmt := (chars "Child %d exec(%08x,'%s') failed" ++ [10])%list in
  exists n, fmt_bound (Datatypes.S (length fmt)) fmt [AI pid; AI what; AS pname] = Some n /\
    (n <= 100)%nat.
Proof.
  intros Hn fmt. do 16 (destruct pname as [|? pname];
    [eexists; split; [vm_compute; reflexivity|vm_compute; lia]|]).
  cbn in Hn. lia.
Qed.

(** [spawn] comes back in the parent only, with what [fork] answered. *)
Lemma defined_spawn {B} f (R : unit -> B -> Prop) what args k :
  (length (program_name args) < 16)%nat ->
  (forall pid, pid <> 0 -> -1 <= pid < 2 ^ 31 -> (f = true -> 0 < pid) ->
    conforms (defined_protocol f) R tt (k pid)) ->
  conforms (defined_protocol f) R tt (ITree.bind (spawn what args) k).
Proof.
  intros Hn Hk. unfold spawn. apply logic_assoc, logic_call; [exact Logic.I|].
  intros pid [Hpid Hf]. cbn in Hpid, Hf. destruct (Z.eqb_spec pid 0) as [->|Hne]; cbn [negb].
  - apply logic_assoc, logic_call; [exact Logic.I|]. intros [] _.
    apply logic_assoc, logic_call; [exact Logic.I|]. intros me _.
    destruct (Z.ltb_spec (Z.of_nat (length (program_name args))) 16); [|lia].
    apply logic_assoc, logic_done_bind, logic_assoc.
    destruct (spawn_message_bound me what (program_name args) Hn) as (n & Eb & Hb).
    eapply logic_sprint; [exact Eb|lia|vm_compute; reflexivity|].
    intros buf _. apply logic_assoc, logic_call; [exact Logic.I|]. intros w _.
    apply logic_assoc, logic_call; [exact Logic.I|]. now intros x [].
  - apply logic_done_bind. apply Hk; [done|lia|]. intros Ht. specialize (Hf Ht). lia.
Qed.

Lemma defined_forever {A B} f (R : unit -> B -> Prop) body (k : A -> U B) :
  conforms (defined_protocol f) (fun _ (_ : unit) => True) tt body ->
  conforms (defined_protocol f) R tt (ITree.bind (forever body) k).
Proof.
  intros Hb. apply (conforms_bind _ (fun _ (_ : A) => False)); [|done].
  apply (conforms_forever _ (fun _ => True)); [|exact Logic.I]. now intros [] _.
Qed.

Lemma defined_add_child f (Q : unit -> list Z -> Prop) children whom :
  Z.of_nat (length children) < MAX_CHILDREN -> Q tt (children ++ [whom]) ->
  conforms (defined_protocol f) Q tt (add_child children whom).
Proof.
  intros Hl HQ. unfold add_child.
  destruct (Z.ltb_spec (Z.of_nat (length children)) MAX_CHILDREN); [|lia].
  now apply conforms_done.
Qed.

(** ** Walking through a program *)

(** Replaces the evaluation of the command line, which is given, by its result. *)
Ltac ueval_args :=
  match goal with
  | |- context[ARG_PROC ?n ?a ?v] =>
      let x := eval vm_compute in (ARG_PROC n a v) in change (ARG_PROC n a v) with x
  end; cbv beta iota zeta.

(** Decides the cases of [switch( argc )]. *)
Ltac ueval_test n :=
  repeat match goal with
  | |- context[n =? ?m] =>
      let b := eval vm_compute in (n =? m) in change (n =? m) with b
  end; cbv iota.

Ltac usprint :=
  eapply logic_sprint;
    [vm_compute; reflexivity|vm_compute; reflexivity|vm_compute; reflexivity|
     let buf := fresh "buf" in let Hbuf := fresh "Hbuf" in intros buf Hbuf].

(** The ghost state after a call. *)
Ltac ustate := cbn [after defined_protocol].

(** One step: a call is allowed and answered, a value is passed on. *)
Ltac ucall :=
  eapply logic_call;
    [exact Logic.I|
     let x := fresh "x" in let Hx := fresh "Hx" in intros x Hx; cbn in Hx; ustate].

(** A condition: computed when it is closed. *)
Ltac ucase b :=
  tryif (match b with context[?v] => is_var v end) then destruct b eqn:?
  else (let v := eval vm_compute in b in change b with v; cbv iota).

(** A loop that keeps nothing but the protocol. *)
Ltac ufor_true :=
  eapply (logic_for (fun _ _ => True)); 
    [let i := fresh "i" in let Hi := fresh "Hi" in intros i [] Hi _|exact Logic.I|intros [] _].

Ltac ustep :=
  lazymatch goal with
  | |- conforms _ _ _ (ITree.bind (ITree.bind _ _) _) => apply logic_assoc
  | |- conforms _ _ _ (ITree.bind (done _) _) => apply logic_done_bind; cbv beta iota
  | |- conforms _ _ _ (ITree.bind (sprint_buf 128 _ _) _) => usprint
  | |- conforms _ _ _ (ITree.bind (ITree.trigger _) _) => ucall
  | |- conforms _ _ _ (ITree.bind (exit _) _) => unfold exit
  | |- conforms _ _ _ (ITree.bind (wait _) _) => unfold wait
  | |- conforms _ _ _ (ITree.bind (fork _) _) => unfold fork
  | |- conforms _ _ _ (ITree.bind (exec _ _) _) => unfold exec
  | |- conforms _ _ _ (ITree.bind (write _ _) _) => unfold write
  | |- conforms _ _ _ (ITree.bind (sleep _) _) => unfold sleep
  | |- conforms _ _ _ (ITree.bind getpid _) => unfold getpid
  | |- conforms _ _ _ (ITree.bind gettime _) => unfold gettime
  | |- conforms _ _ _ (ITree.bind (getprio _) _) => unfold getprio
  | |- conforms _ _ _ (ITree.bind bogus _) => unfold bogus
  | |- conforms _ _ _ (ITree.bind (delay _) _) => unfold delay
  | |- conforms _ _ _ (ITree.bind (cwrites _) _) => unfold cwrites
  | |- conforms _ _ _ (ITree.bind (swrites _) _) => unfold swrites
  | |- conforms _ _ _ (ITree.bind (swritech _) _) => unfold swritech
  | |- conforms _ _ _ (ITree.bind (switch3 ?n _ _ _ _) _) => unfold switch3; ueval_test n
  | |- conforms _ _ _ (ITree.bind (switch4 ?n _ _ _ _ _ _) _) => unfold switch4; ueval_test n
  | |- conforms _ _ _ (ITree.bind (number _) _) => unfold number
  | |- conforms _ _ _ (ITree.bind (argv_str _ _ _) _) =>
      eapply logic_argv_str; [reflexivity|reflexivity|]; cbv beta iota
  | |- conforms _ _ _ (ITree.bind (argv_char _ _ _ _) _) =>
      eapply logic_argv_char; [reflexivity|reflexivity|]; cbv beta iota
  | |- conforms _ _ _ (ITree.bind (check_write _ _ _ _) _) =>
      eapply defined_check_write; [vm_compute; reflexivity..|]
  | |- conforms _ _ _ (ITree.bind (ufor _ _ _) _) => ufor_true
  | |- conforms _ _ _ (forever _) =>
      apply (conforms_forever _ (fun _ => True)); [intros [] _|exact Logic.I]
  | |- conforms _ _ _ (fake_exit _) =>
      apply logic_fake_exit; [exact Logic.I|now intros ? []]
  | |- conforms _ _ _ (ITree.bind (spawn _ _) _) =>
      apply defined_spawn; [vm_compute; lia|
        let x := fresh "pid" in let Hx := fresh "Hpid" in let Hf := fresh "Hf" in
        intros x ? Hx Hf]
  | |- conforms _ _ _ (ITree.bind (if ?b then _ else _) _) => ucase b
  | |- conforms _ _ _ (if ?b then _ else _) => ucase b
  | |- conforms _ _ _ (let (_, _) := ?x in _) => destruct x as [? ?]; cbn [fst snd] in *
  | |- conforms _ _ _ (ITree.bind (forever _) _) => apply defined_forever
  | |- conforms _ _ _ (check_write _ _ _ _) => unfold check_write
  | |- conforms _ _ _ (sleep _) => unfold sleep
  | |- conforms _ _ _ (delay _) => unfold delay
  | |- conforms _ _ _ (ITree.trigger _) =>
      apply logic_trigger; [exact Logic.I|
        let x := fresh "x" in let Hx := fresh "Hx" in intros x Hx; cbn in Hx]
  | |- conforms _ _ _ (done _) => apply logic_done
  end.

Ltac usteps := repeat ustep.

