(* ===== verification/UserClaims.v ===== *)
(** Theorems about the user programs. *)

From ITree Require Import ITree.
From Paco Require Import paco.
From S2P Require Import Prelude Memory State Lib Cio UserLib UserProgs UserInit UserFormat UserLogic UserSpec.

Section Claims.
Context {Ent : Entries}.

(** The process runs with defined behaviour and does not come back. *)
Definition runs (forks : bool) (t : U unit) : Prop :=
  conforms (defined_protocol forks) (fun _ _ => False) tt t.

Ltac open_program :=
  cbv delta [runs process_of main_of idle progABC progDE progFG progH progI progJ progKL progMN
    progP progQ progR progS progTUV progW progX progY progZ]; cbv beta iota zeta.

(** A program that needs no loop invariant, on a given command line. *)
Ltac program := open_program; try ueval_args; usteps; exact Logic.I.

(** The same up to the first loop, when the arguments are known by [H]. *)
Ltac program_with H := open_program; rewrite H; cbv beta iota zeta; usteps.

Lemma progH_runs f args name x n :
  ARG_PROC 3 args 5 = (3, [name; x; n]) -> runs f (process_of ProgH args).
Proof.
  intros Hargs. program_with Hargs. apply (logic_fold (fun _ _ _ => True)); [|exact Logic.I|].
  - intros i [] ret _ _. usteps; exact Logic.I.
  - intros [] ret _. usteps.
Qed.

(** The command line that progKL makes starts with the name of the program. *)
Lemma progX_line v : exists rest,
  sprint_buf 32 (cmdline ["progX"; "X"; "%d"]) [AI v] = done (chars "progX" ++ 13 :: rest).
Proof.
  destruct (sprint_within 10 (cmdline ["X"; "%d"]) [AI v] 14 (chars "progX" ++ [13]))
    as (text & E & Ht & rest & ->); [vm_compute; reflexivity|].
  assert (sprint (cmdline ["progX"; "X"; "%d"]) [AI v] tt = Ret (chars "progX" ++ 13 :: rest) tt) as Es.
  { apply (loop_intro _ 16); [lia|]. rewrite <- app_assoc in E. exact E. }
  exists (until_nul rest). unfold sprint_buf. rewrite Es.
  destruct (Z.ltb_spec (Z.of_nat (length (chars "progX" ++ 13 :: rest))) 32) as [_|Hge]; [reflexivity|].
  rewrite !length_app in Ht, Hge. cbn in Ht, Hge. lia.
Qed.

Lemma progKL_runs f args name x n :
  ARG_PROC 3 args 5 = (3, [name; x; n]) -> runs f (process_of ProgKL args).
Proof.
  intros Hargs. program_with Hargs.
  destruct (progX_line (100 + i)) as (rest & ->). apply logic_done_bind.
  apply defined_spawn; [vm_compute; lia|]. intros pid _ _ _. usteps; exact Logic.I.
Qed.

(** At most fifty children, the size of the array. *)
Lemma progTUV_runs f args name x n :
  ARG_PROC 3 args 5 = (3, [name; x; n]) -> str2int_of n 10 <= MAX_CHILDREN ->
  runs f (process_of ProgTUV args).
Proof.
  intros Hargs Hn. program_with Hargs.
  apply (logic_fold (fun i _ l => Z.of_nat (length l) <= i)); [|cbn; lia|].
  - intros i [] l Hi Hl. usteps; [lia|].
    apply defined_add_child; [lia|]. rewrite length_app. cbn. lia.
  - intros [] l _. usteps.
    apply (conforms_loop (fun _ _ => True) (fun _ _ => True)); [|exact Logic.I|].
    + intros [] c _. usteps; try exact Logic.I;
        match goal with |- context[if ?b then _ else _] => destruct b end; exact Logic.I.
    + intros [] [] _. usteps.
Qed.

(** The entries of [children] are stored when no fork fails. *)
Lemma progI_runs args name x :
  ARG_PROC 3 args 5 = (2, [name; x]) -> runs true (process_of ProgI args).
Proof.
  intros Hargs. program_with Hargs.
  apply (logic_fold (fun i _ l => Z.of_nat (length l) = i)); [|reflexivity|].
  - intros i [] l Hi Hl. usteps.
    + specialize (Hf eq_refl). apply Z.ltb_lt in Heqb. lia.
    + apply defined_add_child; [unfold MAX_CHILDREN; lia|]. rewrite length_app. cbn. lia.
  - intros [] l Hl. usteps.
    apply (conforms_loop (fun _ _ => True) (fun _ _ => True)); [|exact Logic.I|].
    + intros [] [] _. usteps; try exact Logic.I.
      unfold child_at. destruct (nth_error l (Z.to_nat i)) as [c|] eqn:Ec.
      * usteps; exact Logic.I.
      * apply nth_error_None in Ec. lia.
    + intros [] [] _. usteps.
Qed.

Lemma progR_runs f args name x n d :
  ARG_PROC 4 args 5 = (4, [name; x; n; d]) -> runs f (process_of ProgR args).
Proof.
  intros Hargs. program_with Hargs.
  apply (conforms_loop (fun _ _ => True) (fun _ _ => True)); [|exact Logic.I|].
  - intros [] seq _. usteps; exact Logic.I.
  - intros [] v _. usteps.
Qed.

(** C19: With the command lines of this system every program runs with defined
    behaviour, for ever or until it calls [exit]: no argument pointer is NULL, no
    buffer is overrun, whatever the kernel answers, failures included. progI
    needs that its forks succeed: it reports on as many children as it wanted to
    have. *)
Theorem programs_defined :
  Forall (fun l => runs (match fst l with ProgI => true | _ => false end)
    (process_of (fst l) (snd l))) command_lines.
Proof.
  let l := eval vm_compute in command_lines in change command_lines with l.
  repeat apply Forall_cons_2; try apply Forall_nil_2; cbn [fst snd].
  all: first
    [ eapply progTUV_runs; [vm_compute; reflexivity|vm_compute; discriminate]
    | eapply progKL_runs; vm_compute; reflexivity
    | eapply progH_runs; vm_compute; reflexivity
    | eapply progI_runs; vm_compute; reflexivity
    | eapply progR_runs; vm_compute; reflexivity
    | program ].
Qed.

(** ** The idle process *)

(** What idle may do: calls that come back without giving up the processor. *)
Definition idle_protocol : protocol unit := {|
  allowed _ X e :=
    match e with
    | SWrite _ _ | SGetpid | SGettime | SGetprio _ | Delay _ => True
    | _ => False
    end;
  answers _ X e x := kernel_answers e x;
  after _ _ _ _ := tt
|}.

(** The idle process, whatever its arguments, never sleeps, waits, reads,
    forks, exits or returns, and has no undefined behaviour: it can always be
    dispatched. *)
Theorem idle_never_blocks args :
  conforms idle_protocol (fun _ _ => False) tt (process_of Idle args).
Proof.
  unfold process_of, main_of, idle. cbv zeta. unfold getpid, gettime, getprio, cwrites, write, delay.
  apply logic_assoc, logic_call; [exact Logic.I|]. intros pid _.
  apply logic_assoc, logic_call; [exact Logic.I|]. intros now _.
  apply logic_assoc, logic_call; [exact Logic.I|]. intros prio _.
  apply logic_assoc. usprint.
  do 2 (apply logic_assoc, logic_call; [exact Logic.I|]; intros ? _).
  apply (conforms_bind _ (fun _ (_ : Z) => False)); [|done].
  apply (conforms_forever _ (fun _ => True)); [intros s _|exact Logic.I].
  do 2 (apply logic_call; [exact Logic.I|]; intros ? _). now apply conforms_done.
Qed.

(** ** A program that prints *)

(** The life of progABC: [k] characters have been printed. Each is printed after
    a delay, except the first; [exit] comes when all are printed. *)
Definition printer_protocol (ch count status : Z) : protocol (Z * bool) := {|
  allowed s X e :=
    match e with
    | SWrite chan buf => chan = CHAN_SIO /\ buf = [u8 ch] /\ fst s <= count /\ snd s = true
    | Delay _ => 0 < fst s <= count /\ snd s = false
    | SExit st => st = status /\ fst s = 1 + count /\ snd s = false
    | _ => False
    end;
  answers s X e :=
    match e in sysE X return X -> Prop with
    | SWrite _ buf => fun n => n = Z.of_nat (length buf)
    | SExit _ => fun _ => False
    | _ => fun _ => True
    end;
  after s X e _ :=
    match e with
    | SWrite _ _ => (fst s + 1, false)
    | Delay _ => (fst s, true)
    | _ => s
    end
|}.

(** C26: progABC with a character [x] and a number [n] as arguments comes to an
    end when its writes succeed: it prints the character [1 + n] times on the
    serial line, with a delay before each but the first, and then exits with
    status 50 for A, 51 for B, ... *)
Theorem progABC_prints args name x n :
  ARG_PROC 3 args 5 = (3, [name; x; n]) ->
  let ch := s8 (hd 0 x) in
  let count := Z.max 0 (str2int_of n 10) in
  achieves (printer_protocol ch count (s32 (50 + (ch - 65)))) (fun _ _ => False) (0, true)
    (process_of ProgABC args).
Proof.
  intros Hargs ch count. unfold process_of, main_of, progABC. rewrite Hargs. cbv iota beta.
  apply logic_assoc, logic_switch3. fold ch. unfold swritech, write, delay, exit.
  apply logic_assoc, logic_call; [cbn; repeat split; lia|]. intros w ->. cbn [after].
  apply logic_assoc, logic_done_bind, logic_assoc.
  apply (logic_for (fun i s => s = (1 + i, false))); [|reflexivity|].
  - intros i s Hi ->. apply logic_call; [cbn; lia|]. intros [] _. cbn [after].
    apply logic_call; [cbn; repeat split; lia|]. intros w ->.
    apply achieves_done. cbn. f_equal. lia.
  - intros s ->. apply logic_assoc, logic_call; [cbn; lia|]. intros [] [].
Qed.

End Claims.

(** Some entry points. *)
Definition example_entries : Entries := fun _ => 0x30000.
#[local] Existing Instance example_entries.

Lemma progABC_prints_witness :
  achieves (printer_protocol 65 30 50) (fun _ _ => False) (0, true)
    (process_of ProgABC (cmdline ["userA"; "A"; "30"])).
Proof. apply (progABC_prints _ (chars "userA") (chars "A") (chars "30")). vm_compute. reflexivity. Defined.
