(* ===== verification/UserInitClaims.v ===== *)
(** The first process: what init promises, as a state machine over its system
    calls. *)

From ITree Require Import ITree.
From S2P Require Import Prelude Memory State Lib Cio UserLib UserProgs UserInit UserFormat UserLogic UserSpec.

Section InitClaims.
Context {Ent : Entries}.

(** [Starting k pids]: the first [k] entries of the table have been started, and
    [pids] are the processes that init knows; [Child k next pids]: this is the child that
    has to become the program of entry [k] (a child whose exec fails goes on where init
    is, at entry [next]); [Restarting pids]: idle has ended. *)
Inductive init_state :=
| Starting (k : nat) (pids : list Z)
| Child (k next : nat) (pids : list Z)
| Restarting (pids : list Z).

Definition forked (s : init_state) (pid : Z) : init_state :=
  match s with
  | Starting k pids =>
      if pid =? 0 then Child k (S k) pids else Starting (S k) (if pid <? 0 then pids else <[k := pid]> pids)
  | Restarting pids =>
      if pid =? 0 then Child 0 (length in_procs) pids
      else Starting (length in_procs) (if pid <? 0 then pids else <[0%nat := pid]> pids)
  | s => s
  end.

(** A child of init has ended: its entry is cleared. *)
Fixpoint forget (pids : list Z) (whom : Z) : list Z :=
  match pids with
  | [] => []
  | p :: l => if p =? whom then 0 :: l else p :: forget l whom
  end.

Definition reaped (s : init_state) (whom : Z) : init_state :=
  match s with
  | Starting k pids =>
      if whom <=? 0 then s
      else if hd 0 pids =? whom then Restarting (forget pids whom)
      else Starting k (forget pids whom)
  | s => s
  end.

(** No more than this many messages from one fork, exec or wait to the next. *)
Definition max_writes : nat := 4.

(** The state, and how many messages are left. *)
Definition init_protocol : protocol (init_state * nat) := {|
  allowed s X e :=
    match e, fst s with
    | SWrite _ _, _ => (0 < snd s)%nat
    | SFork prio, Starting k _ => exists p, in_procs !! k = Some p /\ prio = proc_priority p
    | SFork prio, Restarting _ => prio = PRIO_LOW
    | SExec prog args, Child k _ _ =>
        exists p, in_procs !! k = Some p /\ prog = entry (proc_entry p) /\ args = proc_args p
    | SWait _, Starting k _ => k = length in_procs
    | _, _ => False
    end;
  answers _ X e := kernel_answers e;
  after s X e :=
    match e in sysE X return X -> init_state * nat with
    | SFork _ => fun pid => (forked (fst s) pid, max_writes)
    | SExec _ _ => fun _ => (match fst s with Child _ next pids => Starting next pids | s => s end, max_writes)
    | SWait _ => fun r => (reaped (fst s) (fst r), max_writes)
    | SWrite _ _ => fun _ => (fst s, pred (snd s))
    | _ => fun _ => s
    end
|}.

Notation endures_init := (endures init_protocol).

Ltac icall := eapply logic_call; [cbn; unfold max_writes in *; lia|intros ? _; cbn [after init_protocol fst snd]].

(** [process] starts the entry the state asks for. *)
Lemma process_endures k p pids s w :
  in_procs !! k = Some p -> s = Starting k pids \/ (k = 0%nat /\ s = Restarting pids) ->
  endures_init (fun s' pids' => length pids' = length pids /\ (2 <= snd s')%nat /\
      fst s' = Starting (match s with Restarting _ => length in_procs | _ => S k end) pids')
    (s, w) (process (Z.of_nat k) pids).
Proof.
  intros Hp Hs. unfold process. destruct (Z.leb_spec 0 (Z.of_nat k)); [|lia].
  rewrite Nat2Z.id, Hp.
  apply logic_call.
  { destruct Hs as [->|[-> ->]]; cbn; [eauto|]. injection Hp as <-. reflexivity. }
  intros pid Hpid. cbn [after init_protocol fst snd].
  destruct (Z.ltb_spec pid 0); [|destruct (Z.eqb_spec pid 0) as [->|Hne]].
  - assert (forked s pid = Starting (match s with Restarting _ => length in_procs | _ => S k end) pids) as Hf.
    { destruct Hs as [->|[-> ->]]; cbn; (destruct (Z.eqb_spec pid 0); [lia|]);
        (destruct (Z.ltb_spec pid 0); [|lia]); reflexivity. }
    rewrite Hf. usprint. icall. apply endures_done. unfold max_writes. cbn. auto.
  - apply logic_call; [destruct Hs as [->|[-> ->]]; cbn; eauto|]. intros [] _. cbn [after init_protocol fst snd].
    usprint. icall. apply endures_done. unfold max_writes. cbn [fst snd pred]. split; [done|]. split; [lia|].
    destruct Hs as [->|[-> ->]]; reflexivity.
  - apply endures_done. unfold aset, max_writes. rewrite Nat2Z.id, length_insert. split; [done|]. split; [cbn; lia|].
    destruct Hs as [->|[-> ->]]; cbn; (destruct (Z.eqb_spec pid 0); [done|]);
      (destruct (Z.ltb_spec pid 0); [lia|]); reflexivity.
Qed.

Lemma find_started_forget pids whom i :
  match find_started pids whom i with
  | None => forget pids whom = pids /\ ((0 < length pids)%nat -> hd 0 pids <> whom)
  | Some ix => i <= ix /\ forget pids whom = <[Z.to_nat (ix - i) := 0]> pids /\
      (ix = i <-> hd 0 pids = whom)
  end.
Proof.
  revert i. induction pids as [|p pids IH]; intros i; cbn [find_started forget]; [split; [done|cbn; lia]|].
  destruct (Z.eqb_spec p whom) as [->|Hne].
  - split; [lia|]. rewrite Z.sub_diag. done.
  - specialize (IH (i + 1)). destruct (find_started pids whom (i + 1)) as [ix|].
    + destruct IH as (Hix & Hf & _). split; [lia|]. split; [|cbn; split; [lia|done]].
      replace (Z.to_nat (ix - i)) with (S (Z.to_nat (ix - (i + 1)))) by lia. cbn. now rewrite Hf.
    + destruct IH as [Hf _]. rewrite Hf. done.
Qed.

Lemma reap_endures pids w :
  length pids = length in_procs ->
  endures_init (fun s pids' => length pids' = length in_procs /\ fst s = Starting (length in_procs) pids')
    (Starting (length in_procs) pids, w) (reap (chars "init") pids).
Proof.
  intros Hlen. unfold reap, wait, cwrites, write.
  apply logic_call; [reflexivity|]. intros [whom st] Ha. cbn [after init_protocol fst snd reaped].
  destruct (Z.leb_spec whom 0).
  { usprint. icall. now apply endures_done. }
  destruct st as [status|].
  2:{ exfalso. cbn in Ha. unfold S_NO_CHILD in Ha. destruct Ha as [[_ Ha]|[Ha _]]; [|lia].
      discriminate (proj1 Ha eq_refl). }
  apply logic_done_bind. usprint. icall.
  pose proof (find_started_forget pids whom 0) as Hfind.
  destruct (find_started pids whom 0) as [ix|].
  - destruct Hfind as (Hix & Hf & Hhd). rewrite Z.sub_0_r in Hf.
    destruct (Z.eqb_spec ix 0) as [->|Hne].
    + destruct (Z.eqb_spec (hd 0 pids) whom); [|tauto].
      eapply endures_mon; [apply (process_endures 0 (PROCENT Idle ["idle"; "."] PRIO_LOW "!"));
        [reflexivity|right; split; [done|]]|].
      * f_equal. exact Hf.
      * intros s' pids' (Hl & _ & ->). split; [|done]. rewrite Hl. unfold aset. now rewrite length_insert.
    + destruct (Z.eqb_spec (hd 0 pids) whom); [tauto|]. apply endures_done.
      unfold aset. rewrite length_insert, <- Hf. done.
  - destruct Hfind as [Hf Hhd]. destruct (Z.eqb_spec (hd 0 pids) whom) as [Hw|].
    + exfalso. apply Hhd; [|exact Hw]. rewrite Hlen. cbn. lia.
    + apply endures_done. now rewrite Hf.
Qed.

(** C15: init makes calls for ever, whatever the kernel answers, and these are: one fork
    for every entry of its table, in the order of the table and with the entry's
    priority; after the last one, waits without end; when idle, the first entry, has
    ended, a fork at its low priority before the next wait.  Each child asks to become
    the entry's program with the entry's arguments; a child whose exec fails goes on as
    init does, with the next entry.  Between two of these calls there are at most four
    messages, no other call is made, and init neither exits nor returns. *)
Theorem init_starts_table :
  endures init_protocol (fun _ _ => False)
    (Starting 0 (replicate (length in_procs) 0), max_writes) (init_process (cmdline ["init"; "+"])).
Proof.
  unfold init_process, init. ueval_args. cbn [Z.eqb Pos.eqb]. unfold swrites, cwrites, write.
  apply logic_assoc, (logic_argv_char _ _ _ _ _ (chars "+")); [reflexivity|reflexivity|].
  apply logic_assoc. icall. apply logic_assoc, (logic_argv_str _ _ _ _ _ (chars "init"));
    [reflexivity|reflexivity|].
  apply logic_assoc. usprint. apply logic_assoc. icall. apply logic_assoc.
  apply (logic_fold (fun i s pids => length pids = length in_procs /\ (2 <= snd s)%nat /\ fst s = Starting (Z.to_nat i) pids)).
  - intros i [s w] pids Hi (Hlen & _ & E). cbn [fst] in E. subst s.
    destruct (lookup_lt_is_Some_2 in_procs (Z.to_nat i)) as (p & Hp).
    { unfold IN_ENTRIES in Hi. lia. }
    eapply endures_mon.
    + rewrite <- (Z2Nat.id i) at 2 by lia. apply (process_endures _ p); [exact Hp|now left].
    + intros s' pids' (Hl & Hw & ->). rewrite Hl. split; [done|]. split; [exact Hw|]. f_equal. lia.
  - split; [now rewrite length_replicate|split; [unfold max_writes; cbn; lia|reflexivity]].
  - intros [s w] pids (Hlen & Hw & E). cbn [fst snd] in E, Hw. subst s.
    apply logic_assoc. icall. apply logic_assoc. usprint. apply logic_assoc. icall.
    eapply endures_bind.
    + apply (endures_iter init_protocol (fun s pids => length pids = length in_procs /\
        fst s = Starting (length in_procs) pids) (fun _ _ => False)); [| |now split].
      * intros pids'. unfold reap, wait. do 3 eexists. rewrite !observe_bind. reflexivity.
      * intros [s' w'] pids' [Hl E]. cbn [fst] in E. subst s'. eapply endures_bind; [now apply reap_endures|].
        intros s1 pids1 H1. now apply endures_done.
    + now intros s' a [].
Qed.
End InitClaims.
