(* ===== verification/Answers.v ===== *)
(** The kernel gives the answers that the user programs rely on: the system calls of
    Syscalls.v against [kernel_answers] of UserSpec.v. *)

From S2P Require Import Prelude Memory State Lib LibMem Sio Cio Frames Kmem KmemInv Queues QueuesInv QueuesSpec Stacks Procs ProcsSpec Clock ClockSpec Syscalls SyscallsSpec SyscallsClaims CreateSpec ForkSpec CreateClaims Kernel SysLogic SysInv SysCalls SysExit SysExec SysStep SysClaims BootClaims BootRun UserLib UserSpec.

Open Scope kernel_scope.

(** * What holds when code returns *)


Section Upon.
Implicit Types (s : kstate).






End Upon.

(** * The answers *)

Section Answers.
Context {L : Layout} (H : Z -> Prop).








(** The process table is as before: reading input changes it no more than output does. *)
Definition same_procs (s s' : kstate) : Prop := st_ps s' = st_ps s.

#[local] Instance same_procs_preorder : PreOrder same_procs.
Proof. split; [now intros s|]. intros s1 s2 s3 E1 E2. unfold same_procs in *. congruence. Qed.



























(** ** Calls that always come back *)




End Answers.


#[local] Existing Instance example_layout.

