(* ===== verification/UserShell.v ===== *)
(** misc/use_shell: a version of the user level in which init starts a shell, and the shell
    starts the test programs. *)

From ITree Require Import ITree.
From S2P Require Import Prelude Memory State Lib Cio UserLib UserProgs UserInit.

(** * shell.c *)

(** The table for the options of udefs.h: SPAWN_A to SPAWN_L. *)
Definition sh_procs : list proc_t :=
  [PROCENT ProgABC ["userA"; "A"; "30"] PRIO_STD "a";
   PROCENT ProgABC ["userB"; "B"; "30"] PRIO_STD "b";
   PROCENT ProgABC ["userC"; "C"; "30"] PRIO_STD "c";
   PROCENT ProgDE ["userD"; "D"; "20"] PRIO_STD "d";
   PROCENT ProgDE ["userE"; "E"; "20"] PRIO_STD "e";
   PROCENT ProgFG ["userF"; "F"; "20"] PRIO_STD "f";
   PROCENT ProgFG ["userG"; "G"; "10"] PRIO_STD "g";
   PROCENT ProgH ["userH"; "H"; "4"] PRIO_STD "h";
   PROCENT ProgI ["userI"; "I"] PRIO_STD "i";
   PROCENT ProgJ ["userJ"; "J"] PRIO_STD "j";
   PROCENT ProgKL ["userK"; "K"; "8"] PRIO_STD "k";
   PROCENT ProgKL ["userL"; "L"; "5"] PRIO_STD "l"].

Definition SH_ENTRIES : Z := Z.of_nat (length sh_procs).

(** The static variables. *)
Record shell_t := Shell { time_to_stop : bool; children : Z }.

(** [char line[128]]: the bytes that the last read has stored are the ones that may be
    looked at. *)
Definition LINE_SIZE : Z := 128.

(** The loop of [edit]: [ptr] stays at the last character. *)
Fixpoint strip (last : Z) (n : nat) : Z :=
  match n with
  | Datatypes.O => 0
  | Datatypes.S n' => if (last =? 10) || (last =? 13) then strip last n' else Z.of_nat n
  end.

(** [edit( line, n )]: the new length; a NUL is stored behind the line. *)
Definition edit (line : list Z) : U Z :=
  let n := strip (List.last line 0) (length line) in
  if 0 <? n then
    if n <? LINE_SIZE then done n else trap "line overrun"
  else done n.

Section Shell.
Context {E : Entries}.

(** One character and the space before it, for each entry of the table. *)
Definition usage : U unit :=
  swrites (nl ++ chars "Tests - run with '@x', where 'x' is one or more of:" ++ nl ++ [32])%list ;;
  ufor 0 SH_ENTRIES (fun ix =>
    swritech 32 ;;
    swritech (proc_select (nth (Z.to_nat ix) sh_procs (Proc Idle [] 0 0))) ;; done tt) ;;
  swrites (nl ++ chars "Other commands: @* (all), @? (help), @x (exit)" ++ nl)%list ;; done tt.

(** Start an entry: the status, and the count of the children. *)
Definition spawn_entry (p : proc_t) (st : shell_t) : U (Z * shell_t) :=
  status <- spawn (entry (proc_entry p)) (proc_args p) ;;
  done (status, if 0 <? status then Shell (time_to_stop st) (children st + 1) else st).

(** The entry that [which] selects. *)
Definition find_proc (which : Z) : option proc_t := find (fun p => proc_select p =? which) sh_procs.

Definition run (which : Z) (st : shell_t) : U (Z * shell_t) :=
  if which =? 63 then usage ;; done (0, st)
  else if which =? 120 then done (0, Shell true (children st))
  else if which =? 42 then
    st <- ufold 0 SH_ENTRIES (fun ix st =>
      let* (_, st) := spawn_entry (nth (Z.to_nat ix) sh_procs (Proc Idle [] 0 0)) st in done st) st ;;
    done (0, st)
  else
    match find_proc which with
    | Some p => spawn_entry p st
    | None =>
        buf <- sprint_buf 128 (chars "shell: unknown cmd '%c'" ++ nl)%list [AI which] ;;
        swrites buf ;;
        usage ;;
        done (0, st)
    end.

(** The commands behind the '@', up to the NUL. *)
Fixpoint run_commands (name : list Z) (l : list Z) (st : shell_t) : U shell_t :=
  match l with
  | [] => done st
  | c :: l =>
      if c =? 0 then done st
      else
        let* (pid, st) := run (s8 c) st in
        (if pid <? 0 then
           buf <- sprint_buf 128 (chars "+++ %s spawn %c failed, code %d" ++ nl)%list [AS name; AI (s8 c); AI pid] ;;
           cwrites buf ;; done tt
         else done tt) ;;
        if time_to_stop st then done st else run_commands name l st
  end.

(** The loop that waits for the children. *)
Definition wait_children (name : list Z) (st : shell_t) : U shell_t :=
  ITree.iter (fun st : shell_t =>
    if 0 <? children st then
      let* (whom, status) := wait true in
      if whom =? S_NO_CHILD then done (inr st)
      else if whom <? 1 then
        buf <- sprint_buf 128 (chars "%s: wait() returned %d" ++ nl)%list [AS name; AI whom] ;;
        swrites buf ;; done (inl st)
      else
        v <- (match status with Some v => done v | None => trap "status not initialised" end) ;;
        buf <- sprint_buf 128 (chars "%s: PID %d exit status %d" ++ nl)%list [AS name; AI whom; AI v] ;;
        swrites buf ;; done (inl (Shell (time_to_stop st) (children st - 1)))
    else done (inr st)) st.

(** The rest of the line behind its first '@'. *)
Fixpoint find_at (line : list Z) : option (list Z) :=
  match line with
  | [] => None
  | c :: line => if c =? 64 then Some line else find_at line
  end.

(** One iteration of the loop of the shell. *)
Definition command_line (name : list Z) (st : shell_t) : U shell_t :=
  swrites (nl ++ chars "> ")%list ;;
  let* (n, data) := read CHAN_SIO LINE_SIZE in
  if n <? 3 then done st
  else
    let line := take (Z.to_nat n) data in
    n <- edit line ;;
    if n <? 2 then done st
    else
      match find_at (take (Z.to_nat n) line) with
      | None => done st
      | Some l => st <- run_commands name l st ;; wait_children name st
      end.

Definition shell (args : list Z) : U Z :=
  let '(argc, argv) := ARG_PROC 1 args 5 in
  name <- argv_str 5 argv 0 ;;
  line <- sprint_buf LINE_SIZE (chars "%s is ready" ++ nl)%list [AS name] ;;
  swrites line ;;
  usage ;;
  ITree.iter (fun st : shell_t =>
    if time_to_stop st then done (inr tt)
    else st <- command_line name st ;; done (inl st)) (Shell false 0) ;;
  cwrites (chars "!!! shell exited loop???" ++ nl)%list ;;
  exit 1 ;;
  done 0.
End Shell.

(** * init.c *)

Section Init.
(** Where the shell starts is decided by the linker, as for the other programs. *)
Context {E : Entries} (shell_entry : Z).

Record entry_t := Entry { e_entry : Z; e_args : list Z; e_priority : Z }.

Definition sh_in_procs : list entry_t :=
  [Entry (entry Idle) (cmdline ["idle"; "."]) PRIO_LOW; Entry shell_entry (cmdline ["shell"]) PRIO_STD].

Definition SH_IN_ENTRIES : Z := Z.of_nat (length sh_in_procs).

Definition sh_process (ch ix : Z) (proc_pids : list Z) : U (list Z) :=
  match (if 0 <=? ix then sh_in_procs !! Z.to_nat ix else None) with
  | None =>
      buf <- sprint_buf 128 (chars "INIT: process(%d)???" ++ nl)%list [AI ix] ;;
      cwrites buf ;;
      done proc_pids
  | Some proc =>
      p <- fork (e_priority proc) ;;
      if p <? 0 then
        buf <- sprint_buf 128 (chars "INIT: fork for 0x%08x failed" ++ nl)%list [AI (e_entry proc)] ;;
        cwrites buf ;;
        done proc_pids
      else if p =? 0 then
        exec (e_entry proc) (e_args proc) ;;
        buf <- sprint_buf 128 (chars "INIT: exec(0x%08x) failed" ++ nl)%list [AI (e_entry proc)] ;;
        cwrites buf ;;
        done proc_pids
      else
        buf <- sprint_buf 128 (chars " %c(%d) ") [AI ch; AI p] ;;
        swrites buf ;;
        done (aset proc_pids ix p)
  end.

(** One iteration of the loop that waits for children: any of the table is restarted. *)
Definition sh_reap (ch : Z) (name : list Z) (proc_pids : list Z) : U (list Z) :=
  let* (whom, st) := wait true in
  if whom <=? 0 then
    buf <- sprint_buf 128 (chars "%s: wait() returned %d???" ++ nl)%list [AS name; AI whom] ;;
    cwrites buf ;;
    done proc_pids
  else
    status <- (match st with Some v => done v | None => trap "status not initialised" end) ;;
    buf <- sprint_buf 128 (chars "%s: pid %d exit(%d)" ++ nl)%list [AS name; AI whom; AI status] ;;
    cwrites buf ;;
    match find_started proc_pids whom 0 with
    | None => done proc_pids
    | Some ix => sh_process ch ix (aset proc_pids ix 0)
    end.

Definition sh_init (args : list Z) : U Z :=
  let '(argc, argv) := ARG_PROC 2 args 5 in
  ch <- (if argc =? 2 then argv_char 5 argv 1 0 else done 43) ;;
  swrites (nl ++ nl ++ chars "Audio, video, disco!" ++ nl ++ nl ++ [13])%list ;;
  name <- argv_str 5 argv 0 ;;
  buf <- sprint_buf 128 (chars "%s: starting user processes" ++ nl)%list [AS name] ;;
  cwrites buf ;;
  pids <- ufold 0 SH_IN_ENTRIES (fun ix pids =>
    buf <- sprint_buf 128 (chars "init: starting %08x" ++ nl)%list
      [AI (match sh_in_procs !! Z.to_nat ix with Some p => e_entry p | None => 0 end)] ;;
    cwrites buf ;;
    sh_process ch ix pids) (replicate (Z.to_nat SH_IN_ENTRIES) 0) ;;
  swrites (chars " !!!" ++ [13; 10; 10])%list ;;
  cwrites (chars " !!!" ++ [13; 10; 10])%list ;;
  buf <- sprint_buf 128 (chars "%s: transitioning to wait() mode" ++ nl)%list [AS name] ;;
  cwrites buf ;;
  ITree.iter (fun pids => pids <- sh_reap ch name pids ;; done (inl pids)) pids.
End Init.
