(* ===== verification/UserShellClaims.v ===== *)
(** The shell of misc/use_shell: it has no undefined behaviour on lines that fit its
    buffer, and a line that ends with its line terminator never runs a command. *)

From ITree Require Import ITree.
From Paco Require Import paco.
From S2P Require Import Prelude Memory State Lib Cio UserLib UserProgs UserInit UserFormat UserLogic UserSpec UserShell.

Section ShellClaims.
Context {Ent : Entries}.

(** ** Lines with a terminator *)

Definition eoln (c : Z) : bool := (c =? 10) || (c =? 13).

Lemma strip_eoln c n : strip c n = if eoln c then 0 else Z.of_nat n.
Proof. unfold eoln. induction n as [|n IH]; cbn [strip]; [now destruct (_ || _)|]. destruct (_ || _); auto. Qed.

(** What the shell may do when every line it reads ends with its terminator: it prints,
    and reads the next one. *)
Definition terminated_lines : protocol unit := {|
  allowed _ X e := match e with SWrite _ _ | SRead _ _ => True | _ => False end;
  answers _ X e :=
    match e in sysE X return X -> Prop with
    | SRead _ len => fun r => fst r <= len /\ (0 < fst r ->
        Z.of_nat (length (snd r)) = fst r /\ eoln (List.last (snd r) 0) = true)
    | _ => fun _ => True
    end;
  after _ _ _ _ := tt
|}.

(** What the two protocols of this file have in common: output is free. *)
Definition prints (P : protocol unit) : Prop :=
  forall chan buf, allowed P tt (SWrite chan buf).

Lemma conforms_swrites {B} (P : protocol unit) (R : unit -> B -> Prop) buf k :
  prints P -> (forall x, conforms P R tt (k x)) -> conforms P R tt (ITree.bind (swrites buf) k).
Proof.
  intros HP Hk. unfold swrites, write. apply logic_call; [apply HP|]. intros x _.
  destruct (after _ _ _ _). apply Hk.
Qed.

Lemma conforms_usage (P : protocol unit) (R : unit -> unit -> Prop) :
  prints P -> R tt tt -> conforms P R tt usage.
Proof.
  intros HP HR. unfold usage. apply conforms_swrites; [done|]. intros _.
  apply (logic_for (fun _ _ => True)); [|exact Logic.I|].
  - intros i [] _ _. apply conforms_swrites; [done|]. intros _.
    apply logic_call; [apply HP|]. intros x _. now apply conforms_done.
  - intros [] _. apply conforms_swrites; [done|]. intros _. now apply conforms_done.
Qed.

(** The shell around [command_line]: [I] holds for the static variables between two lines. *)
Lemma shell_conforms (P : protocol unit) (I : shell_t -> Prop) :
  prints P -> I (Shell false 0) ->
  (forall st, I st -> time_to_stop st = false ->
    conforms P (fun _ st => I st) tt (command_line (chars "shell") st)) ->
  (forall st, I st -> time_to_stop st = true ->
    allowed P tt (SExit 1) /\ (forall x, answers P tt (SExit 1) x -> False)) ->
  conforms P (fun _ _ => False) tt (shell (cmdline ["shell"])).
Proof.
  intros HP H0 Hline Hexit. unfold shell. ueval_args.
  apply (logic_argv_str _ _ _ _ _ (chars "shell")); [reflexivity|reflexivity|].
  usprint. apply conforms_swrites; [done|]. intros _.
  apply (conforms_bind _ (fun _ _ => True)); [now apply conforms_usage|]. intros [] [] _.
  apply (conforms_loop (fun _ => I) (fun _ _ => exists st, I st /\ time_to_stop st = true)); [|done|].
  - intros [] st Hst. destruct (time_to_stop st) eqn:Et; [apply conforms_done; eauto|].
    eapply conforms_bind; [now apply Hline|]. intros [] st' Hst'. now apply conforms_done.
  - intros [] [] (st & Hst & Et). destruct (Hexit st Hst Et) as [Ha Hn].
    unfold cwrites, write. apply logic_call; [apply HP|]. intros x _.
    destruct (after _ _ _ _). unfold exit. apply logic_call; [exact Ha|].
    intros y Hy. now destruct (Hn y).
Qed.

(** Every line that ends with a carriage return or a line feed is stripped to nothing,
    since the loop of [edit] looks at the same character again and again: the shell starts
    no program, waits for none and never ends. *)
Theorem shell_ignores_lines :
  conforms terminated_lines (fun _ _ => False) tt (shell (cmdline ["shell"])).
Proof.
  apply (shell_conforms _ (fun st => time_to_stop st = false)); [done|done| |congruence].
  intros st Hst _. unfold command_line. apply conforms_swrites; [done|]. intros _.
  unfold read. apply logic_call; [exact Logic.I|]. intros [n data] Ha. cbn [after terminated_lines].
  cbn in Ha. destruct (Z.ltb_spec n 3); [now apply conforms_done|].
  destruct Ha as [_ Ha]. destruct Ha as [Hl He]; [lia|].
  rewrite take_ge by lia. unfold edit. rewrite strip_eoln, He. cbn [Z.ltb Z.compare].
  apply logic_done_bind. now apply conforms_done.
Qed.

(** ** Lines that fit *)

(** The answers of the kernel, and reads that leave room for the NUL. *)
Definition short_lines : protocol unit := {|
  allowed _ X e := defined_call e;
  answers _ X e x := kernel_answers e x /\
    match e in sysE X return X -> Prop with SRead _ _ => fun r => fst r < LINE_SIZE | _ => fun _ => True end x;
  after _ _ _ _ := tt
|}.

(** A protocol with fewer answers allows as many calls. *)
Lemma conforms_refine {A} (P P' : protocol unit) (Q : unit -> A -> Prop) t :
  (forall X (e : sysE X), allowed P tt e -> allowed P' tt e) ->
  (forall X (e : sysE X) x, answers P' tt e x -> answers P tt e x) ->
  conforms P Q tt t -> conforms P' Q tt t.
Proof.
  intros Ha Hx. revert t. pcofix CIH. intros t Ht. pfold. punfold Ht; [|apply conformsF_mon].
  unfold conformsF in *. destruct (observe t) as [a|t'|X e h]; [exact Ht| |].
  - right. apply CIH. now pclearbot.
  - destruct Ht as [He Ht]. split; [now apply Ha|]. intros x Hex. right.
    specialize (Ht x (Hx _ _ _ Hex)). destruct (after P tt e x), (after P' tt e x).
    apply CIH. now pclearbot.
Qed.

Notation defined := (conforms (defined_protocol false) (fun _ _ => True) tt).

Lemma sh_procs_names p : p ∈ sh_procs -> (length (program_name (proc_args p)) < 16)%nat.
Proof.
  intros Hp. assert (Forall (fun p => length (program_name (proc_args p)) < 16)%nat sh_procs) as Hall
    by (repeat constructor; vm_compute; lia).
  rewrite Forall_forall in Hall. now apply Hall.
Qed.

Lemma spawn_entry_defined p st : p ∈ sh_procs -> defined (spawn_entry p st).
Proof.
  intros Hp. unfold spawn_entry. apply defined_spawn; [now apply sh_procs_names|].
  intros pid _ _ _. now apply conforms_done.
Qed.

Lemma usage_defined : defined usage.
Proof. now apply conforms_usage. Qed.

(** The kernel's answers keep every text short enough. *)
Lemma run_defined which st : defined (run which st).
Proof.
  unfold run. destruct (which =? 63); [|destruct (which =? 120); [|destruct (which =? 42)]].
  - eapply conforms_bind; [apply usage_defined|]. intros [] [] _. now apply conforms_done.
  - now apply conforms_done.
  - apply (logic_fold (fun _ _ _ => True)); [|exact Logic.I|now intros [] st' _; apply conforms_done].
    intros i [] st' Hi _. eapply conforms_bind; [apply spawn_entry_defined, list_elem_of_In, nth_In; unfold SH_ENTRIES in Hi; lia|].
    intros [] [pid st1] _. now apply conforms_done.
  - unfold find_proc. destruct (find _ sh_procs) as [p|] eqn:Ef.
    + apply spawn_entry_defined, list_elem_of_In. now apply (find_some _ _ Ef).
    + usteps. eapply conforms_bind; [apply usage_defined|]. intros [] [] _. now apply conforms_done.
Qed.

Lemma run_commands_defined l st : defined (run_commands (chars "shell") l st).
Proof.
  revert st. induction l as [|c l IH]; intros st; cbn [run_commands]; [now apply conforms_done|].
  destruct (c =? 0); [now apply conforms_done|].
  eapply conforms_bind; [apply run_defined|]. intros [] [pid st'] _.
  apply (conforms_bind _ (fun _ _ => True)).
  - destruct (pid <? 0); [usteps; exact Logic.I|now apply conforms_done].
  - intros [] [] _. destruct (time_to_stop st'); [now apply conforms_done|apply IH].
Qed.

Lemma wait_children_defined st : defined (wait_children (chars "shell") st).
Proof.
  unfold wait_children. apply (conforms_iter _ (fun _ _ => True)); [|exact Logic.I].
  intros [] s _. usteps; try exact Logic.I. destruct o as [v|].
  - usteps. exact Logic.I.
  - apply Z.eqb_neq in Heqb0. exfalso. destruct Hx as [[[_ Hn]|[Hn _]] _]; [|done].
    discriminate (proj1 Hn eq_refl).
Qed.

Lemma strip_le c n : 0 <= strip c n <= Z.of_nat n.
Proof. rewrite strip_eoln. destruct (eoln c); lia. Qed.

Lemma edit_defined {B} (R : unit -> B -> Prop) line k :
  Z.of_nat (length line) < LINE_SIZE ->
  (forall n, conforms (defined_protocol false) R tt (k n)) ->
  conforms (defined_protocol false) R tt (ITree.bind (edit line) k).
Proof.
  intros Hl Hk. unfold edit. pose proof (strip_le (List.last line 0) (length line)) as Hs.
  destruct (0 <? strip _ _); [|now apply logic_done_bind].
  destruct (Z.ltb_spec (strip (List.last line 0) (length line)) LINE_SIZE); [|lia].
  now apply logic_done_bind.
Qed.

(** The shell has no undefined behaviour, whatever the kernel answers, when every read
    returns fewer bytes than the buffer has: [edit] stores a NUL behind the last one. *)
Theorem shell_defined : conforms short_lines (fun _ _ => False) tt (shell (cmdline ["shell"])).
Proof.
  apply (shell_conforms _ (fun _ => True)); [done|done| |].
  2:{ intros _ _ _. split; [exact Logic.I|]. now intros x [[] _]. }
  intros st _ _. unfold command_line. apply conforms_swrites; [done|]. intros _.
  unfold read. apply logic_call; [exact Logic.I|]. intros [n data] [_ Hn]. cbn [after short_lines].
  cbn in Hn. destruct (Z.ltb_spec n 3); [now apply conforms_done|].
  apply (conforms_refine (defined_protocol false)); [done|intros X e x [Hx _]; split; [exact Hx|done]|].
  apply edit_defined; [rewrite length_take; lia|]. intros m.
  destruct (m <? 2); [now apply conforms_done|].
  destruct (find_at _) as [l|]; [|now apply conforms_done].
  eapply conforms_bind; [apply run_commands_defined|]. intros [] st' _.
  apply wait_children_defined.
Qed.

(** A read that fills the buffer, with a character at the end: the NUL goes behind it. *)
Lemma edit_overruns line :
  Z.of_nat (length line) = LINE_SIZE -> eoln (List.last line 0) = false ->
  edit line = trap "line overrun".
Proof. intros Hl He. unfold edit. now rewrite strip_eoln, He, Hl. Qed.
End ShellClaims.
